(* ===== verification/_CoqProject ===== *)
-Q . S2P
Prelude.v
Layout.v
UserData.v
Task.v
Slab.v
Io.v
BufPool.v
Slices.v
BufRing.v
RingOrder.v
Futures.v
Runtime.v
Direct.v
Setup.v
Calls.v
Executor.v
Quiet.v
RingLog.v
Stable.v
Invariant.v
Polls.v
Lifetime.v
Safety.v
Concrete.v
EventLoop.v
Simulation.v
Order.v
Teardown.v
Dispatch.v
Strict.v
SimSteps.v
Refinement.v
Ownership.v
Accounts.v
Budget.v
Termination.v
CallsSpec.v
SlicesSpec.v
Wakes.v
Streams.v
Scenarios.v
Tests.v
