(* ===== verification/Prelude.v ===== *)
(** * onlyio: a model of the runtime and its correctness

    onlyio (src/src/) is a single-threaded async runtime on io_uring.  A task is
    one allocation, a header followed by its future; tasks live in a slab and are
    named in the kernel by 64-bit [user_data] words made of the slab index, a
    response number and a syscall number.  Leaf futures push submission entries on
    a queue of the thread's runtime and count one reference of their task for
    each; [block_on] submits the queue, waits, and hands every completion to the
    task its [user_data] names, which is polled with the completion as the
    "current task information" its leaf futures read.  Buffers come from one pool
    registered with the kernel: the first half is lent to the kernel through a
    ring of provided buffers, the second is reference counted for writes.

    This development translates the crate into computations of an error and
    state monad ([Prelude]: a result, a panic with its message, or an undefined
    access) and proves what the parts promise and what their composition
    guarantees.  Everything runs: the scenarios and the witnesses evaluate
    [block_on] itself.

    ** The parts

    - [Prelude]: build profiles (overflow panics or wraps, [debug_assert!], what a
      read of a freed counter finds), the monad, lenses, machine integers, little-endian bytes, the weakest
      preconditions [wp] and [wps] (which accounts for panics) and the sweeps
      [keeps], shared list and integer lemmas.
    - [Layout]: [std::alloc::Layout] and the sizes the compiler computes from the
      fields of a struct or a union.
    - [UserData] (runtime.rs bottom, buf_pool.rs top): tags, task information,
      the union that packs [user_data], wakers, internal [user_data] values.
    - [Io]: submission and completion entries, as the arguments the code passes to
      the io-uring crate's builders and the fields it reads.
    - [Task] (task.rs): the header, its layout and allocation, the reference
      counter, the syscall number and its comparison, release with the read of the
      counter that ends it.
    - [Slab] (task_slab.rs): slots as tagged words, the free list threaded through
      vacant slots, insert, remove, growth, drop.
    - [BufPool] and [Slices] (buf_pool.rs): the pool, handles and their counters;
      the bytes of the pool and the slices handles give over it.
    - [BufRing] (runtime.rs): the ring of provided buffers, byte for byte;
      [RingOrder] the order in which the kernel may see the stores of a release.
    - [Futures], [Calls] (calls/, stream.rs): the states of the leaf futures and
      their polls; async bodies as resumption trees over the crate's API.
    - [Runtime] (runtime.rs): the thread locals with the [RefCell] flag, every
      [send_*] and [submit_*], the destructors that reach the runtime.
    - [Setup] (runtime.rs): [Runtime::new] with its registrations and blocks.
    - [Executor] (runtime.rs, task.rs): [Task::poll], [spawn],
      [handle_cqe_entry], the wake list, [block_on].
    - [Tests] (lib.rs and the test modules): the crate's tests, on the models.

    [World] is the state everything shares: the heap of task headers, the
    [Runtime] record (slab, queue, log of submitted entries, pool, ring bytes) and
    the thread locals, one field per Rust variable.

    ** The proofs

    - [Quiet] says which operations leave tasks alone; [Stable] propagates any
      preorder that the primitive operations ([RunSteps]) and [release] respect
      through polls, spawns and the loop (used by [Order], [Wakes], [Teardown] and
      [Strict]).
    - [Invariant], [Polls], [Lifetime], [Safety] build the accounting invariant:
      the counter of a task is its entries in flight or queued plus the handles
      the running code holds, and slots, headers and free list agree.
      [EventLoop] states the consequences for [block_on]: no undefined access but
      the one [release] makes by itself, exact counters, a clean state on return, no wait without an entry in flight
      for each live task.
    - [Direct] is the specification of the whole: a machine without heap, slab,
      counters or [user_data], whose bodies wait for operations by number.
      It also records the read buffers that bodies give back, in order.
      [Simulation] relates its states to those of the runtime ([RingLog] says which
      ring a sequence of releases makes), [SimSteps] shows
      that each step of the runtime is a step of the machine, and [Refinement]
      concludes for [block_on], for bodies that wait for one operation at a time
      ([plain]: accept, read, write, connect, spawn, write buffers): every
      completion resumes the body that submitted the operation it answers, the
      ring holds what the bodies gave back, and apart from the listed limits
      [block_on] panics only where a body does.
    - [Ownership] is the discipline of safe Rust for the handles a body has: each is
      dropped, given to a task the body spawns, or kept across an [await] ([owns]).
      It admits the leaf futures that take no handle (accept, read, write, connect);
      commits, fan-outs and streams are outside of it.  It accounts for the
      buffers of the machine, and [Accounts] carries this over to [block_on]:
      no read buffer is lost or in two hands, the counter of a write slot is the
      number of its handles, every buffer is back when [block_on] returns, and the
      only panics left are those a body asks for, exhausted resources, and
      answers the kernel does not give.
    - [Budget] and [Termination] give bodies a cost, the entries they and the tasks
      they spawn can queue; a run never queues more, so [block_on] is over after
      that many final completions.  A [connect] has no cost: slot 0 repeats it.
    - [Teardown] follows the runtime from [Runtime::new], on every failure, to the
      destructors of its thread, and shows that a thread which ends between the
      last release of a task and the end of the turn reads a freed header.
    - [Strict] is the other side of [EventLoop]: [Task::release] ends by reading the
      counter through the header it may just have freed (task.rs).  Where that is
      undefined, no defined run of [block_on] returns to its caller.
    - [Order]: entries reach the kernel once and in the order they were queued;
      the geometry of the pool never changes.
    - Per component: [Slab] refines a finite map; [BufPool] never lends a write
      slot twice; [BufRing] conserves read buffers, and [RingOrder] shows that the
      kernel never reads an entry of which only a part is visible; [Task] and [Dispatch] decide
      which completions reach a task; [CallsSpec] and [SlicesSpec] say what the
      leaf futures deliver and where handles point; [Wakes] that draining the wake
      list ends with it empty.
    - [Streams]: a loop over a stream never suspends, which is why [plain] leaves
      streams out.
    - [Scenarios] and [Tests] evaluate runs a caller can reach, among them those
      where the code stops, loses a completion or misuses memory; the general facts
      behind them are theorems of [Scenarios]: what becomes of the completion of a
      [WBuffer::submit], of a commit from a plain task and of a stream left early.
    - [Concrete] gives an allocator, a layout and the Linux flags that satisfy
      every assumed law, and the initial state in closed form.

    ** Assumptions

    What is not in the repository is an instance argument: the allocator
    ([Allocator], law [AllocatorLaws]: fresh, aligned, non-null addresses), the
    reallocation of the slab ([SlabMemory]; [SlabMemoryLaws]: only below
    2^34 bytes), sizes of futures ([FutLayout]) and the flag functions of the
    io-uring crate ([CqueueFlags]).  What a read of a freed counter finds is part of
    the profile ([freed_counter]): a number, or nothing where such a read is
    undefined; the safety theorems name it as the one undefined access left.  The
    kernel is the list of answers [block_on] is run on, in any order and with any
    results; [valid_run] asks only that it complete entries it was given, each once
    unless flagged as more to come.  [prog_ok] excludes from
    the safety theorems [WBuffer::submit] and fan-outs to 2^16 descriptors or
    more; [Scenarios] shows the first is unsound.  [Refinement] also asks that the
    completions of single-shot operations announce no more ([single_shot]).
    [Accounts] adds [owns], and that the kernel takes read buffers in the order the
    ring offers them where it says which remain; the counters of write buffers
    need the debug checks, without which a handle to a free slot goes unnoticed.  At
    the end of a thread the runtime's thread local is dropped in place and
    [try_with] on it fails.

    ** Bounds and fuel

    Machine integers are [Z] with the wrap or the overflow panic written out.
    Async bodies are well-founded trees, so [run] is structural; a body that loops
    is covered by its unrollings (the loops of [Tests] take the number of turns).
    [block_on_loop] recurses on the kernel's answers and says [Waiting] when they
    run out.  [drain_wake_list] gets the length of the list as fuel:
    [Wakes.drain_wake_list_complete] shows the list never grows while it is
    drained, so the fuel is exact.

    ** Not modelled

    Printing (it has no effect on the state); the destructors that unwinding runs
    after a panic, which ends a run here; the io-uring crate and the kernel's
    side of its rings; the sockets and client threads of the integration tests;
    modules and re-exports (among them [block_on] of lib.rs, which only calls that of
    [Runtime]); build files.  A waker has no public constructor, so bodies do not
    wake tasks.  Bodies do not carry the bytes of their buffers: the runtime never
    reads them, and [Slices] treats them apart. *)

From stdpp Require Export base tactics numbers list gmap strings.
From Stdlib Require Export ZArith Lia.

#[global] Open Scope Z_scope.

Declare Scope onlyio_scope.
Delimit Scope onlyio_scope with oio.
#[global] Open Scope onlyio_scope.

(** ** Build profile

    Cargo's two standard profiles differ, for this code, in whether
    [debug_assert!] is compiled in and whether [+], [-] and [+=] on machine
    integers panic on overflow (both on in [dev], both off in [release]).

    A profile also says what one access of the code that Rust leaves undefined
    amounts to: [Task::release] reads the counter of a header that it has just
    given back.  Under the rules of Rust this is undefined ([None]); where the
    block is still mapped, some number is found at its address ([Some f]).

    Every definition that depends on it takes the profile as an instance. *)
Class Profile := { debug_checks : bool; freed_counter : option (Z -> Z) }.

Definition dev_profile : Profile := {| debug_checks := true; freed_counter := Some (fun _ => 0) |}.
Definition release_profile : Profile := {| debug_checks := false; freed_counter := Some (fun _ => 0) |}.

(** The dev profile under the rules of Rust. *)
Definition strict_profile : Profile := {| debug_checks := true; freed_counter := None |}.

(** ** Outcomes

    A computation returns, panics with the source's message, or performs an
    access that Rust leaves undefined (a freed task header, a slot outside of
    the slab's block, a byte outside of the buffer ring). *)
Inductive outcome (A : Type) : Type :=
| Ok (a : A)
| Panic (msg : string)
| Ub (what : string).
Arguments Ok {A} a.
Arguments Panic {A} msg.
Arguments Ub {A} what.

(** State passing over a state [S] with those outcomes. *)
Definition M (S A : Type) : Type := S -> outcome (A * S).

Definition ret {S A} (a : A) : M S A := fun s => Ok (a, s).

Definition bind {S A B} (m : M S A) (k : A -> M S B) : M S B := fun s =>
  match m s with
  | Ok (a, s') => k a s'
  | Panic msg => Panic msg
  | Ub what => Ub what
  end.

Definition panic {S A} (msg : string) : M S A := fun _ => Panic msg.
Definition ub {S A} (what : string) : M S A := fun _ => Ub what.
Definition get {S} : M S S := fun s => Ok (s, s).
Definition put {S} (s : S) : M S unit := fun _ => Ok (tt, s).
Definition gets {S A} (f : S -> A) : M S A := fun s => Ok (f s, s).
Definition modify {S} (f : S -> S) : M S unit := fun s => Ok (tt, f s).

Notation "'let!' x := m 'in' k" := (bind m (fun x => k))
  (at level 10, x pattern, m at level 100, k at level 200,
   format "'[v' 'let!'  x  :=  m  'in' '/' k ']'") : onlyio_scope.
Notation "m ;;! k" := (bind m (fun _ => k))
  (at level 100, right associativity, format "'[v' m ;;! '/' k ']'") : onlyio_scope.

(** [assert!(b, msg)] and [debug_assert!(b, msg)]. *)
Definition assert_ {S} (b : bool) (msg : string) : M S unit :=
  if b then ret tt else panic msg.
Definition debug_assert {S} `{Profile} (b : bool) (msg : string) : M S unit :=
  if debug_checks then assert_ b msg else ret tt.

(** [Option::expect]. *)
Definition expect {S A} (o : option A) (msg : string) : M S A :=
  match o with Some a => ret a | None => panic msg end.

(** The loop [for x in l { f(x) }]. *)
Fixpoint for_each {S A} (l : list A) (f : A -> M S unit) : M S unit :=
  match l with
  | [] => ret tt
  | x :: l' => f x ;;! for_each l' f
  end.

(** ** Lenses: running a component's operation on a part of a larger state *)
Record lens (W S : Type) := Lens { lget : W -> S; lset : S -> W -> W }.
Arguments Lens {W S} _ _.
Arguments lget {W S} _ _.
Arguments lset {W S} _ _ _.

Definition zoom {W S A} (l : lens W S) (m : M S A) : M W A := fun w =>
  match m (lget l w) with
  | Ok (a, s') => Ok (a, lset l s' w)
  | Panic msg => Panic msg
  | Ub what => Ub what
  end.

Class LensLaws {W S} (l : lens W S) : Prop := {
  lget_lset s w : lget l (lset l s w) = s;
  lset_lget w : lset l (lget l w) w = w;
  lset_lset s s' w : lset l s (lset l s' w) = lset l s w;
}.

(** ** Machine integers, as values of [Z] with their width written out *)
Definition wrap (bits z : Z) : Z := z mod 2 ^ bits.

Abbreviation as_u16 := (wrap 16).
Abbreviation as_u32 := (wrap 32).
Abbreviation as_u64 := (wrap 64).

(** [z as i32] for a 32-bit pattern or any integer: two's complement. *)
Definition as_i32 (z : Z) : Z :=
  let r := z mod 2 ^ 32 in if r <? 2 ^ 31 then r else r - 2 ^ 32.

Definition u16_max : Z := 65535.
Definition u32_max : Z := 4294967295.
Definition i32_min : Z := -2147483648.
Definition i32_max : Z := 2147483647.

Definition fits (bits z : Z) : Prop := 0 <= z < 2 ^ bits.
#[export] Instance fits_dec bits z : Decision (fits bits z).
Proof. unfold fits. apply _. Defined.

Definition checked_add (bits a b : Z) : option Z :=
  if a + b <? 2 ^ bits then Some (a + b) else None.
Definition checked_mul (bits a b : Z) : option Z :=
  if a * b <? 2 ^ bits then Some (a * b) else None.

(** [a + b] and [a - b] at a width: a panic or a wrap-around, by profile. *)
Definition add_w {S} `{Profile} (bits a b : Z) : M S Z :=
  if a + b <? 2 ^ bits then ret (a + b)
  else if debug_checks then panic "attempt to add with overflow"
  else ret (wrap bits (a + b)).
Definition sub_w {S} `{Profile} (bits a b : Z) : M S Z :=
  if b <=? a then ret (a - b)
  else if debug_checks then panic "attempt to subtract with overflow"
  else ret (wrap bits (a - b)).

(** ** Little-endian bytes, for the unions and the raw memory of the code *)
Fixpoint le_bytes (n : nat) (z : Z) : list Z :=
  match n with
  | O => []
  | S n' => z mod 256 :: le_bytes n' (z / 256)
  end.

Fixpoint of_le (bs : list Z) : Z :=
  match bs with
  | [] => 0
  | b :: bs' => b + 256 * of_le bs'
  end.

(** ** A predicate transformer for safety

    The one undefined access the code makes by itself is the read of a counter
    in a freed header, where a profile counts it as undefined. *)
Definition freed_read : string := "read of a reference counter after dealloc".
Definition known_ub `{Profile} (what : string) : Prop := freed_counter = None /\ what = freed_read.

(** [wp m Q s]: from [s], [m] performs no other undefined access, and when
    it returns its result and final state satisfy [Q].  A panic stops the
    program, so nothing is asked of it. *)
Definition wp {S A} `{Profile} (m : M S A) (Q : A -> S -> Prop) (s : S) : Prop :=
  match m s with
  | Ok (a, s') => Q a s'
  | Panic _ => True
  | Ub what => known_ub what
  end.

Create HintDb onlyio.

Section Wp.
Context {S : Type} {prof : Profile}.
Implicit Types s : S.

Lemma wp_ret {A} (a : A) (Q : A -> S -> Prop) s : Q a s -> wp (ret a) Q s.
Proof. done. Qed.

Lemma wp_bind {A B} (m : M S A) (k : A -> M S B) (Q : B -> S -> Prop) s :
  wp m (fun a s' => wp (k a) Q s') s -> wp (bind m k) Q s.
Proof. unfold wp, bind. by destruct (m s) as [[a s']|?|?]. Qed.

Lemma wp_mono {A} (m : M S A) (P Q : A -> S -> Prop) s :
  wp m P s -> (forall a s', P a s' -> Q a s') -> wp m Q s.
Proof. unfold wp. destruct (m s) as [[a s']|?|?]; eauto. Qed.

Lemma wp_Ok {A} (m : M S A) (Q : A -> S -> Prop) s a s' : wp m Q s -> m s = Ok (a, s') -> Q a s'.
Proof. unfold wp. intros H E. by rewrite E in H. Qed.

Lemma wp_Ub {A} (m : M S A) (Q : A -> S -> Prop) s what : wp m Q s -> m s = Ub what -> known_ub what.
Proof. unfold wp. intros H E. by rewrite E in H. Qed.

Lemma wp_panic {A} msg (Q : A -> S -> Prop) s : wp (panic msg) Q s.
Proof. done. Qed.

Lemma wp_get (Q : S -> S -> Prop) s : Q s s -> wp get Q s.
Proof. done. Qed.

Lemma wp_put s' (Q : unit -> S -> Prop) s : Q tt s' -> wp (put s') Q s.
Proof. done. Qed.

Lemma wp_gets {A} (f : S -> A) (Q : A -> S -> Prop) s : Q (f s) s -> wp (gets f) Q s.
Proof. done. Qed.

Lemma wp_modify f (Q : unit -> S -> Prop) s : Q tt (f s) -> wp (modify f) Q s.
Proof. done. Qed.

Lemma wp_assert b msg (Q : unit -> S -> Prop) s :
  (b = true -> Q tt s) -> wp (assert_ b msg) Q s.
Proof. destruct b; [intros H; by apply H|done]. Qed.

Lemma wp_debug_assert b msg (Q : unit -> S -> Prop) s :
  Q tt s -> wp (debug_assert b msg) Q s.
Proof. unfold debug_assert. destruct debug_checks; [|done]. intros ?. by apply wp_assert. Qed.

Lemma wp_expect {A} (o : option A) msg (Q : A -> S -> Prop) s :
  (forall a, o = Some a -> Q a s) -> wp (expect o msg) Q s.
Proof. destruct o; [intros H; by apply H|done]. Qed.

(** What a run that returned says about its parts. *)
Lemma bind_Ok {A B} (m : M S A) (k : A -> M S B) s b s' :
  bind m k s = Ok (b, s') <-> exists a s1, m s = Ok (a, s1) /\ k a s1 = Ok (b, s').
Proof.
  unfold bind. split.
  - destruct (m s) as [[a s1]|?|?]; [eauto|done|done].
  - intros (a & s1 & -> & ?). done.
Qed.

Lemma bind_Panic {A B} (m : M S A) (k : A -> M S B) s msg : bind m k s = Panic msg ->
  m s = Panic msg \/ exists a s1, m s = Ok (a, s1) /\ k a s1 = Panic msg.
Proof. unfold bind. destruct (m s) as [[a s1]|?|?]; intros E; [right; eauto|left; congruence|done]. Qed.

Lemma bind_assoc {A B C} (m : M S A) (k : A -> M S B) (k' : B -> M S C) s :
  bind (bind m k) k' s = bind m (fun a => bind (k a) k') s.
Proof. unfold bind. by destruct (m s) as [[a s']|?|?]. Qed.

Lemma bind_ext {A B} (m : M S A) (k k' : A -> M S B) s :
  (forall a s', m s = Ok (a, s') -> k a s' = k' a s') -> bind m k s = bind m k' s.
Proof. intros Hk. unfold bind. destruct (m s) as [[a s']|?|?]; [by apply Hk|done..]. Qed.

Lemma for_each_app {A} (l1 l2 : list A) (f : A -> M S unit) s :
  for_each (l1 ++ l2) f s = (for_each l1 f ;;! for_each l2 f) s.
Proof.
  revert s. induction l1 as [|x l1 IH]; intros s; cbn [app for_each]; [done|].
  rewrite bind_assoc. apply bind_ext. intros [] s1 _. apply IH.
Qed.

Lemma bind_step {A B} (m : M S A) (k : A -> M S B) s a s1 :
  m s = Ok (a, s1) -> bind m k s = k a s1.
Proof. unfold bind. by intros ->. Qed.
End Wp.

Lemma zoom_step {W S A B} (l : lens W S) (m : M S A) (k : A -> M W B) a s w :
  m (lget l w) = Ok (a, s) -> (let! x := zoom l m in k x) w = k a (lset l s w).
Proof. intros E. unfold bind, zoom. by rewrite E. Qed.

Lemma wp_zoom {W S A} `{Profile} (l : lens W S) (m : M S A) (Q : A -> W -> Prop) w :
  wp m (fun a s' => Q a (lset l s' w)) (lget l w) -> wp (zoom l m) Q w.
Proof. unfold wp, zoom. by destruct (m (lget l w)) as [[a s']|?|?]. Qed.

Lemma wp_sub_w {S} `{Profile} bits a b (Q : Z -> S -> Prop) s :
  b <= a -> Q (a - b) s -> wp (sub_w bits a b) Q s.
Proof. intros Hle HQ. unfold sub_w. rewrite (proj2 (Z.leb_le b a)) by done. done. Qed.

Lemma wp_add_w {S} `{Profile} bits a b (Q : Z -> S -> Prop) s :
  a + b < 2 ^ bits -> Q (a + b) s -> wp (add_w bits a b) Q s.
Proof. intros Hle HQ. unfold add_w. rewrite (proj2 (Z.ltb_lt _ _)) by done. done. Qed.

(** ** A predicate transformer that also accounts for panics

    [wps X m Q s]: from [s], [m] performs no other undefined access, panics only with a
    message in [X], and when it returns its result and final state satisfy [Q]. *)
Definition wps {S A} `{Profile} (X : string -> Prop) (m : M S A) (Q : A -> S -> Prop) (s : S) : Prop :=
  match m s with
  | Ok (a, s') => Q a s'
  | Panic msg => X msg
  | Ub what => known_ub what
  end.

Section Wps.
Context {S : Type} {prof : Profile} (X : string -> Prop).
Implicit Types s : S.

Lemma wps_ret {A} (a : A) (Q : A -> S -> Prop) s : Q a s -> wps X (ret a) Q s.
Proof. done. Qed.

Lemma wps_bind {A B} (m : M S A) (k : A -> M S B) (Q : B -> S -> Prop) s :
  wps X m (fun a s' => wps X (k a) Q s') s -> wps X (bind m k) Q s.
Proof. unfold wps, bind. by destruct (m s) as [[a s']|?|?]. Qed.

Lemma wps_mono {A} (m : M S A) (P Q : A -> S -> Prop) s :
  wps X m P s -> (forall a s', P a s' -> Q a s') -> wps X m Q s.
Proof. unfold wps. destruct (m s) as [[a s']|?|?]; eauto. Qed.

Lemma wps_panics {A} (Y : string -> Prop) (m : M S A) (Q : A -> S -> Prop) s :
  wps Y m Q s -> (forall msg, Y msg -> X msg) -> wps X m Q s.
Proof. unfold wps. destruct (m s) as [[a s']|?|?]; eauto. Qed.

Lemma wps_panic {A} msg (Q : A -> S -> Prop) s : X msg -> wps X (panic msg) Q s.
Proof. done. Qed.

Lemma wps_gets {A} (f : S -> A) (Q : A -> S -> Prop) s : Q (f s) s -> wps X (gets f) Q s.
Proof. done. Qed.

Lemma wps_get (Q : S -> S -> Prop) s : Q s s -> wps X get Q s.
Proof. done. Qed.

Lemma wps_put s' (Q : unit -> S -> Prop) s : Q tt s' -> wps X (put s') Q s.
Proof. done. Qed.

Lemma wps_modify f (Q : unit -> S -> Prop) s : Q tt (f s) -> wps X (modify f) Q s.
Proof. done. Qed.

Lemma wps_assert b msg (Q : unit -> S -> Prop) s :
  (b = true -> Q tt s) -> (b = false -> X msg) -> wps X (assert_ b msg) Q s.
Proof. destruct b; [intros H _; by apply H|intros _ H; by apply H]. Qed.

Lemma wps_debug_assert b msg (Q : unit -> S -> Prop) s :
  Q tt s -> (b = false -> X msg) -> wps X (debug_assert b msg) Q s.
Proof. unfold debug_assert. destruct debug_checks; [|done]. intros ? ?. by apply wps_assert. Qed.

Lemma wps_expect {A} (o : option A) msg (Q : A -> S -> Prop) s :
  (forall a, o = Some a -> Q a s) -> (o = None -> X msg) -> wps X (expect o msg) Q s.
Proof. destruct o; [intros H _; by apply H|intros _ H; by apply H]. Qed.

(** Facts proved without an eye to panics are used through these two. *)
Lemma wps_wp {A} (m : M S A) (P Q : A -> S -> Prop) s :
  wp m P s -> wps X m Q s -> wps X m (fun a s' => P a s' /\ Q a s') s.
Proof. unfold wp, wps. by destruct (m s) as [[a s']|?|?]. Qed.

Lemma wps_and {A} (m : M S A) (P Q : A -> S -> Prop) s :
  wps X m P s -> wps X m Q s -> wps X m (fun a s' => P a s' /\ Q a s') s.
Proof. unfold wps. by destruct (m s) as [[a s']|?|?]. Qed.

Lemma wps_Ok {A} (m : M S A) (Q : A -> S -> Prop) s a s' : wps X m Q s -> m s = Ok (a, s') -> Q a s'.
Proof. unfold wps. intros H E. by rewrite E in H. Qed.

Lemma wps_Panic {A} (m : M S A) (Q : A -> S -> Prop) s msg : wps X m Q s -> m s = Panic msg -> X msg.
Proof. unfold wps. intros H E. by rewrite E in H. Qed.

Lemma wps_for_each {A} (l : list A) f (I : list A -> S -> Prop) s :
  I l s ->
  (forall x l' s', I (x :: l') s' -> wps X (f x) (fun _ s'' => I l' s'') s') ->
  wps X (for_each l f) (fun _ s' => I [] s') s.
Proof.
  intros Hs Hf. revert s Hs. induction l as [|x l IH]; intros s Hs; [done|].
  simpl. apply wps_bind. eapply wps_mono; [by apply Hf|].
  intros [] s'. apply IH.
Qed.

Lemma wps_step {A} (m : M S A) (Q : A -> S -> Prop) s a s' : m s = Ok (a, s') -> Q a s' -> wps X m Q s.
Proof. unfold wps. by intros ->. Qed.
End Wps.

Lemma wps_zoom {W S A} `{Profile} X (l : lens W S) (m : M S A) (Q : A -> W -> Prop) w :
  wps X m (fun a s' => Q a (lset l s' w)) (lget l w) -> wps X (zoom l m) Q w.
Proof. unfold wps, zoom. by destruct (m (lget l w)) as [[a s']|?|?]. Qed.

(** ** Computations that keep a relation between their first and last state

    [keeps P I m]: from a state that satisfies [P], [m] performs no other
    undefined access and relates its initial and final states by [I].  [solve_keeps]
    follows the structure of [m]. *)
Definition keeps {S} `{Profile} (P : S -> Prop) (I : relation S) {A} (m : M S A) : Prop :=
  forall s, P s -> wp m (fun _ s' => I s s') s.

Section Keeps.
Context {S : Type} {prof : Profile} (P : S -> Prop) (I : relation S) `{!PreOrder I}.
Context (HP : forall s s', I s s' -> P s -> P s').

Lemma keeps_ret {A} (a : A) : keeps P I (ret a).
Proof. intros s _. apply wp_ret. reflexivity. Qed.

Lemma keeps_panic {A} msg : keeps P I (panic (A := A) msg).
Proof. done. Qed.

Lemma keeps_get : keeps P I get.
Proof. intros s _. apply wp_get. reflexivity. Qed.

Lemma keeps_gets {A} (f : S -> A) : keeps P I (gets f).
Proof. intros s _. apply wp_gets. reflexivity. Qed.

Lemma keeps_modify f : (forall s, P s -> I s (f s)) -> keeps P I (modify f).
Proof. intros Hf s Hs. apply wp_modify. by apply Hf. Qed.

Lemma keeps_bind {A B} (m : M S A) (k : A -> M S B) :
  keeps P I m -> (forall a, keeps P I (k a)) -> keeps P I (bind m k).
Proof using All.
  intros Hm Hk s Hs. apply wp_bind. eapply wp_mono; [by apply Hm|].
  intros a s1 H1. eapply wp_mono; [exact (Hk a s1 (HP _ _ H1 Hs))|].
  intros b s2 H2. by apply (transitivity H1 H2).
Qed.

Lemma keeps_assert b msg : keeps P I (assert_ b msg).
Proof. intros s Hs. apply wp_assert. reflexivity. Qed.

Lemma keeps_debug_assert b msg : keeps P I (debug_assert b msg).
Proof. intros s Hs. apply wp_debug_assert. reflexivity. Qed.

Lemma keeps_expect {A} (o : option A) msg : keeps P I (expect o msg).
Proof. intros s Hs. apply wp_expect. reflexivity. Qed.

Lemma keeps_add_w bits a b : keeps P I (add_w bits a b).
Proof. unfold add_w. destruct (_ <? _), debug_checks; first [apply keeps_ret|apply keeps_panic]. Qed.

Lemma keeps_sub_w bits a b : keeps P I (sub_w bits a b).
Proof. unfold sub_w. destruct (_ <=? _), debug_checks; first [apply keeps_ret|apply keeps_panic]. Qed.

Lemma keeps_for_each {A} (l : list A) f : (forall x, keeps P I (f x)) -> keeps P I (for_each l f).
Proof using All.
  intros Hf. induction l; simpl; [apply keeps_ret|]. apply keeps_bind; auto.
Qed.
End Keeps.

Ltac keeps_step :=
  lazymatch goal with
  | |- keeps _ _ (ret _) => apply keeps_ret
  | |- keeps _ _ (panic _) => apply keeps_panic
  | |- keeps _ _ get => apply keeps_get
  | |- keeps _ _ (gets _) => apply keeps_gets
  | |- keeps _ _ (bind _ _) => apply keeps_bind
  | |- keeps _ _ (assert_ _ _) => apply keeps_assert
  | |- keeps _ _ (debug_assert _ _) => apply keeps_debug_assert
  | |- keeps _ _ (expect _ _) => apply keeps_expect
  | |- keeps _ _ (add_w _ _ _) => apply keeps_add_w
  | |- keeps _ _ (sub_w _ _ _) => apply keeps_sub_w
  | |- keeps _ _ (for_each _ _) => apply keeps_for_each
  | |- keeps _ _ (if ?b then _ else _) => destruct b
  | |- keeps _ _ (match ?x with _ => _ end) => destruct x
  | |- forall _, _ => intros ?
  | |- PreOrder _ => apply _
  end.
Ltac solve_keeps := repeat (keeps_step || solve [eauto 3 with onlyio]).

(** ** Arithmetic and bit lemmas *)
Lemma wrap_bound bits z : 0 <= bits -> 0 <= wrap bits z < 2 ^ bits.
Proof. intros. unfold wrap. apply Z.mod_pos_bound. lia. Qed.

Lemma wrap_small bits z : fits bits z -> wrap bits z = z.
Proof. intros. by apply Z.mod_small. Qed.

Lemma checked_add_Some bits a b c : checked_add bits a b = Some c <-> c = a + b /\ a + b < 2 ^ bits.
Proof.
  unfold checked_add. destruct (Z.ltb_spec (a + b) (2 ^ bits)).
  - split; [by intros [= <-]|by intros [-> _]].
  - split; [done|lia].
Qed.

Lemma checked_add_None bits a b : checked_add bits a b = None <-> 2 ^ bits <= a + b.
Proof. unfold checked_add. destruct (Z.ltb_spec (a + b) (2 ^ bits)); split; (done || lia). Qed.

Lemma length_le_bytes n z : length (le_bytes n z) = n.
Proof. revert z. induction n; intros; simpl; auto. Qed.

Lemma of_le_le_bytes n z : of_le (le_bytes n z) = z mod 256 ^ Z.of_nat n.
Proof.
  revert z. induction n as [|n IH]; intros z.
  - simpl. by rewrite Z.mod_1_r.
  - cbn [le_bytes of_le]. rewrite IH.
    rewrite Nat2Z.inj_succ, Z.pow_succ_r by lia.
    rewrite Z.rem_mul_r by lia. lia.
Qed.

Definition is_byte (b : Z) : Prop := 0 <= b < 256.
#[export] Instance is_byte_dec b : Decision (is_byte b).
Proof. unfold is_byte. apply _. Defined.

Lemma le_bytes_byte n z : Forall is_byte (le_bytes n z).
Proof.
  revert z. induction n; intros; simpl; constructor; auto.
  unfold is_byte. apply Z.mod_pos_bound. lia.
Qed.

Lemma of_le_bound bs : Forall is_byte bs -> 0 <= of_le bs < 256 ^ Z.of_nat (length bs).
Proof.
  induction 1 as [|b bs Hb _ IH]; [simpl; lia|].
  cbn [of_le length]. rewrite Nat2Z.inj_succ, Z.pow_succ_r by lia. unfold is_byte in Hb. lia.
Qed.

Lemma of_le_app bs1 bs2 :
  of_le (bs1 ++ bs2) = of_le bs1 + 256 ^ Z.of_nat (length bs1) * of_le bs2.
Proof.
  induction bs1 as [|b bs1 IH].
  - rewrite app_nil_l. cbn [of_le length Z.of_nat]. lia.
  - rewrite <- app_comm_cons. cbn [of_le length]. rewrite IH, Nat2Z.inj_succ, Z.pow_succ_r by lia. lia.
Qed.

Lemma le_bytes_of_le bs : Forall is_byte bs -> le_bytes (length bs) (of_le bs) = bs.
Proof.
  induction 1 as [|b bs Hb _ IH]; [done|].
  cbn [length le_bytes of_le]. unfold is_byte in Hb.
  replace ((b + 256 * of_le bs) mod 256) with b.
  2:{ rewrite Z.mul_comm, Z_mod_plus_full. symmetry. by apply Z.mod_small. }
  replace ((b + 256 * of_le bs) / 256) with (of_le bs).
  2:{ rewrite Z.mul_comm, Z.div_add, Z.div_small by lia. lia. }
  by rewrite IH.
Qed.

(** Masking with all bits below [n], and testing or clearing bit [n] of a
    value that has [n + 1] bits. *)
Lemma land_low n z : 0 <= n -> Z.land z (Z.ones n) = z mod 2 ^ n.
Proof. intros. by rewrite Z.land_ones. Qed.

(** ** Counting in lists *)
Definition count_if {A} (P : A -> bool) (l : list A) : Z := Z.of_nat (length (List.filter P l)).

Lemma count_if_app {A} (P : A -> bool) l1 l2 : count_if P (l1 ++ l2) = count_if P l1 + count_if P l2.
Proof. unfold count_if. rewrite List.filter_app, length_app. lia. Qed.

Lemma count_if_cons {A} (P : A -> bool) x l :
  count_if P (x :: l) = (if P x then 1 else 0) + count_if P l.
Proof. unfold count_if. simpl. destruct (P x); simpl; lia. Qed.

Lemma count_if_nil {A} (P : A -> bool) : count_if P [] = 0.
Proof. done. Qed.

Lemma count_if_nonneg {A} (P : A -> bool) l : 0 <= count_if P l.
Proof. unfold count_if. lia. Qed.

Create Rewrite HintDb count.
#[export] Instance count_if_perm {A} (P : A -> bool) : Proper ((≡ₚ) ==> eq) (count_if P).
Proof. induction 1; rewrite ?count_if_cons; lia. Qed.

#[export] Hint Rewrite @count_if_app @count_if_cons @count_if_nil : count.

Lemma count_if_all {A} (P : A -> bool) l :
  Forall (fun x => P x = true) l -> count_if P l = Z.of_nat (length l).
Proof.
  induction 1 as [|x l Hx _ IH]; [done|].
  rewrite count_if_cons, Hx, IH. simpl length. lia.
Qed.

Lemma count_if_zero {A} (P : A -> bool) l :
  Forall (fun x => P x = false) l -> count_if P l = 0.
Proof.
  induction 1 as [|x l Hx _ IH]; [done|]. rewrite count_if_cons, Hx, IH. lia.
Qed.

Lemma count_if_pos {A} (P : A -> bool) l : 0 < count_if P l -> exists x, x ∈ l /\ P x = true.
Proof.
  induction l as [|x l IH]; [unfold count_if; simpl; lia|].
  rewrite count_if_cons. destruct (P x) eqn:E.
  - intros _. exists x. split; [constructor|done].
  - intros H. destruct IH as (y & ? & ?); [lia|]. exists y. split; [by constructor|done].
Qed.

(** Two lists whose elements correspond one to one are a permutation apart. *)
Lemma related_perm {A B} (R : A -> B -> Prop) l1 : forall l2, NoDup l1 -> NoDup l2 ->
  (forall x, x ∈ l1 -> exists y, y ∈ l2 /\ R x y) -> (forall y, y ∈ l2 -> exists x, x ∈ l1 /\ R x y) ->
  (forall x x' y, x ∈ l1 -> x' ∈ l1 -> y ∈ l2 -> R x y -> R x' y -> x = x') ->
  (forall x y y', x ∈ l1 -> y ∈ l2 -> y' ∈ l2 -> R x y -> R x y' -> y = y') ->
  exists l2', l2 ≡ₚ l2' /\ Forall2 R l1 l2'.
Proof.
  induction l1 as [|x l1 IH]; intros l2 Hn1 Hn2 H12 H21 Hf Hg.
  - exists []. split; [|constructor]. destruct l2 as [|y l2]; [done|].
    destruct (H21 y) as (x & Hx & _); [by left|]. by apply not_elem_of_nil in Hx.
  - apply NoDup_cons in Hn1 as [Hx Hn1]. destruct (H12 x) as (y & Hy & Hxy); [by left|].
    apply elem_of_Permutation in Hy as [l Hp]. rewrite Hp in Hn2. apply NoDup_cons in Hn2 as [Hy Hn2].
    assert (Hin : forall z, z ∈ l2 <-> z = y \/ z ∈ l) by (intros z; rewrite Hp; apply elem_of_cons).
    destruct (IH l) as (l' & Hl' & Hfor); [done|done|..].
    + intros x' Hx'. destruct (H12 x') as (y' & Hy' & Hr); [by right|]. exists y'. split; [|done].
      apply Hin in Hy' as [->|?]; [|done]. exfalso. apply Hx.
      rewrite (Hf x x' y); [done|by left|by right|by apply Hin; left|done|done].
    + intros y' Hy'. destruct (H21 y') as (x' & Hx' & Hr); [by apply Hin; right|]. exists x'. split; [|done].
      apply elem_of_cons in Hx' as [->|?]; [|done]. exfalso. apply Hy.
      rewrite (Hg x y y'); [done|by left|by apply Hin; left|by apply Hin; right|done|done].
    + intros x1 x2 z ? ? ?. apply Hf; [by right|by right|by apply Hin; right].
    + intros x1 z1 z2 ? ? ?. apply Hg; [by right|by apply Hin; right|by apply Hin; right].
    + exists (y :: l'). split; [by rewrite Hp, Hl'|by constructor].
Qed.

Lemma bind_related {A B C} (f : A -> list C) (g : B -> list C) l1 l2 :
  Forall2 (fun x y => f x = g y) l1 l2 -> l1 ≫= f = l2 ≫= g.
Proof. induction 1 as [|x y l1 l2 Hxy _ IH]; [done|]. by rewrite !bind_cons, Hxy, IH. Qed.

(** ** Lists indexed by [Z] *)
Definition zlookup {A} (l : list A) (i : Z) : option A :=
  if 0 <=? i then l !! Z.to_nat i else None.
Definition zinsert {A} (i : Z) (x : A) (l : list A) : list A :=
  <[Z.to_nat i := x]> l.

Lemma zlookup_Some {A} (l : list A) i x :
  zlookup l i = Some x -> 0 <= i < Z.of_nat (length l).
Proof.
  unfold zlookup. destruct (Z.leb_spec 0 i); [|done].
  intros ?%lookup_lt_Some. lia.
Qed.

Lemma zlookup_lt {A} (l : list A) i : 0 <= i < Z.of_nat (length l) -> exists x, zlookup l i = Some x.
Proof.
  intros ?. unfold zlookup. rewrite (proj2 (Z.leb_le 0 i)) by lia.
  apply lookup_lt_is_Some_2. lia.
Qed.

Lemma zlookup_ge {A} (l : list A) i : Z.of_nat (length l) <= i -> zlookup l i = None.
Proof.
  intros. unfold zlookup. destruct (Z.leb_spec 0 i); [|done].
  apply lookup_ge_None_2. lia.
Qed.

Lemma zlookup_zinsert_eq {A} (l : list A) i x :
  0 <= i < Z.of_nat (length l) -> zlookup (zinsert i x l) i = Some x.
Proof.
  intros. unfold zlookup, zinsert. rewrite (proj2 (Z.leb_le 0 i)) by lia.
  apply list_lookup_insert_eq. lia.
Qed.

Lemma zlookup_zinsert_ne {A} (l : list A) i j x :
  i <> j -> 0 <= i -> zlookup (zinsert i x l) j = zlookup l j.
Proof.
  intros. unfold zlookup, zinsert. destruct (Z.leb_spec 0 j); [|done].
  apply list_lookup_insert_ne. lia.
Qed.

Lemma length_zinsert {A} (l : list A) i x : length (zinsert i x l) = length l.
Proof. apply length_insert. Qed.

Lemma zlookup_app {A} (l1 l2 : list A) i :
  zlookup (l1 ++ l2) i =
    if i <? Z.of_nat (length l1) then zlookup l1 i else zlookup l2 (i - Z.of_nat (length l1)).
Proof.
  unfold zlookup. destruct (Z.ltb_spec i (Z.of_nat (length l1))).
  - destruct (Z.leb_spec 0 i); [|done]. apply lookup_app_l. lia.
  - rewrite !(proj2 (Z.leb_le _ _)) by lia. rewrite lookup_app_r by lia. f_equal. lia.
Qed.

(** ** Reachability: a property kept by every step is kept by every run *)
Lemma rtc_preserves {A} (R : relation A) (P : A -> Prop) x y :
  (forall a b, R a b -> P a -> P b) -> rtc R x y -> P x -> P y.
Proof. intros Hstep. induction 1; eauto. Qed.

(** ** Tactics

    [wpstep] applies the rule of the head operation of a [wp] goal;
    [destruct_ifs] splits on the integer comparisons of the code. *)
Ltac wpstep :=
  lazymatch goal with
  | |- wp (bind _ _) _ _ => apply wp_bind
  | |- wp (ret _) _ _ => apply wp_ret
  | |- wp (panic _) _ _ => apply wp_panic
  | |- wp get _ _ => apply wp_get
  | |- wp (put _) _ _ => apply wp_put
  | |- wp (gets _) _ _ => apply wp_gets
  | |- wp (modify _) _ _ => apply wp_modify
  | |- wp (assert_ _ _) _ _ => apply wp_assert; intros ?
  | |- wp (debug_assert _ _) _ _ => apply wp_debug_assert
  | |- wp (expect _ _) _ _ => apply wp_expect; intros ? ?
  | |- wp (zoom _ _) _ _ => apply wp_zoom
  end.

Ltac split_ifs :=
  repeat match goal with
  | |- context [if ?a <? ?b then _ else _] => destruct (Z.ltb_spec a b)
  | |- context [if ?a <=? ?b then _ else _] => destruct (Z.leb_spec a b)
  | |- context [if ?a =? ?b then _ else _] => destruct (Z.eqb_spec a b)
  end.
