(* ===== verification/Layout.v ===== *)
(** * Sizes and alignments

    What the code uses of [std::alloc::Layout], and the layouts the compiler
    gives to a [#[repr(C)]] struct, a union and an [Option], so that the sizes
    of the headers, handles and slots of src/src/task.rs and
    src/src/task_slab.rs follow from their fields. *)

From S2P Require Import Prelude.

(** A size and an alignment. *)
Abbreviation Layout := (Z * Z)%type.

(** [size] rounded up to a multiple of [align]. *)
Definition round_up (size align : Z) : Z := (size + align - 1) / align * align.

(** [Layout::extend]: the layout of [l] followed by [next], and the offset of
    [next] in it; an error if the size, rounded up, exceeds [isize::MAX]. *)
Definition extend (l next : Layout) : option (Layout * Z) :=
  let align := Z.max l.2 next.2 in
  let offset := round_up l.1 next.2 in
  let size := offset + next.1 in
  if size <=? 2 ^ 63 - align then Some ((size, align), offset) else None.

(** [Layout::pad_to_align]. *)
Definition pad_to_align (l : Layout) : Layout := (round_up l.1 l.2, l.2).

(** [#[repr(C)]]: the fields in order, each at the next multiple of its
    alignment, after what is laid out already; the offsets come with it. *)
Fixpoint place_fields (l : Layout) (fields : list Layout) : option (Layout * list Z) :=
  match fields with
  | [] => Some (l, [])
  | field :: fields' =>
      '(l', offset) ← extend l field;
      '(l'', offsets) ← place_fields l' fields';
      Some (l'', offset :: offsets)
  end.

(** [#[repr(C, align(n))]]. *)
Definition repr_C (align : Z) (fields : list Layout) : option (Layout * list Z) :=
  '(l, offsets) ← place_fields (0, 1) fields;
  Some (pad_to_align (l.1, Z.max l.2 align), offsets).

(** A union has room for each of its fields. *)
Definition union_layout (fields : list Layout) : Layout :=
  pad_to_align (foldr (fun f l => (Z.max f.1 l.1, Z.max f.2 l.2)) (0, 1) fields).

(** [Option<T>]: as large as [T] when [T] has a value to spare for [None]
    (a non-null pointer), otherwise a discriminant with the alignment of [T]
    comes first. *)
Definition Option_layout (niche : bool) (t : Layout) : Layout :=
  if niche then t else (t.2 + t.1, t.2).

(** The machine types the fields are made of. *)
Definition u16_layout : Layout := (2, 2).
Definition u32_layout : Layout := (4, 4).
Definition usize_layout : Layout := (8, 8).
Definition fn_ptr_layout : Layout := (8, 8).

(** ** Lemmas *)
Lemma round_up_multiple size align : 0 < align -> round_up size align mod align = 0.
Proof. intros. unfold round_up. apply Z.mod_mul. lia. Qed.

Lemma round_up_ge size align : 0 < align -> size <= round_up size align < size + align.
Proof.
  intros. unfold round_up.
  pose proof (Z.div_mod (size + align - 1) align). pose proof (Z.mod_pos_bound (size + align - 1) align).
  nia.
Qed.

(** A multiple of the alignment is not rounded. *)
Lemma round_up_id size align : 0 < align -> (align | size) -> round_up size align = size.
Proof.
  intros Ha [k ->]. unfold round_up. replace (k * align + align - 1) with (align - 1 + k * align) by lia.
  rewrite Z.div_add, (Z.div_small (align - 1)) by lia. lia.
Qed.

(** What [extend] appends starts behind [l], at a multiple of its alignment. *)
Lemma extend_Some l next l' offset : 0 < next.2 -> extend l next = Some (l', offset) ->
  l' = (offset + next.1, Z.max l.2 next.2) /\ l.1 <= offset /\ offset mod next.2 = 0.
Proof.
  intros Ha. unfold extend. destruct (_ <=? _); [|done]. intros [= <- <-].
  split; [done|]. split; [apply (round_up_ge l.1 next.2 Ha)|by apply round_up_multiple].
Qed.

(** Fields do not overlap: each starts at or behind the end of the one before. *)
Lemma place_fields_apart fields l l' offsets : Forall (fun f => 0 <= f.1 /\ 0 < f.2) fields ->
  place_fields l fields = Some (l', offsets) ->
  Forall2 (fun f o => l.1 <= o /\ o mod f.2 = 0 /\ o + f.1 <= l'.1) fields offsets /\ l.1 <= l'.1.
Proof.
  intros Hf. revert l offsets. induction Hf as [|f fields [Hs Ha] Hf IH]; intros l offsets; simpl.
  { intros [= <- <-]. split; [constructor|lia]. }
  destruct (extend l f) as [[l1 o]|] eqn:E1; [simpl|done].
  destruct (place_fields l1 fields) as [[l2 os]|] eqn:E2; [simpl|done]. intros [= <- <-].
  destruct (extend_Some _ _ _ _ Ha E1) as (-> & Hlo & Hm). destruct (IH _ _ E2) as [Hos Hend]. cbn [fst] in *.
  split; [|lia]. constructor; [split_and!; [lia|done|lia]|].
  eapply Forall2_impl; [exact Hos|]. intros x y (? & ? & ?). split_and!; [lia|done..].
Qed.
