(* ===== verification/UserData.v ===== *)
(** * Tags, task information and the packing of [user_data]

    Models the bottom of src/src/runtime.rs ([UserData], [UserDataPayload],
    [TaskInfo], [Tag], the conversions of [Waker]) and the [user_data]
    constants and functions of src/src/buf_pool.rs.  The union is modelled by
    its bytes: [#[repr(C)]] puts [task_idx] at offset 0, [response_gen] at 4 and
    [syscall_nb] at 6, and the target is little-endian. *)

From S2P Require Import Prelude.

(** [SlabIdx(u32)], a transparent wrapper. *)
Definition SlabIdx_dummy : Z := u32_max.

(** task.rs: [pub const MULTIPLE_MASK: u16 = 0x8000]. *)
Definition MULTIPLE_MASK : Z := 32768.

(** [!z] on [u16]. *)
Definition not16 (z : Z) : Z := Z.lxor 65535 z.

Record Tag := mkTag { task_idx : Z; syscall_nb : Z }.

Definition Tag_new (task_idx : Z) : Tag := mkTag task_idx 0.

Definition Tag_augmente_syscall_nb (t : Tag) : Tag :=
  mkTag t.(task_idx)
    ((Z.land t.(syscall_nb) (not16 MULTIPLE_MASK) + 1) mod MULTIPLE_MASK).

Record UserDataPayload := mkPayload {
  pl_task_idx : Z;
  pl_response_gen : Z;
  pl_syscall_nb : Z;
}.

Definition wf_payload (p : UserDataPayload) : Prop :=
  fits 32 p.(pl_task_idx) /\ fits 16 p.(pl_response_gen) /\ fits 16 p.(pl_syscall_nb).

(** The eight bytes of the struct, in memory order. *)
Definition payload_bytes (p : UserDataPayload) : list Z :=
  le_bytes 4 p.(pl_task_idx) ++ le_bytes 2 p.(pl_response_gen) ++ le_bytes 2 p.(pl_syscall_nb).

Definition into_user_data (p : UserDataPayload) : Z := of_le (payload_bytes p).

Definition from_user_data (user_data : Z) : UserDataPayload :=
  let bs := le_bytes 8 user_data in
  mkPayload (of_le (take 4 bs)) (of_le (take 2 (drop 4 bs))) (of_le (drop 6 bs)).

Record TaskInfo := mkTaskInfo {
  ti_tag : Tag;
  ti_result : Z;
  ti_flags : Z;
  ti_response_gen : Z;
}.

Definition TaskInfo_dummy : TaskInfo :=
  mkTaskInfo (Tag_new SlabIdx_dummy) i32_min u32_max u16_max.

Definition set_to_next_task (i : TaskInfo) : TaskInfo :=
  mkTaskInfo (Tag_augmente_syscall_nb i.(ti_tag)) i32_min 0 0.

Definition initial_poll (task_idx : Z) : TaskInfo :=
  mkTaskInfo (Tag_new task_idx) i32_max 0 u16_max.

(** [impl Into<UserDataPayload> for &TaskInfo]. *)
Definition payload_of_info (i : TaskInfo) : UserDataPayload :=
  mkPayload i.(ti_tag).(task_idx) i.(ti_response_gen) i.(ti_tag).(syscall_nb).

(** [Waker], [#[repr(transparent)]] over its payload. *)
Record Waker := mkWaker { wk_payload : UserDataPayload }.

Definition waker_of_payload (p : UserDataPayload) : Waker := mkWaker p.

(** [TaskInfo::from_waker]; the [mem::forget] has no state to change, it only
    keeps [Waker::drop] from running. *)
Definition from_waker (w : Waker) : TaskInfo :=
  mkTaskInfo
    (mkTag w.(wk_payload).(pl_task_idx) w.(wk_payload).(pl_response_gen))
    i32_min u32_max w.(wk_payload).(pl_response_gen).

(** ** buf_pool.rs: the internal [user_data] values *)
Definition INTERNAL_FLAG : Z := Z.shiftl 1 63.
Definition RWBUF_WRITE_UDATA : Z := Z.lor INTERNAL_FLAG (Z.shiftl 1 32).

Definition wbuf_write_udata (abs_idx : Z) : Z := Z.lor INTERNAL_FLAG abs_idx.

Definition decode_wbuf_udata {S} `{Profile} (udata : Z) : M S Z :=
  debug_assert
    (negb (Z.land udata INTERNAL_FLAG =? 0) && (Z.shiftr udata 32 =? 1))
    "assertion failed: udata & INTERNAL_FLAG != 0 && udata >> 32 == 1" ;;!
  ret (as_u32 (Z.land udata 4294967295)).

Definition is_internal_cqe (udata : Z) : bool :=
  negb (Z.land udata INTERNAL_FLAG =? 0).

(** ** Lemmas *)

Lemma not16_mask : not16 MULTIPLE_MASK = Z.ones 15.
Proof. reflexivity. Qed.

(** The rank of a syscall number: its low fifteen bits. *)
Lemma rank_mod z : Z.land z (not16 MULTIPLE_MASK) = z mod 32768.
Proof. rewrite not16_mask. by apply land_low. Qed.

Lemma land_pow2 z n : 0 <= n -> Z.land z (2 ^ n) = if Z.testbit z n then 2 ^ n else 0.
Proof.
  intros Hn. apply Z.bits_inj'. intros i Hi.
  rewrite Z.land_spec, Z.pow2_bits_eqb by done.
  destruct (Z.eqb_spec n i) as [->|Hne].
  - destruct (Z.testbit z i); simpl; [by rewrite Z.pow2_bits_true|by rewrite Z.bits_0].
  - rewrite andb_false_r. destruct (Z.testbit z n); [|by rewrite Z.bits_0].
    by rewrite Z.pow2_bits_false.
Qed.

Lemma testbit_top n z : 0 <= n -> 0 <= z < 2 ^ (n + 1) -> Z.testbit z n = (2 ^ n <=? z).
Proof.
  intros Hn Hz. rewrite Z.testbit_eqb by done.
  assert (0 <= z / 2 ^ n < 2).
  { split; [apply Z.div_pos; lia|]. apply Z.div_lt_upper_bound; [lia|].
    rewrite Z.pow_add_r in Hz by lia. lia. }
  pose proof (Z.div_mod z (2 ^ n)). pose proof (Z.mod_pos_bound z (2 ^ n)).
  destruct (Z.leb_spec (2 ^ n) z).
  - assert (z / 2 ^ n = 1) as -> by nia. done.
  - rewrite Z.div_small by lia. done.
Qed.

Lemma multiple_bit z : fits 16 z ->
  Z.land z MULTIPLE_MASK = if 32768 <=? z then 32768 else 0.
Proof.
  intros Hz. change MULTIPLE_MASK with (2 ^ 15). rewrite land_pow2 by lia.
  rewrite testbit_top by (unfold fits in Hz; lia). done.
Qed.

Lemma into_user_data_arith p : wf_payload p ->
  into_user_data p =
    p.(pl_task_idx) + 2 ^ 32 * p.(pl_response_gen) + 2 ^ 48 * p.(pl_syscall_nb).
Proof.
  intros (H1 & H2 & H3). unfold into_user_data, payload_bytes.
  rewrite !of_le_app, !of_le_le_bytes, !length_le_bytes.
  unfold fits in *. simpl (256 ^ _).
  rewrite !Z.mod_small by lia. lia.
Qed.

Lemma into_user_data_fits p : wf_payload p -> fits 64 (into_user_data p).
Proof.
  intros Hp. rewrite into_user_data_arith by done.
  destruct Hp as (? & ? & ?). unfold fits in *. lia.
Qed.

Lemma payload_bytes_byte p : Forall is_byte (payload_bytes p).
Proof. unfold payload_bytes. rewrite !Forall_app. auto using le_bytes_byte. Qed.

Lemma from_into_user_data p : wf_payload p -> from_user_data (into_user_data p) = p.
Proof.
  intros (H1 & H2 & H3).
  pose proof (le_bytes_of_le _ (payload_bytes_byte p)) as Hb.
  change (length (payload_bytes p)) with 8%nat in Hb.
  unfold from_user_data, into_user_data. rewrite Hb. cbv zeta. clear Hb.
  unfold payload_bytes. destruct p as [a b c]; simpl pl_task_idx in *;
    simpl pl_response_gen in *; simpl pl_syscall_nb in *.
  rewrite take_app_length' by (by rewrite length_le_bytes).
  rewrite drop_app_length' by (by rewrite length_le_bytes).
  rewrite take_app_length' by (by rewrite length_le_bytes).
  rewrite app_assoc, drop_app_length'
    by (rewrite length_app, !length_le_bytes; done).
  rewrite !of_le_le_bytes. unfold fits in *. f_equal; apply Z.mod_small; lia.
Qed.

Lemma into_from_user_data u : fits 64 u ->
  into_user_data (from_user_data u) = u /\ wf_payload (from_user_data u).
Proof.
  intros Hu. pose proof (le_bytes_byte 8 u) as Hb.
  pose proof (length_le_bytes 8 u) as Hl.
  assert (Hof : of_le (le_bytes 8 u) = u)
    by (rewrite of_le_le_bytes; apply Z.mod_small; unfold fits in Hu; simpl; lia).
  unfold from_user_data. remember (le_bytes 8 u) as bs eqn:E. clear E.
  do 8 (destruct bs as [|? bs]; [done|]). destruct bs; [|done].
  rewrite !Forall_cons in Hb. unfold is_byte in Hb. simpl in Hof.
  assert (Hwf : wf_payload (mkPayload (of_le [z; z0; z1; z2]) (of_le [z3; z4]) (of_le [z5; z6])))
    by (unfold wf_payload, fits; simpl; lia).
  simpl take; simpl drop. split; [|done].
  rewrite into_user_data_arith by done. simpl. lia.
Qed.

Lemma lor_pow2_low a n : 0 <= a < 2 ^ n -> 0 <= n -> Z.lor (2 ^ n) a = 2 ^ n + a.
Proof.
  intros Ha Hn.
  assert (Hl : Z.land (2 ^ n) a = 0).
  { rewrite Z.land_comm, land_pow2 by done.
    rewrite Z.testbit_eqb, Z.div_small by lia. done. }
  rewrite <- Z.lxor_lor by done. by rewrite <- Z.add_nocarry_lxor.
Qed.

Lemma wbuf_write_udata_arith a : fits 32 a -> wbuf_write_udata a = 2 ^ 63 + a.
Proof. intros Ha. apply (lor_pow2_low a 63); [unfold fits in Ha|]; lia. Qed.

Lemma from_wbuf_write_udata a : fits 32 a ->
  from_user_data (wbuf_write_udata a) = mkPayload a 0 32768.
Proof.
  intros Ha. rewrite wbuf_write_udata_arith by done.
  rewrite <- (from_into_user_data (mkPayload a 0 32768)).
  - rewrite into_user_data_arith; [simpl; f_equal; lia|].
    unfold wf_payload, fits in *; simpl; lia.
  - unfold wf_payload, fits in *; simpl; lia.
Qed.

(** ** Properties *)

(** C31: packing and unpacking [user_data] are inverse: every payload with
    fields of their width packs into 64 bits and unpacks to itself, and every
    64-bit value unpacks to such a payload and packs to itself. *)
Theorem user_data_roundtrip :
  (forall p, wf_payload p -> fits 64 (into_user_data p) /\ from_user_data (into_user_data p) = p) /\
  (forall u, fits 64 u -> wf_payload (from_user_data u) /\ into_user_data (from_user_data u) = u).
Proof.
  split.
  - intros p Hp. split; [by apply into_user_data_fits|by apply from_into_user_data].
  - intros u Hu. pose proof (into_from_user_data u Hu). tauto.
Qed.

Lemma user_data_roundtrip_witness :
  into_user_data (mkPayload 7 2 32770) = 9223934995398131719 /\
  from_user_data (into_user_data (mkPayload 7 2 32770)) = mkPayload 7 2 32770.
Proof.
  split; [reflexivity|].
  apply (proj1 user_data_roundtrip (mkPayload 7 2 32770)).
  unfold wf_payload, fits; simpl; lia.
Defined.

(** Bit 63 of a task's [user_data] is the multishot bit of its syscall
    number, so the test by which buf_pool.rs recognises its internal CQEs holds
    for exactly the CQEs of multishot submissions, although the layout comment
    of buf_pool.rs says that bit 63 of a task CQE is 0. *)
Theorem is_internal_cqe_multishot p : wf_payload p ->
  is_internal_cqe (into_user_data p) = negb (Z.land p.(pl_syscall_nb) MULTIPLE_MASK =? 0).
Proof.
  intros Hp. unfold is_internal_cqe. change INTERNAL_FLAG with (2 ^ 63).
  rewrite land_pow2, testbit_top by (try apply into_user_data_fits; done || lia).
  rewrite multiple_bit by apply Hp.
  rewrite into_user_data_arith by done.
  destruct Hp as (H1 & H2 & H3). unfold fits in *.
  split_ifs; try done; lia.
Qed.

Lemma is_internal_cqe_multishot_witness :
  is_internal_cqe (into_user_data (mkPayload 3 0 32768)) = true /\
  is_internal_cqe (into_user_data (mkPayload 3 0 1)) = false.
Proof.
  split; (rewrite is_internal_cqe_multishot; [reflexivity|]);
    unfold wf_payload, fits; simpl; lia.
Defined.

(** The [user_data] of a write submitted by [WBuffer::submit] cannot be
    decoded by [decode_wbuf_udata] in a profile with debug assertions (the
    assertion asks for [udata >> 32 == 1], which bit 63 rules out), decodes to
    the buffer index otherwise, and unpacks as the tag of a multishot
    submission of the task whose slab index is the buffer's index. *)
Theorem wbuf_udata_decoding `{Profile} {S} (s : S) a : fits 32 a ->
  decode_wbuf_udata (wbuf_write_udata a) s =
    (if debug_checks
     then Panic "assertion failed: udata & INTERNAL_FLAG != 0 && udata >> 32 == 1"
     else Ok (a, s)) /\
  from_user_data (wbuf_write_udata a) = mkPayload a 0 MULTIPLE_MASK.
Proof.
  intros Ha. split; [|by apply from_wbuf_write_udata].
  unfold decode_wbuf_udata. rewrite wbuf_write_udata_arith by done.
  change 4294967295 with (Z.ones 32). rewrite land_low by lia.
  assert (Hs : (Z.shiftr (2 ^ 63 + a) 32 =? 1) = false).
  { rewrite Z.shiftr_div_pow2 by lia. apply Z.eqb_neq. unfold fits in Ha.
    assert (2 ^ 31 <= (2 ^ 63 + a) / 2 ^ 32); [|lia].
    apply Z.div_le_lower_bound; lia. }
  rewrite Hs, andb_false_r. unfold debug_assert, assert_, bind.
  destruct debug_checks; [done|]. cbv [ret]. do 2 f_equal.
  unfold wrap. rewrite Z.mod_mod by lia. unfold fits in Ha.
  change (2 ^ 63) with (2 ^ 31 * 2 ^ 32). rewrite Z.add_comm, Z_mod_plus_full.
  apply Z.mod_small. lia.
Qed.

Lemma wbuf_udata_decoding_witness :
  @decode_wbuf_udata unit release_profile (wbuf_write_udata 513) tt = Ok (513, tt) /\
  from_user_data (wbuf_write_udata 513) = mkPayload 513 0 MULTIPLE_MASK.
Proof.
  apply (@wbuf_udata_decoding release_profile unit tt 513). unfold fits. lia.
Defined.

(** [TaskInfo::from_waker] puts the waker's [response_gen] in the tag where
    the waker's [syscall_nb] belongs: the information queued for a wake-up
    carries the waker's syscall number only when the two are equal. *)
Theorem from_waker_syscall_nb w :
  (from_waker w).(ti_tag) = mkTag w.(wk_payload).(pl_task_idx) w.(wk_payload).(pl_response_gen) /\
  ((from_waker w).(ti_tag).(syscall_nb) = w.(wk_payload).(pl_syscall_nb) <->
   w.(wk_payload).(pl_response_gen) = w.(wk_payload).(pl_syscall_nb)).
Proof. by destruct w as [[]]. Qed.
