(* ===== verification/Task.v ===== *)
(** * Reference-counted task headers

    Models src/src/task.rs.  A [Task] handle is the address of a [RawTask]
    header; the heap maps the addresses of allocated headers to their contents.
    The future stored behind the header (type-erased in the code by [poll_fn]
    and [drop_fn]) is a value of a type [F]; its layout comes from the compiler
    and the addresses come from the global allocator, both instances of
    classes.  Reading or writing the header at an address that is not allocated
    is an undefined access. *)

From S2P Require Import Prelude Layout UserData.

Record RawTask (F : Type) := mkRawTask {
  rt_future : F;
  rt_alloc_size : Z;
  rt_ref_counter : Z;
  rt_syscall_nb : Z;
  rt_slab_idx : option Z;
}.
Arguments mkRawTask {F} _ _ _ _ _.
Arguments rt_future {F} _.
Arguments rt_alloc_size {F} _.
Arguments rt_ref_counter {F} _.
Arguments rt_syscall_nb {F} _.
Arguments rt_slab_idx {F} _.

Abbreviation heap F := (gmap Z (RawTask F)).

(** Field updates. *)
Definition set_future {F} (f : F) (r : RawTask F) : RawTask F :=
  mkRawTask f r.(rt_alloc_size) r.(rt_ref_counter) r.(rt_syscall_nb) r.(rt_slab_idx).
Definition set_ref_counter {F} (c : Z) (r : RawTask F) : RawTask F :=
  mkRawTask r.(rt_future) r.(rt_alloc_size) c r.(rt_syscall_nb) r.(rt_slab_idx).
Definition set_syscall_nb {F} (n : Z) (r : RawTask F) : RawTask F :=
  mkRawTask r.(rt_future) r.(rt_alloc_size) r.(rt_ref_counter) n r.(rt_slab_idx).
Definition set_slab_idx {F} (i : Z) (r : RawTask F) : RawTask F :=
  mkRawTask r.(rt_future) r.(rt_alloc_size) r.(rt_ref_counter) r.(rt_syscall_nb) (Some i).

(** [SlabIdx] is a transparent [u32], every value of which is an index. *)
Definition SlabIdx_layout : Layout := u32_layout.

(** The [#[repr(C, align(32))]] header: its layout, and the offsets of
    [poll_fn], [drop_fn], [alloc_size], [ref_counter], [syscall_nb] and
    [slab_idx]. *)
Definition RawTask_repr : option (Layout * list Z) :=
  repr_C 32 [fn_ptr_layout; fn_ptr_layout; u32_layout; u16_layout; u16_layout; Option_layout false SlabIdx_layout].

Definition RawTask_layout : Layout := Eval vm_compute in default (0, 1) (fst <$> RawTask_repr).

(** [size_of::<RawTask>()] and [align_of::<RawTask>()]. *)
Definition RawTask_size : Z := Eval vm_compute in RawTask_layout.1.
Definition RawTask_align : Z := Eval vm_compute in RawTask_layout.2.

(** A [Task] is its pointer, which is not null. *)
Definition Task_layout : Layout := usize_layout.

(** What the compiler knows of the future stored in a task. *)
Class FutLayout (F : Type) := {
  size_of : F -> Z;
  align_of : F -> Z;
}.

(** [std::alloc]: the address for a layout (size, alignment), given the
    addresses in use; [None] is the null pointer. *)
Class Allocator := { alloc_at : gset Z -> Layout -> option Z }.

Class AllocatorLaws `{Allocator} : Prop := {
  alloc_fresh live layout p : alloc_at live layout = Some p -> p ∉ live;
  alloc_aligned live size p : alloc_at live (size, RawTask_align) = Some p -> p mod RawTask_align = 0;
  alloc_nonnull live layout p : alloc_at live layout = Some p -> 0 < p < 2 ^ 64;
}.

Inductive SyscallNbCompResult := Expired | Normal | Multiple | Error.

#[export] Instance SyscallNbCompResult_eq_dec : EqDecision SyscallNbCompResult.
Proof. solve_decision. Defined.

Section Task.
Context {F : Type} `{!Profile, !FutLayout F, !Allocator}.

Definition load (p : Z) : M (heap F) (RawTask F) := fun h =>
  match h !! p with
  | Some r => Ok (r, h)
  | None => Ub "read of a freed task header"
  end.

Definition store (p : Z) (r : RawTask F) : M (heap F) unit := fun h =>
  match h !! p with
  | Some _ => Ok (tt, <[p := r]> h)
  | None => Ub "write to a freed task header"
  end.

(** [Layout::new] of the future. *)
Definition layout_of (f : F) : Layout := (size_of f, align_of f).

(** The layout [Task::new] computes, when it does not overflow: the offset of
    the future, then the size and the alignment of the whole allocation. *)
Definition future_offset (f : F) : Z := round_up RawTask_size (align_of f).
Definition task_layout (f : F) : Layout :=
  pad_to_align (future_offset f + size_of f, Z.max RawTask_align (align_of f)).

Definition Task_new (future : F) : M (heap F) Z :=
  assert_ (align_of future <=? RawTask_align)
    "align_of::<F>() dépasse align_of::<RawTask>() — non supporté" ;;!
  let! extended := expect (extend RawTask_layout (layout_of future)) "layout overflow" in
  let layout := pad_to_align extended.1 in
  debug_assert (extended.2 =? RawTask_size) "assertion `left == right` failed" ;;!
  let alloc_size := layout.1 in
  assert_ (alloc_size <=? u32_max) "alloc_size dépasse u32::MAX" ;;!
  let! h := get in
  let! raw := expect (alloc_at (dom h) layout) "task allocation échouée" in
  put (<[raw := mkRawTask future alloc_size 1 0 None]> h) ;;!
  ret raw.

Definition get_syscall_nb (p : Z) : M (heap F) Z :=
  let! raw := load p in ret raw.(rt_syscall_nb).

(** The comparison of [evaluate_syscall_nb], on the stored number. *)
Definition compare_syscall_nb (stored incoming : Z) : SyscallNbCompResult :=
  let stored_rank := Z.land stored (not16 MULTIPLE_MASK) in
  let incoming_rank := Z.land incoming (not16 MULTIPLE_MASK) in
  if incoming_rank <? stored_rank then Expired
  else if stored_rank <? incoming_rank then Error
  else
    let stored_multiple := Z.land stored MULTIPLE_MASK in
    let incoming_multiple := Z.land incoming MULTIPLE_MASK in
    if negb (stored_multiple =? incoming_multiple) then Error
    else if negb (stored_multiple =? 0) then Multiple
    else Normal.

Definition evaluate_syscall_nb (p : Z) (incoming : Z) : M (heap F) SyscallNbCompResult :=
  let! stored := get_syscall_nb p in
  ret (compare_syscall_nb stored incoming).

Definition augmente_syscall_nb (p : Z) : M (heap F) unit :=
  let! raw := load p in
  let! nb_inc := expect (checked_add 16 (Z.land raw.(rt_syscall_nb) (not16 MULTIPLE_MASK)) 1)
                   "nb syscall overflow" in
  store p (set_syscall_nb nb_inc raw).

Definition set_multishot (p : Z) : M (heap F) unit :=
  let! raw := load p in
  store p (set_syscall_nb (Z.lor raw.(rt_syscall_nb) 32768) raw).

Definition data_ptr (p : Z) : Z := p + RawTask_size.

Definition inc_rc (p : Z) : M (heap F) unit :=
  let! raw := load p in
  let rc := raw.(rt_ref_counter) in
  let! inc_rc := expect (checked_add 16 rc 1) "Overflow add in inc_rc on a multiple task" in
  assert_ (negb (Z.lor rc MULTIPLE_MASK =? Z.lor inc_rc MULTIPLE_MASK))
    "Normal task a overflow into multiple task in inc_rc" ;;!
  store p (set_ref_counter inc_rc raw).

Definition add_rc (p : Z) (count : Z) : M (heap F) unit :=
  let! raw := load p in
  let rc := raw.(rt_ref_counter) in
  let! inc_rc := expect (checked_add 16 rc count) "Overflow add in add_rc on a multiple task" in
  assert_ (negb (Z.lor rc MULTIPLE_MASK =? Z.lor inc_rc MULTIPLE_MASK))
    "Normal task a overflow into multiple task in add_rc" ;;!
  store p (set_ref_counter inc_rc raw).

(** Handles and raw pointers are both the address; neither conversion
    touches the counter. *)
Definition into_raw (p : Z) : Z := p.
Definition from_raw (p : Z) : Z := p.

Definition get_rc (p : Z) : M (heap F) Z :=
  let! raw := load p in ret raw.(rt_ref_counter).

Definition set_task_idx (p : Z) (slab_idx : Z) : M (heap F) unit :=
  let! raw := load p in store p (set_slab_idx slab_idx raw).

(** [impl Clone for Task]. *)
Definition Task_clone (p : Z) : M (heap F) Z := inc_rc p ;;! ret p.

Definition dealloc (p : Z) (layout : Z * Z) : M (heap F) unit := fun h =>
  match h !! p with
  | Some _ => Ok (tt, delete p h)
  | None => Ub "double free of a task"
  end.

(** [*counter]: the counter of the header or, when the block has been given back,
    what the profile says of such a read. *)
Definition read_counter (p : Z) : M (heap F) Z := fun h =>
  match h !! p with
  | Some raw => Ok (raw.(rt_ref_counter), h)
  | None =>
      match freed_counter with
      | Some found => Ok (as_u16 (found p), h)
      | None => Ub freed_read
      end
  end.
End Task.

(** What [release] needs of its surroundings: where the heap is, how the
    future's destructor ([drop_fn]) runs, and the thread's free list. *)
Class TaskHost (W F : Type) := {
  host_heap : lens W (heap F);
  host_drop_fn : F -> M W unit;
  host_push_free : Z -> M W unit;
}.

Section Release.
Context {W F : Type} `{!Profile, !TaskHost W F}.

(** What [Task::release] does with the last reference. *)
Definition free_task (p : Z) (future : F) : M W unit :=
  host_drop_fn future ;;!
  let! raw := zoom host_heap (load p) in
  zoom host_heap (dealloc p (raw.(rt_alloc_size), RawTask_align)) ;;!
  match raw.(rt_slab_idx) with
  | Some task_idx => host_push_free task_idx
  | None => ret tt
  end.

(** [Task::release].  The value it returns is [*counter], read through the
    reference taken at the start, also when the header has been given back in
    between. *)
Definition release (p : Z) : M W Z :=
  let! raw := zoom host_heap (load p) in
  let! counter := sub_w 16 raw.(rt_ref_counter) 1 in
  zoom host_heap (store p (set_ref_counter counter raw)) ;;!
  (if counter =? 0 then free_task p raw.(rt_future) else ret tt) ;;!
  zoom host_heap (read_counter p).

(** [impl Drop for Task]. *)
Definition Task_drop (p : Z) : M W unit := release p ;;! ret tt.
End Release.

(** ** Lemmas on the heap operations *)
Section HeapLemmas.
Context {F : Type} `{!Profile, !FutLayout F, !Allocator}.
Implicit Types (h : heap F) (p : Z) (r : RawTask F).

Lemma load_ok h p r : h !! p = Some r -> load p h = Ok (r, h).
Proof. unfold load. by intros ->. Qed.

Lemma read_counter_ok h p r : h !! p = Some r -> read_counter p h = Ok (r.(rt_ref_counter), h).
Proof. unfold read_counter. by intros ->. Qed.

Lemma read_counter_outcome p h :
  (exists n, read_counter p h = Ok (n, h)) \/ exists what, read_counter p h = Ub what /\ known_ub what.
Proof.
  unfold read_counter. destruct (h !! p); [left; by eexists|].
  destruct freed_counter eqn:E; [left; by eexists|right; by eexists].
Qed.

Lemma store_ok h p r r' : h !! p = Some r -> store p r' h = Ok (tt, <[p := r']> h).
Proof. unfold store. by intros ->. Qed.

Lemma lor_mask z : fits 16 z -> Z.lor z MULTIPLE_MASK = 32768 + z mod 32768.
Proof.
  intros Hz. unfold fits in Hz. change MULTIPLE_MASK with (2 ^ 15).
  assert (Hr : z mod 32768 = if z <? 32768 then z else z - 32768).
  { destruct (Z.ltb_spec z 32768); [apply Z.mod_small; lia|].
    symmetry. apply Z.mod_unique with 1; lia. }
  rewrite Hr. destruct (Z.ltb_spec z 32768).
  - rewrite Z.lor_comm, lor_pow2_low; lia.
  - replace z with (Z.lor (2 ^ 15) (z - 32768)) at 1 by (rewrite lor_pow2_low; lia).
    rewrite Z.lor_comm, Z.lor_assoc, Z.lor_diag, lor_pow2_low; lia.
Qed.

(** The overflow assertion of [inc_rc] and [add_rc] on in-range counters. *)
Lemma rc_assert rc count : fits 16 rc -> 0 <= count -> fits 16 (rc + count) ->
  negb (Z.lor rc MULTIPLE_MASK =? Z.lor (rc + count) MULTIPLE_MASK) =
    negb (count mod 32768 =? 0).
Proof.
  intros Hrc Hc Hs. rewrite !lor_mask by done. f_equal.
  rewrite (Z.add_mod rc count) by lia.
  pose proof (Z.mod_pos_bound rc 32768 ltac:(lia)).
  pose proof (Z.mod_pos_bound count 32768 ltac:(lia)).
  apply eq_true_iff_eq. rewrite !Z.eqb_eq. split; [|intros ->; rewrite Z.add_0_r, Z.mod_mod; lia].
  intros E. assert (E' : rc mod 32768 = (rc mod 32768 + count mod 32768) mod 32768) by lia.
  pose proof (Z.div_mod (rc mod 32768 + count mod 32768) 32768 ltac:(lia)). lia.
Qed.

Lemma add_rc_eq h p r count : h !! p = Some r -> fits 16 r.(rt_ref_counter) -> 0 <= count ->
  add_rc p count h =
    if 65536 <=? r.(rt_ref_counter) + count
    then Panic "Overflow add in add_rc on a multiple task"
    else if count mod 32768 =? 0
    then Panic "Normal task a overflow into multiple task in add_rc"
    else Ok (tt, <[p := set_ref_counter (r.(rt_ref_counter) + count) r]> h).
Proof.
  intros Hp Hrc Hc. unfold add_rc. rewrite (bind_step _ _ _ r h) by by apply load_ok.
  unfold checked_add. change (2 ^ 16) with 65536.
  destruct (Z.leb_spec 65536 (r.(rt_ref_counter) + count)).
  - rewrite (proj2 (Z.ltb_ge _ _)) by done. done.
  - rewrite (proj2 (Z.ltb_lt _ _)) by done.
    unfold expect. rewrite (bind_step _ _ _ _ h eq_refl).
    rewrite rc_assert by (unfold fits in *; lia).
    destruct (_ mod _ =? 0); [done|]. by eapply store_ok.
Qed.

Lemma inc_rc_eq h p r : h !! p = Some r -> fits 16 r.(rt_ref_counter) ->
  inc_rc p h =
    if 65536 <=? r.(rt_ref_counter) + 1
    then Panic "Overflow add in inc_rc on a multiple task"
    else Ok (tt, <[p := set_ref_counter (r.(rt_ref_counter) + 1) r]> h).
Proof.
  intros Hp Hrc. unfold inc_rc. rewrite (bind_step _ _ _ r h) by by apply load_ok.
  unfold checked_add. change (2 ^ 16) with 65536.
  destruct (Z.leb_spec 65536 (r.(rt_ref_counter) + 1)).
  - rewrite (proj2 (Z.ltb_ge _ _)) by done. done.
  - rewrite (proj2 (Z.ltb_lt _ _)) by done.
    unfold expect. rewrite (bind_step _ _ _ _ h eq_refl).
    rewrite rc_assert by (unfold fits in *; lia).
    change (1 mod 32768 =? 0) with false. by eapply store_ok.
Qed.

Lemma augmente_syscall_nb_eq h p r : h !! p = Some r ->
  augmente_syscall_nb p h =
    Ok (tt, <[p := set_syscall_nb (r.(rt_syscall_nb) mod 32768 + 1) r]> h).
Proof.
  intros Hp. unfold augmente_syscall_nb. rewrite (bind_step _ _ _ r h) by by apply load_ok.
  rewrite rank_mod. unfold checked_add.
  pose proof (Z.mod_pos_bound (rt_syscall_nb r) 32768 ltac:(lia)).
  rewrite (proj2 (Z.ltb_lt _ _)) by lia. by eapply store_ok.
Qed.

Lemma set_multishot_eq h p r : h !! p = Some r ->
  set_multishot p h = Ok (tt, <[p := set_syscall_nb (Z.lor r.(rt_syscall_nb) 32768) r]> h).
Proof.
  intros Hp. unfold set_multishot. rewrite (bind_step _ _ _ r h) by by apply load_ok.
  by eapply store_ok.
Qed.

(** The comparison by cases on ranks and multishot bits. *)
Lemma compare_syscall_nb_eq stored incoming : fits 16 stored -> fits 16 incoming ->
  compare_syscall_nb stored incoming =
    if incoming mod 32768 <? stored mod 32768 then Expired
    else if stored mod 32768 <? incoming mod 32768 then Error
    else if Bool.eqb (32768 <=? stored) (32768 <=? incoming)
    then if 32768 <=? stored then Multiple else Normal
    else Error.
Proof.
  intros Hs Hi. unfold compare_syscall_nb. rewrite !rank_mod, !multiple_bit by done.
  split_ifs; done.
Qed.

(** Where the fields of the header are; the task behind it starts at 32. *)
Lemma RawTask_fields : RawTask_repr = Some (RawTask_layout, [0; 8; 16; 20; 22; 24]) /\
  RawTask_layout = (RawTask_size, RawTask_align) /\ Option_layout true Task_layout = Task_layout.
Proof. repeat split. Qed.

(** The layout is computed from that of the header and that of the future. *)
Lemma extend_future f l offset : extend RawTask_layout (layout_of f) = Some (l, offset) ->
  offset = future_offset f /\ pad_to_align l = task_layout f.
Proof. unfold extend. destruct (_ <=? _); [|done]. intros [= <- <-]. done. Qed.

(** The one way [Task_new] returns. *)
Lemma Task_new_Ok f h p h' : Task_new f h = Ok (p, h') ->
  align_of f <= RawTask_align /\ (task_layout f).1 <= u32_max /\
  alloc_at (dom h) (task_layout f) = Some p /\ h' = <[p := mkRawTask f (task_layout f).1 1 0 None]> h.
Proof.
  unfold Task_new. intros E. apply bind_Ok in E as ([] & h1 & Es1 & E). unfold assert_ in Es1.
  destruct (Z.leb_spec (align_of f) RawTask_align) as [Hle|]; [injection Es1 as <-|done].
  apply bind_Ok in E as ([l offset] & h2 & Es2 & E). unfold expect in Es2.
  destruct (extend _ _) as [e|] eqn:He; [injection Es2 as -> <-|done]. cbn [fst snd] in E.
  destruct (extend_future _ _ _ He) as [_ Hl]. rewrite Hl in E. apply bind_Ok in E as ([] & h3 & Es3 & E).
  assert (h3 = h) as ->.
  { unfold debug_assert, assert_ in Es3. destruct debug_checks; [destruct (_ =? _); [|done]|]; by injection Es3. }
  apply bind_Ok in E as ([] & h4 & Es4 & E). unfold assert_ in Es4.
  destruct (Z.leb_spec (task_layout f).1 u32_max) as [Hmax|]; [injection Es4 as <-|done].
  apply bind_Ok in E as (? & ? & [= <- <-] & E). apply bind_Ok in E as (q & h5 & Es5 & E).
  unfold expect in Es5. destruct (alloc_at _ _); [injection Es5 as -> <-|done].
  apply bind_Ok in E as ([] & ? & [= <-] & [= <- <-]). done.
Qed.
End HeapLemmas.

(** Reading the counter at the end of [release] changes nothing. *)
Section Counter.
Context {W F : Type} {prof : Profile} {host : TaskHost W F} {laws : LensLaws (host_heap (TaskHost := host))}.

Lemma wp_counter p (Q : Z -> W -> Prop) w : (forall n, Q n w) -> wp (zoom host_heap (read_counter p)) Q w.
Proof using All.
  intros HQ. unfold wp, zoom.
  destruct (read_counter_outcome p (lget host_heap w)) as [[n ->]|(what & -> & Hu)]; [|exact Hu].
  rewrite lset_lget. apply HQ.
Qed.

Lemma wps_counter X p (Q : Z -> W -> Prop) w : (forall n, Q n w) -> wps X (zoom host_heap (read_counter p)) Q w.
Proof using All. intros HQ. generalize (wp_counter p Q w HQ). unfold wp, wps, zoom. destruct (read_counter_outcome p (lget host_heap w)) as [[n ->]|(what & -> & _)]; done. Qed.
End Counter.

(** ** Properties *)
Section TaskProperties.
Context {F : Type} {prof : Profile} {lay : FutLayout F} {al : Allocator}.
Implicit Types (h : heap F) (p : Z) (r : RawTask F).

Lemma evaluate_eq h p r incoming : h !! p = Some r ->
  evaluate_syscall_nb p incoming h = Ok (compare_syscall_nb r.(rt_syscall_nb) incoming, h).
Proof.
  intros Hp. unfold evaluate_syscall_nb, get_syscall_nb.
  rewrite (bind_step _ _ _ (rt_syscall_nb r) h); [done|].
  by rewrite (bind_step _ _ _ _ _ (load_ok h p r Hp)).
Qed.

Lemma rank_cases z : fits 16 z -> z mod 32768 = if 32768 <=? z then z - 32768 else z.
Proof.
  intros Hz. unfold fits in Hz. destruct (Z.leb_spec 32768 z).
  - symmetry. apply Z.mod_unique with 1; lia.
  - apply Z.mod_small. lia.
Qed.

(** The four answers of [evaluate_syscall_nb] are exclusive and determined by
    the low fifteen bits (the rank) and the multishot bit of both numbers. *)
Theorem evaluate_syscall_nb_cases h p r incoming : h !! p = Some r ->
  fits 16 r.(rt_syscall_nb) -> fits 16 incoming ->
  let stored := r.(rt_syscall_nb) in
  exists res, evaluate_syscall_nb p incoming h = Ok (res, h) /\
    (res = Expired <-> incoming mod 32768 < stored mod 32768) /\
    (res = Normal <-> incoming = stored /\ stored < 32768) /\
    (res = Multiple <-> incoming = stored /\ 32768 <= stored) /\
    (res = Error <-> stored mod 32768 < incoming mod 32768 \/
       stored mod 32768 = incoming mod 32768 /\ stored <> incoming).
Proof.
  intros Hp Hs Hi stored. exists (compare_syscall_nb stored incoming).
  split; [by apply evaluate_eq|]. rewrite compare_syscall_nb_eq by done.
  rewrite !rank_cases by done. subst stored. unfold fits in *.
  destruct (Z.leb_spec 32768 (rt_syscall_nb r)), (Z.leb_spec 32768 incoming); cbn [Bool.eqb];
    split_ifs; split_and!; split; intros; try discriminate; try reflexivity; lia.
Qed.

(** A single-shot completion is accepted once: after [augmente_syscall_nb]
    the same number is [Expired], except at rank 0x7fff, where the task's number
    becomes 0x8000 and the same number is then taken for an error. *)
Theorem single_shot_once h p r nb : h !! p = Some r -> fits 16 r.(rt_syscall_nb) -> fits 16 nb ->
  evaluate_syscall_nb p nb h = Ok (Normal, h) ->
  exists h', augmente_syscall_nb p h = Ok (tt, h') /\
    evaluate_syscall_nb p nb h' = Ok (if nb =? 32767 then Error else Expired, h').
Proof.
  intros Hp Hs Hn He. rewrite (evaluate_eq _ _ _ _ Hp), compare_syscall_nb_eq in He by done.
  exists (<[p := set_syscall_nb (rt_syscall_nb r mod 32768 + 1) r]> h).
  split; [by apply augmente_syscall_nb_eq|].
  erewrite evaluate_eq by apply lookup_insert_eq. do 2 f_equal.
  rewrite !rank_cases in * by done. cbn [rt_syscall_nb set_syscall_nb]. unfold fits in *.
  assert (rt_syscall_nb r = nb /\ nb < 32768) as [-> Hlt].
  { destruct (Z.leb_spec 32768 (rt_syscall_nb r)), (Z.leb_spec 32768 nb); cbn [Bool.eqb] in He;
      revert He; split_ifs; intros; try discriminate; lia. }
  rewrite (proj2 (Z.leb_gt 32768 nb)) by lia.
  rewrite compare_syscall_nb_eq, !rank_cases by (unfold fits; lia). rewrite (proj2 (Z.leb_gt 32768 nb)) by lia.
  destruct (Z.eqb_spec nb 32767) as [->|]; [done|].
  rewrite (proj2 (Z.leb_gt 32768 (nb + 1))) by lia. by rewrite (proj2 (Z.ltb_lt nb (nb + 1))) by lia.
Qed.

(** Advancing a task's header and advancing the [Tag] of the current task
    agree except at rank 0x7fff: there the header takes the number 0x8000, which
    reads as a multishot number, and the tag 0, so the completion of an entry
    tagged with it is refused as an error. *)
Theorem tag_task_divergence h p r t : h !! p = Some r -> fits 16 r.(rt_syscall_nb) ->
  t.(syscall_nb) = r.(rt_syscall_nb) ->
  exists r', augmente_syscall_nb p h = Ok (tt, <[p := r']> h) /\
    if r.(rt_syscall_nb) mod 32768 =? 32767
    then r'.(rt_syscall_nb) = MULTIPLE_MASK /\ (Tag_augmente_syscall_nb t).(syscall_nb) = 0 /\
         compare_syscall_nb r'.(rt_syscall_nb) (Tag_augmente_syscall_nb t).(syscall_nb) = Error
    else r'.(rt_syscall_nb) = (Tag_augmente_syscall_nb t).(syscall_nb).
Proof.
  intros Hp Hs Ht. exists (set_syscall_nb (rt_syscall_nb r mod 32768 + 1) r).
  split; [by apply augmente_syscall_nb_eq|]. unfold Tag_augmente_syscall_nb. cbn [syscall_nb rt_syscall_nb set_syscall_nb].
  rewrite Ht, rank_mod. pose proof (Z.mod_pos_bound (rt_syscall_nb r) 32768 ltac:(lia)) as Hb.
  destruct (Z.eqb_spec (rt_syscall_nb r mod 32768) 32767) as [->|]; [done|].
  change MULTIPLE_MASK with 32768. rewrite (Z.mod_small (_ + 1)); lia.
Qed.

(** The assertion of [add_rc] and [inc_rc] does not see the overflow its
    message names: a counter below 0x8000 that reaches 0x8000 is stored, while
    adding nothing panics; only the 16-bit overflow is refused. *)
Theorem add_rc_misses_overflow h p r count : h !! p = Some r ->
  0 <= r.(rt_ref_counter) < 32768 -> 0 <= count < 32768 -> 32768 <= r.(rt_ref_counter) + count ->
  add_rc p count h = Ok (tt, <[p := set_ref_counter (r.(rt_ref_counter) + count) r]> h) /\
  add_rc p 0 h = Panic "Normal task a overflow into multiple task in add_rc" /\
  inc_rc p (<[p := set_ref_counter 65535 r]> h) = Panic "Overflow add in inc_rc on a multiple task".
Proof.
  intros Hp Hr Hc Ho. assert (Hf : fits 16 r.(rt_ref_counter)) by (unfold fits; lia). split_and!.
  - rewrite (add_rc_eq _ _ _ _ Hp Hf) by lia. rewrite (proj2 (Z.leb_gt _ _)) by lia.
    rewrite Z.mod_small by lia. by rewrite (proj2 (Z.eqb_neq _ _)) by lia.
  - rewrite (add_rc_eq _ _ _ _ Hp Hf) by lia. by rewrite (proj2 (Z.leb_gt _ _)) by lia.
  - by erewrite inc_rc_eq by (apply lookup_insert_eq || done).
Qed.

(** C33: a task that [Task::new] returns has a fresh, non-null address aligned to
    32, one reference, syscall number 0 and no slab index; the block has room
    for the header and the future behind it, its size is a multiple of 32 that
    fits the [u32] field, and the layout [release] rebuilds from that field is
    the one the block was allocated with.  (Rust's alignments are powers of
    two.) *)
Theorem Task_new_layout `{!AllocatorLaws} f h p h' k : align_of f = 2 ^ k -> 0 <= k -> 0 <= size_of f ->
  Task_new f h = Ok (p, h') ->
  exists r, h' = <[p := r]> h /\ h !! p = None /\ p mod 32 = 0 /\ 0 < p /\
    r.(rt_future) = f /\ r.(rt_ref_counter) = 1 /\ r.(rt_syscall_nb) = 0 /\ r.(rt_slab_idx) = None /\
    data_ptr p = p + future_offset f /\
    future_offset f + size_of f <= r.(rt_alloc_size) <= u32_max /\ r.(rt_alloc_size) mod 32 = 0 /\
    alloc_at (dom h) (r.(rt_alloc_size), RawTask_align) = Some p.
Proof.
  intros Hk Hk0 Hsz (Hle & Hmax & Hq & ->)%Task_new_Ok.
  assert (Ho : future_offset f = 32).
  { assert (Hk5 : k <= 5).
    { destruct (Z.leb_spec k 5); [done|]. pose proof (Z.pow_le_mono_r 2 6 k ltac:(lia) ltac:(lia)).
      unfold RawTask_align in Hle. change (2 ^ 6) with 64 in *. lia. }
    unfold future_offset. rewrite Hk.
    assert (k = 0 \/ k = 1 \/ k = 2 \/ k = 3 \/ k = 4 \/ k = 5) as Hcases by lia.
    by destruct Hcases as [->|[->|[->|[->|[->| ->]]]]]. }
  assert (Hal : (task_layout f).2 = RawTask_align) by (unfold task_layout, pad_to_align; cbn [snd]; lia).
  assert (Hq' : alloc_at (dom h) ((task_layout f).1, RawTask_align) = Some p)
    by (rewrite <- Hal, <- surjective_pairing; exact Hq).
  assert (Hru : (task_layout f).1 = round_up (32 + size_of f) 32).
  { unfold task_layout, pad_to_align. cbn [fst snd]. rewrite Ho. f_equal. unfold RawTask_align in *. lia. }
  pose proof (round_up_ge (32 + size_of f) 32 ltac:(lia)). pose proof (round_up_multiple (32 + size_of f) 32 ltac:(lia)).
  pose proof (alloc_nonnull _ _ _ Hq'). rewrite Hru, Ho in *.
  exists (mkRawTask f (round_up (32 + size_of f) 32) 1 0 None).
  cbn [rt_future rt_ref_counter rt_syscall_nb rt_slab_idx rt_alloc_size].
  split_and!; try done; try lia.
  - apply not_elem_of_dom. by eapply alloc_fresh.
  - by eapply (alloc_aligned (dom h)).
Qed.
End TaskProperties.

(** ** Concrete runs *)
Module TaskExamples.
#[local] Existing Instance dev_profile.

Definition header (rc nb : Z) : RawTask unit := mkRawTask tt 64 rc nb None.
Definition one (rc nb : Z) : heap unit := {[ 32 := header rc nb ]}.

Lemma evaluate_syscall_nb_cases_witness :
  evaluate_syscall_nb 32 5 (one 1 32773) = Ok (Error, one 1 32773).
Proof.
  destruct (evaluate_syscall_nb_cases (one 1 32773) 32 (header 1 32773) 5 eq_refl ltac:(done) ltac:(done))
    as (res & E & _ & _ & _ & Herr).
  rewrite E. do 2 f_equal. apply Herr. right. done.
Defined.

Lemma single_shot_once_witness :
  exists h', augmente_syscall_nb 32 (one 1 32767) = Ok (tt, h') /\ evaluate_syscall_nb 32 32767 h' = Ok (Error, h').
Proof.
  exact (single_shot_once (one 1 32767) 32 (header 1 32767) 32767 eq_refl ltac:(done) ltac:(done) eq_refl).
Defined.

Lemma tag_task_divergence_witness :
  exists r', augmente_syscall_nb 32 (one 1 32767) = Ok (tt, <[32 := r']> (one 1 32767)) /\
    r'.(rt_syscall_nb) = MULTIPLE_MASK.
Proof.
  destruct (tag_task_divergence (one 1 32767) 32 (header 1 32767) (mkTag 0 32767) eq_refl ltac:(done) eq_refl)
    as (r' & E & Hr & _). exists r'. split; [exact E|exact Hr].
Defined.

Lemma add_rc_misses_overflow_witness :
  add_rc 32 1 (one 32767 0) = Ok (tt, <[32 := header 32768 0]> (one 32767 0)).
Proof.
  exact (proj1 (add_rc_misses_overflow (one 32767 0) 32 (header 32767 0) 1 eq_refl ltac:(done) ltac:(done) ltac:(done))).
Defined.

#[local] Instance forty_bytes : FutLayout unit := {| size_of _ := 40; align_of _ := 8 |}.
(** An allocator with a single block. *)
#[local] Instance one_block : Allocator := {|
  alloc_at live layout := if decide (4096 ∈ live) then None else Some 4096 |}.
#[local] Instance one_block_laws : AllocatorLaws.
Proof. split; simpl; intros live ? p; case_decide; intros [= <-]; done. Qed.

Lemma Task_new_layout_witness :
  exists r, Task_new tt (∅ : heap unit) = Ok (4096, <[4096 := r]> ∅) /\ r.(rt_alloc_size) mod 32 = 0.
Proof.
  assert (E : Task_new tt (∅ : heap unit) = Ok (4096, <[4096 := mkRawTask tt 96 1 0 None]> ∅))
    by (vm_compute; reflexivity).
  destruct (Task_new_layout (lay := forty_bytes) tt ∅ 4096 _ 3 eq_refl ltac:(lia) ltac:(done) E)
    as (r & Hr & _ & _ & _ & _ & _ & _ & _ & _ & _ & Hm & _).
  exists r. split; [by rewrite <- Hr|exact Hm].
Defined.
End TaskExamples.
