(* ===== verification/Slab.v ===== *)
(** * The task slab

    Models src/src/task_slab.rs.  A slot is the eight bytes of the [SlabSlot]
    union, kept as one 64-bit word: a task handle is the word itself, a free
    slot keeps its tagged link in the low half ([idx[0]], little-endian).  The
    slab's block is the list of its slots; an access outside of it is an
    undefined access. *)

From S2P Require Import Prelude Layout UserData Task.

(** ** Slots *)

(** The two halves of the union's [idx: [u32; 2]]. *)
Definition slot_idx0 (w : Z) : Z := w mod 2 ^ 32.
Definition slot_of_idx (idx0 idx1 : Z) : Z := idx0 + 2 ^ 32 * idx1.

Definition is_free (w : Z) : bool := Z.land (slot_idx0 w) 1 =? 1.
Definition is_task (w : Z) : bool := Z.land (slot_idx0 w) 1 =? 0.

Definition next_free {S} `{Profile} (w : Z) : M S Z :=
  debug_assert (is_free w) "assertion failed: self.is_free()" ;;!
  ret (Z.shiftr (slot_idx0 w) 1).

Definition slot_from_task (task : Z) : Z := task.

Definition free_slot (next : Z) : Z := slot_of_idx (Z.lor (as_u32 (Z.shiftl next 1)) 1) 0.

(** ** The slab *)
Record Slab := mkSlab {
  slots : list Z;
  head : Z;
  len : Z;
  task_count : Z;
}.

Definition set_head (h : Z) (s : Slab) : Slab := mkSlab s.(slots) h s.(len) s.(task_count).
Definition set_slots (l : list Z) (s : Slab) : Slab := mkSlab l s.(head) s.(len) s.(task_count).
Definition set_task_count (c : Z) (s : Slab) : Slab := mkSlab s.(slots) s.(head) s.(len) c.

(** Whether [realloc] finds a block of this many bytes for the slab. *)
Class SlabMemory := { realloc_ok : Z -> bool }.

(** The named assumption under which the slab is shown correct: the machine
    does not hand out a 16 GiB block (2^31 slots) for the slab alone. *)
Class SlabMemoryLaws `{SlabMemory} : Prop := {
  realloc_limit size : realloc_ok size = true -> size < 8 * 2 ^ 31;
}.

(** [size_of::<SlabSlot>()]: the union of a [ManuallyDrop<Task>] and a
    [[u32; 2]]. *)
Definition SlabSlot_layout : Layout := union_layout [Task_layout; (2 * u32_layout.1, u32_layout.2)].
Definition SlabSlot_size : Z := Eval vm_compute in SlabSlot_layout.1.

Definition layout_for (len : Z) : Layout := (len * SlabSlot_size, 64).

(** The slots [from .. upto] linked in order, with [upto] as sentinel. *)
Definition link_slots (from upto : Z) : list Z :=
  ((fun i => free_slot (i + 1)) <$> seqZ from (upto - 1 - from)) ++ [free_slot upto].

Section Slab.
Context `{!Profile, !SlabMemory}.

Definition with_capacity {S} (cap : Z) : M S Slab :=
  assert_ (cap <=? u32_max / 2) "capacity dépasse u32::MAX / 2" ;;!
  ret (mkSlab (link_slots 0 cap) 0 cap 0).

Definition slot_at (i : Z) : M Slab Z := fun s =>
  match zlookup s.(slots) i with
  | Some w => Ok (w, s)
  | None => Ub "read outside of the slab"
  end.

Definition write_slot (i w : Z) : M Slab unit := fun s =>
  match zlookup s.(slots) i with
  | Some _ => Ok (tt, set_slots (zinsert i w s.(slots)) s)
  | None => Ub "write outside of the slab"
  end.

Definition growth : M Slab unit :=
  let! s := get in
  let old_len := s.(len) in
  (if old_len =? u32_max then panic "Slab completly full" else ret tt) ;;!
  let new_len := default u32_max (checked_mul 32 old_len 2) in
  let new_size := new_len * SlabSlot_size in
  assert_ (realloc_ok new_size) "Slab realloc failed" ;;!
  put (mkSlab (s.(slots) ++ link_slots old_len new_len) s.(head) new_len s.(task_count)).

Definition remove (idx : Z) : M Slab Z :=
  let! s := get in
  assert_ (idx <? s.(len)) "remove out of bounds" ;;!
  let! slot := slot_at idx in
  assert_ (is_task slot) "remove sur un slot libre" ;;!
  let task := slot in
  write_slot idx (free_slot s.(head)) ;;!
  modify (set_head idx) ;;!
  let! count := sub_w 32 s.(task_count) 1 in
  modify (set_task_count count) ;;!
  ret task.

Definition remove_dropped_task (idx : Z) : M Slab unit :=
  let! s := get in
  assert_ (idx <? s.(len)) "remove out of bounds" ;;!
  let! slot := slot_at idx in
  assert_ (is_task slot) "remove sur un slot libre" ;;!
  write_slot idx (free_slot s.(head)) ;;!
  modify (set_head idx) ;;!
  let! count := sub_w 32 s.(task_count) 1 in
  modify (set_task_count count).

Definition count (s : Slab) : Z := s.(task_count).

(** [impl Index<SlabIdx>] and [impl IndexMut<SlabIdx>]. *)
Definition index (idx : Z) : M Slab Z :=
  let! s := get in
  assert_ (idx <? s.(len)) "index out of bounds" ;;!
  let! slot := slot_at idx in
  assert_ (is_task slot) "slot libre à l'index" ;;!
  ret slot.

Definition heap_of {F} : lens (heap F * Slab) (heap F) := Lens fst (fun h w => (h, w.2)).
Definition slab_of {F} : lens (heap F * Slab) Slab := Lens snd (fun s w => (w.1, s)).

(** [Slab::insert], which also writes the index in the task's header. *)
Definition insert {F} (task : Z) : M (heap F * Slab) Z :=
  let! w := get in
  (if w.2.(head) =? w.2.(len) then zoom slab_of growth else ret tt) ;;!
  let! s := gets snd in
  let! slot := zoom slab_of (slot_at s.(head)) in
  let idx := s.(head) in
  zoom heap_of (set_task_idx task idx) ;;!
  let! next := next_free slot in
  zoom slab_of (modify (set_head next)) ;;!
  zoom slab_of (write_slot idx (slot_from_task task)) ;;!
  let! count := add_w 32 s.(task_count) 1 in
  zoom slab_of (modify (set_task_count count)) ;;!
  ret idx.
End Slab.

(** [impl Drop for SlabSlot]: a slot that holds a task drops its handle. *)
Definition SlabSlot_drop {W F} `{!Profile} {host : TaskHost W F} (slot : Z) : M W unit :=
  if is_free slot then ret tt else Task_drop slot.

(** [impl Drop for Slab], before its block is given back.  The slots are those of
    the slab at the call, in order. *)
Definition Slab_drop {W F} `{!Profile} {host : TaskHost W F} (s : Slab) : M W unit :=
  for_each s.(slots) SlabSlot_drop.

(** ** The tagged words *)
Lemma is_free_mod w : is_free w = (w mod 2 =? 1).
Proof.
  unfold is_free, slot_idx0. change 1 with (Z.ones 1) at 1.
  rewrite land_low by lia. f_equal. change (2 ^ 1) with 2.
  apply Z.mod_mod_divide. by exists (2 ^ 31).
Qed.

Lemma is_task_negb w : is_task w = negb (is_free w).
Proof.
  unfold is_task, is_free. change 1 with (Z.ones 1) at 1 2. rewrite land_low by lia.
  pose proof (Z.mod_pos_bound (slot_idx0 w) (2 ^ 1) ltac:(lia)).
  destruct (Z.eqb_spec (slot_idx0 w mod 2 ^ 1) 0), (Z.eqb_spec (slot_idx0 w mod 2 ^ 1) 1); lia || done.
Qed.

Lemma free_slot_arith next : free_slot next = 2 * (next mod 2 ^ 31) + 1.
Proof.
  unfold free_slot, slot_of_idx, wrap. rewrite Z.shiftl_mul_pow2 by lia.
  change (2 ^ 1) with 2. change (2 ^ 32) with (2 ^ 31 * 2).
  rewrite Zmult_mod_distr_r, Z.mul_0_r, Z.add_0_r.
  rewrite <- Z.lxor_lor, <- Z.add_nocarry_lxor; [lia| |];
    change 1 with (Z.ones 1); rewrite land_low by lia; apply Z.mod_mul; lia.
Qed.

Lemma free_slot_is_free next : is_free (free_slot next) = true.
Proof.
  rewrite is_free_mod, free_slot_arith, Z.add_comm, Z.mul_comm, Z_mod_plus_full. done.
Qed.

(** The link a free slot holds: [next] without its top bit. *)
Lemma free_slot_link next : Z.shiftr (slot_idx0 (free_slot next)) 1 = next mod 2 ^ 31.
Proof.
  pose proof (Z.mod_pos_bound next (2 ^ 31) ltac:(lia)).
  unfold slot_idx0. rewrite free_slot_arith, Z.mod_small, Z.shiftr_div_pow2 by lia.
  change (2 ^ 1) with 2. rewrite Z.mul_comm, Z.div_add_l by lia. change (1 / 2) with 0. lia.
Qed.

Lemma next_free_slot {S} `{Profile} next (s : S) : 0 <= next < 2 ^ 31 ->
  next_free (free_slot next) s = Ok (next, s).
Proof.
  intros. unfold next_free, debug_assert. rewrite free_slot_is_free, free_slot_link, Z.mod_small by done.
  by destruct debug_checks.
Qed.

(** ** The invariant of the slab

    [chain slots len h fl]: starting at [h], the links of the free slots visit
    exactly [fl] and end at the sentinel [len]. *)
Fixpoint chain (sl : list Z) (n : Z) (h : Z) (fl : list Z) : Prop :=
  match fl with
  | [] => h = n
  | i :: fl' => h = i /\ exists next,
      zlookup sl i = Some (free_slot next) /\ 0 <= next <= n /\ chain sl n next fl'
  end.

Record slab_inv (fl : list Z) (s : Slab) : Prop := {
  si_len : Z.of_nat (length s.(slots)) = s.(len);
  si_bound : 0 < s.(len) < 2 ^ 31;
  si_chain : chain s.(slots) s.(len) s.(head) fl;
  si_free : forall i, i ∈ fl <-> exists w, zlookup s.(slots) i = Some w /\ is_free w = true;
  si_nodup : NoDup fl;
  si_count : s.(task_count) = s.(len) - Z.of_nat (length fl);
}.

Definition slab_wf (s : Slab) : Prop := exists fl, slab_inv fl s.

(** What the slab holds at an index: a task's address, or nothing. *)
Definition slab_lookup (s : Slab) (i : Z) : option Z :=
  match zlookup s.(slots) i with
  | Some w => if is_free w then None else Some w
  | None => None
  end.

Lemma chain_range sl n h fl : chain sl n h fl -> 0 <= n -> 0 <= h -> 0 <= h <= Z.max n (Z.of_nat (length sl)).
Proof.
  destruct fl as [|i fl]; simpl; [lia|]. intros (-> & next & Hl & _). apply zlookup_Some in Hl. lia.
Qed.

Lemma chain_ext sl sl' n h fl :
  (forall i, i ∈ fl -> zlookup sl' i = zlookup sl i) -> chain sl n h fl -> chain sl' n h fl.
Proof.
  revert h. induction fl as [|i fl IH]; intros h Hext; simpl; [done|].
  intros (-> & next & Hl & Hr & Hc). split; [done|]. exists next.
  rewrite Hext by constructor. split_and!; try done; try lia.
  apply IH; [|done]. intros j Hj. apply Hext. by constructor.
Qed.

Lemma chain_seqZ sl n a (k : nat) :
  0 <= a -> a + Z.of_nat k = n ->
  (forall i, a <= i < n -> zlookup sl i = Some (free_slot (i + 1))) ->
  chain sl n a (seqZ a (Z.of_nat k)).
Proof.
  revert a. induction k as [|k IH]; intros a Ha Hk Hl.
  - rewrite seqZ_nil by lia. simpl. lia.
  - rewrite seqZ_cons by lia. simpl. split; [done|]. exists (a + 1).
    split; [apply Hl; lia|]. split; [lia|].
    replace (Z.pred (Z.of_nat (S k))) with (Z.of_nat k) by lia.
    replace (Z.succ a) with (a + 1) by lia. apply IH; [lia|lia|].
    intros i Hi. apply Hl. lia.
Qed.

Lemma zlookup_link_slots from upto i : from < upto -> 0 <= i < upto - from ->
  zlookup (link_slots from upto) i = Some (free_slot (from + i + 1)).
Proof.
  intros Hf Hi. unfold link_slots. rewrite zlookup_app.
  assert (Hlen : Z.of_nat (length ((fun i => free_slot (i + 1)) <$> seqZ from (upto - 1 - from))) = upto - 1 - from).
  { rewrite length_fmap, length_seqZ. lia. }
  rewrite Hlen. destruct (Z.ltb_spec i (upto - 1 - from)).
  - unfold zlookup. rewrite (proj2 (Z.leb_le 0 i)) by lia.
    rewrite list_lookup_fmap, lookup_seqZ_lt by lia. simpl. do 2 f_equal. lia.
  - replace (i - (upto - 1 - from)) with 0 by lia.
    replace (from + i + 1) with upto by lia. reflexivity.
Qed.

Lemma length_link_slots from upto : from < upto -> Z.of_nat (length (link_slots from upto)) = upto - from.
Proof. intros. unfold link_slots. rewrite length_app, length_fmap, length_seqZ. change (length [_]) with 1%nat. lia. Qed.

(** ** The operations on a well-formed slab *)
Section SlabLemmas.
Context `{!Profile, !SlabMemory, !SlabMemoryLaws}.
Implicit Types s : Slab.

Lemma slab_lookup_Some s i w :
  slab_lookup s i = Some w <-> zlookup s.(slots) i = Some w /\ is_free w = false.
Proof.
  unfold slab_lookup. destruct (zlookup (slots s) i) as [w'|]; [|naive_solver].
  destruct (is_free w') eqn:E; naive_solver congruence.
Qed.

Lemma slab_lookup_not_free fl s i : slab_inv fl s -> i ∈ fl -> slab_lookup s i = None.
Proof.
  intros Hs Hi. apply (si_free _ _ Hs) in Hi as (w & Hw & Hf).
  unfold slab_lookup. by rewrite Hw, Hf.
Qed.

Lemma slab_lookup_free fl s i : slab_inv fl s -> 0 <= i < s.(len) -> slab_lookup s i = None -> i ∈ fl.
Proof.
  intros Hs Hi Hn. apply (si_free _ _ Hs). rewrite <- (si_len _ _ Hs) in Hi.
  destruct (zlookup_lt _ _ Hi) as [w Hw]. exists w. split; [done|].
  unfold slab_lookup in Hn. rewrite Hw in Hn. by destruct (is_free w).
Qed.

Lemma slab_lookup_range fl s i w : slab_inv fl s -> slab_lookup s i = Some w -> 0 <= i < s.(len).
Proof.
  intros Hs (Hw & _)%slab_lookup_Some. rewrite <- (si_len _ _ Hs). by eapply zlookup_Some.
Qed.

Lemma slab_inv_fl_range fl s i : slab_inv fl s -> i ∈ fl -> 0 <= i < s.(len).
Proof.
  intros Hs (w & Hw & _)%(si_free _ _ Hs). rewrite <- (si_len _ _ Hs). by eapply zlookup_Some.
Qed.

(** A freshly linked slab. *)
Lemma link_slab_inv cap : 0 < cap < 2 ^ 31 ->
  slab_inv (seqZ 0 cap) (mkSlab (link_slots 0 cap) 0 cap 0).
Proof.
  intros Hcap. assert (Hl : Z.of_nat (length (link_slots 0 cap)) = cap)
    by (rewrite length_link_slots; lia).
  split; simpl; try done.
  - pose proof (chain_seqZ (link_slots 0 cap) cap 0 (Z.to_nat cap)) as Hc.
    rewrite Z2Nat.id in Hc by lia. apply Hc; [lia|lia|].
    intros i Hi. rewrite zlookup_link_slots by lia. do 2 f_equal.
  - intros i. rewrite elem_of_seqZ. split.
    + intros Hi. eexists. rewrite zlookup_link_slots by lia. split; [done|].
      apply free_slot_is_free.
    + intros (w & Hw%zlookup_Some & _). lia.
  - apply NoDup_seqZ.
  - rewrite length_seqZ. lia.
Qed.

(** Growth of a full slab: the new slots are free and linked, nothing else
    changes. *)
Definition grown (s : Slab) : Slab :=
  mkSlab (s.(slots) ++ link_slots s.(len) (2 * s.(len))) s.(head) (2 * s.(len)) s.(task_count).

Lemma growth_eq s : 0 < s.(len) < 2 ^ 31 ->
  growth s = if realloc_ok (2 * s.(len) * SlabSlot_size) then Ok (tt, grown s)
             else Panic "Slab realloc failed".
Proof.
  intros Hl. unfold growth.
  rewrite (bind_step _ _ _ s s eq_refl).
  assert ((s.(len) =? u32_max) = false) as -> by (apply Z.eqb_neq; unfold u32_max; lia).
  rewrite (bind_step _ _ _ tt s eq_refl).
  unfold checked_mul. rewrite (proj2 (Z.ltb_lt _ _)) by lia. simpl default.
  rewrite (Z.mul_comm (len s) 2).
  unfold bind, assert_. by destruct (realloc_ok _).
Qed.

Lemma grown_inv s : slab_inv [] s -> s.(len) < 2 ^ 30 ->
  slab_inv (seqZ s.(len) s.(len)) (grown s).
Proof.
  intros Hs Hb. destruct Hs as [Hlen Hbound Hchain Hfree Hnd Hcount]. simpl in Hchain.
  assert (Hll : Z.of_nat (length (link_slots (len s) (2 * len s))) = len s)
    by (rewrite length_link_slots; lia).
  assert (Hnew : forall i, len s <= i < 2 * len s ->
    zlookup (slots s ++ link_slots (len s) (2 * len s)) i = Some (free_slot (i + 1))).
  { intros i Hi. rewrite zlookup_app, Hlen. destruct (Z.ltb_spec i (len s)); [lia|].
    rewrite zlookup_link_slots by lia. do 2 f_equal. lia. }
  split; simpl.
  - rewrite length_app. lia.
  - lia.
  - rewrite Hchain. pose proof (chain_seqZ (slots s ++ link_slots (len s) (2 * len s))
      (2 * len s) (len s) (Z.to_nat (len s))) as Hc.
    rewrite Z2Nat.id in Hc by lia. apply Hc; [lia|lia|done].
  - intros i. rewrite elem_of_seqZ. split.
    + intros Hi. eexists. rewrite Hnew by lia. split; [done|]. apply free_slot_is_free.
    + intros (w & Hw & Hf). pose proof (zlookup_Some _ _ _ Hw) as Hr.
      rewrite length_app in Hr. rewrite zlookup_app, Hlen in Hw.
      destruct (Z.ltb_spec i (len s)); [|lia]. exfalso.
      assert (Hin : i ∈ ([] : list Z)) by (apply Hfree; eauto). by apply not_elem_of_nil in Hin.
  - apply NoDup_seqZ.
  - rewrite length_seqZ. simpl in Hcount. lia.
Qed.

Lemma grown_lookup s i : slab_inv [] s -> slab_lookup (grown s) i = slab_lookup s i.
Proof.
  intros [Hlen Hbound _ _ _ _]. unfold slab_lookup. simpl. rewrite zlookup_app, Hlen.
  destruct (Z.ltb_spec i (len s)); [done|].
  rewrite (zlookup_ge (slots s)) by lia.
  destruct (Z.lt_ge_cases (i - len s) (2 * len s - len s)).
  - by rewrite zlookup_link_slots, free_slot_is_free by lia.
  - by rewrite zlookup_ge by (rewrite length_link_slots; lia).
Qed.

(** Writing a task in the first free slot. *)
Definition filled (i task next : Z) (s : Slab) : Slab :=
  mkSlab (zinsert i task s.(slots)) next s.(len) (s.(task_count) + 1).

Lemma filled_inv i task next fl s :
  slab_inv (i :: fl) s -> zlookup s.(slots) i = Some (free_slot next) -> 0 <= next < 2 ^ 31 ->
  is_free task = false -> slab_inv fl (filled i task next s).
Proof.
  intros Hs Hi Hn Ht. pose proof (slab_inv_fl_range _ _ i Hs ltac:(constructor)) as Hr.
  destruct Hs as [Hlen Hbound Hchain Hfree Hnd Hcount].
  apply NoDup_cons in Hnd as [Hnot Hnd].
  destruct Hchain as (Hh & next' & Hl' & Hn' & Hc').
  rewrite Hi in Hl'. assert (next' = next) as ->.
  { injection Hl'. rewrite !free_slot_arith, !Z.mod_small by lia. lia. }
  split; simpl; try done.
  - by rewrite length_zinsert.
  - eapply chain_ext; [|done]. intros j Hj. rewrite zlookup_zinsert_ne; [done| |lia].
    intros ->. done.
  - intros j. destruct (decide (j = i)) as [->|Hne].
    + rewrite zlookup_zinsert_eq by lia. split; [done|]. intros (w & [= <-] & Hf). congruence.
    + rewrite zlookup_zinsert_ne by lia. rewrite <- Hfree. set_solver.
  - simpl length in Hcount. lia.
Qed.

Lemma filled_lookup i task next s j :
  0 <= i < Z.of_nat (length s.(slots)) -> is_free task = false ->
  slab_lookup (filled i task next s) j = if decide (j = i) then Some task else slab_lookup s j.
Proof.
  intros Hi Ht. unfold slab_lookup. simpl. case_decide as E.
  - subst. by rewrite zlookup_zinsert_eq, Ht by done.
  - by rewrite zlookup_zinsert_ne by lia.
Qed.

(** Freeing an occupied slot. *)
Definition vacated (i : Z) (s : Slab) : Slab :=
  mkSlab (zinsert i (free_slot s.(head)) s.(slots)) i s.(len) (s.(task_count) - 1).

Lemma slab_head_range fl s : slab_inv fl s -> 0 <= s.(head) <= s.(len).
Proof.
  intros Hs. destruct Hs as [Hlen Hbound Hchain _ _ _]. destruct fl as [|i fl]; simpl in Hchain; [lia|].
  destruct Hchain as (-> & next & Hl & _). apply zlookup_Some in Hl. lia.
Qed.

Lemma vacated_inv i fl s w : slab_inv fl s -> slab_lookup s i = Some w -> slab_inv (i :: fl) (vacated i s).
Proof.
  intros Hs Hi. pose proof (slab_lookup_range _ _ _ _ Hs Hi) as Hr.
  pose proof (slab_head_range _ _ Hs) as Hh.
  assert (Hnot : i ∉ fl).
  { intros Hin. by rewrite (slab_lookup_not_free _ _ _ Hs Hin) in Hi. }
  destruct Hs as [Hlen Hbound Hchain Hfree Hnd Hcount].
  split; simpl; try done.
  - by rewrite length_zinsert.
  - split; [done|]. exists (head s). rewrite zlookup_zinsert_eq by lia.
    split_and!; [done|lia|lia|]. eapply chain_ext; [|done].
    intros j Hj. apply zlookup_zinsert_ne; [congruence|lia].
  - intros j. destruct (decide (j = i)) as [->|Hne].
    + rewrite zlookup_zinsert_eq by lia. split; [|by constructor].
      intros _. eexists. split; [done|]. apply free_slot_is_free.
    + rewrite zlookup_zinsert_ne by lia. rewrite <- Hfree. set_solver.
  - by constructor.
  - lia.
Qed.

Lemma vacated_lookup i s j : 0 <= i < Z.of_nat (length s.(slots)) ->
  slab_lookup (vacated i s) j = if decide (j = i) then None else slab_lookup s j.
Proof.
  intros Hi. unfold slab_lookup. simpl. case_decide as E.
  - subst. by rewrite zlookup_zinsert_eq, free_slot_is_free by done.
  - by rewrite zlookup_zinsert_ne by lia.
Qed.

(** Counting: a slab that holds a task counts at least one. *)
Lemma slab_count_pos fl s i w : slab_inv fl s -> slab_lookup s i = Some w ->
  0 < s.(task_count) <= s.(len).
Proof.
  intros Hs Hi. pose proof (slab_lookup_range _ _ _ _ Hs Hi) as Hr.
  assert (Hsub : i :: fl ⊆+ seqZ 0 (len s)).
  { apply NoDup_submseteq.
    - constructor; [|apply Hs]. intros Hin. by rewrite (slab_lookup_not_free _ _ _ Hs Hin) in Hi.
    - intros j [->|Hj]%elem_of_cons; rewrite elem_of_seqZ; [lia|].
      pose proof (slab_inv_fl_range _ _ _ Hs Hj). lia. }
  apply submseteq_length in Hsub. rewrite length_seqZ in Hsub. simpl in Hsub.
  pose proof (si_count _ _ Hs). lia.
Qed.

Lemma slab_count_zero fl s : slab_inv fl s -> (forall i, slab_lookup s i = None) -> s.(task_count) = 0.
Proof.
  intros Hs Hno. assert (Hsub : seqZ 0 (len s) ⊆+ fl).
  { apply NoDup_submseteq; [apply NoDup_seqZ|]. intros j Hj%elem_of_seqZ.
    eapply slab_lookup_free; [done|lia|done]. }
  assert (Hsub' : fl ⊆+ seqZ 0 (len s)).
  { apply NoDup_submseteq; [apply Hs|]. intros j Hj. rewrite elem_of_seqZ.
    pose proof (slab_inv_fl_range _ _ _ Hs Hj). lia. }
  apply submseteq_length in Hsub, Hsub'. rewrite length_seqZ in *.
  pose proof (si_count _ _ Hs). pose proof (si_bound _ _ Hs). lia.
Qed.

(** *** What each operation does on a well-formed slab *)
Lemma index_ok fl s i w : slab_inv fl s -> slab_lookup s i = Some w -> index i s = Ok (w, s).
Proof.
  intros Hs Hi. pose proof (slab_lookup_range _ _ _ _ Hs Hi) as Hr.
  apply slab_lookup_Some in Hi as (Hw & Hf). unfold index, slot_at, bind, get, assert_, ret, panic.
  rewrite (proj2 (Z.ltb_lt _ _)) by lia. rewrite Hw, is_task_negb, Hf. done.
Qed.

Lemma index_none fl s i : slab_inv fl s -> 0 <= i -> slab_lookup s i = None ->
  index i s = Panic (if i <? s.(len) then "slot libre à l'index" else "index out of bounds").
Proof.
  intros Hs Hpos Hi. unfold index, slot_at, bind, get, assert_, ret, panic.
  destruct (Z.ltb_spec i (len s)); [|done]. cbv beta iota zeta.
  assert (Hr : 0 <= i < Z.of_nat (length (slots s))) by (rewrite (si_len _ _ Hs); lia).
  destruct (zlookup_lt _ _ Hr) as [w Hw].
  rewrite Hw. unfold slab_lookup in Hi. rewrite Hw in Hi. rewrite is_task_negb.
  by destruct (is_free w).
Qed.

Lemma remove_dropped_task_ok fl s i w : slab_inv fl s -> slab_lookup s i = Some w ->
  remove_dropped_task i s = Ok (tt, vacated i s).
Proof.
  intros Hs Hi. pose proof (slab_lookup_range _ _ _ _ Hs Hi) as Hr.
  pose proof (slab_count_pos _ _ _ _ Hs Hi) as Hc.
  apply slab_lookup_Some in Hi as (Hw & Hf).
  unfold remove_dropped_task, slot_at, write_slot, bind, get, assert_, ret, panic, modify, sub_w.
  rewrite (proj2 (Z.ltb_lt _ _)) by lia. rewrite Hw, is_task_negb, Hf. cbv beta iota delta [negb].
  rewrite Hw. rewrite (proj2 (Z.leb_le _ _)) by lia. done.
Qed.

Lemma remove_ok fl s i w : slab_inv fl s -> slab_lookup s i = Some w ->
  remove i s = Ok (w, vacated i s).
Proof.
  intros Hs Hi. pose proof (slab_lookup_range _ _ _ _ Hs Hi) as Hr.
  pose proof (slab_count_pos _ _ _ _ Hs Hi) as Hc.
  apply slab_lookup_Some in Hi as (Hw & Hf).
  unfold remove, slot_at, write_slot, bind, get, assert_, ret, panic, modify, sub_w.
  rewrite (proj2 (Z.ltb_lt _ _)) by lia. rewrite Hw, is_task_negb, Hf. cbv beta iota delta [negb].
  rewrite Hw. rewrite (proj2 (Z.leb_le _ _)) by lia. done.
Qed.

Context {F : Type}.
Implicit Types (h : heap F) (r : RawTask F).

(** The part of [insert] that follows the growth check. *)
Lemma insert_free_slot h s i fl p r :
  slab_inv (i :: fl) s -> h !! p = Some r -> is_free p = false ->
  exists next,
    insert p (h, s) = Ok (i, (<[p := set_slab_idx i r]> h, filled i p next s)) /\
    slab_inv fl (filled i p next s).
Proof.
  intros Hs Hp Hf. pose proof (slab_inv_fl_range _ _ i Hs ltac:(constructor)) as Hr.
  pose proof (si_chain _ _ Hs) as (Hh & next & Hl & Hn & _).
  pose proof (si_bound _ _ Hs) as Hb. pose proof (si_count _ _ Hs) as Hc. simpl length in Hc.
  exists next. split; [|by eapply filled_inv; eauto; lia].
  unfold insert, zoom, bind, get, gets, modify, ret, slot_at, write_slot; cbn [lget lset heap_of slab_of fst snd].
  rewrite Hh. rewrite (proj2 (Z.eqb_neq _ _)) by lia. cbn [fst snd]. rewrite Hh, Hl.
  unfold set_task_idx. rewrite (bind_step _ _ _ r h) by by apply load_ok.
  rewrite (store_ok h p r) by done. rewrite next_free_slot by lia. cbn [fst snd set_head slots].
  rewrite Hl. unfold add_w. rewrite (proj2 (Z.ltb_lt _ _)) by lia. done.
Qed.

Lemma insert_full h s p : slab_inv [] s ->
  insert p (h, s) =
    if realloc_ok (2 * s.(len) * SlabSlot_size) then insert p (h, grown s)
    else Panic "Slab realloc failed".
Proof.
  intros Hs. pose proof (si_chain _ _ Hs) as Hh. pose proof (si_bound _ _ Hs) as Hb. simpl in Hh.
  unfold insert at 1. rewrite (bind_step _ _ _ (h, s) (h, s) eq_refl). cbn [fst snd].
  rewrite Hh, Z.eqb_refl. unfold bind at 1, zoom at 1. cbn [lget lset slab_of snd].
  rewrite growth_eq by lia. destruct (realloc_ok _); [|done]. cbn [lset slab_of fst].
  unfold insert. rewrite (bind_step _ _ _ (h, grown s) (h, grown s) eq_refl). cbn [fst snd].
  assert ((head (grown s) =? len (grown s)) = false) as -> by (apply Z.eqb_neq; simpl; lia).
  by rewrite (bind_step _ _ _ tt (h, grown s) eq_refl).
Qed.

(** The whole of [insert]: the task lands in a slot that was free, its
    header learns the index, nothing else moves; the only panic is the
    failed reallocation of a full slab. *)
Lemma insert_spec h s fl p r :
  slab_inv fl s -> h !! p = Some r -> is_free p = false ->
  (insert p (h, s) = Panic "Slab realloc failed" /\ fl = [] /\
     realloc_ok (2 * s.(len) * SlabSlot_size) = false) \/
  exists i s', insert p (h, s) = Ok (i, (<[p := set_slab_idx i r]> h, s')) /\
    slab_wf s' /\ slab_lookup s i = None /\ 0 <= i < s'.(len) /\
    (forall j, slab_lookup s' j = if decide (j = i) then Some p else slab_lookup s j) /\
    s'.(task_count) = s.(task_count) + 1 /\
    (forall fl', fl = i :: fl' -> slab_inv fl' s').
Proof.
  intros Hs Hp Hf. destruct fl as [|i fl].
  - rewrite insert_full by done. destruct (realloc_ok _) eqn:Hre; [right|by left].
    pose proof (realloc_limit _ Hre) as Hlim. unfold SlabSlot_size in Hlim.
    pose proof (si_bound _ _ Hs) as Hb.
    pose proof (grown_inv s Hs ltac:(lia)) as Hg. rewrite seqZ_cons in Hg by lia.
    pose proof (slab_inv_fl_range _ _ (len s) Hg ltac:(constructor)) as Hr.
    destruct (insert_free_slot h _ _ _ p r Hg Hp Hf) as (next & He & Hi).
    exists (len s), (filled (len s) p next (grown s)). split; [done|].
    assert (Hrl : 0 <= len s < Z.of_nat (length (slots (grown s))))
      by (rewrite (si_len _ _ Hg); lia).
    split_and!; [by eexists| | simpl in *; lia | simpl in *; lia | | done | done].
    + unfold slab_lookup. by rewrite zlookup_ge by (rewrite (si_len _ _ Hs); lia).
    + intros j. rewrite filled_lookup by done. case_decide; [done|]. by apply grown_lookup.
  - right. pose proof (slab_inv_fl_range _ _ i Hs ltac:(constructor)) as Hr.
    destruct (insert_free_slot h _ _ _ p r Hs Hp Hf) as (next & He & Hi).
    exists i, (filled i p next s). split; [done|].
    split_and!; [by eexists| | simpl; lia | simpl; lia | | done | by intros ? [= <-] ].
    + eapply slab_lookup_not_free; [done|by constructor].
    + intros j. apply filled_lookup; [rewrite (si_len _ _ Hs); lia|done].
Qed.
End SlabLemmas.

(** ** The abstract slab: a finite map from indices to task addresses *)
Module SlabSpec.
Inductive op := Insert (task : Z) | RemoveDropped (idx : Z) | Index (idx : Z).

(** What each operation promises, with its result. *)
Inductive step : gmap Z Z -> op -> Z -> gmap Z Z -> Prop :=
| step_insert m task i :
    m !! i = None -> step m (Insert task) i (<[i := task]> m)
| step_remove m i task :
    m !! i = Some task -> step m (RemoveDropped i) i (delete i m)
| step_index m i task :
    m !! i = Some task -> step m (Index i) task m.

Inductive steps : gmap Z Z -> list op -> list Z -> gmap Z Z -> Prop :=
| steps_nil m : steps m [] [] m
| steps_cons m o v m1 ops vs m2 :
    step m o v m1 -> steps m1 ops vs m2 -> steps m (o :: ops) (v :: vs) m2.
End SlabSpec.

Section Refinement.
Context {F : Type} `{!Profile, !SlabMemory, !SlabMemoryLaws}.
Implicit Types (h : heap F) (m : gmap Z Z).

Definition represents (s : Slab) (m : gmap Z Z) : Prop :=
  slab_wf s /\ forall i, m !! i = slab_lookup s i.

(** The slab's operations, run one after the other. *)
Definition exec (o : SlabSpec.op) : M (heap F * Slab) Z :=
  match o with
  | SlabSpec.Insert task => insert task
  | SlabSpec.RemoveDropped i => zoom slab_of (remove_dropped_task i) ;;! ret i
  | SlabSpec.Index i => zoom slab_of (index i)
  end.

Fixpoint exec_all (ops : list SlabSpec.op) : M (heap F * Slab) (list Z) :=
  match ops with
  | [] => ret []
  | o :: ops' =>
      let! v := exec o in
      let! vs := exec_all ops' in
      ret (v :: vs)
  end.

(** The operations are called with live, aligned tasks and unsigned
    indices. *)
Definition op_ok (h : heap F) (o : SlabSpec.op) : Prop :=
  match o with
  | SlabSpec.Insert task => is_Some (h !! task) /\ task mod RawTask_align = 0
  | SlabSpec.RemoveDropped i | SlabSpec.Index i => 0 <= i
  end.

Lemma aligned_not_free p : p mod RawTask_align = 0 -> is_free p = false.
Proof.
  intros Hp. rewrite is_free_mod. apply Z.eqb_neq. unfold RawTask_align in Hp.
  pose proof (Z.div_mod p 32). assert (p mod 2 = 0) as ->; [|done].
  replace p with (16 * (p / 32) * 2) by lia. apply Z.mod_mul. lia.
Qed.

Lemma exec_refines h s m o v h' s' :
  represents s m -> op_ok h o -> exec o (h, s) = Ok (v, (h', s')) ->
  dom h' = dom h /\ exists m', SlabSpec.step m o v m' /\ represents s' m'.
Proof.
  intros [[fl Hs] Hm] Hok He. destruct o as [p|i|i]; simpl in He, Hok.
  - destruct Hok as [[r Hr] Ha]. apply aligned_not_free in Ha.
    destruct (insert_spec h s fl p r Hs Hr Ha) as [(E & _)|(i & s1 & E & Hwf & Hn & _ & Hl & _)];
      rewrite E in He; [done|]. injection He as <- <- <-. split.
    { apply dom_insert_lookup_L. by eexists. }
    exists (<[i := p]> m). split.
    + constructor. by rewrite Hm.
    + split; [done|]. intros j. rewrite Hl, lookup_insert, Hm.
      repeat case_decide; congruence.
  - unfold zoom, bind in He. cbn [lget lset slab_of snd fst] in He.
    destruct (slab_lookup s i) as [w|] eqn:Hi.
    + rewrite (remove_dropped_task_ok _ _ _ _ Hs Hi) in He. injection He as <- <- <-.
      split; [done|]. exists (delete i m). split.
      * apply SlabSpec.step_remove with w. by rewrite Hm.
      * pose proof (slab_lookup_range _ _ _ _ Hs Hi).
        split; [eexists; by eapply vacated_inv|]. intros j.
        rewrite vacated_lookup by (rewrite (si_len _ _ Hs); lia).
        rewrite lookup_delete, Hm. repeat case_decide; congruence.
    + exfalso. revert He. unfold remove_dropped_task, slot_at, bind, get, assert_, ret, panic.
      destruct (Z.ltb_spec i (len s)) as [Hlt|]; [|done].
      assert (Hlt' : 0 <= i < Z.of_nat (length (slots s))) by (rewrite (si_len _ _ Hs); lia).
      destruct (zlookup_lt _ _ Hlt') as [w Hw]. cbv beta iota. rewrite Hw, is_task_negb.
      unfold slab_lookup in Hi. rewrite Hw in Hi. by destruct (is_free w).
  - unfold zoom in He. cbn [lget lset slab_of snd fst] in He.
    destruct (slab_lookup s i) as [w|] eqn:Hi.
    + rewrite (index_ok _ _ _ _ Hs Hi) in He. injection He as <- <- <-.
      split; [done|]. exists m. split; [constructor; by rewrite Hm|by split; [eexists|]].
    + by rewrite (index_none _ _ _ Hs Hok Hi) in He.
Qed.

Lemma represents_count s m : represents s m -> count s = Z.of_nat (size m).
Proof.
  intros [[fl Hs] Hm]. unfold count. rewrite (si_count _ _ Hs).
  assert (Hp : (map_to_list m).*1 ++ fl ≡ₚ seqZ 0 (len s)).
  { apply NoDup_Permutation; [| apply NoDup_seqZ |].
    - apply NoDup_app. split_and!; [apply NoDup_fst_map_to_list| |apply Hs].
      intros i ((j & w) & -> & Hi%elem_of_map_to_list)%list_elem_of_fmap Hin. simpl in Hin.
      rewrite Hm, (slab_lookup_not_free _ _ _ Hs Hin) in Hi. done.
    - intros i. rewrite elem_of_app, elem_of_seqZ. split.
      + intros [((j & w) & -> & Hi%elem_of_map_to_list)%list_elem_of_fmap|Hi].
        * rewrite Hm in Hi. apply (slab_lookup_range _ _ _ _ Hs) in Hi. simpl. lia.
        * pose proof (slab_inv_fl_range _ _ _ Hs Hi). lia.
      + intros Hi. destruct (slab_lookup s i) as [w|] eqn:E.
        * left. apply list_elem_of_fmap. exists (i, w). split; [done|].
          apply elem_of_map_to_list. by rewrite Hm.
        * right. eapply slab_lookup_free; [done|lia|done]. }
  apply Permutation_length in Hp. rewrite length_app, length_fmap, length_seqZ in Hp.
  rewrite length_map_to_list in Hp. pose proof (si_bound _ _ Hs). lia.
Qed.
End Refinement.

(** ** Properties *)
Section Properties.
Context {F : Type} `{!Profile, !SlabMemory, !SlabMemoryLaws}.
Implicit Types (h : heap F) (m : gmap Z Z).

(** C11: the intrusive free list implements a finite map.  From a slab that
    represents a map, every sequence of insertions, removals and lookups
    that returns is a run of the abstract slab with the same results, the
    final slab (after any number of growths) represents the final map, and
    its task count is that map's size. *)
Theorem slab_refines_map ops h s m vs h' s' :
  represents s m -> Forall (op_ok h) ops -> exec_all ops (h, s) = Ok (vs, (h', s')) ->
  exists m', SlabSpec.steps m ops vs m' /\ represents s' m' /\ count s' = Z.of_nat (size m').
Proof.
  revert h s m vs. induction ops as [|o ops IH]; intros h s m vs Hrep Hok He.
  - injection He as <- <- <-. exists m. split_and!; [constructor|done|by apply represents_count].
  - apply Forall_cons in Hok as [Ho Hops]. simpl in He.
    apply bind_Ok in He as (v & [h1 s1] & He & Hrest).
    apply bind_Ok in Hrest as (vs1 & [h2 s2] & Hrest & [= <- <- <-]).
    destruct (exec_refines _ _ _ _ _ _ _ Hrep Ho He) as (Hdom & m1 & Hstep & Hrep1).
    destruct (IH h1 s1 m1 vs1 Hrep1) as (m' & Hsteps & Hrep' & Hc); [|done|].
    + eapply Forall_impl; [exact Hops|]. intros [p|i|i]; simpl; [|done|done].
      rewrite <- !elem_of_dom, Hdom. done.
    + exists m'. split_and!; [by econstructor|done|done].
Qed.

(** A lookup by index never reads outside of the slab: it returns the
    task stored there, or panics with "slot libre à l'index" on a free slot
    and with "index out of bounds" beyond the last one. *)
Theorem slab_index_total s i : slab_wf s -> 0 <= i ->
  index i s =
    match slab_lookup s i with
    | Some task => Ok (task, s)
    | None => Panic (if i <? s.(len) then "slot libre à l'index" else "index out of bounds")
    end.
Proof.
  intros [fl Hs] Hi. destruct (slab_lookup s i) as [w|] eqn:E.
  - by eapply index_ok.
  - by eapply index_none.
Qed.

(** Free slots are reused last-in first-out: the insertion that follows a
    removal returns the removed index. *)
Theorem slab_lifo_reuse h s i w s1 p r : slab_wf s -> slab_lookup s i = Some w ->
  h !! p = Some r -> p mod RawTask_align = 0 ->
  remove_dropped_task i s = Ok (tt, s1) ->
  exists s2, insert p (h, s1) = Ok (i, (<[p := set_slab_idx i r]> h, s2)) /\
    slab_wf s2 /\ count s2 = count s /\ slab_lookup s2 i = Some p.
Proof.
  intros [fl Hs] Hi Hp Ha Hr. rewrite (remove_dropped_task_ok _ _ _ _ Hs Hi) in Hr.
  injection Hr as <-. pose proof (vacated_inv _ _ _ _ Hs Hi) as Hv.
  pose proof (slab_inv_fl_range _ _ i Hv ltac:(constructor)) as Hrange.
  destruct (insert_free_slot h _ _ _ p r Hv Hp (aligned_not_free _ Ha)) as (next & He & Hf).
  eexists. split; [done|]. split_and!.
  - by eexists.
  - unfold count. simpl. lia.
  - rewrite filled_lookup; [by rewrite decide_True| |by apply aligned_not_free].
    rewrite (si_len _ _ Hv). simpl in *. lia.
Qed.

(** Beyond 2^30 slots the link encoding of [free_slot], which shifts a
    [u32] left by one, loses the top bit: growing such a slab to 2^31 slots
    leaves in the last slot the link 0 instead of the sentinel 2^31, so that
    once the slab fills up [head] names the occupied slot 0 and never equals
    [len] again. *)
Theorem growth_loses_sentinel s : s.(len) = 2 ^ 30 ->
  Z.of_nat (length s.(slots)) = s.(len) -> realloc_ok (8 * 2 ^ 31) = true ->
  exists s' w, growth s = Ok (tt, s') /\ s'.(len) = 2 ^ 31 /\
    zlookup s'.(slots) (s'.(len) - 1) = Some w /\ is_free w = true /\
    next_free w s' = Ok (0, s').
Proof.
  intros Hl Hlen Hre. exists (grown s), (free_slot (2 ^ 31)).
  assert (Hz : zlookup (slots (grown s)) (len (grown s) - 1) = Some (free_slot (2 ^ 31))).
  { simpl. rewrite zlookup_app, Hlen, Hl. destruct (Z.ltb_spec (2 * 2 ^ 30 - 1) (2 ^ 30)); [lia|].
    rewrite zlookup_link_slots by lia. do 2 f_equal. }
  split_and!; [|simpl; lia|done|apply free_slot_is_free|].
  - rewrite growth_eq by lia. rewrite Hl. unfold SlabSlot_size.
    change (2 * 2 ^ 30 * 8) with (8 * 2 ^ 31). by rewrite Hre.
  - unfold next_free, debug_assert. rewrite free_slot_is_free, free_slot_link.
    by destruct debug_checks.
Qed.
End Properties.

Lemma link_slots_represents cap : 0 < cap < 2 ^ 31 -> represents (mkSlab (link_slots 0 cap) 0 cap 0) ∅.
Proof.
  intros Hcap. pose proof (link_slab_inv cap Hcap) as Hs.
  split; [by eexists|]. intros i. rewrite lookup_empty. symmetry.
  destruct (slab_lookup _ i) as [w|] eqn:E; [|done].
  pose proof (slab_lookup_range _ _ _ _ Hs E) as Hr. simpl in Hr.
  rewrite (slab_lookup_not_free _ _ i Hs) in E; [done|]. rewrite elem_of_seqZ. lia.
Qed.

(** A slab of any capacity that [with_capacity] accepts represents the
    empty map, and larger capacities panic. *)
Theorem with_capacity_empty `{Profile} {S} (s0 : S) cap : 0 < cap ->
  (cap <= u32_max / 2 -> exists s, with_capacity cap s0 = Ok (s, s0) /\ represents s ∅ /\ count s = 0) /\
  (u32_max / 2 < cap -> with_capacity cap s0 = Panic "capacity dépasse u32::MAX / 2").
Proof.
  intros Hcap. change (u32_max / 2) with 2147483647. split; intros Hle; unfold with_capacity.
  - eexists. change (u32_max / 2) with 2147483647. rewrite (proj2 (Z.leb_le _ _)) by done.
    split; [done|]. split; [|done]. apply link_slots_represents. lia.
  - change (u32_max / 2) with 2147483647. by rewrite (proj2 (Z.leb_gt _ _)) by lia.
Qed.

(** ** Concrete runs *)
Module SlabExamples.
(** A machine that refuses blocks of 16 GiB and more. *)
#[local] Instance below_16_GiB : SlabMemory := {| realloc_ok size := size <? 8 * 2 ^ 31 |}.
#[local] Instance below_16_GiB_laws : SlabMemoryLaws.
Proof. constructor. intros size H%Z.ltb_lt. done. Qed.
#[local] Existing Instance dev_profile.

Definition header (i : option Z) : RawTask unit := mkRawTask tt 32 1 0 i.
Definition three_tasks : heap unit :=
  <[32 := header None]> (<[64 := header None]> (<[96 := header None]> ∅)).
Definition two_slots : Slab := mkSlab (link_slots 0 2) 0 2 0.
Definition some_ops : list SlabSpec.op :=
  [SlabSpec.Insert 32; SlabSpec.Insert 64; SlabSpec.Insert 96; SlabSpec.RemoveDropped 1;
   SlabSpec.Index 2; SlabSpec.Insert 64].

(** A slab of 2^n full slots. *)
Definition full_slab (n : Z) : Slab := mkSlab (replicate (Z.to_nat n) 0) n n n.

Lemma two_slots_represents : represents two_slots ∅.
Proof. apply link_slots_represents. lia. Qed.

Lemma slab_refines_map_witness :
  exists h' s', exec_all some_ops (three_tasks, two_slots) = Ok ([0; 1; 2; 1; 96; 1], (h', s')) /\
    exists m', SlabSpec.steps ∅ some_ops [0; 1; 2; 1; 96; 1] m' /\ represents s' m' /\
      count s' = Z.of_nat (size m').
Proof.
  eexists _, _. split; [vm_compute; reflexivity|].
  eapply (slab_refines_map some_ops three_tasks two_slots).
  - apply two_slots_represents.
  - repeat constructor; simpl; try lia; eexists; vm_compute; reflexivity.
  - vm_compute. reflexivity.
Defined.

Lemma slab_index_total_witness :
  index 1 two_slots = Panic "slot libre à l'index" /\ index 7 two_slots = Panic "index out of bounds".
Proof.
  split.
  - refine (eq_trans (slab_index_total two_slots 1 _ _) _);
      [apply two_slots_represents|lia|reflexivity].
  - refine (eq_trans (slab_index_total two_slots 7 _ _) _);
      [apply two_slots_represents|lia|reflexivity].
Defined.

Lemma slab_lifo_reuse_witness :
  exists s2, insert 96 (three_tasks, vacated 0 (filled 0 32 1 two_slots)) =
    Ok (0, (<[96 := set_slab_idx 0 (header None)]> three_tasks, s2)) /\
    slab_wf s2 /\ count s2 = 1 /\ slab_lookup s2 0 = Some 96.
Proof.
  eapply (slab_lifo_reuse three_tasks (filled 0 32 1 two_slots) 0 32).
  - destruct two_slots_represents as [_ _]. exists [1].
    apply (filled_inv 0 32 1 [1] two_slots); [apply (link_slab_inv 2); lia|reflexivity|lia|reflexivity].
  - reflexivity.
  - reflexivity.
  - reflexivity.
  - reflexivity.
Defined.

Lemma growth_loses_sentinel_witness :
  exists s' w, @growth {| realloc_ok _ := true |} (full_slab (2 ^ 30)) = Ok (tt, s') /\
    s'.(len) = 2 ^ 31 /\ zlookup s'.(slots) (s'.(len) - 1) = Some w /\ is_free w = true /\
    next_free w s' = Ok (0, s').
Proof.
  apply (@growth_loses_sentinel dev_profile {| realloc_ok _ := true |} (full_slab (2 ^ 30))).
  - reflexivity.
  - cbn [slots len full_slab]. rewrite length_replicate. apply Z2Nat.id. lia.
  - reflexivity.
Defined.

Lemma with_capacity_empty_witness :
  exists s, with_capacity 16 tt = Ok (s, tt) /\ represents s ∅ /\ count s = 0.
Proof. apply (proj1 (with_capacity_empty tt 16 ltac:(lia))). vm_compute. done. Defined.
End SlabExamples.
