(* ===== verification/Io.v ===== *)
(** * Submission and completion entries

    The [io-uring] crate is not part of the repository.  A submission entry is
    kept as the opcode builder the source calls with the arguments it passes
    ([Entry]), a completion entry as its three observable fields ([Cqe]), and
    the crate's functions on completion flags are instances of the class
    [CqueueFlags]. *)

From S2P Require Import Prelude UserData.

(** The address passed to [opcode::Connect]: a pointer to a local variable of
    the [poll] call that builds the entry, with the value it held. *)
Record SockaddrIn := mkSockaddrIn {
  sin_family : Z;
  sin_port : Z;
  s_addr : Z;
}.

Inductive Opcode :=
| ReadOp (fd : Z) (len : Z) (buf_group : Z) (buffer_select : bool)
| AcceptOp (listen_fd : Z) (auto_target : bool)
| WriteFixedOp (fd : Z) (ptr : Z) (len : Z) (buf_index : Z)
| RecvMultiOp (fd : Z) (buf_group : Z)
| AcceptMultiOp (listen_fd : Z) (allocate_file_index : bool)
| ConnectOp (fd : Z) (addr : SockaddrIn) (addrlen : Z)
| SocketOp (auto_target : bool).

Record Entry := mkEntry { e_opcode : Opcode; e_user_data : Z }.

(** The slab index an entry's completion will be dispatched to. *)
Definition entry_task_idx (e : Entry) : Z := (from_user_data e.(e_user_data)).(pl_task_idx).

Record Cqe := mkCqe { cqe_user_data : Z; cqe_result : Z; cqe_flags : Z }.

(** [io_uring::cqueue::{more, buffer_more, buffer_select}]. *)
Class CqueueFlags := {
  more : Z -> bool;
  buffer_more : Z -> bool;
  buffer_select : Z -> option Z;
}.

(** [UserDataPayload::from_entry], [UserDataPayload::from_sqe_entry] and
    [TaskInfo::from_entry]. *)
Definition payload_from_entry (entry : Cqe) : UserDataPayload :=
  from_user_data entry.(cqe_user_data).

Definition payload_from_sqe_entry (entry : Entry) : UserDataPayload :=
  from_user_data entry.(e_user_data).

Definition info_from_entry (entry : Cqe) : TaskInfo :=
  let payload := payload_from_entry entry in
  mkTaskInfo (mkTag payload.(pl_task_idx) payload.(pl_syscall_nb))
    entry.(cqe_result) entry.(cqe_flags) payload.(pl_response_gen).

(** The flag bits of the Linux ABI, to run concrete examples. *)
Definition linux_flags : CqueueFlags := {|
  more flags := Z.testbit flags 1;
  buffer_more flags := Z.testbit flags 4;
  buffer_select flags := if Z.testbit flags 0 then Some (Z.shiftr flags 16) else None;
|}.
