(* ===== verification/BufPool.v ===== *)
(** * The buffer pool

    Models src/src/buf_pool.rs: one allocation cut into fixed-size slots, the
    first [read_count] for [RwBuffer], the others for [WBuffer] with a reference
    count per slot and a queue of free slots.  Addresses are integers; the
    contents of the buffers are in [Slices].  A [WBuffer] does not carry the
    pointer to its pool: there is one pool, the one in the state. *)

From S2P Require Import Prelude UserData Io.

Definition PAGE_SIZE : Z := 4096.

Record BufPool := mkBufPool {
  base : Z;
  layout : Z * Z;
  read_count : Z;
  write_free : list Z;
  write_rc : list Z;
}.

Definition set_write_free (l : list Z) (p : BufPool) : BufPool :=
  mkBufPool p.(base) p.(layout) p.(read_count) l p.(write_rc).
Definition set_write_rc (l : list Z) (p : BufPool) : BufPool :=
  mkBufPool p.(base) p.(layout) p.(read_count) p.(write_free) l.

Record RwBuffer := mkRwBuffer {
  rw_ptr : Z;
  buf_idx : Z;
  fd_idx : Z;
  bytes : Z;
  committed : bool;
}.

Record WBuffer := mkWBuffer { w_ptr : Z; abs_idx : Z }.

Record iovec := mkIovec { iov_base : Z; iov_len : Z }.

Section BufPool.
Context `{!Profile} (N : Z).

Definition BUF_SIZE : Z := N * PAGE_SIZE.

(** [BufPool::new]; [raw] is what [alloc_zeroed] returns. *)
Definition BufPool_new {S} (raw : option Z) (read_count write_count : Z) : M S BufPool :=
  assert_ ((0 <? read_count) && (0 <? write_count))
    "assertion failed: read_count > 0 && write_count > 0" ;;!
  let! total := add_w 32 read_count write_count in
  assert_ (total * BUF_SIZE <=? 2 ^ 63 - PAGE_SIZE) "BufPool: layout invalide" ;;!
  let! base := expect raw "BufPool: OOM" in
  ret (mkBufPool base (total * BUF_SIZE, PAGE_SIZE) read_count
         (seqZ read_count write_count) (replicate (Z.to_nat write_count) 0)).

Definition write_buf_ptr (p : BufPool) (buf_id : Z) : Z :=
  let abs := p.(read_count) + buf_id in
  p.(base) + abs * BUF_SIZE.

Definition read_buf_addr {S} (p : BufPool) (buf_idx : Z) : M S Z :=
  debug_assert (buf_idx <? p.(read_count)) "assertion failed: buf_idx < self.read_count" ;;!
  ret (p.(base) + buf_idx * BUF_SIZE).

Definition build_iovecs (p : BufPool) : list iovec :=
  let total := p.(read_count) + Z.of_nat (length p.(write_rc)) in
  (fun i => mkIovec (p.(base) + i * BUF_SIZE) BUF_SIZE) <$> seqZ 0 total.

Definition checkout_read {S} (p : BufPool) (buf_idx fd_idx bytes : Z) : M S RwBuffer :=
  debug_assert (buf_idx <? p.(read_count)) "assertion failed: buf_idx < self.read_count" ;;!
  ret (mkRwBuffer (p.(base) + buf_idx * BUF_SIZE) buf_idx fd_idx bytes false).

(** [self.write_rc[rel]], read and written, with the bounds check. *)
Definition rc_at (rel : Z) : M BufPool Z := fun p =>
  match zlookup p.(write_rc) rel with
  | Some rc => Ok (rc, p)
  | None => Panic "index out of bounds"
  end.

Definition set_rc (rel rc : Z) : M BufPool unit := fun p =>
  match zlookup p.(write_rc) rel with
  | Some _ => Ok (tt, set_write_rc (zinsert rel rc p.(write_rc)) p)
  | None => Panic "index out of bounds"
  end.

Definition alloc_write : M BufPool WBuffer :=
  let! p := get in
  match p.(write_free) with
  | [] => panic "BufPool: write pool épuisé"
  | abs_idx :: rest =>
      put (set_write_free rest p) ;;!
      let! rel := sub_w 32 abs_idx p.(read_count) in
      let! rc := rc_at rel in
      debug_assert (rc =? 0) "assertion `left == right` failed" ;;!
      set_rc rel 1 ;;!
      ret (mkWBuffer (p.(base) + abs_idx * BUF_SIZE) abs_idx)
  end.

Definition on_write_cqe (abs_idx : Z) : M BufPool unit :=
  let! p := get in
  let! rel := sub_w 32 abs_idx p.(read_count) in
  let! rc := rc_at rel in
  debug_assert (0 <? rc) "on_write_cqe: slot déjà libre" ;;!
  let! rc' := sub_w 32 rc 1 in
  set_rc rel rc' ;;!
  if rc' =? 0
  then modify (fun p => set_write_free (p.(write_free) ++ [abs_idx]) p)
  else ret tt.

(** [WBuffer::index]. *)
Definition WBuffer_index (b : WBuffer) : Z := as_u16 b.(abs_idx).

(** [impl Clone for WBuffer]. *)
Definition WBuffer_clone (b : WBuffer) : M BufPool WBuffer :=
  let! p := get in
  let! rel := sub_w 32 b.(abs_idx) p.(read_count) in
  let! rc := rc_at rel in
  debug_assert (0 <? rc) "clone sur slot libre" ;;!
  let! rc' := add_w 32 rc 1 in
  set_rc rel rc' ;;!
  ret (mkWBuffer b.(w_ptr) b.(abs_idx)).

(** [impl Drop for WBuffer]. *)
Definition WBuffer_drop (b : WBuffer) : M BufPool unit :=
  let! p := get in
  let! rel := sub_w 32 b.(abs_idx) p.(read_count) in
  let! rc := rc_at rel in
  debug_assert (0 <? rc) "drop sur slot déjà libre" ;;!
  let! rc' := sub_w 32 rc 1 in
  set_rc rel rc' ;;!
  if rc' =? 0
  then modify (fun p => set_write_free (p.(write_free) ++ [b.(abs_idx)]) p)
  else ret tt.

(** The entry built by [WBuffer::submit], before it is queued. *)
Definition submit_entry (b : WBuffer) (fd_idx len : Z) : Entry :=
  mkEntry (WriteFixedOp fd_idx b.(w_ptr) len (as_u16 b.(abs_idx))) (wbuf_write_udata b.(abs_idx)).

(** [WBuffer::write]: [self] is dropped when the function returns. *)
Definition WBuffer_write (b : WBuffer) (fd_idx len user_data : Z) : M BufPool Entry :=
  let entry := mkEntry (WriteFixedOp fd_idx b.(w_ptr) len (as_u16 b.(abs_idx))) user_data in
  WBuffer_drop b ;;!
  ret entry.
End BufPool.

(** ** The invariant of the write pool

    [handles] lists the slots of the [WBuffer] handles that are alive, once per
    handle. *)
Definition handle_count (i : Z) (handles : list Z) : Z := count_if (Z.eqb i) handles.

Record pool_inv (handles : list Z) (p : BufPool) : Prop := {
  pi_base : 0 <= p.(read_count) /\ p.(read_count) + Z.of_nat (length p.(write_rc)) < 2 ^ 32;
  pi_rc : forall rel rc, zlookup p.(write_rc) rel = Some rc ->
    rc = handle_count (p.(read_count) + rel) handles;
  pi_free : forall i, i ∈ p.(write_free) <->
    p.(read_count) <= i < p.(read_count) + Z.of_nat (length p.(write_rc)) /\ handle_count i handles = 0;
  pi_nodup : NoDup p.(write_free);
  pi_handles : Forall (fun i =>
    p.(read_count) <= i < p.(read_count) + Z.of_nat (length p.(write_rc))) handles;
}.

#[export] Instance pool_inv_perm : Proper ((≡ₚ) ==> eq ==> iff) pool_inv.
Proof.
  cut (forall H H' p, H ≡ₚ H' -> pool_inv H p -> pool_inv H' p).
  { intros Hc H H' Hp p _ <-. split; by apply Hc. }
  intros H H' p Hp []. unfold handle_count in *. split; try done; setoid_rewrite <- Hp; done.
Qed.

Section PoolLemmas.
Context {prof : Profile} (N : Z).
Implicit Types (p : BufPool) (H : list Z).

Lemma handle_count_cons i j H : handle_count i (j :: H) = (if i =? j then 1 else 0) + handle_count i H.
Proof. apply count_if_cons. Qed.

Lemma handle_count_app i H1 H2 : handle_count i (H1 ++ H2) = handle_count i H1 + handle_count i H2.
Proof. apply count_if_app. Qed.

Lemma handle_count_nonneg i H : 0 <= handle_count i H.
Proof. apply count_if_nonneg. Qed.

(** The slot of a handle is in range and its count is the stored one. *)
Lemma pool_rc_at H p i :
  pool_inv H p -> p.(read_count) <= i < p.(read_count) + Z.of_nat (length p.(write_rc)) ->
  zlookup p.(write_rc) (i - p.(read_count)) = Some (handle_count i H).
Proof.
  intros Hp Hi. assert (Hr : 0 <= i - read_count p < Z.of_nat (length (write_rc p))) by lia.
  destruct (zlookup_lt _ _ Hr) as [rc Hrc]. rewrite Hrc. f_equal.
  rewrite (pi_rc _ _ Hp _ _ Hrc). f_equal. lia.
Qed.

Lemma pool_handle_range H p i : pool_inv H p -> i ∈ H ->
  p.(read_count) <= i < p.(read_count) + Z.of_nat (length p.(write_rc)) /\ 0 < handle_count i H.
Proof.
  intros Hp Hi. split.
  - pose proof (pi_handles _ _ Hp) as Hf. rewrite Forall_forall in Hf. by apply Hf.
  - clear Hp. induction H as [|j H IH]; [by apply not_elem_of_nil in Hi|].
    rewrite handle_count_cons. apply elem_of_cons in Hi as [->|Hi].
    + rewrite Z.eqb_refl. pose proof (handle_count_nonneg j H). lia.
    + specialize (IH Hi). destruct (i =? j); lia.
Qed.

(** Changing the number of handles of one slot. *)
Lemma pool_inv_update H H' p i fr :
  pool_inv H p ->
  p.(read_count) <= i < p.(read_count) + Z.of_nat (length p.(write_rc)) ->
  (forall j, j <> i -> handle_count j H' = handle_count j H) ->
  Forall (fun j => p.(read_count) <= j < p.(read_count) + Z.of_nat (length p.(write_rc))) H' ->
  NoDup fr ->
  (forall j, j ∈ fr <-> (j = i /\ handle_count i H' = 0) \/ (j <> i /\ j ∈ p.(write_free))) ->
  pool_inv H' (set_write_free fr (set_write_rc
    (zinsert (i - p.(read_count)) (handle_count i H') p.(write_rc)) p)).
Proof.
  intros Hp Hi Hne HH' Hnd Hfr.
  assert (Hlen : length (zinsert (i - read_count p) (handle_count i H') (write_rc p)) = length (write_rc p))
    by apply length_zinsert.
  split; cbn [read_count write_rc write_free set_write_free set_write_rc]; rewrite ?Hlen.
  - apply Hp.
  - intros rel rc Hrc. destruct (decide (rel = i - read_count p)) as [->|Hrel].
    + rewrite zlookup_zinsert_eq in Hrc by lia. injection Hrc as <-. f_equal. lia.
    + rewrite zlookup_zinsert_ne in Hrc by lia. rewrite (pi_rc _ _ Hp _ _ Hrc). symmetry. apply Hne. lia.
  - intros j. rewrite Hfr, (pi_free _ _ Hp). destruct (decide (j = i)) as [->|Hj].
    + split; [intros [[_ ?]|[? _]]; [done|done]|intros [_ ?]; by left].
    + rewrite (Hne j Hj). split; [intros [[? _]|[_ ?]]; done|intros ?; by right].
  - done.
  - done.
Qed.

(** *** Each operation on a pool whose handles are [H] *)
Lemma alloc_write_spec H p : pool_inv H p ->
  match p.(write_free) with
  | [] => alloc_write N p = Panic "BufPool: write pool épuisé"
  | i :: rest => exists p', alloc_write N p = Ok (mkWBuffer (p.(base) + i * BUF_SIZE N) i, p') /\
      pool_inv (i :: H) p' /\ handle_count i H = 0 /\ p'.(write_free) = rest
  end.
Proof.
  intros Hp. unfold alloc_write. rewrite (bind_step _ _ _ p p eq_refl).
  destruct (write_free p) as [|i rest] eqn:Hw; [done|].
  assert (Hin : i ∈ write_free p) by (rewrite Hw; constructor).
  pose proof (pi_nodup _ _ Hp) as Hnd. rewrite Hw in Hnd. apply NoDup_cons in Hnd as [Hnot Hnd].
  apply (pi_free _ _ Hp) in Hin as [Hr H0].
  pose proof (pool_rc_at _ _ _ Hp Hr) as Hrc. rewrite H0 in Hrc.
  exists (set_write_free rest (set_write_rc (zinsert (i - read_count p) 1 (write_rc p)) p)).
  split_and!; [| |done|done].
  - unfold bind, put, sub_w, rc_at, set_rc, debug_assert, assert_, ret.
    rewrite (proj2 (Z.leb_le _ _)) by lia. cbn [write_rc set_write_free read_count base]. rewrite Hrc.
    destruct debug_checks; cbn [Z.eqb write_rc set_write_free]; rewrite Hrc; reflexivity.
  - replace 1 with (handle_count i (i :: H)) by (rewrite handle_count_cons, Z.eqb_refl; lia).
    apply pool_inv_update with H; try done.
    + intros j Hj. rewrite handle_count_cons. rewrite (proj2 (Z.eqb_neq _ _)) by done. lia.
    + constructor; [done|apply Hp].
    + intros j. rewrite Hw, handle_count_cons, Z.eqb_refl, H0, elem_of_cons. split.
      * intros Hj. right. split; [congruence|by right].
      * intros [[_ ?]|[? [?|?]]]; [lia|done|done].
Qed.

Lemma WBuffer_clone_spec H p b : pool_inv H p -> b.(abs_idx) ∈ H ->
  handle_count b.(abs_idx) H + 1 < 2 ^ 32 ->
  exists p', WBuffer_clone b p = Ok (b, p') /\ pool_inv (b.(abs_idx) :: H) p' /\
    p'.(write_free) = p.(write_free).
Proof.
  intros Hp Hb Hc. destruct (pool_handle_range _ _ _ Hp Hb) as [Hr Hpos].
  pose proof (pool_rc_at _ _ _ Hp Hr) as Hrc. destruct b as [ptr i]; simpl in *.
  exists (set_write_free p.(write_free)
    (set_write_rc (zinsert (i - read_count p) (handle_count i H + 1) (write_rc p)) p)).
  split_and!; [| |done].
  - unfold WBuffer_clone, bind, get, sub_w, add_w, rc_at, set_rc, debug_assert, assert_, ret; simpl.
    rewrite (proj2 (Z.leb_le _ _)) by lia. rewrite Hrc.
    rewrite (proj2 (Z.ltb_lt 0 _)) by lia. rewrite (proj2 (Z.ltb_lt _ _)) by lia.
    destruct debug_checks; rewrite Hrc; by destruct p.
  - replace (handle_count i H + 1) with (handle_count i (i :: H))
      by (rewrite handle_count_cons, Z.eqb_refl; lia).
    apply pool_inv_update with H; try done.
    + intros j Hj. rewrite handle_count_cons. rewrite (proj2 (Z.eqb_neq _ _)) by done. lia.
    + constructor; [done|apply Hp].
    + apply Hp.
    + intros j. rewrite handle_count_cons, Z.eqb_refl. split.
      * intros Hj. right. split; [|done]. intros ->. apply (pi_free _ _ Hp) in Hj. lia.
      * intros [[_ ?]|[_ ?]]; [lia|done].
Qed.

(** The common body of [on_write_cqe] and [WBuffer::drop]. *)
Lemma give_back_spec (msg : string) H p i : pool_inv (i :: H) p ->
  exists p',
    (let! p := get in
     let! rel := sub_w 32 i p.(read_count) in
     let! rc := rc_at rel in
     debug_assert (0 <? rc) msg ;;!
     let! rc' := sub_w 32 rc 1 in
     set_rc rel rc' ;;!
     if rc' =? 0 then modify (fun p => set_write_free (p.(write_free) ++ [i]) p) else ret tt) p
    = Ok (tt, p') /\ pool_inv H p' /\
    p'.(write_free) = p.(write_free) ++ (if handle_count i H =? 0 then [i] else []).
Proof.
  intros Hp. destruct (pool_handle_range _ _ i Hp ltac:(constructor)) as [Hr _].
  pose proof (pool_rc_at _ _ _ Hp Hr) as Hrc. rewrite handle_count_cons, Z.eqb_refl in Hrc.
  pose proof (handle_count_nonneg i H) as Hn.
  assert (Hnot : i ∉ write_free p).
  { intros Hin%(pi_free _ _ Hp). rewrite handle_count_cons, Z.eqb_refl in Hin. lia. }
  exists (set_write_free (p.(write_free) ++ (if handle_count i H =? 0 then [i] else []))
    (set_write_rc (zinsert (i - read_count p) (handle_count i H) (write_rc p)) p)).
  split_and!; [| |done].
  - unfold bind, get, sub_w, rc_at, set_rc, debug_assert, assert_, ret, modify; simpl.
    rewrite (proj2 (Z.leb_le _ _)) by lia. rewrite Hrc.
    rewrite (proj2 (Z.ltb_lt 0 _)) by lia. rewrite (proj2 (Z.leb_le _ _)) by lia.
    replace (1 + handle_count i H - 1) with (handle_count i H) by lia.
    destruct debug_checks; rewrite Hrc; destruct (handle_count i H =? 0);
      rewrite ?app_nil_r; by destruct p.
  - apply pool_inv_update with (i :: H); try done.
    + intros j Hj. rewrite handle_count_cons. rewrite (proj2 (Z.eqb_neq _ _)) by done. lia.
    + by apply Forall_inv_tail with i, Hp.
    + apply NoDup_app. split_and!; [apply Hp| |destruct (_ =? 0); [apply NoDup_singleton|constructor]].
      intros j Hj. destruct (_ =? 0); [|apply not_elem_of_nil].
      rewrite list_elem_of_singleton. by intros ->.
    + intros j. rewrite elem_of_app. destruct (Z.eqb_spec (handle_count i H) 0) as [E|E].
      * rewrite list_elem_of_singleton. split.
        -- intros [Hj| ->]; [right; split; [congruence|done]|by left].
        -- intros [[-> _]|[_ ?]]; [by right|by left].
      * split; [intros [Hj|Hj%not_elem_of_nil]; [right; split; [congruence|done]|done]|].
        intros [[_ ?]|[_ ?]]; [done|by left].
Qed.

(** One handle more and one less, with the counter written out. *)
Definition set_handles (b : WBuffer) (n : Z) (p : BufPool) : BufPool :=
  set_write_rc (zinsert (b.(abs_idx) - p.(read_count)) n p.(write_rc)) p.

Lemma WBuffer_clone_counter p b n : p.(read_count) <= b.(abs_idx) ->
  zlookup p.(write_rc) (b.(abs_idx) - p.(read_count)) = Some n -> 0 < n -> n + 1 < 2 ^ 32 ->
  WBuffer_clone b p = Ok (b, set_handles b (n + 1) p).
Proof.
  intros Hi Hrc Hn Hb. unfold WBuffer_clone, bind, get, sub_w, add_w, rc_at, set_rc, debug_assert, assert_, ret.
  rewrite (proj2 (Z.leb_le _ _)) by done. rewrite Hrc.
  rewrite (proj2 (Z.ltb_lt 0 _)), (proj2 (Z.ltb_lt _ _)) by done.
  destruct debug_checks; rewrite Hrc; by destruct b.
Qed.

Lemma WBuffer_drop_counter p b n : p.(read_count) <= b.(abs_idx) ->
  zlookup p.(write_rc) (b.(abs_idx) - p.(read_count)) = Some n -> 1 < n ->
  WBuffer_drop b p = Ok (tt, set_handles b (n - 1) p).
Proof.
  intros Hi Hrc Hn. unfold WBuffer_drop, bind, get, sub_w, rc_at, set_rc, debug_assert, assert_, ret.
  rewrite (proj2 (Z.leb_le _ _)) by done. rewrite Hrc.
  rewrite (proj2 (Z.ltb_lt 0 _)), (proj2 (Z.leb_le 1 _)) by lia.
  destruct debug_checks; rewrite Hrc; by rewrite (proj2 (Z.eqb_neq _ _)) by lia.
Qed.

Lemma set_handles_lookup b n m p : zlookup p.(write_rc) (b.(abs_idx) - p.(read_count)) = Some m ->
  zlookup (set_handles b n p).(write_rc) (b.(abs_idx) - p.(read_count)) = Some n.
Proof. intros Hm. apply zlookup_zinsert_eq. by eapply zlookup_Some. Qed.

Lemma set_handles_twice b n m p : set_handles b n (set_handles b m p) = set_handles b n p.
Proof. unfold set_handles. destruct p. unfold set_write_rc. cbn. f_equal. apply list_insert_insert_eq. Qed.

Lemma set_handles_id b n p : zlookup p.(write_rc) (b.(abs_idx) - p.(read_count)) = Some n -> set_handles b n p = p.
Proof.
  intros Hn. unfold set_handles. destruct p as [? ? ? ? l]. cbn in *. unfold set_write_rc. cbn. f_equal.
  unfold zinsert, zlookup in *. destruct (0 <=? _); [|done]. by apply list_insert_id.
Qed.

Lemma WBuffer_drop_spec H p b : pool_inv (b.(abs_idx) :: H) p ->
  exists p', WBuffer_drop b p = Ok (tt, p') /\ pool_inv H p' /\
    p'.(write_free) = p.(write_free) ++ (if handle_count b.(abs_idx) H =? 0 then [b.(abs_idx)] else []).
Proof. apply give_back_spec. Qed.

Lemma on_write_cqe_spec H p i : pool_inv (i :: H) p ->
  exists p', on_write_cqe i p = Ok (tt, p') /\ pool_inv H p' /\
    p'.(write_free) = p.(write_free) ++ (if handle_count i H =? 0 then [i] else []).
Proof. apply give_back_spec. Qed.

Lemma BufPool_new_inv {S} (s : S) raw r w : 0 < r -> 0 < w -> r + w < 2 ^ 32 ->
  match BufPool_new N (Some raw) r w s with
  | Ok (p, s') => s' = s /\ pool_inv [] p /\ p.(base) = raw /\ p.(read_count) = r /\
      p.(write_free) = seqZ r w /\ length p.(write_rc) = Z.to_nat w
  | Panic msg => msg = "BufPool: layout invalide"
  | Ub _ => False
  end.
Proof.
  intros Hr Hw Hs. unfold BufPool_new, bind, assert_, add_w, expect, ret, panic.
  rewrite !(proj2 (Z.ltb_lt _ _)) by lia. simpl.
  destruct (_ <=? _); [|done].
  split_and!; try done; [|apply length_replicate].
  assert (Hl : Z.of_nat (length (replicate (Z.to_nat w) 0)) = w)
    by (rewrite length_replicate; lia).
  split; cbn [read_count write_rc write_free]; rewrite ?Hl.
  - lia.
  - intros rel rc Hrc. unfold zlookup in Hrc. destruct (0 <=? rel); [|done].
    apply lookup_replicate in Hrc as [-> _]. done.
  - intros i. rewrite elem_of_seqZ. unfold handle_count. rewrite count_if_nil. lia.
  - apply NoDup_seqZ.
  - constructor.
Qed.
End PoolLemmas.

#[export] Instance handle_count_proper i : Proper ((≡ₚ) ==> (=)) (handle_count i).
Proof.
  intros H1 H2 HP. induction HP; rewrite ?handle_count_cons; lia.
Qed.

#[export] Instance pool_inv_proper : Proper ((≡ₚ) ==> (=) ==> iff) pool_inv.
Proof.
  intros H1 H2 HP p ? <-. split; intros [? Hrc Hfree ? Hh]; split; try done.
  - intros. rewrite <- HP. by apply Hrc.
  - intros. rewrite <- HP. apply Hfree.
  - by rewrite <- HP.
  - intros. rewrite HP. by apply Hrc.
  - intros. rewrite HP. apply Hfree.
  - by rewrite HP.
Qed.

(** ** The pool as a state machine

    Handles are used linearly: a step that consumes a handle needs one.  The
    completion step stands for the CQE of a write whose handle was forgotten. *)
Section Machine.
Context {prof : Profile} (N : Z).

Inductive pool_step : list Z * BufPool -> list Z * BufPool -> Prop :=
| ps_alloc H p b p' :
    alloc_write N p = Ok (b, p') -> pool_step (H, p) (b.(abs_idx) :: H, p')
| ps_clone H p b b' p' :
    b.(abs_idx) ∈ H -> handle_count b.(abs_idx) H + 1 < 2 ^ 32 ->
    WBuffer_clone b p = Ok (b', p') -> pool_step (H, p) (b'.(abs_idx) :: H, p')
| ps_drop H H' p b p' :
    H ≡ₚ b.(abs_idx) :: H' -> WBuffer_drop b p = Ok (tt, p') -> pool_step (H, p) (H', p')
| ps_cqe H H' p i p' :
    H ≡ₚ i :: H' -> on_write_cqe i p = Ok (tt, p') -> pool_step (H, p) (H', p').

Lemma pool_step_inv c c' : pool_step c c' -> pool_inv c.1 c.2 -> pool_inv c'.1 c'.2.
Proof.
  destruct 1 as [H p b p' E|H p b b' p' Hin Hc E|H H' p b p' HP E|H H' p i p' HP E];
    simpl; intros Hp.
  - pose proof (alloc_write_spec N _ _ Hp) as Hs. destruct (write_free p) as [|i rest]; [by rewrite Hs in E|].
    destruct Hs as (p1 & E1 & Hp1 & _). rewrite E1 in E. by injection E as <- <-.
  - destruct (WBuffer_clone_spec _ _ _ Hp Hin Hc) as (p1 & E1 & Hp1 & _).
    rewrite E1 in E. by injection E as <- <-.
  - rewrite HP in Hp. destruct (WBuffer_drop_spec _ _ _ Hp) as (p1 & E1 & Hp1 & _).
    rewrite E1 in E. by injection E as <-.
  - rewrite HP in Hp. destruct (on_write_cqe_spec _ _ _ Hp) as (p1 & E1 & Hp1 & _).
    rewrite E1 in E. by injection E as <-.
Qed.

Lemma pool_run_inv c c' : rtc pool_step c c' -> pool_inv c.1 c.2 -> pool_inv c'.1 c'.2.
Proof. apply (rtc_preserves pool_step (fun c => pool_inv c.1 c.2)), pool_step_inv. Qed.

(** C12: in every state reachable from a new pool by allocating, cloning,
    dropping and completing, a slot is free exactly when no handle to it is
    alive, its stored count is the number of its live handles, and the next
    allocation either returns a slot nobody holds or panics because every
    slot is held. *)
Theorem write_pool_exclusive raw r w p0 H p : 0 < r -> 0 < w -> r + w < 2 ^ 32 ->
  BufPool_new N (Some raw) r w tt = Ok (p0, tt) -> rtc pool_step ([], p0) (H, p) ->
  pool_inv H p /\
  match alloc_write N p with
  | Ok (b, p') => handle_count b.(abs_idx) H = 0 /\
      p.(read_count) <= b.(abs_idx) < p.(read_count) + Z.of_nat (length p.(write_rc)) /\
      pool_inv (b.(abs_idx) :: H) p'
  | Panic msg => msg = "BufPool: write pool épuisé" /\
      (forall i, p.(read_count) <= i < p.(read_count) + Z.of_nat (length p.(write_rc)) -> i ∈ H)
  | Ub _ => False
  end.
Proof.
  intros Hr Hw Hs Hnew Hrun.
  assert (Hp : pool_inv H p).
  { pose proof (BufPool_new_inv N tt raw r w Hr Hw Hs) as Hn. rewrite Hnew in Hn.
    apply (pool_run_inv _ _ Hrun). simpl. apply Hn. }
  split; [done|]. pose proof (alloc_write_spec N _ _ Hp) as Ha.
  destruct (write_free p) as [|i rest] eqn:Hf.
  - rewrite Ha. split; [done|]. intros i Hi. destruct (decide (i ∈ H)) as [|Hni]; [done|exfalso].
    assert (Hin : i ∈ write_free p).
    { apply (pi_free _ _ Hp). split; [done|]. apply count_if_zero, Forall_forall.
      intros j Hj. apply Z.eqb_neq. by intros ->. }
    rewrite Hf in Hin. by apply not_elem_of_nil in Hin.
  - destruct Ha as (p' & -> & Hp' & H0 & _). split; [done|]. split; [|done].
    assert (Hin : i ∈ write_free p) by (rewrite Hf; constructor).
    by apply (pi_free _ _ Hp) in Hin as [? _].
Qed.

End Machine.

(** ** Fixed buffers

    A [WRITE_FIXED] entry names a registered buffer by its index and gives an
    address and a length inside of it. *)
Definition in_registered_buffer (N : Z) (p : BufPool) (e : Entry) : Prop :=
  match e.(e_opcode) with
  | WriteFixedOp _ ptr len buf_index =>
      exists v, zlookup (build_iovecs N p) buf_index = Some v /\
        v.(iov_base) <= ptr /\ ptr + len <= v.(iov_base) + v.(iov_len)
  | _ => True
  end.

Lemma zlookup_iovecs N p i : 0 <= i < p.(read_count) + Z.of_nat (length p.(write_rc)) ->
  zlookup (build_iovecs N p) i = Some (mkIovec (p.(base) + i * BUF_SIZE N) (BUF_SIZE N)).
Proof.
  intros Hi. unfold zlookup, build_iovecs. rewrite (proj2 (Z.leb_le 0 i)) by lia.
  rewrite list_lookup_fmap, lookup_seqZ_lt by lia.
  rewrite Z2Nat.id, Z.add_0_l by lia. done.
Qed.

Lemma iovecs_inside N p i : zlookup (build_iovecs N p) i <> None ->
  0 <= i < p.(read_count) + Z.of_nat (length p.(write_rc)).
Proof.
  intros Hi. destruct (zlookup (build_iovecs N p) i) as [v|] eqn:E; [|done].
  pose proof (zlookup_Some _ _ _ E) as Hr. unfold build_iovecs in Hr.
  rewrite length_fmap, length_seqZ in Hr. lia.
Qed.

(** ** Concrete runs *)
Module BufPoolExamples.
#[local] Existing Instance dev_profile.

Definition small_pool : BufPool := mkBufPool 8192 (5 * 4096, 4096) 2 [2; 3; 4] [0; 0; 0].

Lemma small_pool_new : BufPool_new 1 (Some 8192) 2 3 tt = Ok (small_pool, tt).
Proof. reflexivity. Qed.

Lemma small_pool_inv : pool_inv [] small_pool.
Proof.
  pose proof (BufPool_new_inv 1 tt 8192 2 3 ltac:(lia) ltac:(lia) ltac:(lia)) as H.
  rewrite small_pool_new in H. apply H.
Qed.

Lemma write_pool_exclusive_witness :
  exists p, alloc_write 1 small_pool = Ok (mkWBuffer 16384 2, p) /\ pool_inv [2] p.
Proof.
  exists (mkBufPool 8192 (5 * 4096, 4096) 2 [3; 4] [1; 0; 0]).
  split; [reflexivity|].
  apply (write_pool_exclusive 1 8192 2 3 small_pool [2]); try lia; try reflexivity.
  apply rtc_once. apply (ps_alloc 1 [] small_pool (mkWBuffer 16384 2)). reflexivity.
Defined.
End BufPoolExamples.
