(* ===== verification/Slices.v ===== *)
(** * The bytes of the buffers

    Models the slices over buffer memory of src/src/buf_pool.rs: [read_slice],
    [write_slice], [Deref] and [DerefMut].  The block of the pool is a list of
    bytes; a slice is the address and the length [from_raw_parts] is given, and
    making one outside of the block is undefined.  What bodies do with a slice
    is modelled by the standard operations the crate's tests use on it: an
    indexed store, [copy_from_slice] into a range and [copy_within]. *)

From S2P Require Import Prelude UserData Io BufPool.

(** ** Ranges of a list of bytes *)
Definition slice_of (off n : Z) (mem : list Z) : list Z := take (Z.to_nat n) (drop (Z.to_nat off) mem).
Definition patch (off : Z) (data mem : list Z) : list Z :=
  take (Z.to_nat off) mem ++ data ++ drop (Z.to_nat off + length data) mem.

Lemma length_slice_of off n mem : 0 <= off -> 0 <= n -> off + n <= Z.of_nat (length mem) ->
  Z.of_nat (length (slice_of off n mem)) = n.
Proof. intros. unfold slice_of. rewrite length_take, length_drop. lia. Qed.

Lemma length_patch off data mem : 0 <= off -> off + Z.of_nat (length data) <= Z.of_nat (length mem) ->
  length (patch off data mem) = length mem.
Proof. intros. unfold patch. rewrite !length_app, length_take, length_drop. lia. Qed.

Lemma zlookup_slice_of off n mem i : 0 <= off -> 0 <= i < n ->
  zlookup (slice_of off n mem) i = zlookup mem (off + i).
Proof.
  intros. unfold zlookup, slice_of. rewrite !(proj2 (Z.leb_le 0 _)) by lia.
  rewrite lookup_take_lt by lia. rewrite lookup_drop. f_equal. lia.
Qed.

Lemma zlookup_patch off data mem i : 0 <= off -> off + Z.of_nat (length data) <= Z.of_nat (length mem) ->
  zlookup (patch off data mem) i =
    if (off <=? i) && (i <? off + Z.of_nat (length data)) then zlookup data (i - off) else zlookup mem i.
Proof.
  intros H0 Hl. unfold patch. rewrite !zlookup_app, length_take.
  replace (Z.of_nat (Z.to_nat off `min` length mem)) with off by lia.
  destruct (Z.ltb_spec i off); [rewrite (proj2 (Z.leb_gt off i)) by lia; cbn [andb]|].
  - unfold zlookup. destruct (Z.leb_spec 0 i); [|done]. apply lookup_take_lt. lia.
  - rewrite (proj2 (Z.leb_le off i)) by lia. cbn [andb].
    destruct (Z.ltb_spec (i - off) (Z.of_nat (length data))), (Z.ltb_spec i (off + Z.of_nat (length data)));
      try lia; [done|].
    unfold zlookup. rewrite !(proj2 (Z.leb_le 0 _)) by lia. rewrite lookup_drop. f_equal. lia.
Qed.

(** Two ranges of one length agree when they agree byte by byte. *)
Lemma slice_of_ext off off' n mem mem' : 0 <= off -> 0 <= off' ->
  off + n <= Z.of_nat (length mem) -> off' + n <= Z.of_nat (length mem') ->
  (forall i, 0 <= i < n -> zlookup mem (off + i) = zlookup mem' (off' + i)) ->
  slice_of off n mem = slice_of off' n mem'.
Proof.
  intros H1 H2 H3 H4 He. apply list_eq. intros k. unfold slice_of.
  destruct (decide (Z.of_nat k < n)) as [Hk|Hk].
  - rewrite !lookup_take_lt, !lookup_drop by lia. specialize (He (Z.of_nat k) ltac:(lia)).
    unfold zlookup in He. rewrite !(proj2 (Z.leb_le 0 _)) in He by lia.
    replace (Z.to_nat (off + Z.of_nat k)) with (Z.to_nat off + k)%nat in He by lia.
    by replace (Z.to_nat (off' + Z.of_nat k)) with (Z.to_nat off' + k)%nat in He by lia.
  - rewrite !lookup_take_ge by lia. done.
Qed.

Lemma slice_of_app off n m mem : 0 <= off -> 0 <= n -> 0 <= m ->
  slice_of off (n + m) mem = slice_of off n mem ++ slice_of (off + n) m mem.
Proof.
  intros. unfold slice_of. rewrite Z2Nat.inj_add, <- take_take_drop, drop_drop by lia.
  by rewrite <- Z2Nat.inj_add by lia.
Qed.

Lemma slice_of_patch off data mem : 0 <= off -> off + Z.of_nat (length data) <= Z.of_nat (length mem) ->
  slice_of off (Z.of_nat (length data)) (patch off data mem) = data.
Proof.
  intros. unfold slice_of, patch. rewrite drop_app_length'; [|rewrite length_take; lia].
  rewrite Nat2Z.id. apply take_app_length.
Qed.

(** ** Slices *)
Record Slice := mkSlice { sl_ptr : Z; sl_len : Z }.

Section Slices.
Context `{!Profile} (N : Z) (p : BufPool).

(** [slice::from_raw_parts] and [from_raw_parts_mut]. *)
Definition from_raw_parts (ptr len : Z) : M (list Z) Slice := fun mem =>
  if (p.(base) <=? ptr) && (0 <=? len) && (ptr + len <=? p.(base) + Z.of_nat (length mem))
  then Ok (mkSlice ptr len, mem)
  else Ub "slice outside of the buffer pool".

Definition RwBuffer_read_slice (b : RwBuffer) : M (list Z) Slice := from_raw_parts b.(rw_ptr) b.(bytes).
Definition RwBuffer_write_slice (b : RwBuffer) : M (list Z) Slice := from_raw_parts b.(rw_ptr) (BUF_SIZE N).
Definition WBuffer_write_slice (b : WBuffer) : M (list Z) Slice := from_raw_parts b.(w_ptr) (BUF_SIZE N).
Definition WBuffer_deref (b : WBuffer) : M (list Z) Slice := from_raw_parts b.(w_ptr) (N * PAGE_SIZE).
Definition WBuffer_deref_mut (b : WBuffer) : M (list Z) Slice := from_raw_parts b.(w_ptr) (N * PAGE_SIZE).

(** What a slice shows. *)
Definition contents (s : Slice) (mem : list Z) : list Z := slice_of (s.(sl_ptr) - p.(base)) s.(sl_len) mem.

(** [s[off .. off + data.len()].copy_from_slice(data)]. *)
Definition slice_write (s : Slice) (off : Z) (data : list Z) : M (list Z) unit :=
  assert_ ((0 <=? off) && (off + Z.of_nat (length data) <=? s.(sl_len))) "range end index out of range" ;;!
  modify (patch (s.(sl_ptr) - p.(base) + off) data).

(** [s[off] = v]. *)
Definition slice_store (s : Slice) (off v : Z) : M (list Z) unit :=
  assert_ ((0 <=? off) && (off <? s.(sl_len))) "index out of bounds" ;;!
  modify (patch (s.(sl_ptr) - p.(base) + off) [v]).

(** [s.copy_within(lo..hi, dest)]. *)
Definition copy_within (s : Slice) (lo hi dest : Z) : M (list Z) unit :=
  assert_ ((0 <=? lo) && (lo <=? hi)) "slice index starts after it ends" ;;!
  assert_ (hi <=? s.(sl_len)) "range end index out of range" ;;!
  assert_ ((0 <=? dest) && (dest <=? s.(sl_len) - (hi - lo))) "dest is out of bounds" ;;!
  let! mem := get in
  modify (patch (s.(sl_ptr) - p.(base) + dest) (slice_of (s.(sl_ptr) - p.(base) + lo) (hi - lo) mem)).
End Slices.

(** The bytes a write entry sends. *)
Definition sent (p : BufPool) (op : Opcode) (mem : list Z) : list Z :=
  match op with
  | WriteFixedOp _ ptr len _ => slice_of (ptr - p.(base)) len mem
  | _ => []
  end.

(** ** The block of a pool *)
Record pool_mem (N : Z) (p : BufPool) (mem : list Z) : Prop := {
  pm_N : 0 < N;
  pm_count : 0 <= p.(read_count);
  pm_len : Z.of_nat (length mem) = (p.(read_count) + Z.of_nat (length p.(write_rc))) * BUF_SIZE N;
}.

(** The slice that covers slot [i]. *)
Definition slot_slice (N : Z) (p : BufPool) (i : Z) : Slice := mkSlice (p.(base) + i * BUF_SIZE N) (BUF_SIZE N).

(** [s] lies in the block. *)
Definition inside (p : BufPool) (s : Slice) (mem : list Z) : Prop :=
  p.(base) <= s.(sl_ptr) /\ 0 <= s.(sl_len) /\ s.(sl_ptr) + s.(sl_len) <= p.(base) + Z.of_nat (length mem).

(** The operations on a slice, as data. *)
Inductive SliceOp :=
| OpStore (off v : Z)
| OpWrite (off : Z) (data : list Z)
| OpCopyWithin (lo hi dest : Z).

Definition slice_exec (p : BufPool) (s : Slice) (op : SliceOp) : M (list Z) unit :=
  match op with
  | OpStore off v => slice_store p s off v
  | OpWrite off data => slice_write p s off data
  | OpCopyWithin lo hi dest => copy_within p s lo hi dest
  end.

(** [mem'] is [mem] except inside [s]. *)
Definition differs_in (p : BufPool) (s : Slice) (mem mem' : list Z) : Prop :=
  length mem' = length mem /\
  forall k, k < s.(sl_ptr) - p.(base) \/ s.(sl_ptr) - p.(base) + s.(sl_len) <= k ->
    zlookup mem' k = zlookup mem k.

#[export] Instance differs_in_preorder p s : PreOrder (differs_in p s).
Proof.
  split; [done|]. intros m1 m2 m3 [L1 H1] [L2 H2]. split; [congruence|].
  intros k Hk. by rewrite H2, H1.
Qed.

Section SliceLemmas.
Context {prof : Profile} (N : Z) (p : BufPool).

Lemma BUF_SIZE_pos : 0 < N -> 0 < BUF_SIZE N.
Proof. unfold BUF_SIZE, PAGE_SIZE. lia. Qed.

Lemma from_raw_parts_ok ptr n mem : inside p (mkSlice ptr n) mem ->
  from_raw_parts p ptr n mem = Ok (mkSlice ptr n, mem).
Proof.
  intros (H1 & H2 & H3). cbn in *. unfold from_raw_parts. by rewrite !(proj2 (Z.leb_le _ _)).
Qed.

Lemma slot_inside mem i n : pool_mem N p mem ->
  0 <= i < p.(read_count) + Z.of_nat (length p.(write_rc)) -> 0 <= n <= BUF_SIZE N ->
  inside p (mkSlice (p.(base) + i * BUF_SIZE N) n) mem.
Proof.
  intros [HN Hc Hl] Hi Hn. pose proof (BUF_SIZE_pos HN). unfold inside. cbn. rewrite Hl. nia.
Qed.

Lemma patch_differs s off data mem : inside p s mem ->
  0 <= off -> off + Z.of_nat (length data) <= s.(sl_len) ->
  differs_in p s mem (patch (s.(sl_ptr) - p.(base) + off) data mem).
Proof.
  intros (H1 & H2 & H3) H4 H5. split; [apply length_patch; lia|].
  intros k Hk. rewrite zlookup_patch by lia.
  destruct (Z.leb_spec (sl_ptr s - base p + off) k); [|done]. cbn [andb].
  destruct (Z.ltb_spec k (sl_ptr s - base p + off + Z.of_nat (length data))); [lia|done].
Qed.

(** No operation on a slice of the block is undefined, and none changes a byte
    outside of the slice. *)
Lemma slice_exec_differs s op mem : inside p s mem ->
  wp (slice_exec p s op) (fun _ mem' => differs_in p s mem mem') mem.
Proof.
  intros Hs. destruct op as [off v|off data|lo hi dest]; cbn [slice_exec].
  - apply wp_bind, wp_assert. intros [?%Z.leb_le ?%Z.ltb_lt]%andb_true_iff. apply wp_modify.
    apply patch_differs; cbn; [done|lia..].
  - apply wp_bind, wp_assert. intros [?%Z.leb_le ?%Z.leb_le]%andb_true_iff. apply wp_modify.
    by apply patch_differs.
  - unfold copy_within. apply wp_bind, wp_assert. intros [?%Z.leb_le ?%Z.leb_le]%andb_true_iff.
    apply wp_bind, wp_assert. intros ?%Z.leb_le.
    apply wp_bind, wp_assert. intros [?%Z.leb_le ?%Z.leb_le]%andb_true_iff.
    apply wp_bind, wp_get, wp_modify. pose proof Hs as (Hs1 & Hs2 & Hs3).
    apply patch_differs; [done..|]. rewrite length_slice_of; lia.
Qed.

Lemma slice_execs_differs s ops mem : inside p s mem ->
  wp (for_each ops (slice_exec p s)) (fun _ mem' => differs_in p s mem mem') mem.
Proof.
  revert mem. induction ops as [|op ops IH]; intros mem Hs; cbn [for_each]; [by apply wp_ret|].
  apply wp_bind. eapply wp_mono; [by apply slice_exec_differs|]. intros [] m1 H1.
  assert (Hs1 : inside p s m1) by (destruct Hs as (? & ? & ?), H1 as [L _]; unfold inside; rewrite L; done).
  eapply wp_mono; [by apply IH|]. intros [] m2 H2. by transitivity m1.
Qed.

(** Two slots have no byte in common. *)
Lemma slots_disjoint i j n mem mem' : 0 < N -> i <> j -> 0 <= j -> 0 <= n <= BUF_SIZE N ->
  (j + 1) * BUF_SIZE N <= Z.of_nat (length mem) ->
  differs_in p (slot_slice N p i) mem mem' ->
  slice_of (j * BUF_SIZE N) n mem' = slice_of (j * BUF_SIZE N) n mem.
Proof.
  intros HN Hij Hj Hn Hl [L Hd]. pose proof (BUF_SIZE_pos HN). cbn in Hd.
  apply slice_of_ext; rewrite ?L; try nia. intros k Hk. apply Hd. nia.
Qed.
End SliceLemmas.
