(* ===== verification/BufRing.v ===== *)
(** * The provided-buffer ring

    Models the buffer ring of src/src/runtime.rs: its initialisation in
    [Runtime::new] and [release_buf_to_ring].  The ring is the raw memory the
    code writes through pointers, a list of bytes; each 16-byte entry holds an
    address at offset 0, a length at 8 and a buffer id at 12, and the tail lives
    in the last two bytes of entry 0.  A write outside of the memory is an
    undefined access. *)

From S2P Require Import Prelude UserData Io BufPool.

(** [ptr.add(off).write(v)] for an [n]-byte integer. *)
Definition wr (n : nat) (off v : Z) : M (list Z) unit := fun mem =>
  if (0 <=? off) && (off + Z.of_nat n <=? Z.of_nat (length mem))
  then Ok (tt, take (Z.to_nat off) mem ++ le_bytes n v ++ drop (Z.to_nat off + n) mem)
  else Ub "write outside of the buffer ring".

(** [ptr.add(off).read()]. *)
Definition peek (n : nat) (off : Z) (mem : list Z) : Z :=
  of_le (take n (drop (Z.to_nat off) mem)).

Definition rd (n : nat) (off : Z) : M (list Z) Z := fun mem =>
  if (0 <=? off) && (off + Z.of_nat n <=? Z.of_nat (length mem))
  then Ok (peek n off mem, mem)
  else Ub "read outside of the buffer ring".

Definition TAIL_OFFSET : Z := 14.

Section BufRing.
Context `{!Profile}.

(** The loop of [Runtime::new] over the read buffers, from index [i]. *)
Definition init_entry (iovecs : list iovec) (i : Z) : M (list Z) unit :=
  match zlookup iovecs i with
  | Some v =>
      let entry := i * 16 in
      wr 8 entry v.(iov_base) ;;!
      wr 4 (entry + 8) (as_u32 v.(iov_len)) ;;!
      wr 2 (entry + 12) (as_u16 i)
  | None => panic "index out of bounds"
  end.

(** [alloc_zeroed], the loop, then the tail. *)
Definition init_buf_ring {S} (iovecs : list iovec) (read_count : Z) : M S (list Z) := fun s =>
  let init :=
    for_each (seqZ 0 read_count) (init_entry iovecs) ;;!
    wr 2 TAIL_OFFSET (as_u16 read_count) in
  match init (replicate (Z.to_nat (read_count * 16)) 0) with
  | Ok (_, mem) => Ok (mem, s)
  | Panic msg => Panic msg
  | Ub what => Ub what
  end.

Definition release_buf_to_ring (buffer : BufPool) (buf_idx : Z) : M (list Z) unit :=
  let ring_entries := buffer.(read_count) in
  let mask := ring_entries - 1 in
  let! tail := rd 2 TAIL_OFFSET in
  let slot := Z.land tail mask * 16 in
  let! addr := read_buf_addr 1 buffer buf_idx in
  wr 8 slot addr ;;!
  wr 4 (slot + 8) (as_u32 (BUF_SIZE 1)) ;;!
  wr 2 (slot + 12) (as_u16 buf_idx) ;;!
  wr 2 TAIL_OFFSET (as_u16 (tail + 1)).
End BufRing.

(** ** The ring as the kernel reads it *)
Record RingEntry := mkRingEntry { re_addr : Z; re_len : Z; re_bid : Z }.

Definition ring_entry (mem : list Z) (i : Z) : RingEntry :=
  mkRingEntry (peek 8 (i * 16) mem) (peek 4 (i * 16 + 8) mem) (peek 2 (i * 16 + 12) mem).

Definition ring_tail (mem : list Z) : Z := peek 2 TAIL_OFFSET mem.

(** The buffer ids between the kernel's head and the tail, oldest first. *)
Definition available (entries head : Z) (mem : list Z) : list Z :=
  (fun k => re_bid (ring_entry mem ((head + k) mod entries))) <$>
    seqZ 0 ((ring_tail mem - head) mod 2 ^ 16).

(** ** Reading back what was written *)
Lemma length_splice n off v mem :
  0 <= off -> off + Z.of_nat n <= Z.of_nat (length mem) ->
  length (take (Z.to_nat off) mem ++ le_bytes n v ++ drop (Z.to_nat off + n) mem) = length mem.
Proof.
  intros. rewrite !length_app, length_le_bytes, length_take, length_drop. lia.
Qed.

Lemma wr_ok n off v mem :
  0 <= off -> off + Z.of_nat n <= Z.of_nat (length mem) ->
  exists mem', wr n off v mem = Ok (tt, mem') /\ length mem' = length mem /\
    peek n off mem' = v mod 256 ^ Z.of_nat n /\
    (forall n' off', 0 <= off' -> off' + Z.of_nat n' <= off \/ off + Z.of_nat n <= off' ->
       off' + Z.of_nat n' <= Z.of_nat (length mem) -> peek n' off' mem' = peek n' off' mem).
Proof.
  intros H0 Hn. unfold wr.
  rewrite (proj2 (Z.leb_le 0 off)), (proj2 (Z.leb_le _ _)) by done. simpl.
  eexists. split; [done|]. split; [by apply length_splice|].
  assert (Ht : length (take (Z.to_nat off) mem) = Z.to_nat off) by (rewrite length_take; lia).
  split.
  - unfold peek. rewrite drop_app_length' by done.
    rewrite take_app_length' by (by rewrite length_le_bytes). by rewrite of_le_le_bytes.
  - intros n' off' Ho' [Hd|Hd] Hl'; unfold peek; f_equal.
    + rewrite drop_app_le by lia. rewrite take_app_le by (rewrite length_drop; lia).
      rewrite skipn_firstn_comm, take_take. f_equal. lia.
    + rewrite drop_app_ge by lia. rewrite drop_app_ge by (rewrite length_le_bytes; lia).
      rewrite drop_drop, length_le_bytes. do 2 f_equal. lia.
Qed.

Lemma rd_ok n off mem :
  0 <= off -> off + Z.of_nat n <= Z.of_nat (length mem) -> rd n off mem = Ok (peek n off mem, mem).
Proof.
  intros. unfold rd. by rewrite (proj2 (Z.leb_le 0 off)), (proj2 (Z.leb_le _ _)) by done.
Qed.

(** Peeks of a ring made of bytes are in range. *)
Lemma peek_bound n off mem : Forall is_byte mem -> 0 <= peek n off mem < 256 ^ Z.of_nat n.
Proof.
  intros Hm. unfold peek.
  assert (Hf : Forall is_byte (take n (drop (Z.to_nat off) mem))) by by apply Forall_take, Forall_drop.
  pose proof (of_le_bound _ Hf) as Hb.
  assert (256 ^ Z.of_nat (length (take n (drop (Z.to_nat off) mem))) <= 256 ^ Z.of_nat n); [|lia].
  apply Z.pow_le_mono_r; [lia|]. rewrite length_take. lia.
Qed.

Lemma wr_bytes n off v mem mem' : wr n off v mem = Ok (tt, mem') -> Forall is_byte mem -> Forall is_byte mem'.
Proof.
  unfold wr. destruct (_ && _); [|done]. intros [= <-] Hm.
  rewrite !Forall_app. split_and!; [by apply Forall_take|apply le_bytes_byte|by apply Forall_drop].
Qed.

(** Writing one entry: its three fields change, the tail and the other entries
    do not. *)
Record entry_written (mem mem' : list Z) (i : Z) (e : RingEntry) : Prop := {
  ew_length : length mem' = length mem;
  ew_bytes : Forall is_byte mem -> Forall is_byte mem';
  ew_tail : ring_tail mem' = ring_tail mem;
  ew_same : ring_entry mem' i = e;
  ew_other : forall j, 0 <= j -> j <> i -> j * 16 + 16 <= Z.of_nat (length mem) ->
    ring_entry mem' j = ring_entry mem j;
}.

Lemma write_entry mem i addr ln bid :
  0 <= i -> i * 16 + 16 <= Z.of_nat (length mem) -> fits 64 addr ->
  exists mem', (wr 8 (i * 16) addr ;;! wr 4 (i * 16 + 8) (as_u32 ln) ;;!
                wr 2 (i * 16 + 12) (as_u16 bid)) mem = Ok (tt, mem') /\
    entry_written mem mem' i (mkRingEntry addr (as_u32 ln) (as_u16 bid)).
Proof.
  intros Hi Hm Ha.
  destruct (wr_ok 8 (i * 16) addr mem ltac:(lia) ltac:(lia)) as (m1 & E1 & L1 & S1 & D1).
  destruct (wr_ok 4 (i * 16 + 8) (as_u32 ln) m1 ltac:(lia) ltac:(lia)) as (m2 & E2 & L2 & S2 & D2).
  destruct (wr_ok 2 (i * 16 + 12) (as_u16 bid) m2 ltac:(lia) ltac:(lia)) as (m3 & E3 & L3 & S3 & D3).
  exists m3. split.
  { rewrite (bind_step _ _ _ _ _ E1), (bind_step _ _ _ _ _ E2). done. }
  split.
  - lia.
  - intros Hb. eapply wr_bytes; [done|]. eapply wr_bytes; [done|]. by eapply wr_bytes.
  - unfold ring_tail, TAIL_OFFSET. rewrite D3, D2, D1; try done; lia.
  - unfold ring_entry. f_equal.
    + rewrite D3, D2 by lia. rewrite S1. apply Z.mod_small. unfold fits in Ha. simpl. lia.
    + rewrite D3 by lia. rewrite S2. apply Z.mod_small. pose proof (wrap_bound 32 ln). simpl. lia.
    + rewrite S3. apply Z.mod_small. pose proof (wrap_bound 16 bid). simpl. lia.
  - intros j Hj Hne Hl. unfold ring_entry. f_equal; (rewrite D3, D2, D1; [done|lia..]).
Qed.

(** A ring of [R] entries, [R] a power of two that fits the 16-bit tail. *)
Definition ring_wf (R : Z) (mem : list Z) : Prop :=
  (exists k, 0 <= k <= 15 /\ R = 2 ^ k) /\ Z.of_nat (length mem) = R * 16 /\ Forall is_byte mem.

Lemma ring_wf_bound R mem : ring_wf R mem -> 0 < R <= 32768 /\ 2 ^ 16 mod R = 0 /\ 16 <= R * 16.
Proof.
  intros [(k & Hk & ->) _]. pose proof (Z.pow_le_mono_r 2 k 15 ltac:(lia) ltac:(lia)).
  pose proof (Z.pow_pos_nonneg 2 k ltac:(lia) ltac:(lia)). change (2 ^ 15) with 32768 in *.
  split_and!; try lia. replace 16 with (16 - k + k) by lia. rewrite Z.pow_add_r by lia.
  apply Z.mod_mul. lia.
Qed.

Lemma land_mask R tail : (exists k, 0 <= k <= 15 /\ R = 2 ^ k) -> Z.land tail (R - 1) = tail mod R.
Proof.
  intros (k & Hk & ->). rewrite <- land_low by lia. f_equal.
  rewrite Z.ones_equiv. lia.
Qed.

Section RingLemmas.
Context {prof : Profile}.

(** The byte-level release, as a write of one ring entry and a step of the
    tail modulo 2^16. *)
Lemma release_spec buffer mem b :
  ring_wf buffer.(read_count) mem -> 0 <= b < buffer.(read_count) ->
  fits 64 (buffer.(base) + b * BUF_SIZE 1) ->
  exists mem', release_buf_to_ring buffer b mem = Ok (tt, mem') /\
    ring_wf buffer.(read_count) mem' /\
    ring_tail mem' = (ring_tail mem + 1) mod 2 ^ 16 /\
    ring_entry mem' (ring_tail mem mod buffer.(read_count)) =
      mkRingEntry (buffer.(base) + b * BUF_SIZE 1) (BUF_SIZE 1) b /\
    (forall j, 0 <= j < buffer.(read_count) -> j <> ring_tail mem mod buffer.(read_count) ->
       ring_entry mem' j = ring_entry mem j).
Proof.
  intros Hwf Hb Ha. pose proof (ring_wf_bound _ _ Hwf) as (HR & _ & _).
  destruct Hwf as (Hpow & Hlen & Hby). set (R := read_count buffer) in *.
  set (t := ring_tail mem).
  assert (Hslot : 0 <= t mod R < R) by (apply Z.mod_pos_bound; lia).
  destruct (write_entry mem (t mod R) (base buffer + b * BUF_SIZE 1) (BUF_SIZE 1) b)
    as (m1 & E1 & W1); [lia|lia|done|].
  destruct (wr_ok 2 TAIL_OFFSET (as_u16 (t + 1)) m1) as (m2 & E2 & L2 & S2 & D2);
    [unfold TAIL_OFFSET; lia|rewrite (ew_length _ _ _ _ W1); unfold TAIL_OFFSET; lia|].
  exists m2. split.
  { unfold release_buf_to_ring. fold R.
    rewrite (bind_step _ _ _ t mem) by (apply rd_ok; unfold TAIL_OFFSET; lia).
    rewrite land_mask by done.
    unfold read_buf_addr, debug_assert, assert_. fold R. rewrite (proj2 (Z.ltb_lt _ _)) by lia.
    match goal with |- bind (bind ?d ?k) _ _ = _ =>
      rewrite (bind_step (bind d k) _ mem (base buffer + b * BUF_SIZE 1) mem) by (by destruct debug_checks) end.
    revert E1. unfold bind at 1 3. destruct (wr 8 _ _ mem) as [[[] ma]|?|?]; [|done|done].
    unfold bind at 1 2. destruct (wr 4 _ _ ma) as [[[] mb]|?|?]; [|done|done].
    intros E1. rewrite (bind_step _ _ _ _ _ E1). done. }
  assert (Hother : forall j, 0 <= j < R -> ring_entry m2 j = ring_entry m1 j).
  { intros j Hj. pose proof (ew_length _ _ _ _ W1). unfold ring_entry.
    f_equal; apply D2; unfold TAIL_OFFSET; lia. }
  split_and!.
  - split_and!; [done|rewrite L2, (ew_length _ _ _ _ W1); done|].
    eapply wr_bytes; [done|]. by apply (ew_bytes _ _ _ _ W1).
  - unfold ring_tail at 1. rewrite S2. unfold wrap. apply Z.mod_mod. lia.
  - rewrite Hother by lia. rewrite (ew_same _ _ _ _ W1). f_equal; apply wrap_small; unfold fits, BUF_SIZE, PAGE_SIZE; lia.
  - intros j Hj Hne. rewrite Hother by lia. apply (ew_other _ _ _ _ W1); lia.
Qed.

(** The initialisation loop. *)
Lemma init_loop iovecs R mem (n : nat) :
  Z.of_nat (length mem) = R * 16 -> 0 <= Z.of_nat n <= R -> R < 2 ^ 16 ->
  Z.of_nat (length iovecs) >= R ->
  (forall i v, zlookup iovecs i = Some v -> fits 64 v.(iov_base) /\ fits 32 v.(iov_len)) ->
  Forall is_byte mem ->
  exists mem', for_each (seqZ 0 (Z.of_nat n)) (init_entry iovecs) mem = Ok (tt, mem') /\
    length mem' = length mem /\ Forall is_byte mem' /\
    (forall i v, 0 <= i < Z.of_nat n -> zlookup iovecs i = Some v ->
       ring_entry mem' i = mkRingEntry v.(iov_base) v.(iov_len) i).
Proof.
  intros Hlen Hn HR Hio Hv. revert Hn.
  assert (Hgen : forall a (k : nat) mem, 0 <= a -> a + Z.of_nat k <= R -> Z.of_nat (length mem) = R * 16 ->
    Forall is_byte mem ->
    exists mem', for_each (seqZ a (Z.of_nat k)) (init_entry iovecs) mem = Ok (tt, mem') /\
      length mem' = length mem /\ Forall is_byte mem' /\
      (forall i, 0 <= i < a -> ring_entry mem' i = ring_entry mem i) /\
      (forall i v, a <= i < a + Z.of_nat k -> zlookup iovecs i = Some v ->
         ring_entry mem' i = mkRingEntry v.(iov_base) v.(iov_len) i)).
  { clear mem Hlen n. intros a k. revert a. induction k as [|k IH]; intros a mem Ha Hk Hlen Hby.
    - rewrite seqZ_nil by lia. exists mem. split_and!; try done. intros; lia.
    - rewrite seqZ_cons by lia. destruct (zlookup_lt iovecs a ltac:(lia)) as [v Ev].
      destruct (Hv _ _ Ev) as [Hvb Hvl].
      destruct (write_entry mem a (iov_base v) (iov_len v) a) as (m1 & E1 & W1); [lia|lia|done|].
      pose proof (ew_length _ _ _ _ W1) as L1.
      destruct (IH (Z.succ a) m1 ltac:(lia) ltac:(lia) ltac:(lia)) as (m2 & E2 & L2 & B2 & O2 & N2).
      { by apply (ew_bytes _ _ _ _ W1). }
      exists m2. split_and!.
      + simpl. unfold init_entry at 1. rewrite Ev.
        rewrite (bind_step _ _ _ _ _ E1). replace (Z.pred (Z.of_nat (S k))) with (Z.of_nat k) by lia. done.
      + lia.
      + done.
      + intros i Hi. rewrite O2 by lia. apply (ew_other _ _ _ _ W1); lia.
      + intros i v' Hi Ev'. destruct (decide (i = a)) as [->|Hne].
        * rewrite O2, (ew_same _ _ _ _ W1) by lia. rewrite Ev in Ev'. injection Ev' as <-.
          rewrite !wrap_small by (unfold fits in *; lia). done.
        * apply N2; [lia|done]. }
  intros Hn Hby. destruct (Hgen 0 n mem) as (m' & E & L & B & _ & Hn'); [lia|lia|done|done|].
  exists m'. split_and!; done.
Qed.
End RingLemmas.

(** ** The ring as a queue *)
Section Queue.
Context {prof : Profile}.

(** Indices into the ring do not see the wrap-around of the 16-bit counters. *)
Lemma mod_ring R x : 0 < R -> 2 ^ 16 mod R = 0 -> (x mod 2 ^ 16) mod R = x mod R.
Proof.
  intros HR Hd. apply Z.mod_mod_divide. apply Z.mod_divide; [lia|done].
Qed.

(** The entries a reader at [head] goes through up to [tail], oldest first. *)
Definition view (R head tail : Z) (mem : list Z) : list RingEntry :=
  (fun k => ring_entry mem ((head + k) mod R)) <$> seqZ 0 ((tail - head) mod 2 ^ 16).

Lemma available_view R head mem : available R head mem = re_bid <$> view R head (ring_tail mem) mem.
Proof. unfold view. by rewrite <- list_fmap_compose. Qed.

Section View.
Context (R head t : Z) (mem mem' : list Z) (HR : 0 < R <= 32768) (Hd : 2 ^ 16 mod R = 0)
  (Hroom : (t - head) mod 2 ^ 16 < R)
  (Hother : forall j, 0 <= j < R -> j <> t mod R -> ring_entry mem' j = ring_entry mem j).

Lemma view_index k : (head + k) mod R = (t + (k - (t - head) mod 2 ^ 16)) mod R.
Proof using HR Hd.
  rewrite <- (mod_ring R (head + k)), <- (mod_ring R (t + _)) by lia. f_equal.
  rewrite <- (Zplus_mod_idemp_r (k - (t - head) mod 2 ^ 16)), Zminus_mod_idemp_r, Zplus_mod_idemp_r.
  f_equal. lia.
Qed.

(** Writing the entry at the tail does not show before the tail moves... *)
Lemma view_same : view R head t mem' = view R head t mem.
Proof using HR Hd Hroom Hother.
  set (c := (t - head) mod 2 ^ 16) in *. unfold view. fold c.
  apply list_fmap_ext. intros i k [-> Hk]%lookup_seqZ. cbv beta. apply Hother; [apply Z.mod_pos_bound; lia|].
  rewrite view_index. fold c. intros Heq.
  assert (Hm : (t - (t + (0 + Z.of_nat i - c))) mod R = 0) by (rewrite Zminus_mod, Heq, Z.sub_diag; apply Z.mod_0_l; lia).
  rewrite Z.mod_small in Hm by lia. lia.
Qed.

(** ... and shows as one entry more when it has. *)
Lemma view_snoc : view R head ((t + 1) mod 2 ^ 16) mem' = view R head t mem ++ [ring_entry mem' (t mod R)].
Proof using HR Hd Hroom Hother.
  rewrite <- view_same. unfold view.
  assert (Hc : ((t + 1) mod 2 ^ 16 - head) mod 2 ^ 16 = (t - head) mod 2 ^ 16 + 1).
  { rewrite Zminus_mod_idemp_l. replace (t + 1 - head) with (t - head + 1) by lia.
    rewrite <- Zplus_mod_idemp_l. apply Z.mod_small. pose proof (Z.mod_pos_bound (t - head) (2 ^ 16)). lia. }
  pose proof (Z.mod_pos_bound (t - head) (2 ^ 16) ltac:(lia)).
  rewrite Hc, seqZ_app, fmap_app by lia. f_equal. rewrite seqZ_cons, seqZ_nil by lia.
  cbn [fmap list_fmap]. rewrite view_index. do 3 f_equal. lia.
Qed.
End View.

Lemma available_release buffer mem mem' head b :
  ring_wf buffer.(read_count) mem -> 0 <= b < buffer.(read_count) ->
  fits 64 (buffer.(base) + b * BUF_SIZE 1) ->
  (ring_tail mem - head) mod 2 ^ 16 < buffer.(read_count) ->
  release_buf_to_ring buffer b mem = Ok (tt, mem') ->
  available buffer.(read_count) head mem' = available buffer.(read_count) head mem ++ [b].
Proof.
  intros Hwf Hb Ha Hroom He. pose proof (ring_wf_bound _ _ Hwf) as (HR & Hd & _).
  destruct (release_spec _ _ _ Hwf Hb Ha) as (m & E & _ & Ht & Hs & Ho).
  rewrite E in He. injection He as <-.
  rewrite !available_view, Ht, (view_snoc _ _ _ mem m HR Hd Hroom Ho), fmap_app, Hs. done.
Qed.

Lemma available_pick R head mem b rest :
  ring_wf R mem -> available R head mem = b :: rest ->
  available R ((head + 1) mod 2 ^ 16) mem = rest.
Proof.
  intros Hwf Hav. pose proof (ring_wf_bound _ _ Hwf) as (HR & Hd & _). unfold available in *.
  set (c := (ring_tail mem - head) mod 2 ^ 16) in *.
  assert (Hc : 0 < c < 2 ^ 16).
  { pose proof (Z.mod_pos_bound (ring_tail mem - head) (2 ^ 16) ltac:(lia)).
    destruct (Z.eq_dec c 0) as [E|]; [|unfold c in *; lia]. rewrite E in Hav. done. }
  assert (Hc' : (ring_tail mem - (head + 1) mod 2 ^ 16) mod 2 ^ 16 = c - 1).
  { rewrite Zminus_mod_idemp_r. replace (ring_tail mem - (head + 1)) with (ring_tail mem - head - 1) by lia.
    rewrite <- Zminus_mod_idemp_l. fold c. apply Z.mod_small. lia. }
  rewrite Hc'. rewrite seqZ_cons in Hav by lia. simpl in Hav. injection Hav as _ <-.
  replace (Z.pred c) with (c - 1) by lia. change (Z.succ 0) with 1.
  assert (seqZ 1 (c - 1) = Z.add 1 <$> seqZ 0 (c - 1)) as -> by by rewrite fmap_add_seqZ.
  rewrite <- list_fmap_compose.
  apply list_fmap_ext. intros i k Hk. unfold compose.
  assert (((head + 1) mod 2 ^ 16 + k) mod R = (head + (1 + k)) mod R) as ->; [|done].
  rewrite <- (mod_ring R ((head + 1) mod 2 ^ 16 + k)), <- (mod_ring R (head + (1 + k))) by lia.
  rewrite Zplus_mod_idemp_l. do 2 f_equal. lia.
Qed.

Lemma available_length R head mem : Z.of_nat (length (available R head mem)) = (ring_tail mem - head) mod 2 ^ 16.
Proof.
  unfold available. rewrite length_fmap, length_seqZ.
  pose proof (Z.mod_pos_bound (ring_tail mem - head) (2 ^ 16) ltac:(lia)). lia.
Qed.

Lemma init_ring buffer {S} (s : S) :
  (exists k, 0 <= k <= 15 /\ buffer.(read_count) = 2 ^ k) -> 0 <= buffer.(base) ->
  buffer.(base) + (buffer.(read_count) + Z.of_nat (length buffer.(write_rc))) * BUF_SIZE 1 <= 2 ^ 64 ->
  exists mem, init_buf_ring (build_iovecs 1 buffer) buffer.(read_count) s = Ok (mem, s) /\
    ring_wf buffer.(read_count) mem /\
    available buffer.(read_count) 0 mem = seqZ 0 buffer.(read_count) /\
    (forall i, 0 <= i < buffer.(read_count) ->
       ring_entry mem i = mkRingEntry (buffer.(base) + i * BUF_SIZE 1) (BUF_SIZE 1) i).
Proof.
  intros Hpow Hb0 Hb. set (R := read_count buffer) in *.
  assert (HR : 0 < R <= 32768).
  { destruct Hpow as (k & Hk & ->). pose proof (Z.pow_le_mono_r 2 k 15 ltac:(lia) ltac:(lia)).
    pose proof (Z.pow_pos_nonneg 2 k ltac:(lia) ltac:(lia)). change (2 ^ 15) with 32768 in *. lia. }
  set (mem0 := replicate (Z.to_nat (R * 16)) 0).
  assert (L0 : Z.of_nat (length mem0) = R * 16) by (unfold mem0; rewrite length_replicate; lia).
  assert (B0 : Forall is_byte mem0) by (apply Forall_replicate; unfold is_byte; lia).
  destruct (init_loop (build_iovecs 1 buffer) R mem0 (Z.to_nat R) L0) as (m1 & E1 & L1 & B1 & N1); try lia; try done.
  { unfold build_iovecs. rewrite length_fmap, length_seqZ. fold R. lia. }
  { intros i v Hv. assert (Hi := iovecs_inside 1 buffer i ltac:(congruence)).
    rewrite zlookup_iovecs in Hv by done. injection Hv as <-. simpl. fold R in Hi.
    unfold fits, BUF_SIZE, PAGE_SIZE in *. lia. }
  destruct (wr_ok 2 TAIL_OFFSET (as_u16 R) m1) as (m2 & E2 & L2 & S2 & D2); [unfold TAIL_OFFSET; lia..|].
  assert (Hent : forall i, 0 <= i < R ->
    ring_entry m2 i = mkRingEntry (buffer.(base) + i * BUF_SIZE 1) (BUF_SIZE 1) i).
  { intros i Hi. transitivity (ring_entry m1 i).
    - unfold ring_entry. f_equal; apply D2; unfold TAIL_OFFSET; lia.
    - apply (N1 i (mkIovec (base buffer + i * BUF_SIZE 1) (BUF_SIZE 1))); [lia|].
      apply zlookup_iovecs. fold R. lia. }
  exists m2. split; [|split; [|split; [|done]]].
  - unfold init_buf_ring. fold R mem0.
    rewrite Z2Nat.id in E1 by lia. by rewrite (bind_step _ _ _ _ _ E1), E2.
  - split; [done|]. split; [lia|]. eapply wr_bytes; [done|]. done.
  - unfold available. assert (ring_tail m2 = R) as ->.
    { unfold ring_tail. rewrite S2. unfold wrap. rewrite Z.mod_mod, Z.mod_small by lia. done. }
    rewrite Z.sub_0_r, Z.mod_small by lia.
    rewrite <- (list_fmap_id (seqZ 0 R)) at 2. apply list_fmap_ext.
    intros i k Hk%lookup_seqZ. cbv beta. rewrite Z.mod_small by lia. by rewrite Hent by lia.
Qed.

(** *** The kernel takes from the head, the program releases at the tail *)
Record RingState := mkRingState { rs_head : Z; rs_mem : list Z; rs_held : list Z }.

Inductive ring_step (buffer : BufPool) : RingState -> RingState -> Prop :=
| kernel_picks head mem held b rest :
    available buffer.(read_count) head mem = b :: rest ->
    ring_step buffer (mkRingState head mem held)
      (mkRingState ((head + 1) mod 2 ^ 16) mem (b :: held))
| program_releases head mem held held' b mem' :
    held ≡ₚ b :: held' -> release_buf_to_ring buffer b mem = Ok (tt, mem') ->
    ring_step buffer (mkRingState head mem held) (mkRingState head mem' held').

Definition ring_conserved (buffer : BufPool) (s : RingState) : Prop :=
  ring_wf buffer.(read_count) s.(rs_mem) /\
  available buffer.(read_count) s.(rs_head) s.(rs_mem) ++ s.(rs_held) ≡ₚ seqZ 0 buffer.(read_count).

Lemma ring_step_conserved buffer s s' :
  0 <= buffer.(base) -> buffer.(base) + buffer.(read_count) * BUF_SIZE 1 <= 2 ^ 64 ->
  ring_step buffer s s' -> ring_conserved buffer s -> ring_conserved buffer s'.
Proof.
  intros Hb0 Hb. destruct 1 as [head mem held b rest Hav|head mem held held' b mem' Hperm He];
    intros [Hwf Hp]; simpl in *.
  - split; [done|]. simpl. rewrite (available_pick _ _ _ _ _ Hwf Hav).
    rewrite <- Hp, Hav. simpl. symmetry. apply Permutation_middle.
  - assert (Hbin : b ∈ seqZ 0 (read_count buffer)).
    { rewrite <- Hp, Hperm. set_solver. }
    apply elem_of_seqZ in Hbin.
    assert (Ha : fits 64 (base buffer + b * BUF_SIZE 1)) by (unfold fits, BUF_SIZE, PAGE_SIZE in *; lia).
    assert (Hroom : (ring_tail mem - head) mod 2 ^ 16 < read_count buffer).
    { rewrite <- available_length with (R := read_count buffer).
      apply Permutation_length in Hp. rewrite length_app, length_seqZ in Hp.
      apply Permutation_length in Hperm. simpl in Hperm. lia. }
    destruct (release_spec buffer mem b Hwf ltac:(lia) Ha) as (m & E & Hwf' & _).
    rewrite E in He. injection He as ->. split; [done|]. simpl.
    rewrite (available_release buffer mem mem' head b Hwf ltac:(lia) Ha Hroom E).
    rewrite <- Hp, Hperm, <- app_assoc. done.
Qed.
End Queue.

(** ** Properties *)
Section RingProperties.
Context {prof : Profile}.

(** Releasing a buffer to a ring that has room appends its id at the end
    of the queue the kernel reads, whatever the position of the 16-bit
    counters, and leaves the ids already queued in place; the entry written
    holds the buffer's address and size. *)
Theorem release_appends buffer mem head b :
  ring_wf buffer.(read_count) mem -> 0 <= b < buffer.(read_count) ->
  fits 64 (buffer.(base) + b * BUF_SIZE 1) ->
  (ring_tail mem - head) mod 2 ^ 16 < buffer.(read_count) ->
  exists mem', release_buf_to_ring buffer b mem = Ok (tt, mem') /\
    ring_wf buffer.(read_count) mem' /\
    available buffer.(read_count) head mem' = available buffer.(read_count) head mem ++ [b] /\
    ring_entry mem' (ring_tail mem mod buffer.(read_count)) =
      mkRingEntry (buffer.(base) + b * BUF_SIZE 1) (BUF_SIZE 1) b.
Proof.
  intros Hwf Hb Ha Hroom. destruct (release_spec _ _ _ Hwf Hb Ha) as (m & E & Hwf' & _ & Hs & _).
  exists m. split_and!; try done; [apply Hwf'..|]. by apply available_release.
Qed.

(** C13: no read buffer is ever lost or given twice.  Starting from the ring
    [Runtime::new] builds, however the kernel's picks and the program's
    releases of held buffers alternate, the queued and the held ids together
    are each read buffer exactly once, and releasing a held buffer never
    fails. *)
Theorem read_buffers_conserved buffer {S} (s0 : S) mem0 s :
  (exists k, 0 <= k <= 15 /\ buffer.(read_count) = 2 ^ k) -> 0 <= buffer.(base) ->
  buffer.(base) + (buffer.(read_count) + Z.of_nat (length buffer.(write_rc))) * BUF_SIZE 1 <= 2 ^ 64 ->
  init_buf_ring (build_iovecs 1 buffer) buffer.(read_count) s0 = Ok (mem0, s0) ->
  rtc (ring_step buffer) (mkRingState 0 mem0 []) s ->
  available buffer.(read_count) s.(rs_head) s.(rs_mem) ++ s.(rs_held) ≡ₚ seqZ 0 buffer.(read_count) /\
  (forall b, b ∈ s.(rs_held) -> exists mem', release_buf_to_ring buffer b s.(rs_mem) = Ok (tt, mem')).
Proof.
  intros Hpow Hb0 Hb Hinit Hrun. destruct (init_ring buffer s0 Hpow Hb0 Hb) as (m & E & Hwf & Hav & _).
  rewrite E in Hinit. injection Hinit as ->.
  assert (Hb' : base buffer + read_count buffer * BUF_SIZE 1 <= 2 ^ 64)
    by (unfold BUF_SIZE, PAGE_SIZE in *; lia).
  assert (Hc : ring_conserved buffer s).
  { apply (rtc_preserves (ring_step buffer) (ring_conserved buffer) _ _
      (fun c c' H => ring_step_conserved buffer c c' Hb0 Hb' H) Hrun).
    split; [done|]. simpl. by rewrite Hav, app_nil_r. }
  destruct Hc as [Hwf' Hp]. split; [done|]. intros b Hbh.
  assert (Hbin : b ∈ seqZ 0 (read_count buffer)) by (rewrite <- Hp; set_solver).
  apply elem_of_seqZ in Hbin.
  destruct (release_spec buffer (rs_mem s) b Hwf') as (m' & E' & _); [lia| |by exists m'].
  unfold fits, BUF_SIZE, PAGE_SIZE in *. lia.
Qed.
End RingProperties.

(** ** A concrete ring of four buffers *)
Module BufRingExamples.
#[local] Existing Instance dev_profile.

Definition pool4 : BufPool := mkBufPool 8192 (6 * 4096, 4096) 4 [4; 5] [0; 0].

(** One of the two write slots is held. *)
Definition pool_taken : BufPool := mkBufPool 8192 (6 * 4096, 4096) 4 [5] [1; 0].

Lemma pool_taken_inv : pool_inv [4] pool_taken.
Proof.
  pose proof (BufPool_new_inv 1 tt 8192 4 2 ltac:(lia) ltac:(lia) ltac:(lia)) as H.
  change (BufPool_new 1 (Some 8192) 4 2 tt) with (Ok (pool4, tt)) in H. cbv iota in H.
  destruct H as (_ & H & _). pose proof (alloc_write_spec 1 [] pool4 H) as Ha. cbn [write_free pool4] in Ha.
  destruct Ha as (p' & E & Hp & _). vm_compute in E. by injection E as <-.
Qed.


Definition mem4 : list Z :=
  match init_buf_ring (build_iovecs 1 pool4) 4 tt with Ok (mem, _) => mem | _ => [] end.

Lemma mem4_wf : ring_wf 4 mem4.
Proof.
  split; [exists 2; lia|]. split; [reflexivity|].
  apply (bool_decide_unpack _). vm_compute. exact I.
Qed.

(** The kernel has taken buffers 0 and 1 (head 2); buffer 1 comes back. *)
Lemma release_appends_witness :
  exists mem', release_buf_to_ring pool4 1 mem4 = Ok (tt, mem') /\ ring_wf 4 mem' /\
    available 4 2 mem' = [2; 3] ++ [1] /\
    ring_entry mem' (ring_tail mem4 mod 4) = mkRingEntry 12288 4096 1.
Proof.
  apply (release_appends pool4 mem4 2 1).
  - apply mem4_wf.
  - cbn [read_count pool4]. lia.
  - vm_compute. split; congruence.
  - vm_compute. reflexivity.
Defined.

Lemma read_buffers_conserved_witness :
  available 4 1 mem4 ++ [0] ≡ₚ seqZ 0 4 /\
  (forall b, b ∈ [0] -> exists mem', release_buf_to_ring pool4 b mem4 = Ok (tt, mem')).
Proof.
  apply (read_buffers_conserved pool4 tt mem4 (mkRingState 1 mem4 [0])).
  - exists 2. split; [lia|reflexivity].
  - simpl. lia.
  - vm_compute. congruence.
  - reflexivity.
  - apply rtc_once. apply (kernel_picks pool4 0 mem4 [] 0 [1; 2; 3]). reflexivity.
Defined.
End BufRingExamples.
