(* ===== verification/RingOrder.v ===== *)
(** * What the kernel sees of a release

    The kernel reads the buffer ring while the program writes it.  The stores of
    [release_buf_to_ring] may become visible in any order, except across its
    release fence: the store of the tail is visible only when those of the entry
    are.  This file lists the stores the code makes, says which memories the
    kernel may observe, and shows that it never goes through an entry that is not
    written completely. *)

From S2P Require Import Prelude UserData Io BufPool BufRing.

(** ** Stores and fences *)
Record Store := mkStore { st_size : nat; st_off : Z; st_val : Z }.

Inductive StoreOp := DoStore (s : Store) | Fence.

Definition run_store (s : Store) : M (list Z) unit := wr s.(st_size) s.(st_off) s.(st_val).
Definition run_stores (d : list Store) : M (list Z) unit := for_each d run_store.

(** The stores between two fences. *)
Fixpoint segments (ops : list StoreOp) : list (list Store) :=
  match ops with
  | [] => [[]]
  | Fence :: ops' => [] :: segments ops'
  | DoStore s :: ops' =>
      match segments ops' with
      | seg :: segs => (s :: seg) :: segs
      | [] => [[s]]
      end
  end.

(** The stores [done] may have become visible, in this order: any of those of a
    segment, once all those of the segments before are. *)
Inductive may_see : list (list Store) -> list Store -> Prop :=
| see_some seg segs done rest : seg ≡ₚ done ++ rest -> may_see (seg :: segs) done
| see_all seg segs done later : seg ≡ₚ done -> may_see segs later -> may_see (seg :: segs) (done ++ later).

(** What [release_buf_to_ring] stores in slot [slot], for tail [tail]. *)
Definition entry_stores (slot addr buf_idx : Z) : list Store := [
  mkStore 8 slot addr;
  mkStore 4 (slot + 8) (as_u32 (BUF_SIZE 1));
  mkStore 2 (slot + 12) (as_u16 buf_idx)].
Definition tail_store (tail : Z) : Store := mkStore 2 TAIL_OFFSET (as_u16 (tail + 1)).

Definition release_ops (slot addr buf_idx tail : Z) : list StoreOp :=
  (DoStore <$> entry_stores slot addr buf_idx) ++ [Fence; DoStore (tail_store tail)].

(** ** Memory after some of the stores *)
Definition inside (len : Z) (s : Store) : Prop := 0 <= s.(st_off) /\ s.(st_off) + Z.of_nat s.(st_size) <= len.

(** The [n] bytes at [off] are not touched by [s]. *)
Definition apart (n : nat) (off : Z) (s : Store) : Prop :=
  off + Z.of_nat n <= s.(st_off) \/ s.(st_off) + Z.of_nat s.(st_size) <= off.

Lemma run_stores_ok d : forall mem, Forall (inside (Z.of_nat (length mem))) d -> exists mem',
  run_stores d mem = Ok (tt, mem') /\ length mem' = length mem /\
  forall n off, Forall (apart n off) d -> 0 <= off -> off + Z.of_nat n <= Z.of_nat (length mem) ->
    peek n off mem' = peek n off mem.
Proof.
  induction d as [|s d IH]; intros mem Hin; [by exists mem|].
  apply Forall_cons in Hin as [[H0 H1] Hin].
  destruct (wr_ok s.(st_size) s.(st_off) s.(st_val) mem H0 H1) as (m1 & E1 & L1 & _ & D1).
  rewrite <- L1 in Hin. destruct (IH m1 Hin) as (m2 & E2 & L2 & D2). exists m2.
  split; [|split; [congruence|]].
  - unfold run_stores. cbn [for_each]. by rewrite (bind_step _ _ _ _ _ E1).
  - intros n off [Ha Had]%Forall_cons Ho Hl. rewrite D2 by (done || lia). apply D1; [done| |done]. destruct Ha; lia.
Qed.

(** Stores to different places: each is what is read there. *)
Lemma run_stores_value d : forall mem mem' s, NoDup d ->
  (forall s s', s ∈ d -> s' ∈ d -> s <> s' -> apart s.(st_size) s.(st_off) s') ->
  Forall (inside (Z.of_nat (length mem))) d -> run_stores d mem = Ok (tt, mem') -> s ∈ d ->
  peek s.(st_size) s.(st_off) mem' = s.(st_val) mod 256 ^ Z.of_nat s.(st_size).
Proof.
  induction d as [|s0 d IH]; intros mem mem' s Hnd Hap Hin E Hs; [by apply not_elem_of_nil in Hs|].
  apply NoDup_cons in Hnd as [Hs0 Hnd]. apply Forall_cons in Hin as [[H0 H1] Hin].
  destruct (wr_ok s0.(st_size) s0.(st_off) s0.(st_val) mem H0 H1) as (m1 & E1 & L1 & S1 & _).
  unfold run_stores in E. cbn [for_each] in E. rewrite (bind_step _ _ _ _ _ E1) in E. fold (run_stores d) in E.
  rewrite <- L1 in Hin. apply elem_of_cons in Hs as [->|Hs].
  - destruct (run_stores_ok d m1 Hin) as (m2 & E2 & _ & D2). rewrite E in E2. injection E2 as <-.
    rewrite D2; [exact S1| |exact H0|lia]. apply Forall_forall. intros s' Hs'.
    apply Hap; [by left|by right|]. by intros <-.
  - eapply (IH m1); try done. intros s1 s2 ? ?. apply Hap; by right.
Qed.

(** Only stores that were made are seen, each once. *)
Lemma may_see_sub segs d : may_see segs d -> exists rest, concat segs ≡ₚ d ++ rest.
Proof.
  induction 1 as [seg segs d rest Hp|seg segs d later Hp _ [rest IH]].
  - exists (rest ++ concat segs). cbn. by rewrite Hp, <- app_assoc.
  - exists rest. cbn. by rewrite Hp, IH, <- app_assoc.
Qed.

#[export] Instance Store_eq_dec : EqDecision Store.
Proof. solve_decision. Defined.

(** ** The stores of a release *)
Section Release.
Context (i addr b t : Z) (len : Z) (Hi : 0 <= i) (Hlen : i * 16 + 16 <= len).

Abbreviation all := (entry_stores (i * 16) addr b ++ [tail_store t]).
Abbreviation segs := (segments (release_ops (i * 16) addr b t)).

Lemma stores_cases s : s ∈ all ->
  s = mkStore 8 (i * 16) addr \/ s = mkStore 4 (i * 16 + 8) (as_u32 (BUF_SIZE 1)) \/
  s = mkStore 2 (i * 16 + 12) (as_u16 b) \/ s = tail_store t.
Proof using All. unfold entry_stores. set_solver. Qed.

Lemma stores_inside : Forall (inside len) all.
Proof using All.
  unfold entry_stores, tail_store, TAIL_OFFSET, inside.
  repeat apply Forall_cons_2; try apply Forall_nil_2; cbn [st_off st_size]; lia.
Qed.

Lemma stores_apart s s' : s ∈ all -> s' ∈ all -> s <> s' -> apart s.(st_size) s.(st_off) s'.
Proof using All.
  unfold apart. intros [-> |[-> |[-> | ->]]]%stores_cases [-> |[-> |[-> | ->]]]%stores_cases Hne; try done;
    cbn [st_off st_size tail_store]; unfold TAIL_OFFSET; lia.
Qed.

Lemma stores_nodup : NoDup all.
Proof using All.
  unfold entry_stores, tail_store, TAIL_OFFSET.
  repeat apply NoDup_cons_2; try apply NoDup_nil_2; rewrite ?elem_of_cons, ?elem_of_nil;
    intros Hin; repeat (destruct Hin as [Heq|Hin]; [injection Heq; lia|]); done.
Qed.

(** Another entry shares no byte with them. *)
Lemma stores_elsewhere n off : (off + Z.of_nat n <= 14 \/ 16 <= off) ->
  (off + Z.of_nat n <= i * 16 \/ i * 16 + 14 <= off) -> Forall (apart n off) all.
Proof using All.
  intros H1 H2. unfold entry_stores, tail_store, TAIL_OFFSET, apart.
  repeat apply Forall_cons_2; try apply Forall_nil_2; cbn [st_off st_size]; lia.
Qed.

Section Seen.
Context (seen : list Store) (Hsee : may_see segs seen).

Lemma seen_all : exists rest, all ≡ₚ seen ++ rest.
Proof using All. destruct (may_see_sub _ _ Hsee) as [rest Hp]. by exists rest. Qed.

Lemma seen_elem s : s ∈ seen -> s ∈ all.
Proof using All. destruct seen_all as [rest Hp]. rewrite Hp. set_solver. Qed.

Lemma seen_forall (P : Store -> Prop) : Forall P all -> Forall P seen.
Proof using All. rewrite !Forall_forall. intros HP s Hs. by apply HP, seen_elem. Qed.

Lemma seen_nodup : NoDup seen.
Proof using All.
  destruct seen_all as [rest Hp]. pose proof stores_nodup as Hn. rewrite Hp in Hn. by apply NoDup_app in Hn as [? _].
Qed.

(** The fence: with the tail, everything is visible. *)
Lemma seen_tail : tail_store t ∈ seen -> forall s, s ∈ all -> s ∈ seen.
Proof using All.
  intros Ht s Hs. inversion Hsee as [seg ss d rest Hp|seg ss d later Hp _]; subst.
  - exfalso. assert (Hin : tail_store t ∈ entry_stores (i * 16) addr b) by (change (entry_stores (i * 16) addr b) with
      [mkStore 8 (i * 16) addr; mkStore 4 (i * 16 + 8) (as_u32 (BUF_SIZE 1)); mkStore 2 (i * 16 + 12) (as_u16 b)]; rewrite Hp; set_solver).
    pose proof stores_nodup as (_ & Hd & _)%NoDup_app. apply (Hd _ Hin). by left.
  - apply elem_of_app. apply elem_of_app in Ht as [Ht|Ht]; apply elem_of_app in Hs as [Hs|Hs].
    + left. by rewrite <- Hp.
    + apply list_elem_of_singleton in Hs as ->. by left.
    + left. by rewrite <- Hp.
    + apply list_elem_of_singleton in Hs as ->. by right.
Qed.

Context (mem mem' : list Z) (Hmem : len = Z.of_nat (length mem)) (Hrun : run_stores seen mem = Ok (tt, mem')).

Lemma seen_same n off : Forall (apart n off) seen -> 0 <= off -> off + Z.of_nat n <= len -> peek n off mem' = peek n off mem.
Proof using All.
  intros Ha H0 H1. pose proof (seen_forall _ stores_inside) as Hin. rewrite Hmem in Hin.
  destruct (run_stores_ok seen mem Hin) as (m & E & _ & D). rewrite Hrun in E. injection E as <-.
  apply D; [exact Ha|exact H0|lia].
Qed.

Lemma seen_value s : s ∈ seen -> peek s.(st_size) s.(st_off) mem' = s.(st_val) mod 256 ^ Z.of_nat s.(st_size).
Proof using All.
  intros Hs. apply (run_stores_value seen mem mem' s); [apply seen_nodup| | |exact Hrun|exact Hs].
  - intros s1 s2 H1 H2. apply stores_apart; by apply seen_elem.
  - rewrite <- Hmem. apply seen_forall, stores_inside.
Qed.

(** The tail is the old one, or the new one. *)
Lemma seen_ring_tail : ring_tail mem' =
  if decide (tail_store t ∈ seen) then (t + 1) mod 2 ^ 16 else ring_tail mem.
Proof using All.
  destruct (decide _) as [Ht|Ht].
  - pose proof (seen_value _ Ht) as Hv. cbn [st_size st_off st_val tail_store] in Hv.
    unfold ring_tail. rewrite Hv. change (256 ^ Z.of_nat 2) with (2 ^ 16). unfold wrap. apply Z.mod_mod. lia.
  - apply seen_same; [|unfold TAIL_OFFSET; lia|unfold TAIL_OFFSET; lia]. apply Forall_forall. intros s Hs.
    assert (s <> tail_store t) by by intros ->. pose proof (seen_elem s Hs) as Hin.
    apply (stores_apart (tail_store t) s); [|exact Hin|done]. unfold entry_stores. set_solver.
Qed.

Lemma seen_other j : 0 <= j -> j <> i -> j * 16 + 16 <= len -> ring_entry mem' j = ring_entry mem j.
Proof using All.
  intros Hj Hne Hl. unfold ring_entry. f_equal; apply seen_same; try lia; apply seen_forall, stores_elsewhere; lia.
Qed.

Lemma seen_entry : fits 64 addr -> fits 16 b -> (forall s, s ∈ all -> s ∈ seen) ->
  ring_entry mem' i = mkRingEntry addr (BUF_SIZE 1) b.
Proof using All.
  intros Ha Hb Hall. unfold ring_entry.
  assert (Hin : Forall (fun s => s ∈ seen) (entry_stores (i * 16) addr b))
    by (apply Forall_forall; intros s Hs; apply Hall, elem_of_app; by left).
  apply Forall_cons in Hin as [H1%seen_value [H2%seen_value [H3%seen_value _]%Forall_cons]%Forall_cons].
  cbn [st_size st_off st_val] in *. rewrite H1, H2, H3. f_equal.
  - apply Z.mod_small. unfold fits in Ha. exact Ha.
  - unfold wrap. change (256 ^ Z.of_nat 2) with (2 ^ 16). rewrite Z.mod_mod by lia. apply Z.mod_small, Hb.
Qed.
End Seen.
End Release.

(** ** The property *)
Section Properties.
Context {prof : Profile}.

(** The code makes these stores, in this order. *)
Lemma release_makes_stores buffer mem b : ring_wf buffer.(read_count) mem -> 0 <= b < buffer.(read_count) ->
  release_buf_to_ring buffer b mem =
    run_stores (concat (segments (release_ops (ring_tail mem mod buffer.(read_count) * 16)
      (buffer.(base) + b * BUF_SIZE 1) b (ring_tail mem)))) mem.
Proof.
  intros Hwf Hb. pose proof (ring_wf_bound _ _ Hwf) as (HR & _ & _). destruct Hwf as (Hpow & Hlen & _).
  unfold release_buf_to_ring. rewrite (bind_step _ _ _ (ring_tail mem) mem) by (apply rd_ok; unfold TAIL_OFFSET; lia).
  rewrite land_mask by done. rewrite (bind_step _ _ _ (base buffer + b * BUF_SIZE 1) mem).
  2: { unfold read_buf_addr, debug_assert, assert_. rewrite (proj2 (Z.ltb_lt _ _)) by lia. by destruct debug_checks. }
  set (slot := ring_tail mem mod read_count buffer * 16). unfold run_stores, run_store. cbn.
  unfold bind, ret. destruct (wr 8 _ _ mem) as [[[] m1]|?|?]; [|done..].
  destruct (wr 4 _ _ m1) as [[[] m2]|?|?]; [|done..]. destruct (wr 2 _ _ m2) as [[[] m3]|?|?]; [|done..].
  unfold tail_store. cbn [st_size st_off st_val]. by destruct (wr 2 _ _ m3) as [[[] m4]|?|?].
Qed.

(** C14: the kernel never reads an entry that is not written completely.  While
    buffer [b] is released to a ring that has room, the stores of the code may
    become visible in any order its fence allows: [seen1] are those visible when
    the kernel reads the tail, [seen2] those visible when it then reads the entries
    from its head up to that tail.  It goes through the entries that were there
    before, unchanged, and either nothing more or the complete entry of [b]. *)
Theorem release_seen_whole buffer mem head b seen1 seen2 mem1 mem2 :
  ring_wf buffer.(read_count) mem -> 0 <= b < buffer.(read_count) ->
  fits 64 (buffer.(base) + b * BUF_SIZE 1) ->
  (ring_tail mem - head) mod 2 ^ 16 < buffer.(read_count) ->
  let addr := buffer.(base) + b * BUF_SIZE 1 in
  let stores := segments (release_ops (ring_tail mem mod buffer.(read_count) * 16) addr b (ring_tail mem)) in
  may_see stores seen1 -> may_see stores seen2 -> seen1 `prefix_of` seen2 ->
  run_stores seen1 mem = Ok (tt, mem1) -> run_stores seen2 mem = Ok (tt, mem2) ->
  release_buf_to_ring buffer b mem = run_stores (concat stores) mem /\
  let before := view buffer.(read_count) head (ring_tail mem) mem in
  let seen := view buffer.(read_count) head (ring_tail mem1) mem2 in
  seen = before \/ seen = before ++ [mkRingEntry addr (BUF_SIZE 1) b].
Proof.
  intros Hwf Hb Ha Hroom addr stores Hsee1 Hsee2 Hpre Hrun1 Hrun2. split; [by apply release_makes_stores|].
  pose proof (ring_wf_bound _ _ Hwf) as (HR & Hd & _). destruct Hwf as (_ & Hlen & _).
  set (R := read_count buffer) in *. set (t := ring_tail mem) in *. set (i := t mod R) in *.
  pose proof (Z.mod_pos_bound t R ltac:(lia)) as Hi. fold i in Hi.
  assert (Hother : forall j, 0 <= j < R -> j <> i -> ring_entry mem2 j = ring_entry mem j).
  { intros j Hj Hne. eapply (seen_other i addr b t (Z.of_nat (length mem))); [..|exact Hsee2|done|exact Hrun2| |done|]; lia. }
  cbv zeta. rewrite (seen_ring_tail i addr b t (Z.of_nat (length mem)) ltac:(lia) ltac:(lia) seen1 Hsee1 mem mem1 eq_refl Hrun1).
  destruct (decide _) as [Ht|Ht].
  - right. rewrite (view_snoc R head t mem mem2 HR Hd Hroom Hother). do 2 f_equal. fold i.
    apply (seen_entry i addr b t (Z.of_nat (length mem)) ltac:(lia) ltac:(lia) seen2 Hsee2 mem mem2 eq_refl Hrun2 Ha).
    + unfold fits. lia.
    + apply (seen_tail i addr b t (Z.of_nat (length mem)) ltac:(lia) ltac:(lia) seen2 Hsee2).
      destruct Hpre as [later ->]. apply elem_of_app. by left.
  - left. by apply view_same.
Qed.
End Properties.

(** ** A ring of four buffers *)
Module RingOrderExamples.
Import BufRingExamples.
#[local] Existing Instance dev_profile.

(** Buffers 0 and 1 are with the program; 1 comes back in slot 0. *)
Definition stores1 : list (list Store) := segments (release_ops 0 12288 1 4).

(** The kernel reads the tail when only the id and the address are visible, and
    the entries when all of the release is. *)
Definition seen_early : list Store := [mkStore 2 12 1; mkStore 8 0 12288].
Definition seen_late : list Store := seen_early ++ [mkStore 4 8 4096; tail_store 4].

Lemma sees_early : may_see stores1 seen_early.
Proof.
  apply (see_some _ _ _ [mkStore 4 8 4096]). apply (bool_decide_unpack _). vm_compute. exact Logic.I.
Qed.

Lemma sees_late : may_see stores1 seen_late.
Proof.
  apply (see_all _ _ (seen_early ++ [mkStore 4 8 4096]) [tail_store 4]).
  - apply (bool_decide_unpack _). vm_compute. exact Logic.I.
  - by apply (see_some _ _ _ []).
Qed.

Definition after (d : list Store) : list Z := match run_stores d mem4 with Ok (_, m) => m | _ => [] end.

(** Were the tail visible before the entry, the kernel would go through the old
    content of slot 0: buffer 0, which the program still holds. *)
Example without_fence : view 4 2 (ring_tail (after [tail_store 4])) (after [tail_store 4]) =
  [mkRingEntry 16384 4096 2; mkRingEntry 20480 4096 3; mkRingEntry 8192 4096 0].
Proof. vm_compute. reflexivity. Qed.

Lemma release_seen_whole_witness :
  release_buf_to_ring pool4 1 mem4 = run_stores (concat stores1) mem4 /\
  view 4 2 (ring_tail (after seen_early)) (after seen_late) = [mkRingEntry 16384 4096 2; mkRingEntry 20480 4096 3].
Proof.
  assert (E1 : run_stores seen_early mem4 = Ok (tt, after seen_early)) by (vm_compute; reflexivity).
  assert (E2 : run_stores seen_late mem4 = Ok (tt, after seen_late)) by (vm_compute; reflexivity).
  destruct (release_seen_whole pool4 mem4 2 1 seen_early seen_late (after seen_early) (after seen_late) mem4_wf
    ltac:(cbn; lia) ltac:(vm_compute; split; congruence) ltac:(vm_compute; reflexivity) sees_early sees_late
    ltac:(by apply prefix_app_r) E1 E2) as [Hr _].
  split; [exact Hr|vm_compute; reflexivity].
Defined.
End RingOrderExamples.
