(* ===== verification/Futures.v ===== *)
(** * Futures and async bodies, as data

    The states of the leaf futures of src/src/calls/, the [Poll] and stream
    states, and the bodies of the tasks that await them.

    An async body is user code: it is kept as a resumption tree ([Prog]) over
    what the crate's API lets it do, with the values it gets back bound by
    functions.  A node [Await] lists the buffers the body holds across the
    suspension point; they are what the compiler's drop glue drops, after the
    awaited future, when a suspended task is destroyed.  Trees are well-founded:
    a body with an unbounded loop is covered by its finite unrollings. *)

From S2P Require Import Prelude Io BufPool.

Inductive Poll (A : Type) := Ready (a : A) | Pending.
Arguments Ready {A} a.
Arguments Pending {A}.

(** ** The states of the leaf futures *)
Inductive AcceptFuture :=
| Accept_Pending (listen_fd : Z)
| Accept_Submited.

Inductive StreamState := Stream_Init | Stream_Running | Stream_Done.

Record AcceptStream := mkAcceptStream { as_listen_fd : Z; as_state : StreamState }.

Inductive ReadFuture :=
| Read_Init (fd : Z)
| Read_Pending (fd : Z).

Record ReadStream := mkReadStream { rs_fd : Z; rs_state : StreamState }.

Inductive WriteFuture :=
| Write_Init (fd buf_id len : Z)
| Write_Pending.

Inductive WriteResult :=
| Failed (fd : Z)
| Partial (fd len : Z).

Inductive WriteMultipleFuture :=
| WriteMultiple_Init (fds : list Z) (buffer : WBuffer) (len : Z)
| WriteMultiple_Pending (in_fligth_count : Z) (fds : list Z) (faileds : list WriteResult)
    (len : Z) (buffer : WBuffer)
| WriteMultiple_Poisoned.

Inductive CommitFuture :=
| Commit_Init (ptr buf_idx fd_idx len : Z)
| Commit_Pending (buf_idx : Z).

Inductive SocketFuture :=
| Socket_Create (addr : SockaddrIn)
| Socket_Connecting (fd : Z) (addr : SockaddrIn)
| Socket_Pending.

(** A leaf future, indexed by its output.  [LReadNext] and [LAcceptNext] are
    [stream.next()]: the stream they borrow comes back with the item. *)
Inductive Leaf : Type -> Type :=
| LAccept (f : AcceptFuture) : Leaf (Z + Z)
| LAcceptNext (s : AcceptStream) : Leaf (option Z * AcceptStream)
| LRead (f : ReadFuture) : Leaf (RwBuffer + Z)
| LReadNext (s : ReadStream) : Leaf (option RwBuffer * ReadStream)
| LWrite (f : WriteFuture) : Leaf Z
| LWriteMultiple (f : WriteMultipleFuture) : Leaf (list WriteResult)
| LCommit (f : CommitFuture) : Leaf Z
| LSocket (f : SocketFuture) : Leaf Z.

(** A buffer owned by a body. *)
Inductive Res := ResRw (b : RwBuffer) | ResW (b : WBuffer).

(** ** Async bodies *)
Inductive Prog : Type :=
| Return
| Unwind (msg : string)
| Await {A : Type} (leaf : Leaf A) (held : list Res) (k : A -> Prog)
| Spawn (child : Prog) (k : Prog)
| AllocWrite (k : WBuffer -> Prog)
| CloneWrite (b : WBuffer) (k : WBuffer -> Prog)
| SubmitWrite (b : WBuffer) (fd_idx len : Z) (k : Prog)
| DropRes (r : Res) (k : Prog).

(** What a task's allocation holds: the body where it is suspended, or the
    completed state machine. *)
Inductive Fut := Suspended (p : Prog) | Completed.

(** ** The constructors of the public API, as the first state of their leaf *)
Definition accept (listen_fd : Z) : Leaf (Z + Z) := LAccept (Accept_Pending listen_fd).
Definition AcceptStream_new (listen_fd : Z) : AcceptStream := mkAcceptStream listen_fd Stream_Init.
Definition accept_stream (listen_fd : Z) : AcceptStream := AcceptStream_new listen_fd.
Definition read (fd : Z) : Leaf (RwBuffer + Z) := LRead (Read_Init fd).
Definition ReadStream_new (fd : Z) : ReadStream := mkReadStream fd Stream_Init.
Definition read_stream (fd : Z) : ReadStream := ReadStream_new fd.
Definition write (fd buf_id len : Z) : Leaf Z := LWrite (Write_Init fd buf_id len).
Definition write_multiple (fds : list Z) (buffer : WBuffer) (len : Z) : Leaf (list WriteResult) :=
  LWriteMultiple (WriteMultiple_Init fds buffer len).
(** [WBuffer::write_multiple], an [async fn] that awaits the function above. *)
Definition WBuffer_write_multiple (self : WBuffer) (fds : list Z) (len : Z) : Leaf (list WriteResult) :=
  write_multiple fds self len.
Definition make_commit_future (ptr buf_idx fd_idx len : Z) : CommitFuture :=
  Commit_Init ptr buf_idx fd_idx len.

(** [RwBuffer::commit] marks its buffer as committed, which makes the drop of
    the handle a no-op, and awaits the commit future. *)
Definition commit (b : RwBuffer) (len : Z) : Leaf Z :=
  LCommit (make_commit_future b.(rw_ptr) b.(buf_idx) b.(fd_idx) len).

(** [u16::to_be] on a little-endian target, and [u32::from_ne_bytes]. *)
Definition to_be16 (port : Z) : Z := of_le (rev (le_bytes 2 port)).

Definition AF_INET : Z := 2.

(** [connect(ip, port)] of socket.rs. *)
Definition connect (ip : list Z) (port : Z) : Leaf Z :=
  LSocket (Socket_Create (mkSockaddrIn AF_INET (to_be16 port) (of_le ip))).

(** [StreamExt::next] and the poll of [Next] are the stream's [poll_next]. *)
Definition read_next (s : ReadStream) : Leaf (option RwBuffer * ReadStream) := LReadNext s.
Definition accept_next (s : AcceptStream) : Leaf (option Z * AcceptStream) := LAcceptNext s.
