(* ===== verification/Runtime.v ===== *)
(** * The runtime's state and the operations futures call

    Models the state of src/src/runtime.rs ([Runtime] and the four thread
    locals), the [send_*] methods, the free functions around them, and the
    destructors that reach the runtime ([RwBuffer], [Waker], a task's future).

    [with_borrow_mut] and [with_borrow] check and keep the borrow flag of the
    [RefCell] that holds the runtime. *)

From S2P Require Import Prelude UserData Io Task Slab BufPool BufRing Futures.

Definition DEFAULT_RING_ENTRIES : Z := 1024.
Definition DEFAULT_MAX_CONNECTIONS : Z := 1024.

(** [ring] is the third-party [IoUring]; what is kept of it is the log of the
    entries handed to the kernel, in order. *)
Record Runtime := mkRuntime {
  tasks : Slab;
  ring_submitted : list Entry;
  buffer : BufPool;
  pending : list Entry;
  buf_ring : list Z;
}.

Record World := mkWorld {
  w_heap : heap Fut;
  w_rt : Runtime;
  w_borrow : Z;
  CURRENT_TASK : TaskInfo;
  RUNTIME_FREE_LIST : list Z;
  RUNTIME_WAKE_LIST : list TaskInfo;
}.

(** ** Lenses *)
Definition set_w_heap (h : heap Fut) (w : World) : World :=
  mkWorld h w.(w_rt) w.(w_borrow) w.(CURRENT_TASK) w.(RUNTIME_FREE_LIST) w.(RUNTIME_WAKE_LIST).
Definition set_w_rt (rt : Runtime) (w : World) : World :=
  mkWorld w.(w_heap) rt w.(w_borrow) w.(CURRENT_TASK) w.(RUNTIME_FREE_LIST) w.(RUNTIME_WAKE_LIST).
Definition set_w_borrow (b : Z) (w : World) : World :=
  mkWorld w.(w_heap) w.(w_rt) b w.(CURRENT_TASK) w.(RUNTIME_FREE_LIST) w.(RUNTIME_WAKE_LIST).
Definition set_current (i : TaskInfo) (w : World) : World :=
  mkWorld w.(w_heap) w.(w_rt) w.(w_borrow) i w.(RUNTIME_FREE_LIST) w.(RUNTIME_WAKE_LIST).
Definition set_free_list (l : list Z) (w : World) : World :=
  mkWorld w.(w_heap) w.(w_rt) w.(w_borrow) w.(CURRENT_TASK) l w.(RUNTIME_WAKE_LIST).
Definition set_wake_list (l : list TaskInfo) (w : World) : World :=
  mkWorld w.(w_heap) w.(w_rt) w.(w_borrow) w.(CURRENT_TASK) w.(RUNTIME_FREE_LIST) l.

Definition set_tasks (s : Slab) (rt : Runtime) : Runtime :=
  mkRuntime s rt.(ring_submitted) rt.(buffer) rt.(pending) rt.(buf_ring).
Definition set_ring_submitted (l : list Entry) (rt : Runtime) : Runtime :=
  mkRuntime rt.(tasks) l rt.(buffer) rt.(pending) rt.(buf_ring).
Definition set_buffer (p : BufPool) (rt : Runtime) : Runtime :=
  mkRuntime rt.(tasks) rt.(ring_submitted) p rt.(pending) rt.(buf_ring).
Definition set_pending (l : list Entry) (rt : Runtime) : Runtime :=
  mkRuntime rt.(tasks) rt.(ring_submitted) rt.(buffer) l rt.(buf_ring).
Definition set_buf_ring (mem : list Z) (rt : Runtime) : Runtime :=
  mkRuntime rt.(tasks) rt.(ring_submitted) rt.(buffer) rt.(pending) mem.

Definition heap_lens : lens World (heap Fut) := Lens w_heap set_w_heap.
Definition rt_lens : lens World Runtime := Lens w_rt set_w_rt.
Definition tasks_lens : lens World Slab :=
  Lens (fun w => w.(w_rt).(tasks)) (fun s w => set_w_rt (set_tasks s w.(w_rt)) w).
Definition pool_lens : lens World BufPool :=
  Lens (fun w => w.(w_rt).(buffer)) (fun p w => set_w_rt (set_buffer p w.(w_rt)) w).
Definition ring_lens : lens World (list Z) :=
  Lens (fun w => w.(w_rt).(buf_ring)) (fun m w => set_w_rt (set_buf_ring m w.(w_rt)) w).
Definition heap_tasks_lens : lens World (heap Fut * Slab) :=
  Lens (fun w => (w.(w_heap), w.(w_rt).(tasks)))
       (fun hs w => set_w_rt (set_tasks hs.2 w.(w_rt)) (set_w_heap hs.1 w)).

Section Runtime.
Context `{!Profile}.

(** ** [RefCell<Runtime>] *)
Definition with_borrow_mut {A} (m : M World A) : M World A :=
  let! b := gets w_borrow in
  (if b =? 0 then ret tt else panic "RefCell already borrowed") ;;!
  modify (set_w_borrow (-1)) ;;!
  let! a := m in
  modify (set_w_borrow 0) ;;!
  ret a.

Definition with_borrow {A} (m : M World A) : M World A :=
  let! b := gets w_borrow in
  (if b <? 0 then panic "RefCell already mutably borrowed" else ret tt) ;;!
  modify (set_w_borrow (b + 1)) ;;!
  let! a := m in
  modify (set_w_borrow b) ;;!
  ret a.

(** [self.tasks[idx]]. *)
Definition task_at (idx : Z) : M World Z := zoom tasks_lens (index idx).

Definition sqe_queue_push (entry : Entry) : M World unit :=
  modify (fun w => set_w_rt (set_pending (w.(w_rt).(pending) ++ [entry]) w.(w_rt)) w).

Definition augmente_syscall_nb_of (tag : Tag) : M World unit :=
  let! p := task_at tag.(task_idx) in
  zoom heap_lens (augmente_syscall_nb p).

Definition advance_syscall_nb (tag : Tag) : M World unit :=
  let! p := task_at tag.(task_idx) in
  zoom heap_lens (augmente_syscall_nb p).

Definition set_current_task_multiple (is_multiple : bool) : M World unit :=
  let! current_task := gets CURRENT_TASK in
  let tag := current_task.(ti_tag) in
  let nb := if is_multiple then Z.lor tag.(syscall_nb) 32768
            else Z.land tag.(syscall_nb) (not16 32768) in
  modify (set_current (mkTaskInfo (mkTag tag.(task_idx) nb) current_task.(ti_result)
    current_task.(ti_flags) current_task.(ti_response_gen))).

Definition current_udata : M World Z :=
  let! info := gets CURRENT_TASK in
  ret (into_user_data (mkPayload info.(ti_tag).(task_idx) info.(ti_response_gen)
                         info.(ti_tag).(syscall_nb))).

(** The steps every [send_*] shares: read the [user_data] and the index of
    the current task, count one more reference to it. *)
Definition current_task_idx : M World Z := gets (fun w => w.(CURRENT_TASK).(ti_tag).(task_idx)).

Definition inc_rc_of (task_idx : Z) : M World unit :=
  let! p := task_at task_idx in
  zoom heap_lens (inc_rc p).

Definition send_read (fd : Z) : M World unit :=
  let! udata := current_udata in
  let! task_idx := current_task_idx in
  inc_rc_of task_idx ;;!
  sqe_queue_push (mkEntry (ReadOp fd (as_u32 (BUF_SIZE 1)) 0 true) udata).

Definition send_accept (listen_fd : Z) : M World unit :=
  let! udata := current_udata in
  let! task_idx := current_task_idx in
  inc_rc_of task_idx ;;!
  sqe_queue_push (mkEntry (AcceptOp listen_fd true) udata).

Definition send_write (fd buf_id len : Z) : M World unit :=
  let! udata := current_udata in
  let! task_idx := current_task_idx in
  inc_rc_of task_idx ;;!
  let! pool := gets (fun w => w.(w_rt).(buffer)) in
  let buf_ptr := write_buf_ptr 1 pool buf_id in
  sqe_queue_push (mkEntry (WriteFixedOp fd buf_ptr len buf_id) udata).

Definition set_multishot_of (task_idx : Z) : M World unit :=
  let! p := task_at task_idx in
  zoom heap_lens (set_multishot p).

Definition send_recv_multishot (fd : Z) : M World unit :=
  set_current_task_multiple true ;;!
  let! udata := current_udata in
  let! task_idx := current_task_idx in
  set_multishot_of task_idx ;;!
  inc_rc_of task_idx ;;!
  sqe_queue_push (mkEntry (RecvMultiOp fd 0) udata).

Definition send_accept_multishot (listen_fd : Z) : M World unit :=
  set_current_task_multiple true ;;!
  let! udata := current_udata in
  let! task_idx := current_task_idx in
  set_multishot_of task_idx ;;!
  inc_rc_of task_idx ;;!
  sqe_queue_push (mkEntry (AcceptMultiOp listen_fd true) udata).

Definition send_commit_write (ptr fd_idx len buf_id : Z) : M World unit :=
  set_current_task_multiple true ;;!
  let! udata := current_udata in
  let! task_idx := current_task_idx in
  inc_rc_of task_idx ;;!
  sqe_queue_push (mkEntry (WriteFixedOp fd_idx ptr len buf_id) udata).

Definition send_connect (fd : Z) (addr : SockaddrIn) (addrlen : Z) : M World unit :=
  let! udata := current_udata in
  let! task_idx := current_task_idx in
  inc_rc_of task_idx ;;!
  sqe_queue_push (mkEntry (ConnectOp fd addr addrlen) udata).

Definition send_socket : M World unit :=
  let! udata := current_udata in
  let! task_idx := current_task_idx in
  inc_rc_of task_idx ;;!
  sqe_queue_push (mkEntry (SocketOp true) udata).

(** One turn of the loop of [send_multiple_write]. *)
Definition push_fan_out (payload : UserDataPayload) (buffer : WBuffer) (len : Z) (idx fd : Z)
    : M World unit :=
  let user_data := mkPayload payload.(pl_task_idx) (as_u16 idx) payload.(pl_syscall_nb) in
  let! cloned := zoom pool_lens (WBuffer_clone buffer) in
  let! entry := zoom pool_lens (WBuffer_write cloned fd len (into_user_data user_data)) in
  sqe_queue_push entry.

Fixpoint push_fan_outs (payload : UserDataPayload) (buffer : WBuffer) (len : Z) (idx : Z)
    (fds : list Z) : M World unit :=
  match fds with
  | [] => ret tt
  | fd :: fds' =>
      push_fan_out payload buffer len idx fd ;;!
      push_fan_outs payload buffer len (idx + 1) fds'
  end.

Definition send_multiple_write (fds : list Z) (buffer : WBuffer) (len : Z) : M World unit :=
  let! task_info := gets CURRENT_TASK in
  let user_data := payload_of_info task_info in
  push_fan_outs user_data buffer len 0 fds ;;!
  let! p := task_at user_data.(pl_task_idx) in
  zoom heap_lens (add_rc p (as_u16 (Z.of_nat (length fds)))) ;;!
  zoom pool_lens (WBuffer_drop buffer).

Definition free_unsed_slab_slot : M World unit :=
  let! f_list := gets RUNTIME_FREE_LIST in
  for_each f_list (fun idx => zoom tasks_lens (remove_dropped_task idx)) ;;!
  modify (set_free_list []).

(** ** The free functions *)
Definition submit_read (fd : Z) : M World unit := with_borrow_mut (send_read fd).
Definition submit_accept (listen_fd : Z) : M World unit := with_borrow_mut (send_accept listen_fd).
Definition submit_write (fd buf_id len : Z) : M World unit := with_borrow_mut (send_write fd buf_id len).
Definition submit_recv_multishot (fd : Z) : M World unit := with_borrow_mut (send_recv_multishot fd).
Definition submit_accept_multishot (listen_fd : Z) : M World unit :=
  with_borrow_mut (send_accept_multishot listen_fd).
Definition submit_commit_write (ptr fd_idx len buf_id : Z) : M World unit :=
  with_borrow_mut (send_commit_write ptr fd_idx len buf_id).
Definition release_read_buf (buf_idx : Z) : M World unit :=
  with_borrow (
    let! pool := gets (fun w => w.(w_rt).(buffer)) in
    zoom ring_lens (release_buf_to_ring pool buf_idx)).
Definition submit_connect (fd : Z) (addr : SockaddrIn) (addrlen : Z) : M World unit :=
  with_borrow_mut (send_connect fd addr addrlen).
Definition submit_socket : M World unit := with_borrow_mut send_socket.
Definition submit_multiple_write (fds : list Z) (buffer : WBuffer) (len : Z) : M World unit :=
  with_borrow_mut (send_multiple_write fds buffer len).
Definition alloc_write_buffer : M World WBuffer := with_borrow_mut (zoom pool_lens (alloc_write 1)).
Definition current_result : M World Z := gets (fun w => w.(CURRENT_TASK).(ti_result)).
Definition current_cqe_flags : M World Z := gets (fun w => w.(CURRENT_TASK).(ti_flags)).

(** The free function [sqe_queue_push]. *)
Definition global_sqe_queue_push (entry : Entry) : M World unit := with_borrow_mut (sqe_queue_push entry).

(** [WBuffer::submit]: queue the entry; [self] is dropped at the end of the
    function (there is no [mem::forget]). *)
Definition WBuffer_submit (b : WBuffer) (fd_idx len : Z) : M World unit :=
  global_sqe_queue_push (submit_entry b fd_idx len) ;;!
  zoom pool_lens (WBuffer_drop b).

(** ** Destructors *)

(** [impl Drop for RwBuffer]. *)
Definition RwBuffer_drop (b : RwBuffer) : M World unit :=
  if b.(committed) then ret tt else release_read_buf b.(buf_idx).

Definition Res_drop (r : Res) : M World unit :=
  match r with
  | ResRw b => RwBuffer_drop b
  | ResW b => zoom pool_lens (WBuffer_drop b)
  end.

(** The drop glue of a leaf future: only the fan-out write owns a buffer. *)
Definition Leaf_drop {A} (l : Leaf A) : M World unit :=
  match l with
  | LWriteMultiple (WriteMultiple_Init _ b _) => zoom pool_lens (WBuffer_drop b)
  | LWriteMultiple (WriteMultiple_Pending _ _ _ _ b) => zoom pool_lens (WBuffer_drop b)
  | _ => ret tt
  end.

(** [drop_fn]: the future being awaited, then what the body holds. *)
Definition drop_fn (f : Fut) : M World unit :=
  match f with
  | Suspended (Await leaf held _) => Leaf_drop leaf ;;! for_each held Res_drop
  | _ => ret tt
  end.

#[export] Instance world_host : TaskHost World Fut := {|
  host_heap := heap_lens;
  host_drop_fn := drop_fn;
  host_push_free idx := modify (fun w => set_free_list (w.(RUNTIME_FREE_LIST) ++ [idx]) w);
|}.

#[export] Instance world_host_laws : LensLaws (host_heap (TaskHost := world_host)).
Proof. split; [done|by intros []|done]. Qed.

(** ** [Waker] *)
Definition awake (wk : Waker) : M World unit :=
  modify (fun w => set_wake_list (w.(RUNTIME_WAKE_LIST) ++ [from_waker wk]) w).

Definition Waker_drop (wk : Waker) : M World unit :=
  with_borrow_mut (
    let! p := task_at wk.(wk_payload).(pl_task_idx) in
    release p ;;! ret tt).

(** ** The kernel's side of one turn of the loop

    [io_uring_enter] either fails with an error number or returns once
    completions are available; the batch is what [completion()] yields. *)
Inductive KernelStep :=
| KernelError (errno : Z)
| KernelBatch (entries : list Cqe).

(** [submit_and_wait]: the queue holds [DEFAULT_RING_ENTRIES] entries and is
    empty when the call starts. *)
Definition submit_and_wait (step : KernelStep) : M World (list Cqe + Z) :=
  let! rt := gets w_rt in
  assert_ (Z.of_nat (length rt.(pending)) <=? DEFAULT_RING_ENTRIES)
    "SQ pleine — augmenter DEFAULT_RING_ENTRIES" ;;!
  modify (set_w_rt (set_pending []
    (set_ring_submitted (rt.(ring_submitted) ++ rt.(pending)) rt))) ;;!
  match step with
  | KernelError errno => ret (inr errno)
  | KernelBatch entries => ret (inl entries)
  end.

(** [Runtime::new] and the initial thread locals; the registration calls
    succeed.  [raw] is the address [alloc_zeroed] gives the buffer pool. *)
Definition initial_world `{!SlabMemory} (raw : option Z) : M unit World :=
  let! pool := BufPool_new 1 raw 512 512 in
  let io_vec := build_iovecs 1 pool in
  let! mem := init_buf_ring io_vec pool.(read_count) in
  let! slab := with_capacity 16 in
  ret (mkWorld ∅ (mkRuntime slab [] pool [] mem) 0 TaskInfo_dummy [] []).
End Runtime.
