(* ===== verification/Direct.v ===== *)
(** * A direct semantics of async bodies

    The abstract machine the event loop is compared with.  It has no heap, no
    slab, no reference counts, no [user_data] and no syscall numbers: a state is
    the log of the operations submitted so far, the bodies that wait, each under
    the number of the operation it waits for, the pool of write buffers, and the
    read buffers that were given back, in order.  A completion resumes the body
    that waits for the operation it answers.

    It covers the bodies whose leaf futures submit one operation at a time
    ([plain]): accept, read, write and connect, with spawned tasks and write
    buffers.  All of it is executable. *)

From S2P Require Import Prelude UserData Io Task BufPool Futures.

(** ** One poll of a leaf future *)

(** Given the result and the flags it finds, a leaf submits an operation and
    waits, delivers its output, giving back a buffer that carries no data, or
    panics. *)
Inductive LeafStep (A : Type) :=
| Submit (op : Opcode) (leaf : Leaf A)
| Deliver (back : option Z) (v : A)
| Crash (msg : string).
Arguments Submit {A} _ _.
Arguments Deliver {A} _ _.
Arguments Crash {A} _.

Section Direct.
Context `{!Profile, !CqueueFlags}.

Definition accept_step (res : Z) (f : AcceptFuture) : LeafStep (Z + Z) :=
  match f with
  | Accept_Pending fd => Submit (AcceptOp fd true) (LAccept Accept_Submited)
  | Accept_Submited => Deliver None (if 0 <=? res then inl (as_u32 res) else inr res)
  end.

(** The buffer the kernel chose is in the flags; the handle points to its slot. *)
Definition read_step (pool : BufPool) (res flags : Z) (f : ReadFuture) : LeafStep (RwBuffer + Z) :=
  match f with
  | Read_Init fd => Submit (ReadOp fd (as_u32 (BUF_SIZE 1)) 0 true) (LRead (Read_Pending fd))
  | Read_Pending fd =>
      if res <=? 0 then Deliver (buffer_select flags) (inr res)
      else match buffer_select flags with
           | Some b => Deliver None (inl (mkRwBuffer (pool.(base) + b * BUF_SIZE 1) b fd (as_u32 res) false))
           | None => Crash "READ+BUFFER_SELECT: CQE positive sans buf_id"
           end
  end.

Definition write_step (pool : BufPool) (res : Z) (f : WriteFuture) : LeafStep Z :=
  match f with
  | Write_Init fd buf_id len =>
      Submit (WriteFixedOp fd (write_buf_ptr 1 pool buf_id) len buf_id) (LWrite Write_Pending)
  | Write_Pending => Deliver None res
  end.

(** [connect] creates the socket, connects it, and delivers its slot; slot 0 is
    also the mark that the socket is yet to be created. *)
Definition socket_step (res : Z) (f : SocketFuture) : LeafStep Z :=
  match f with
  | Socket_Create addr => Submit (SocketOp true) (LSocket (Socket_Connecting 0 addr))
  | Socket_Connecting fd addr =>
      if fd =? 0
      then Submit (ConnectOp (as_u32 res) addr 16) (LSocket (Socket_Connecting (as_u32 res) addr))
      else Deliver None fd
  | Socket_Pending => Crash "internal error: entered unreachable code"
  end.

Definition leaf_step {A} (pool : BufPool) (res flags : Z) (l : Leaf A) : LeafStep A :=
  match l in Leaf B return LeafStep B with
  | LAccept f => accept_step res f
  | LRead f => read_step pool res flags f
  | LWrite f => write_step pool res f
  | LSocket f => socket_step res f
  | _ => Crash "not a plain leaf"
  end.

(** ** The machine *)
Record DState := mkDState {
  d_log : list Opcode;
  d_waiting : gmap nat Prog;
  d_pool : BufPool;
  d_returned : list Z;
}.

Definition d_set_pool (p : BufPool) (s : DState) : DState := mkDState s.(d_log) s.(d_waiting) p s.(d_returned).
Definition d_pool_lens : lens DState BufPool := Lens d_pool d_set_pool.

(** Submit an operation and wait for it. *)
Definition d_submit (op : Opcode) (q : Prog) (s : DState) : DState :=
  mkDState (s.(d_log) ++ [op]) (<[length s.(d_log) := q]> s.(d_waiting)) s.(d_pool) s.(d_returned).

Definition d_take (m : nat) (s : DState) : DState :=
  mkDState s.(d_log) (delete m s.(d_waiting)) s.(d_pool) s.(d_returned).

(** Give read buffer [b] back. *)
Definition d_return (b : Z) (s : DState) : DState :=
  mkDState s.(d_log) s.(d_waiting) s.(d_pool) (s.(d_returned) ++ [b]).

Definition d_give_back (back : option Z) : M DState unit :=
  match back with Some b => modify (d_return b) | None => ret tt end.

Definition d_drop (r : Res) : M DState unit :=
  match r with
  | ResRw b => if b.(committed) then ret tt else modify (d_return b.(buf_idx))
  | ResW b => zoom d_pool_lens (WBuffer_drop b)
  end.

(** Run a body from where it is, until it waits for an operation or is over.
    A child runs first, as far as it gets; its first poll finds the result and
    the flags of [initial_poll]. *)
Fixpoint exec (res flags : Z) (prog : Prog) : M DState unit :=
  match prog with
  | Return => ret tt
  | Unwind msg => panic msg
  | Await leaf held k =>
      let! pool := gets d_pool in
      match leaf_step pool res flags leaf with
      | Submit op leaf' => modify (d_submit op (Await leaf' held k))
      | Deliver back v => d_give_back back ;;! exec res flags (k v)
      | Crash msg => panic msg
      end
  | Spawn child k => exec i32_max 0 child ;;! exec res flags k
  | AllocWrite k => let! b := zoom d_pool_lens (alloc_write 1) in exec res flags (k b)
  | CloneWrite b k => let! b' := zoom d_pool_lens (WBuffer_clone b) in exec res flags (k b')
  | SubmitWrite _ _ _ _ => panic "not a plain body"
  | DropRes r k => d_drop r ;;! exec res flags k
  end.

(** Operation [m] completes: the body that waits for it goes on.  There is no
    such state when nobody waits for it. *)
Definition resume (m : nat) (c : Cqe) : M DState unit :=
  let! waiting := gets d_waiting in
  match waiting !! m with
  | Some q => modify (d_take m) ;;! exec c.(cqe_result) c.(cqe_flags) q
  | None => ub "a completion nobody waits for"
  end.

Definition replay (tr : list (nat * Cqe)) : M DState unit := for_each tr (fun mc => resume mc.1 mc.2).

Definition d_start (pool : BufPool) : DState := mkDState [] ∅ pool [].

(** A whole run: the first body, then the completions in order. *)
Definition direct (future : Prog) (tr : list (nat * Cqe)) : M DState unit :=
  exec i32_max 0 future ;;! replay tr.

Lemma replay_app tr1 tr2 s : replay (tr1 ++ tr2) s = (replay tr1 ;;! replay tr2) s.
Proof. apply for_each_app. Qed.
End Direct.

(** ** The bodies it covers *)
Definition plain_leaf {A} (l : Leaf A) : Prop :=
  match l with
  | LAccept _ | LRead _ | LWrite _ | LSocket _ => True
  | _ => False
  end.

Fixpoint plain (p : Prog) : Prop :=
  match p with
  | Return | Unwind _ => True
  | Await leaf _ k => plain_leaf leaf /\ forall v, plain (k v)
  | Spawn child k => plain child /\ plain k
  | AllocWrite k => forall b, plain (k b)
  | CloneWrite _ k => forall b, plain (k b)
  | SubmitWrite _ _ _ _ => False
  | DropRes _ k => plain k
  end.

Lemma leaf_step_plain `{!CqueueFlags} {A} pool res flags (l : Leaf A) op l' :
  leaf_step pool res flags l = Submit op l' -> plain_leaf l'.
Proof.
  destruct l as [f| |f| |f| | |f]; try done; cbn [leaf_step]; destruct f; cbn;
    repeat case_match; intros [= _ <-]; done.
Qed.
