(* ===== verification/Setup.v ===== *)
(** * Creating a runtime

    Models [Runtime::new] of src/src/runtime.rs with its system calls and its
    blocks of memory, and the lazy initialisation of [GLOBAL_RUNTIME]: what is
    registered with the kernel and in which order, what is allocated, what each
    failing step gives back. *)

From S2P Require Import Prelude UserData Io Task Slab BufPool BufRing Futures Runtime.

(** ** Blocks of memory

    The blocks the runtime asks from the global allocator, by address, with the
    layout (size, alignment) they were allocated with.  Giving a block back
    with another layout, or twice, is undefined. *)
Abbreviation Blocks := (gmap Z (Z * Z)).

Definition alloc_block (raw : option Z) (layout : Z * Z) (msg : string) : M Blocks Z :=
  let! p := expect raw msg in
  modify (fun b => <[p := layout]> b) ;;!
  ret p.

Definition dealloc_block (p : Z) (layout : Z * Z) : M Blocks unit := fun b =>
  match b !! p with
  | Some l => if decide (l = layout) then Ok (tt, delete p b) else Ub "dealloc with another layout"
  | None => Ub "dealloc of a block that is not allocated"
  end.

(** ** The registration calls *)
Inductive Registration :=
| RegisterFilesSparse (nr : Z)
| RegisterBuffers (bufs : list iovec)
| RegisterBufRing (ring_addr ring_entries bgid flags : Z).

(** What is shared between the runtime being built and its surroundings. *)
Record Setup := mkSetup { su_blocks : Blocks; su_log : list Registration }.

Definition blocks_lens : lens Setup Blocks := Lens su_blocks (fun b s => mkSetup b s.(su_log)).

(** A system call: it is made, and answers with an error number or not. *)
Definition register (r : Registration) (answer : option Z) : M Setup (option Z) :=
  modify (fun s => mkSetup s.(su_blocks) (s.(su_log) ++ [r])) ;;!
  ret answer.

(** What the kernel and the allocator answer during [Runtime::new]: an error
    number for a call that fails, an address for an allocation that does not. *)
Record Answers := mkAnswers {
  an_build : option Z;
  an_files : option Z;
  an_pool : option Z;
  an_buffers : option Z;
  an_ring : option Z;
  an_buf_ring : option Z;
  an_slab : option Z;
}.

(** A [Runtime] with the addresses of its blocks; the contents are those of the
    state the event loop starts from. *)
Record RuntimeBox := mkRuntimeBox {
  bx_world : World;
  bx_buf_ring : Z;
  bx_buf_ring_layout : Z * Z;
  bx_slab_ptr : Z;
}.

Section Setup.
Context `{!Profile}.

(** [impl Drop for BufPool]. *)
Definition BufPool_drop (p : BufPool) : M Blocks unit := dealloc_block p.(base) p.(layout).

(** [BufPool::new] with its block. *)
Definition BufPool_alloc (N : Z) (raw : option Z) (read_count write_count : Z) : M Blocks BufPool :=
  let! pool := BufPool_new N raw read_count write_count in
  modify (fun b => <[pool.(base) := pool.(layout)]> b) ;;!
  ret pool.

(** [Slab::with_capacity] with its block. *)
Definition Slab_alloc (raw : option Z) (cap : Z) : M Blocks (Z * Slab) :=
  let! slab := with_capacity cap in
  let! ptr := alloc_block raw (layout_for cap) "Slab alloc failed" in
  ret (ptr, slab).

(** [Runtime::new]; [inr] is the error the [?] operator returns.  The locals
    alive at an early return are dropped: the buffer pool, once it exists. *)
Definition Runtime_new (entries max_connections : Z) (an : Answers) : M Setup (RuntimeBox + Z) :=
  (match an.(an_build) with
   | Some _ => panic "io_uring: échec de la création du ring"
   | None => ret tt
   end) ;;!
  let! files := register (RegisterFilesSparse max_connections) an.(an_files) in
  match files with
  | Some errno => ret (inr errno)
  | None =>
      let! buffer := zoom blocks_lens (BufPool_alloc 1 an.(an_pool) 512 512) in
      let io_vec := build_iovecs 1 buffer in
      let! buffers := register (RegisterBuffers io_vec) an.(an_buffers) in
      match buffers with
      | Some errno => zoom blocks_lens (BufPool_drop buffer) ;;! ret (inr errno)
      | None =>
          let read_count := buffer.(read_count) in
          let buf_ring_layout := (read_count * 16, PAGE_SIZE) in
          let! buf_ring := zoom blocks_lens (alloc_block an.(an_ring) buf_ring_layout "buf_ring: OOM") in
          let! mem := init_buf_ring io_vec read_count in
          let! ring := register (RegisterBufRing buf_ring (as_u16 read_count) 0 0) an.(an_buf_ring) in
          match ring with
          | Some errno => zoom blocks_lens (BufPool_drop buffer) ;;! ret (inr errno)
          | None =>
              let! slab := zoom blocks_lens (Slab_alloc an.(an_slab) 16) in
              let w := mkWorld ∅ (mkRuntime slab.2 [] buffer [] mem) 0 TaskInfo_dummy [] [] in
              ret (inl (mkRuntimeBox w buf_ring buf_ring_layout slab.1))
          end
      end
  end.

(** The initialiser of the thread local [GLOBAL_RUNTIME]. *)
Definition GLOBAL_RUNTIME_init (an : Answers) : M Setup RuntimeBox :=
  let! r := Runtime_new DEFAULT_RING_ENTRIES DEFAULT_MAX_CONNECTIONS an in
  match r with
  | inl rt => ret rt
  | inr _ => panic "Runtime creation failed"
  end.
End Setup.
