(* ===== verification/Calls.v ===== *)
(** * The leaf futures

    Models the [poll] functions of src/src/calls/ (accept.rs, read.rs,
    write.rs, commit.rs, socket.rs).  A poll returns the future's new state and
    what [poll] returns. *)

From S2P Require Import Prelude UserData Io Task Slab BufPool BufRing Futures Runtime.

Section Calls.
Context `{!Profile, !CqueueFlags}.

(** ** accept.rs *)
Definition AcceptFuture_poll (self : AcceptFuture) : M World (AcceptFuture * Poll (Z + Z)) :=
  match self with
  | Accept_Pending fd =>
      submit_accept fd ;;!
      ret (Accept_Submited, Pending)
  | Accept_Submited =>
      let! res := current_result in
      if 0 <=? res then ret (self, Ready (inl (as_u32 res)))
      else ret (self, Ready (inr res))
  end.

Definition AcceptStream_poll_next (self : AcceptStream) : M World (AcceptStream * Poll (option Z)) :=
  match self.(as_state) with
  | Stream_Init =>
      submit_accept_multishot self.(as_listen_fd) ;;!
      ret (mkAcceptStream self.(as_listen_fd) Stream_Running, Pending)
  | Stream_Running =>
      let! result := current_result in
      if result <? 0
      then ret (mkAcceptStream self.(as_listen_fd) Stream_Done, Ready None)
      else
        let! flags := current_cqe_flags in
        let state := if more flags then Stream_Running else Stream_Done in
        ret (mkAcceptStream self.(as_listen_fd) state, Ready (Some (as_u32 result)))
  | Stream_Done => ret (self, Ready None)
  end.

(** ** read.rs *)
Definition checkout (buf_id fd bytes : Z) : M World RwBuffer :=
  with_borrow (
    let! pool := gets (fun w => w.(w_rt).(buffer)) in
    checkout_read 1 pool buf_id fd bytes).

Definition ReadFuture_poll (self : ReadFuture) : M World (ReadFuture * Poll (RwBuffer + Z)) :=
  match self with
  | Read_Init fd =>
      submit_read fd ;;!
      ret (Read_Pending fd, Pending)
  | Read_Pending fd =>
      let! bytes := current_result in
      let! flags := current_cqe_flags in
      if bytes <=? 0 then
        match buffer_select flags with
        | Some buf_id => release_read_buf buf_id
        | None => ret tt
        end ;;!
        ret (self, Ready (inr bytes))
      else
        let! buf_id := expect (buffer_select flags) "READ+BUFFER_SELECT: CQE positive sans buf_id" in
        let! rwbuf := checkout buf_id fd (as_u32 bytes) in
        ret (self, Ready (inl rwbuf))
  end.

Definition ReadStream_poll_next (self : ReadStream) : M World (ReadStream * Poll (option RwBuffer)) :=
  match self.(rs_state) with
  | Stream_Init =>
      submit_recv_multishot self.(rs_fd) ;;!
      ret (mkReadStream self.(rs_fd) Stream_Running, Pending)
  | Stream_Running =>
      let! result := current_result in
      let! flags := current_cqe_flags in
      if result <? 0
      then ret (mkReadStream self.(rs_fd) Stream_Done, Ready None)
      else
        let! buf_id := expect (buffer_select flags) "RECV_MULTISHOT: CQE positive sans buf_id" in
        let! buf := checkout buf_id self.(rs_fd) (as_u32 result) in
        let state := if more flags then Stream_Running else Stream_Done in
        ret (mkReadStream self.(rs_fd) state, Ready (Some buf))
  | Stream_Done => ret (self, Ready None)
  end.

(** ** write.rs *)
Definition WriteFuture_poll (self : WriteFuture) : M World (WriteFuture * Poll Z) :=
  match self with
  | Write_Init fd buf_id len =>
      submit_write fd buf_id len ;;!
      ret (Write_Pending, Pending)
  | Write_Pending =>
      let! res := current_result in
      ret (Write_Pending, Ready res)
  end.

(** What one completion adds to [faileds]: the two tests are not exclusive. *)
Definition write_failures (fd len result : Z) : list WriteResult :=
  (if result <? 0 then [Failed fd] else []) ++
  (if negb (as_u32 result =? len) then [Partial fd (as_u32 result)] else []).

Definition WriteMultipleFuture_poll (self : WriteMultipleFuture)
    : M World (WriteMultipleFuture * Poll (list WriteResult)) :=
  match self with
  | WriteMultiple_Init fds buffer len =>
      let! cloned := zoom pool_lens (WBuffer_clone buffer) in
      submit_multiple_write fds cloned len ;;!
      ret (WriteMultiple_Pending (as_u16 (Z.of_nat (length fds))) fds [] len buffer, Pending)
  | WriteMultiple_Pending in_fligth_count fds faileds len _buffer =>
      let! in_fligth_count := sub_w 16 in_fligth_count 1 in
      let! task_info := gets CURRENT_TASK in
      let gen_result := task_info.(ti_response_gen) in
      let! fd := expect (zlookup fds gen_result) "index out of bounds" in
      assert_ (negb (fd =? u32_max))
        "Re using a empty slot in WriteMultipleFuture::Pending there are some duplicate gen" ;;!
      let fds := zinsert gen_result u32_max fds in
      let faileds := faileds ++ write_failures fd len task_info.(ti_result) in
      if in_fligth_count =? 0 then
        with_borrow_mut (advance_syscall_nb task_info.(ti_tag)) ;;!
        let! task_info := gets CURRENT_TASK in
        modify (set_current (set_to_next_task task_info)) ;;!
        ret (WriteMultiple_Pending in_fligth_count fds [] len _buffer, Ready faileds)
      else ret (WriteMultiple_Pending in_fligth_count fds faileds len _buffer, Pending)
  | WriteMultiple_Poisoned => ub "unreachable_unchecked in WriteMultipleFuture::poll"
  end.

(** ** commit.rs *)
Definition CommitFuture_poll (self : CommitFuture) : M World (CommitFuture * Poll Z) :=
  match self with
  | Commit_Init ptr buf_idx fd_idx len =>
      submit_commit_write ptr fd_idx len (as_u16 buf_idx) ;;!
      ret (Commit_Pending buf_idx, Pending)
  | Commit_Pending buf_idx =>
      release_read_buf buf_idx ;;!
      let! res := current_result in
      ret (self, Ready res)
  end.

(** ** socket.rs *)
Definition sockaddr_in_size : Z := 16.

Definition SocketFuture_poll (self : SocketFuture) : M World (SocketFuture * Poll Z) :=
  match self with
  | Socket_Create addr =>
      submit_socket ;;!
      ret (Socket_Connecting 0 addr, Pending)
  | Socket_Connecting fd addr =>
      if fd =? 0 then
        let! res := current_result in
        let slot := as_u32 res in
        submit_connect slot addr sockaddr_in_size ;;!
        ret (Socket_Connecting slot addr, Pending)
      else ret (Socket_Pending, Ready fd)
  | Socket_Pending => panic "internal error: entered unreachable code"
  end.

(** ** The leaf of an [await] *)
Definition lift_poll {S A B} (wrap : S -> Leaf B) (item : S -> A -> B) (r : S * Poll A)
    : Leaf B * Poll B :=
  (wrap r.1, match r.2 with Ready a => Ready (item r.1 a) | Pending => Pending end).

Definition poll_leaf {A} (l : Leaf A) : M World (Leaf A * Poll A) :=
  match l with
  | LAccept f => let! r := AcceptFuture_poll f in ret (lift_poll LAccept (fun _ a => a) r)
  | LAcceptNext s => let! r := AcceptStream_poll_next s in ret (lift_poll LAcceptNext (fun s a => (a, s)) r)
  | LRead f => let! r := ReadFuture_poll f in ret (lift_poll LRead (fun _ a => a) r)
  | LReadNext s => let! r := ReadStream_poll_next s in ret (lift_poll LReadNext (fun s a => (a, s)) r)
  | LWrite f => let! r := WriteFuture_poll f in ret (lift_poll LWrite (fun _ a => a) r)
  | LWriteMultiple f => let! r := WriteMultipleFuture_poll f in ret (lift_poll LWriteMultiple (fun _ a => a) r)
  | LCommit f => let! r := CommitFuture_poll f in ret (lift_poll LCommit (fun _ a => a) r)
  | LSocket f => let! r := SocketFuture_poll f in ret (lift_poll LSocket (fun _ a => a) r)
  end.
End Calls.
