(* ===== verification/Executor.v ===== *)
(** * Polling, spawning and the event loop

    Models [Task::poll] on a task's async body, [spawn], [handle_cqe_entry] and
    [block_on] of src/src/runtime.rs. *)

From S2P Require Import Prelude UserData Io Task Slab BufPool BufRing Futures Runtime Calls.

Section Executor.
Context `{!Profile, !CqueueFlags, !Allocator, !FutLayout Fut, !SlabMemory}.

(** [Task::poll] for the header at [p], given how its body runs: a completed
    async body panics when it is polled again; otherwise the state it is left
    in is written back in place. *)
Definition task_poll_with (body : Prog -> M World (Fut * Poll unit)) (p : Z) : M World (Poll unit) :=
  let! raw := zoom heap_lens (load p) in
  match raw.(rt_future) with
  | Completed => panic "`async fn` resumed after completion"
  | Suspended prog =>
      let! r := body prog in
      let! raw' := zoom heap_lens (load p) in
      zoom heap_lens (store p (set_future r.1 raw')) ;;!
      ret r.2
  end.

(** [spawn], given how the new task's body runs. *)
Definition spawn_with (body : Prog -> M World (Fut * Poll unit)) (future : Prog) : M World unit :=
  let! r := with_borrow_mut (
    let! task := zoom heap_lens (Task_new (Suspended future)) in
    let! cloned := zoom heap_lens (Task_clone task) in
    let! task_idx := zoom heap_tasks_lens (insert cloned) in
    let! old_task_context := gets CURRENT_TASK in
    modify (set_current (initial_poll task_idx)) ;;!
    ret (task, old_task_context)) in
  let '(task, old_context) := r in
  task_poll_with body task ;;!
  release task ;;!
  modify (set_current old_context) ;;!
  Task_drop task.

(** Running a body until it suspends or completes.  The body of a spawned
    child is run by the recursive call on the child itself, which is what the
    header the child was just put in holds. *)
Fixpoint run (prog : Prog) : M World (Fut * Poll unit) :=
  match prog with
  | Return => ret (Completed, Ready tt)
  | Unwind msg => panic msg
  | Await leaf held k =>
      let! r := poll_leaf leaf in
      match r.2 with
      | Pending => ret (Suspended (Await r.1 held k), Pending)
      | Ready v => Leaf_drop r.1 ;;! run (k v)
      end
  | Spawn child k => spawn_with (fun _ => run child) child ;;! run k
  | AllocWrite k => let! b := alloc_write_buffer in run (k b)
  | CloneWrite b k => let! b' := zoom pool_lens (WBuffer_clone b) in run (k b')
  | SubmitWrite b fd_idx len k => WBuffer_submit b fd_idx len ;;! run k
  | DropRes r k => Res_drop r ;;! run k
  end.

Definition task_poll (p : Z) : M World (Poll unit) := task_poll_with run p.
Definition spawn (future : Prog) : M World unit := spawn_with run future.

(** [rt.tasks[task_idx].clone()] under the borrow. *)
Definition clone_task (task_idx : Z) : M World Z :=
  with_borrow_mut (
    let! p := task_at task_idx in
    zoom heap_lens (Task_clone p)).

Definition handle_cqe_entry (entry : Cqe) : M World unit :=
  let is_multishoot := more entry.(cqe_flags) in
  let task_info := info_from_entry entry in
  let nb_syscall := task_info.(ti_tag).(syscall_nb) in
  let task_idx := task_info.(ti_tag).(task_idx) in
  let! task := clone_task task_idx in
  let! evaluation := zoom heap_lens (evaluate_syscall_nb task nb_syscall) in
  match evaluation with
  | Error => panic "Recieve a SQE newer than expected"
  | Expired => ret tt
  | Normal =>
      let! nb := add_w 16 nb_syscall 1 in
      let task_info := mkTaskInfo (mkTag task_idx nb) task_info.(ti_result)
                         task_info.(ti_flags) task_info.(ti_response_gen) in
      zoom heap_lens (augmente_syscall_nb task) ;;!
      modify (set_current task_info) ;;!
      task_poll task ;;!
      ret tt
  | Multiple =>
      modify (set_current task_info) ;;!
      task_poll task ;;!
      ret tt
  end ;;!
  (if is_multishoot then ret tt else release task ;;! ret tt) ;;!
  Task_drop task.

(** The loop [while let Some(awake) = RUNTIME_WAKE_LIST.pop_front()], for at
    most [fuel] turns. *)
Fixpoint drain_wake_list (fuel : nat) : M World unit :=
  match fuel with
  | O => ret tt
  | S fuel' =>
      let! wake_list := gets RUNTIME_WAKE_LIST in
      match wake_list with
      | [] => ret tt
      | awake :: rest =>
          modify (set_wake_list rest) ;;!
          let task_idx := awake.(ti_tag).(task_idx) in
          modify (set_current awake) ;;!
          let! task := clone_task task_idx in
          task_poll task ;;!
          Task_drop task ;;!
          drain_wake_list fuel'
      end
  end.

(** [rt.free_unsed_slab_slot(); rt.tasks.count() == 0]. *)
Definition is_runtime_free : M World bool :=
  with_borrow_mut (
    free_unsed_slab_slot ;;!
    let! s := gets (fun w => w.(w_rt).(tasks)) in
    ret (count s =? 0)).

(** How a run of [block_on] ends, or where it waits for the kernel. *)
Inductive BlockOn := Returned | IoError (errno : Z) | Waiting.

(** One turn of the [loop] of [block_on], given what [io_uring_enter] answers:
    [Some] when the loop ends, [None] when it turns again. *)
Definition block_on_turn (step : KernelStep) : M World (option BlockOn) :=
  let! r := with_borrow_mut (submit_and_wait step) in
  match r with
  | inr errno => ret (Some (IoError errno))
  | inl entries =>
      let! free := is_runtime_free in
      if free then ret (Some Returned)
      else
        (if Nat.eqb (length entries) 0
         then panic "Entries len ==0 runtime shouldnt been wakeup" else ret tt) ;;!
        for_each entries handle_cqe_entry ;;!
        let! wake_list := gets RUNTIME_WAKE_LIST in
        drain_wake_list (length wake_list) ;;!
        let! free := is_runtime_free in
        ret (if free then Some Returned else None)
  end.

(** The loop, for as long as the kernel has answers. *)
Fixpoint block_on_loop (steps : list KernelStep) : M World BlockOn :=
  match steps with
  | [] => ret Waiting
  | step :: steps' =>
      let! r := block_on_turn step in
      match r with
      | Some b => ret b
      | None => block_on_loop steps'
      end
  end.

Definition block_on (future : Prog) (steps : list KernelStep) : M World BlockOn :=
  spawn future ;;!
  let! free := is_runtime_free in
  if free then ret Returned else block_on_loop steps.
End Executor.
