(* ===== verification/Quiet.v ===== *)
(** * Operations that do not touch the tasks

    Buffer operations and destructors only reach the buffer pool and the buffer
    ring: they leave the task headers, the slab, the queues and the current
    task alone, and keep the ring well-formed. *)

From S2P Require Import Prelude UserData Io Task Slab BufPool BufRing Futures Runtime Calls.

Record quiet (w w' : World) : Prop := {
  q_heap : w'.(w_heap) = w.(w_heap);
  q_tasks : w'.(w_rt).(tasks) = w.(w_rt).(tasks);
  q_pending : w'.(w_rt).(pending) = w.(w_rt).(pending);
  q_submitted : w'.(w_rt).(ring_submitted) = w.(w_rt).(ring_submitted);
  q_current : w'.(CURRENT_TASK) = w.(CURRENT_TASK);
  q_free : w'.(RUNTIME_FREE_LIST) = w.(RUNTIME_FREE_LIST);
  q_wake : w'.(RUNTIME_WAKE_LIST) = w.(RUNTIME_WAKE_LIST);
  q_count : w'.(w_rt).(buffer).(read_count) = w.(w_rt).(buffer).(read_count);
  q_ring : ring_wf w.(w_rt).(buffer).(read_count) w.(w_rt).(buf_ring) ->
           ring_wf w'.(w_rt).(buffer).(read_count) w'.(w_rt).(buf_ring);
}.

Definition ring_ok (w : World) : Prop :=
  ring_wf w.(w_rt).(buffer).(read_count) w.(w_rt).(buf_ring).

#[export] Instance quiet_preorder : PreOrder quiet.
Proof.
  split.
  - intros w. by split.
  - intros w1 w2 w3 [] []. split; try congruence. auto.
Qed.

Lemma quiet_ring w w' : quiet w w' -> ring_ok w -> ring_ok w'.
Proof. intros [] ?. unfold ring_ok in *. auto. Qed.

(** The entries handed over and queued, the buffer pool, the buffer ring and the
    borrow flag are left alone. *)
Record same_io (w w' : World) : Prop := {
  io_submitted : w'.(w_rt).(ring_submitted) = w.(w_rt).(ring_submitted);
  io_pending : w'.(w_rt).(pending) = w.(w_rt).(pending);
  io_buffer : w'.(w_rt).(buffer) = w.(w_rt).(buffer);
  io_ring : w'.(w_rt).(buf_ring) = w.(w_rt).(buf_ring);
  io_borrow : w'.(w_borrow) = w.(w_borrow);
}.

#[export] Instance same_io_preorder : PreOrder same_io.
Proof. split; [by split|]. intros w1 w2 w3 [] []. split; congruence. Qed.

(** The shape of the pool: its block, and how its slots are shared out.  No
    operation changes it. *)
Record same_geometry (p p' : BufPool) : Prop := {
  sg_base : p'.(base) = p.(base);
  sg_layout : p'.(layout) = p.(layout);
  sg_read_count : p'.(read_count) = p.(read_count);
  sg_slots : length p'.(write_rc) = length p.(write_rc);
}.

#[export] Instance same_geometry_preorder : PreOrder same_geometry.
Proof. split; [by intros p|]. intros p1 p2 p3 [] []. split; congruence. Qed.

Abbreviation pool_keeps m := (keeps (fun _ => True) same_geometry m).

(** A quiet computation. *)
Abbreviation Quiet m := (keeps ring_ok quiet m).

#[export] Hint Resolve quiet_ring : onlyio.

Section Quiet.
Context {prof : Profile} {flags : CqueueFlags}.

(** *** The pool's operations *)

Lemma rc_at_keeps rel : pool_keeps (rc_at rel).
Proof. intros p _. unfold wp, rc_at. by destruct (zlookup _ _). Qed.

Lemma set_rc_keeps rel rc : pool_keeps (set_rc rel rc).
Proof.
  intros p _. unfold wp, set_rc. destruct (zlookup _ _); [|done]. split; try done. simpl. by rewrite length_zinsert.
Qed.

#[local] Hint Resolve rc_at_keeps set_rc_keeps : onlyio.

Lemma WBuffer_clone_keeps b : pool_keeps (WBuffer_clone b).
Proof. unfold WBuffer_clone. solve_keeps. Qed.

Lemma WBuffer_drop_keeps b : pool_keeps (WBuffer_drop b).
Proof. unfold WBuffer_drop. solve_keeps. by apply keeps_modify. Qed.

Lemma WBuffer_write_keeps b fd n u : pool_keeps (WBuffer_write b fd n u).
Proof. unfold WBuffer_write. solve_keeps. apply WBuffer_drop_keeps. Qed.

Lemma alloc_write_keeps : pool_keeps (alloc_write 1).
Proof.
  intros p _. unfold alloc_write. apply wp_bind, wp_get. destruct (write_free p) as [|i rest]; [done|].
  apply wp_bind, wp_put.
  assert (Hk : pool_keeps (let! rel := sub_w 32 i (read_count p) in let! rc := rc_at rel in
    debug_assert (rc =? 0) "assertion `left == right` failed" ;;! set_rc rel 1 ;;!
    ret (mkWBuffer (base p + i * BUF_SIZE 1) i))) by solve_keeps.
  eapply wp_mono; [by apply (Hk (set_write_free rest p))|].
  intros b p' Hp. by transitivity (set_write_free rest p).
Qed.

Lemma quiet_pool {A} (m : M BufPool A) : pool_keeps m -> Quiet (zoom pool_lens m).
Proof.
  intros Hm w Hw. apply wp_zoom. eapply wp_mono; [by apply Hm|].
  intros a p Hp. split; simpl in *; try done; [apply Hp|]. by rewrite (sg_read_count _ _ Hp).
Qed.

(** *** The borrow flag *)
Lemma quiet_borrow b w : quiet w (set_w_borrow b w).
Proof. by split. Qed.

Lemma quiet_with_borrow_mut {A} (m : M World A) : Quiet m -> Quiet (with_borrow_mut m).
Proof.
  intros Hm. unfold with_borrow_mut. solve_keeps; apply keeps_modify; intros; apply quiet_borrow.
Qed.

Lemma quiet_with_borrow {A} (m : M World A) : Quiet m -> Quiet (with_borrow m).
Proof.
  intros Hm. unfold with_borrow. solve_keeps; apply keeps_modify; intros; apply quiet_borrow.
Qed.

(** *** The ring *)
Lemma wp_wr n off v mem (Q : unit -> list Z -> Prop) :
  0 <= off -> off + Z.of_nat n <= Z.of_nat (length mem) ->
  (forall mem', length mem' = length mem -> (Forall is_byte mem -> Forall is_byte mem') -> Q tt mem') ->
  wp (wr n off v) Q mem.
Proof.
  intros H0 Hl HQ. destruct (wr_ok n off v mem H0 Hl) as (mem' & E & L & _ & _).
  unfold wp. rewrite E. apply HQ; [done|]. by eapply wr_bytes.
Qed.

Lemma release_wf buffer b mem : ring_wf buffer.(read_count) mem ->
  wp (release_buf_to_ring buffer b) (fun _ mem' => ring_wf buffer.(read_count) mem') mem.
Proof.
  intros Hwf. pose proof (ring_wf_bound _ _ Hwf) as (HR & _ & _).
  destruct Hwf as (Hpow & Hlen & Hby). unfold release_buf_to_ring.
  apply wp_bind. unfold wp at 1. rewrite rd_ok by (unfold TAIL_OFFSET; lia).
  rewrite land_mask by done. set (t := peek 2 TAIL_OFFSET mem).
  pose proof (Z.mod_pos_bound t (read_count buffer) ltac:(lia)).
  apply wp_bind. unfold read_buf_addr. apply wp_bind, wp_debug_assert, wp_ret.
  apply wp_bind, wp_wr; [lia..|]. intros m1 L1 B1.
  apply wp_bind, wp_wr; [lia..|]. intros m2 L2 B2.
  apply wp_bind, wp_wr; [lia..|]. intros m3 L3 B3.
  apply wp_wr; [unfold TAIL_OFFSET; lia..|]. intros m4 L4 B4.
  split; [done|]. split; [lia|]. auto.
Qed.

Lemma quiet_ring_release b :
  Quiet (let! pool := gets (fun w => w.(w_rt).(buffer)) in zoom ring_lens (release_buf_to_ring pool b)).
Proof.
  intros w Hw. apply wp_bind, wp_gets, wp_zoom. eapply wp_mono; [by apply release_wf|].
  intros [] mem Hmem. by split.
Qed.

Lemma release_read_buf_quiet b : Quiet (release_read_buf b).
Proof. apply quiet_with_borrow, quiet_ring_release. Qed.

(** *** Destructors and the buffer operations of bodies *)
Lemma RwBuffer_drop_quiet b : Quiet (RwBuffer_drop b).
Proof. unfold RwBuffer_drop. solve_keeps. apply release_read_buf_quiet. Qed.

Lemma WBuffer_drop_quiet b : Quiet (zoom pool_lens (WBuffer_drop b)).
Proof. apply quiet_pool, WBuffer_drop_keeps. Qed.

Lemma WBuffer_clone_quiet b : Quiet (zoom pool_lens (WBuffer_clone b)).
Proof. apply quiet_pool, WBuffer_clone_keeps. Qed.

Lemma WBuffer_write_quiet b fd n u : Quiet (zoom pool_lens (WBuffer_write b fd n u)).
Proof. apply quiet_pool, WBuffer_write_keeps. Qed.

Lemma alloc_write_buffer_quiet : Quiet alloc_write_buffer.
Proof. apply quiet_with_borrow_mut, quiet_pool, alloc_write_keeps. Qed.

#[local] Hint Resolve RwBuffer_drop_quiet WBuffer_drop_quiet : onlyio.

Lemma Res_drop_quiet r : Quiet (Res_drop r).
Proof. unfold Res_drop. solve_keeps. Qed.

Lemma Leaf_drop_quiet {A} (l : Leaf A) : Quiet (Leaf_drop l).
Proof. unfold Leaf_drop. solve_keeps. Qed.

#[local] Hint Resolve Res_drop_quiet Leaf_drop_quiet : onlyio.

Lemma drop_fn_quiet f : Quiet (drop_fn f).
Proof. unfold drop_fn. solve_keeps. Qed.

Lemma checkout_quiet b fd n : Quiet (checkout b fd n).
Proof. apply quiet_with_borrow. unfold checkout_read. solve_keeps. Qed.
End Quiet.

#[export] Hint Resolve release_read_buf_quiet RwBuffer_drop_quiet WBuffer_drop_quiet
  WBuffer_clone_quiet WBuffer_write_quiet alloc_write_buffer_quiet Res_drop_quiet
  Leaf_drop_quiet drop_fn_quiet checkout_quiet : onlyio.
