(* ===== verification/RingLog.v ===== *)
(** * What the buffer ring holds, from what was given back

    The bytes of the ring are determined by the pool and by the read buffers
    given back since [Runtime::new], in order.  The ring then offers the kernel
    a window of the sequence that starts with all the buffers and goes on with
    those given back: the part it has not taken yet. *)

From S2P Require Import Prelude UserData Io BufPool BufRing Quiet.

Section RingLog.
Context {prof : Profile}.

(** [mem] is the ring of [Runtime::new] after the releases of [returned]. *)
Definition ring_from (pool : BufPool) (returned : list Z) (mem : list Z) : Prop :=
  exists mem0, init_buf_ring (build_iovecs 1 pool) pool.(read_count) tt = Ok (mem0, tt) /\
    for_each returned (release_buf_to_ring pool) mem0 = Ok (tt, mem).

(** Only the shape of the pool matters. *)
Lemma release_geometry p p' b mem : same_geometry p p' ->
  release_buf_to_ring p' b mem = release_buf_to_ring p b mem.
Proof. intros []. unfold release_buf_to_ring, read_buf_addr. by rewrite sg_base, sg_read_count. Qed.

Lemma ring_from_geometry p p' returned mem : same_geometry p p' ->
  ring_from p returned mem -> ring_from p' returned mem.
Proof.
  intros Hg (mem0 & E0 & E). pose proof Hg as []. exists mem0.
  unfold build_iovecs in *. rewrite sg_base, sg_read_count, sg_slots. split; [done|].
  rewrite <- E. clear E E0. revert mem0. induction returned as [|b l IH]; intros m; cbn [for_each]; [done|].
  unfold bind. rewrite (release_geometry p p') by done.
  by destruct (release_buf_to_ring p b m) as [[[] m']|?|?].
Qed.

Lemma ring_from_release pool returned b mem mem' : ring_from pool returned mem ->
  release_buf_to_ring pool b mem = Ok (tt, mem') -> ring_from pool (returned ++ [b]) mem'.
Proof.
  intros (mem0 & E0 & E) Hr. exists mem0. split; [done|].
  rewrite for_each_app, (bind_step _ _ _ _ _ E). cbn [for_each]. by rewrite (bind_step _ _ _ _ _ Hr).
Qed.

(** ** The window *)
Section Window.
Context (pool : BufPool).
Abbreviation R := pool.(read_count).
Context (Hpow : exists k, 0 <= k <= 15 /\ R = 2 ^ k) (Hbase : 0 <= pool.(base))
  (Hend : pool.(base) + (R + Z.of_nat (length pool.(write_rc))) * BUF_SIZE 1 <= 2 ^ 64).

(** What the ring has offered since the start, in order. *)
Definition offered (returned : list Z) : list Z := seqZ 0 R ++ returned.

(** The last [R] buffers offered are those in the entries. *)
Record ring_log (returned mem : list Z) : Prop := {
  rl_wf : ring_wf R mem;
  rl_tail : ring_tail mem = (R + Z.of_nat (length returned)) mod 2 ^ 16;
  rl_entries (k : nat) b : (length returned <= k)%nat -> offered returned !! k = Some b ->
    re_bid (ring_entry mem (Z.of_nat k mod R)) = b;
}.

Lemma offered_length returned : Z.of_nat (length (offered returned)) = R + Z.of_nat (length returned).
Proof using Hpow.
  unfold offered. rewrite length_app, length_seqZ. destruct Hpow as (k & Hk & ->).
  pose proof (Z.pow_pos_nonneg 2 k ltac:(lia) ltac:(lia)). lia.
Qed.

Lemma ring_log_start mem : init_buf_ring (build_iovecs 1 pool) R tt = Ok (mem, tt) -> ring_log [] mem.
Proof using Hpow Hbase Hend.
  intros E. destruct (init_ring pool tt Hpow Hbase Hend) as (m & E' & Hwf & Hav & Hent).
  rewrite E in E'. injection E' as <-. pose proof (ring_wf_bound _ _ Hwf) as (HR & _).
  split; [done| |].
  - pose proof (available_length R 0 mem) as Hl. rewrite Hav, length_seqZ, Z.sub_0_r in Hl.
    pose proof (peek_bound 2 TAIL_OFFSET mem (proj2 (proj2 Hwf))) as Ht.
    change (256 ^ Z.of_nat 2) with (2 ^ 16) in Ht. fold (ring_tail mem) in Ht.
    rewrite (Z.mod_small (ring_tail mem)) in Hl by done. cbn. rewrite Z.mod_small by lia. lia.
  - unfold offered. rewrite app_nil_r. intros k b _ [-> Hk]%lookup_seqZ.
    rewrite Z.add_0_l, Z.mod_small by lia. rewrite Hent by lia. done.
Qed.

Lemma ring_log_release returned b mem mem' : ring_log returned mem -> 0 <= b < R ->
  release_buf_to_ring pool b mem = Ok (tt, mem') -> ring_log (returned ++ [b]) mem'.
Proof using Hpow Hbase Hend.
  intros [Hwf Ht Hent] Hb E. pose proof (ring_wf_bound _ _ Hwf) as (HR & Hd & _).
  assert (Ha : fits 64 (base pool + b * BUF_SIZE 1)) by (unfold fits, BUF_SIZE, PAGE_SIZE in *; lia).
  destruct (release_spec pool mem b Hwf Hb Ha) as (m & E' & Hwf' & Ht' & Hnew & Hold).
  rewrite E in E'. injection E' as <-. pose proof (offered_length returned) as Hlen.
  assert (Hslot : ring_tail mem mod R = Z.of_nat (length (offered returned)) mod R)
    by by rewrite Ht, Hlen, mod_ring by lia.
  split; [done| |].
  - rewrite Ht', Ht, length_app, Zplus_mod_idemp_l. cbn [length]. f_equal. lia.
  - intros k c Hk. assert (offered (returned ++ [b]) = offered returned ++ [b]) as ->
      by (unfold offered; by rewrite app_assoc). rewrite length_app in Hk. cbn [length] in Hk.
    intros [Hlk|[Hge Hlk]]%lookup_app_Some.
    + pose proof (lookup_lt_Some _ _ _ Hlk) as Hlt. rewrite Hold; [apply Hent; [lia|done]|apply Z.mod_pos_bound; lia|].
      rewrite Hslot, Hlen. intros Heq.
      assert (Hm : (R + Z.of_nat (length returned) - Z.of_nat k) mod R = 0)
        by (rewrite Zminus_mod, Heq, Z.sub_diag; apply Z.mod_0_l; lia).
      rewrite Z.mod_small in Hm by lia. lia.
    + apply list_lookup_singleton_Some in Hlk as [Hz <-].
      replace k with (length (offered returned)) by lia. rewrite <- Hslot, Hnew. done.
Qed.

Lemma ring_from_log returned mem : Forall (fun b => 0 <= b < R) returned -> ring_from pool returned mem ->
  ring_log returned mem.
Proof using Hpow Hbase Hend.
  intros Hf (mem0 & E0 & E). revert mem E. induction returned as [|b l IH] using rev_ind; intros mem.
  - intros [= <-]. by apply ring_log_start.
  - apply Forall_app in Hf as [Hl [Hb _]%Forall_cons]. rewrite for_each_app. intros ([] & m & E1 & E2)%bind_Ok.
    cbn [for_each] in E2. apply bind_Ok in E2 as ([] & m' & E2 & [= <-]). eapply ring_log_release; [by apply IH|done|done].
Qed.

(** After [n] picks, the ring offers the rest. *)
Lemma ring_window returned mem (n : nat) : Forall (fun b => 0 <= b < R) returned -> ring_from pool returned mem ->
  (length returned <= n)%nat -> Z.of_nat n <= R + Z.of_nat (length returned) ->
  available R (as_u16 (Z.of_nat n)) mem = drop n (offered returned).
Proof using Hpow Hbase Hend.
  intros Hf Hfrom Hlo Hhi. destruct (ring_from_log _ _ Hf Hfrom) as [Hwf Ht Hent].
  pose proof (ring_wf_bound _ _ Hwf) as (HR & Hd & _). pose proof (offered_length returned) as Hlen.
  assert (Hc : (ring_tail mem - as_u16 (Z.of_nat n)) mod 2 ^ 16 = R + Z.of_nat (length returned) - Z.of_nat n).
  { unfold wrap. rewrite Ht, <- Zminus_mod. apply Z.mod_small. lia. }
  unfold available. rewrite Hc. apply list_eq. intros i.
  rewrite list_lookup_fmap, lookup_drop. destruct (decide (i < length (offered returned) - n)%nat) as [Hi|Hi].
  - rewrite (proj2 (lookup_seqZ _ _ _ (Z.of_nat i))) by lia. cbn [fmap option_fmap option_map].
    destruct (lookup_lt_is_Some_2 (offered returned) (n + i)) as [b Hb]; [lia|]. rewrite Hb. f_equal.
    rewrite <- (Hent (n + i)%nat b) by (done || lia). do 2 f_equal. unfold wrap.
    rewrite <- (mod_ring R (_ + _)), Zplus_mod_idemp_l, mod_ring by lia. f_equal. lia.
  - rewrite lookup_seqZ_ge by lia. cbn. symmetry. apply lookup_ge_None. lia.
Qed.
End Window.
End RingLog.
