(* ===== verification/Stable.v ===== *)
(** * What a run never disturbs

    One sweep over every operation of the runtime, for a relation between the
    states before and after that each primitive change respects
    ([RunRelation], [LoopRelation]); the sweep shows that polling a task, and
    then the whole event loop, respects it.  Instances: the wake list (which
    polling leaves alone), the shape of the buffer pool, and the order of the
    entries given to the kernel. *)

From S2P Require Import Prelude UserData Io Task Slab BufPool BufRing Futures Runtime Calls Executor Quiet.

(** [m], when it returns, relates its first and last states by [I]. *)
Definition stable {S} (I : relation S) {A} (m : M S A) : Prop :=
  forall s a s', m s = Ok (a, s') -> I s s'.

(** The entry queue, extended by one entry. *)
Definition pushed (e : Entry) (w : World) : World :=
  set_w_rt (set_pending (w.(w_rt).(pending) ++ [e]) w.(w_rt)) w.

(** The queue handed to the kernel. *)
Definition submitted (w : World) : World :=
  set_w_rt (set_pending []
    (set_ring_submitted (w.(w_rt).(ring_submitted) ++ w.(w_rt).(pending)) w.(w_rt))) w.

(** Headers are added and changed, none is removed. *)
Definition grows (h h' : heap Fut) : Prop := dom h ⊆@{gset Z} dom h'.

#[export] Instance grows_preorder : PreOrder grows.
Proof. unfold grows. split; [by intros h|]. intros h1 h2 h3. by transitivity (dom h2 : gset Z). Qed.

(** The primitive changes a task's poll is made of, [release] apart. *)
Class RunSteps (I : relation World) : Prop := {
  #[global] rr_preorder :: PreOrder I;
  rr_heap h w : grows w.(w_heap) h -> I w (set_w_heap h w);
  rr_tasks s w : I w (set_w_rt (set_tasks s w.(w_rt)) w);
  rr_pool p w : same_geometry w.(w_rt).(buffer) p -> I w (set_w_rt (set_buffer p w.(w_rt)) w);
  rr_ring mem w : I w (set_w_rt (set_buf_ring mem w.(w_rt)) w);
  rr_borrow b w : I w (set_w_borrow b w);
  rr_current t w : I w (set_current t w);
  rr_free l w : I w (set_free_list l w);
  rr_push e w : I w (pushed e w);
}.

Class RunRelation `{Profile} (I : relation World) : Prop := {
  #[global] rr_steps :: RunSteps I;
  rr_release p : stable I (release p);
}.

(** Those of the event loop: it also submits the queue and drains the wake list. *)
Class LoopRelation `{Profile} (I : relation World) : Prop := {
  #[global] lr_run :: RunRelation I;
  lr_wake l w : I w (set_wake_list l w);
  lr_submit w : I w (submitted w);
}.

Section Rules.
Context {S : Type} (I : relation S) `{!PreOrder I}.

Lemma stable_ret {A} (a : A) : stable I (ret a).
Proof. by intros s a' s' [= _ <-]. Qed.
Lemma stable_panic {A} msg : stable I (panic (A := A) msg).
Proof. done. Qed.
Lemma stable_ub {A} what : stable I (ub (A := A) what).
Proof. done. Qed.
Lemma stable_gets {A} (f : S -> A) : stable I (gets f).
Proof. by intros s a' s' [= _ <-]. Qed.
Lemma stable_get : stable I get.
Proof. by intros s a' s' [= _ <-]. Qed.
Lemma stable_modify f : (forall s, I s (f s)) -> stable I (modify f).
Proof. intros Hf s a s' [= _ <-]. apply Hf. Qed.
Lemma stable_bind {A B} (m : M S A) (k : A -> M S B) :
  stable I m -> (forall a, stable I (k a)) -> stable I (bind m k).
Proof using All.
  intros Hm Hk s b s' (a & s1 & E1 & E2)%bind_Ok. exact (transitivity (Hm _ _ _ E1) (Hk _ _ _ _ E2)).
Qed.
Lemma stable_for_each {A} (l : list A) f : (forall x, stable I (f x)) -> stable I (for_each l f).
Proof using All. intros Hf. induction l; simpl; [apply stable_ret|]. by apply stable_bind. Qed.
Lemma stable_expect {A} (o : option A) msg : stable I (expect o msg).
Proof using All. destruct o; [apply stable_ret|apply stable_panic]. Qed.
Lemma stable_assert b msg : stable I (assert_ b msg).
Proof using All. destruct b; [apply stable_ret|apply stable_panic]. Qed.
Lemma stable_debug_assert `{Profile} b msg : stable I (debug_assert b msg).
Proof using All. unfold debug_assert. destruct debug_checks; [apply stable_assert|apply stable_ret]. Qed.
Lemma stable_sub_w `{Profile} n a b : stable I (sub_w n a b).
Proof using All. unfold sub_w. destruct (_ <=? _), debug_checks; first [apply stable_ret|apply stable_panic]. Qed.
Lemma stable_add_w `{Profile} n a b : stable I (add_w n a b).
Proof using All. unfold add_w. destruct (_ <? _), debug_checks; first [apply stable_ret|apply stable_panic]. Qed.

Lemma wp_stable {A} `{Profile} (m : M S A) Q s : stable I m -> wp m Q s -> wp m (fun a s' => Q a s' /\ I s s') s.
Proof. intros Hm. specialize (Hm s). unfold wp. destruct (m s) as [[a s']|?|?]; [|done..]. eauto. Qed.

Lemma stable_keeps {A} `{Profile} (m : M S A) : keeps (fun _ => True) I m -> stable I m.
Proof. intros Hm s a s' E. by apply (wp_Ok _ _ _ _ _ (Hm s Logic.I) E). Qed.
End Rules.

Lemma stable_zoom {W S A} (I : relation W) (J : relation S) (l : lens W S) (m : M S A) :
  stable J m -> (forall s w, J (lget l w) s -> I w (lset l s w)) -> stable I (zoom l m).
Proof.
  intros Hm Hl w a w'. unfold zoom. destruct (m _) as [[b s]|?|?] eqn:E; [|done..].
  intros [= _ <-]. by apply Hl, (Hm _ _ _ E).
Qed.

Create HintDb stable.

(** A computation on a part of the state that may change at will. *)
Lemma stable_any {S A} (m : M S A) : stable (fun _ _ => True) m.
Proof. done. Qed.

Section Lenses.
Context (I : relation World) {run_steps : RunSteps I}.

Lemma stable_heap {A} (m : M (heap Fut) A) : stable grows m -> stable I (zoom heap_lens m).
Proof using All. intros Hm. eapply stable_zoom; [exact Hm|]. intros h w. apply rr_heap. Qed.
Lemma stable_tasks {A} (m : M Slab A) : stable I (zoom tasks_lens m).
Proof using All. eapply stable_zoom; [apply stable_any|]. intros s w _. apply rr_tasks. Qed.
Lemma stable_ring {A} (m : M (list Z) A) : stable I (zoom ring_lens m).
Proof using All. eapply stable_zoom; [apply stable_any|]. intros mem w _. apply rr_ring. Qed.
Lemma stable_heap_tasks {A} (m : M (heap Fut * Slab) A) :
  stable (fun hs hs' => grows hs.1 hs'.1) m -> stable I (zoom heap_tasks_lens m).
Proof using All.
  intros Hm. eapply stable_zoom; [exact Hm|]. intros [h s] w Hh. cbn [lset lget heap_tasks_lens fst snd] in *.
  transitivity (set_w_heap h w); [by apply rr_heap|]. apply (rr_tasks s (set_w_heap h w)).
Qed.
Lemma stable_pool `{Profile} {A} (m : M BufPool A) : pool_keeps m -> stable I (zoom pool_lens m).
Proof using All.
  intros Hm. eapply stable_zoom; [by eapply stable_keeps, Hm|]. intros p w Hp. by apply rr_pool.
Qed.
End Lenses.

#[export] Hint Resolve WBuffer_clone_keeps WBuffer_drop_keeps WBuffer_write_keeps alloc_write_keeps : stable.

Ltac stable_step :=
  lazymatch goal with
  | |- forall _, _ => intros ?
  | |- PreOrder _ => apply _
  | |- stable _ (ret _) => apply stable_ret
  | |- stable _ (panic _) => apply stable_panic
  | |- stable _ (ub _) => apply stable_ub
  | |- stable _ (gets _) => apply stable_gets
  | |- stable _ get => apply stable_get
  | |- stable _ (modify (set_w_borrow _)) => apply stable_modify; intros; apply rr_borrow
  | |- stable _ (modify (set_current _)) => apply stable_modify; intros; apply rr_current
  | |- stable _ (modify (set_free_list _)) => apply stable_modify; intros; apply rr_free
  | |- stable _ (modify (fun w => set_free_list _ w)) => apply stable_modify; intros; apply rr_free
  | |- stable _ (bind _ _) => apply stable_bind
  | |- stable _ (zoom heap_lens _) => apply stable_heap
  | |- stable _ (zoom tasks_lens _) => apply stable_tasks
  | |- stable _ (zoom heap_tasks_lens _) => apply stable_heap_tasks
  | |- stable _ (zoom ring_lens _) => apply stable_ring
  | |- stable _ (zoom pool_lens _) => eapply stable_pool
  | |- stable _ (for_each _ _) => apply stable_for_each
  | |- stable _ (expect _ _) => apply stable_expect
  | |- stable _ (assert_ _ _) => apply stable_assert
  | |- stable _ (debug_assert _ _) => apply stable_debug_assert
  | |- stable _ (sub_w _ _ _) => apply stable_sub_w
  | |- stable _ (add_w _ _ _) => apply stable_add_w
  | |- stable _ (if ?b then _ else _) => destruct b
  | |- stable _ (match ?x with _ => _ end) => destruct x
  end.
Ltac solve_stable := repeat (cbv zeta; (stable_step || solve [eauto 3 with stable])).

(** ** Operations on the heap that free nothing *)
Section Grows.
Context {prof : Profile} {al : Allocator} {fl : FutLayout Fut} {sm : SlabMemory}.

Lemma grows_load p : stable grows (load p).
Proof. intros h r h'. unfold load. destruct (h !! p); [|done]. by intros [= _ <-]. Qed.
Lemma grows_store p r : stable grows (store p r).
Proof. intros h [] h'. unfold store, grows. destruct (h !! p); [|done]. intros [= <-]. rewrite dom_insert. set_solver. Qed.
Lemma grows_Task_new f : stable grows (Task_new f).
Proof. intros h p h' (_ & _ & _ & ->)%Task_new_Ok. unfold grows. rewrite dom_insert. set_solver. Qed.

#[local] Hint Resolve grows_load grows_store : stable.

Lemma grows_inc_rc p : stable grows (inc_rc p).
Proof. unfold inc_rc. solve_stable. Qed.
Lemma grows_add_rc p n : stable grows (add_rc p n).
Proof. unfold add_rc. solve_stable. Qed.
Lemma grows_augmente p : stable grows (augmente_syscall_nb p).
Proof. unfold augmente_syscall_nb. solve_stable. Qed.
Lemma grows_evaluate p n : stable grows (evaluate_syscall_nb p n).
Proof. unfold evaluate_syscall_nb, get_syscall_nb. solve_stable. Qed.
Lemma grows_set_multishot p : stable grows (set_multishot p).
Proof. unfold set_multishot. solve_stable. Qed.
Lemma grows_set_task_idx p i : stable grows (set_task_idx p i).
Proof. unfold set_task_idx. solve_stable. Qed.

#[local] Hint Resolve grows_inc_rc : stable.
Lemma grows_Task_clone p : stable grows (Task_clone p).
Proof. unfold Task_clone. solve_stable. Qed.

Abbreviation grows_fst := (fun hs hs' : heap Fut * Slab => grows hs.1 hs'.1).
#[local] Instance grows_fst_preorder : PreOrder grows_fst.
Proof. split; [by intros []|]. intros ? ? ? ? ?. by etransitivity. Qed.

Lemma grows_insert p : stable grows_fst (insert p).
Proof.
  assert (Hs : forall A (m : M Slab A), stable grows_fst (zoom slab_of m)).
  { intros A m. eapply stable_zoom; [apply stable_any|]. by intros s [h s'] _. }
  assert (Hh : forall i, stable grows_fst (zoom heap_of (set_task_idx p i))).
  { intros i. eapply stable_zoom; [apply grows_set_task_idx|]. by intros h [h' s] Hh. }
  assert (Hn : forall w, stable grows_fst (next_free w)) by (intros w; unfold next_free; solve_stable).
  unfold insert. repeat first [apply Hs|apply Hh|apply Hn|stable_step].
Qed.
End Grows.

#[export] Hint Resolve grows_load grows_store grows_Task_new grows_inc_rc grows_add_rc grows_augmente grows_evaluate
  grows_set_multishot grows_Task_clone grows_insert : stable.

Section Sweep.
Context {prof : Profile} {flags : CqueueFlags} {al : Allocator} {fl : FutLayout Fut} {sm : SlabMemory}.
Context (I : relation World) {run_steps : RunSteps I}.

Lemma stable_with_borrow_mut {A} (m : M World A) : stable I m -> stable I (with_borrow_mut m).
Proof. intros Hm. unfold with_borrow_mut. solve_stable. Qed.

Lemma stable_with_borrow {A} (m : M World A) : stable I m -> stable I (with_borrow m).
Proof. intros Hm. unfold with_borrow. solve_stable. Qed.

#[local] Hint Resolve stable_with_borrow_mut stable_with_borrow : stable.

Lemma stable_inc_rc_of i : stable I (inc_rc_of i).
Proof. unfold inc_rc_of, task_at. solve_stable. Qed.
Lemma stable_current_udata : stable I current_udata.
Proof. unfold current_udata. solve_stable. Qed.
Lemma stable_current_idx : stable I current_task_idx.
Proof. unfold current_task_idx. solve_stable. Qed.
Lemma stable_push e : stable I (sqe_queue_push e).
Proof. apply stable_modify. intros w. apply rr_push. Qed.
Lemma stable_set_multiple b : stable I (set_current_task_multiple b).
Proof. unfold set_current_task_multiple. solve_stable. Qed.
Lemma stable_set_multishot i : stable I (set_multishot_of i).
Proof. unfold set_multishot_of, task_at. solve_stable. Qed.
Lemma stable_advance t : stable I (advance_syscall_nb t).
Proof. unfold advance_syscall_nb, task_at. solve_stable. Qed.

#[local] Hint Resolve stable_inc_rc_of stable_current_udata stable_current_idx stable_push stable_set_multiple
  stable_set_multishot stable_advance : stable.

Lemma stable_release_read_buf b : stable I (release_read_buf b).
Proof. unfold release_read_buf. apply stable_with_borrow. solve_stable. Qed.
Lemma stable_checkout b fd n : stable I (checkout b fd n).
Proof. unfold checkout, checkout_read. apply stable_with_borrow. solve_stable. Qed.

#[local] Hint Resolve stable_release_read_buf stable_checkout : stable.

Lemma stable_push_fan_outs pl b n fds : forall idx, stable I (push_fan_outs pl b n idx fds).
Proof. induction fds as [|fd fds IH]; intros idx; simpl; unfold push_fan_out; solve_stable. Qed.

#[local] Hint Resolve stable_push_fan_outs : stable.

Lemma stable_submits :
  (forall fd, stable I (submit_read fd)) /\ (forall fd, stable I (submit_accept fd)) /\
  (forall fd b n, stable I (submit_write fd b n)) /\ (forall fd, stable I (submit_recv_multishot fd)) /\
  (forall fd, stable I (submit_accept_multishot fd)) /\ (forall p fd n b, stable I (submit_commit_write p fd n b)) /\
  (forall fd a n, stable I (submit_connect fd a n)) /\ stable I submit_socket /\
  (forall fds b n, stable I (submit_multiple_write fds b n)).
Proof.
  unfold submit_read, submit_accept, submit_write, submit_recv_multishot, submit_accept_multishot,
    submit_commit_write, submit_connect, submit_socket, submit_multiple_write.
  unfold send_read, send_accept, send_write, send_recv_multishot, send_accept_multishot, send_commit_write,
    send_connect, send_socket, send_multiple_write, task_at.
  split_and!; intros; apply stable_with_borrow_mut; solve_stable.
Qed.

Lemma stable_poll_leaf {A} (l : Leaf A) : stable I (poll_leaf l).
Proof.
  destruct stable_submits as (? & ? & ? & ? & ? & ? & ? & ? & ?).
  destruct l; cbn [poll_leaf]; apply (stable_bind I); try (intros; apply (stable_ret I)).
  - unfold AcceptFuture_poll, current_result. solve_stable.
  - unfold AcceptStream_poll_next, current_result, current_cqe_flags. solve_stable.
  - unfold ReadFuture_poll, current_result, current_cqe_flags. solve_stable.
  - unfold ReadStream_poll_next, current_result, current_cqe_flags. solve_stable.
  - unfold WriteFuture_poll, current_result. solve_stable.
  - unfold WriteMultipleFuture_poll. solve_stable.
  - unfold CommitFuture_poll, current_result. solve_stable.
  - unfold SocketFuture_poll, current_result. solve_stable.
Qed.

Lemma stable_Res_drop r : stable I (Res_drop r).
Proof. unfold Res_drop, RwBuffer_drop. solve_stable. Qed.
Lemma stable_Leaf_drop {A} (l : Leaf A) : stable I (Leaf_drop l).
Proof. unfold Leaf_drop. solve_stable. Qed.

#[local] Hint Resolve stable_Res_drop @stable_Leaf_drop @stable_poll_leaf : stable.

(** A relation that looks at no header respects [release]. *)
Lemma stable_release_any p : (forall h w, I w (set_w_heap h w)) -> stable I (release p).
Proof.
  intros Hany. assert (Hh : forall A (m : M (heap Fut) A), stable I (zoom heap_lens m)).
  { intros A m. eapply stable_zoom; [apply stable_any|]. intros h w _. apply Hany. }
  unfold release, free_task. cbn [host_heap host_drop_fn host_push_free world_host]. unfold drop_fn.
  repeat (first [apply Hh|stable_step|solve [eauto 3 with stable]]).
Qed.

Context {run_relation : RunRelation I}.

Lemma stable_release p : stable I (release p).
Proof. apply rr_release. Qed.
Lemma stable_Task_drop p : stable I (Task_drop p).
Proof. unfold Task_drop. solve_stable. apply stable_release. Qed.

#[local] Hint Resolve stable_release stable_Task_drop : stable.

Lemma stable_task_poll_with body p : (forall prog, stable I (body prog)) -> stable I (task_poll_with body p).
Proof. intros Hb. unfold task_poll_with. solve_stable. Qed.
Lemma stable_spawn_with body prog : (forall prog, stable I (body prog)) -> stable I (spawn_with body prog).
Proof.
  intros Hb. unfold spawn_with. apply (stable_bind I); [apply stable_with_borrow_mut; solve_stable|].
  intros [p old]. apply (stable_bind I); [by apply stable_task_poll_with|]. solve_stable.
Qed.

Lemma stable_run prog : stable I (run prog).
Proof.
  induction prog as [|msg|A leaf hold k IH|child IHc k IH|k IH|b k IH|b fd n k IH|r k IH]; cbn [run].
  - solve_stable.
  - solve_stable.
  - solve_stable.
  - apply (stable_bind I); [by apply stable_spawn_with|done].
  - apply (stable_bind I); [apply stable_with_borrow_mut; solve_stable|done].
  - apply (stable_bind I); [solve_stable|done].
  - apply (stable_bind I); [unfold WBuffer_submit; solve_stable|done].
  - apply (stable_bind I); [solve_stable|done].
Qed.

Lemma stable_clone_task i : stable I (clone_task i).
Proof. unfold clone_task, task_at. apply stable_with_borrow_mut. solve_stable. Qed.

End Sweep.

(** ** The event loop *)
Section LoopSweep.
Context {prof : Profile} {flags : CqueueFlags} {al : Allocator} {fl : FutLayout Fut} {sm : SlabMemory}.
Context (I : relation World) {loop_relation : LoopRelation I}.

#[local] Hint Extern 0 (RunRelation _) => apply _ : stable.
#[local] Hint Extern 0 (RunSteps _) => apply _ : stable.
#[local] Hint Resolve stable_with_borrow_mut stable_clone_task stable_release stable_Task_drop stable_run : stable.

Lemma stable_task_poll p : stable I (task_poll p).
Proof. apply (stable_task_poll_with I). apply (stable_run I). Qed.

Lemma stable_spawn prog : stable I (spawn prog).
Proof. apply (stable_spawn_with I). apply (stable_run I). Qed.

#[local] Hint Resolve stable_task_poll stable_spawn : stable.

Lemma stable_handle_cqe_entry c : stable I (handle_cqe_entry c).
Proof. unfold handle_cqe_entry. solve_stable. Qed.

Lemma stable_is_runtime_free : stable I is_runtime_free.
Proof. unfold is_runtime_free, free_unsed_slab_slot. apply stable_with_borrow_mut; [apply _|]. solve_stable. Qed.

Lemma stable_drain fuel : stable I (drain_wake_list fuel).
Proof.
  induction fuel as [|fuel IH]; cbn [drain_wake_list]; [apply (stable_ret I)|].
  apply (stable_bind I); [apply (stable_gets I)|intros [|t l]]; [apply (stable_ret I)|].
  apply (stable_bind I); [apply (stable_modify I); intros; apply lr_wake|intros _]. solve_stable.
Qed.

Lemma stable_submit_and_wait step : stable I (submit_and_wait step).
Proof.
  intros w a w' E. unfold submit_and_wait in E. apply bind_Ok in E as (rt & w1 & [= <- <-] & E).
  apply bind_Ok in E as ([] & w1 & Ea & E). unfold assert_ in Ea.
  destruct (_ <=? _); [|done]. injection Ea as <-.
  apply bind_Ok in E as ([] & w1 & [= <-] & E). destruct step; injection E as _ <-; apply (lr_submit w).
Qed.

#[local] Hint Resolve stable_handle_cqe_entry stable_is_runtime_free stable_drain stable_submit_and_wait : stable.

Lemma stable_block_on_turn step : stable I (block_on_turn step).
Proof. unfold block_on_turn. solve_stable. Qed.

(** The turn from the moment the queue has been submitted. *)
Lemma turn_after_submit step w r w' : block_on_turn step w = Ok (r, w') ->
  exists a w1, with_borrow_mut (submit_and_wait step) w = Ok (a, w1) /\ I w1 w'.
Proof using loop_relation.
  unfold block_on_turn. intros (a & w1 & E1 & E2)%bind_Ok. exists a, w1. split; [done|].
  revert E2. generalize w1, r, w'. change (forall s b s', ?m s = Ok (b, s') -> I s s') with (stable I m).
  solve_stable.
Qed.

Lemma stable_block_on_loop steps : stable I (block_on_loop steps).
Proof.
  induction steps as [|step steps IH]; cbn [block_on_loop]; [apply (stable_ret I)|].
  apply (stable_bind I); [apply stable_block_on_turn|]. intros [b|]; [apply (stable_ret I)|done].
Qed.

Lemma stable_block_on future steps : stable I (block_on future steps).
Proof.
  unfold block_on. apply (stable_bind I); [apply stable_spawn|intros _].
  apply (stable_bind I); [apply stable_is_runtime_free|]. intros []; [apply (stable_ret I)|].
  apply stable_block_on_loop.
Qed.
End LoopSweep.

(** ** Instances *)

(** Polling leaves the wake list alone: a [Waker] cannot be built outside of the
    crate, so no body wakes a task. *)
Definition same_wake_list (w w' : World) : Prop := w'.(RUNTIME_WAKE_LIST) = w.(RUNTIME_WAKE_LIST).

#[export] Instance same_wake_list_preorder : PreOrder same_wake_list.
Proof. unfold same_wake_list. split; [done|]. intros w1 w2 w3. congruence. Qed.

#[local] Instance same_wake_list_steps : RunSteps same_wake_list.
Proof. split; try done. apply _. Qed.

#[export] Instance same_wake_list_run `{Profile} : RunRelation same_wake_list.
Proof. split; [apply _|]. intros p. by apply (stable_release_any same_wake_list). Qed.

(** The shape of the pool never changes. *)
Definition same_pool_geometry (w w' : World) : Prop := same_geometry w.(w_rt).(buffer) w'.(w_rt).(buffer).

#[export] Instance same_pool_geometry_preorder : PreOrder same_pool_geometry.
Proof.
  unfold same_pool_geometry. split; [done|]. intros w1 w2 w3 H1 H2. by transitivity w2.(w_rt).(buffer).
Qed.

#[local] Instance same_pool_geometry_steps : RunSteps same_pool_geometry.
Proof. split; try done; apply _. Qed.

#[export] Instance same_pool_geometry_loop `{Profile} : LoopRelation same_pool_geometry.
Proof.
  split; [split; [apply _|]|done..]. intros p. by apply (stable_release_any same_pool_geometry).
Qed.

(** The entries the kernel has or will be given, oldest first. *)
Definition entries (w : World) : list Entry := w.(w_rt).(ring_submitted) ++ w.(w_rt).(pending).

(** Entries are only added, at the end, and an entry handed over stays so. *)
Definition entries_grow (w w' : World) : Prop :=
  entries w `prefix_of` entries w' /\ w.(w_rt).(ring_submitted) `prefix_of` w'.(w_rt).(ring_submitted).

#[export] Instance entries_grow_preorder : PreOrder entries_grow.
Proof.
  split; [done|]. intros w1 w2 w3 [H1 H2] [H3 H4].
  split; [by transitivity (entries w2)|by transitivity w2.(w_rt).(ring_submitted)].
Qed.

#[local] Instance entries_grow_steps : RunSteps entries_grow.
Proof.
  split; try done; try apply _.
  intros e w. split; [|done]. unfold entries, pushed. cbn. rewrite app_assoc. by apply prefix_app_r.
Qed.

#[export] Instance entries_grow_loop `{Profile} : LoopRelation entries_grow.
Proof.
  split; [split; [apply _|]|done|].
  - intros p. by apply (stable_release_any entries_grow).
  - intros w. unfold entries_grow, entries, submitted. cbn. rewrite app_nil_r. split; [done|]. by apply prefix_app_r.
Qed.
