(* ===== verification/Invariant.v ===== *)
(** * The accounting invariant of the runtime

    The counter of a live task is the number of submissions in flight for it
    plus the number of local handles; every entry in flight and every handle
    names a live task; a slab slot holds a live task or waits in the free list
    to be reclaimed.  The ghost arguments are the handles held by the code that
    runs (slab index and address) and the entries in the kernel. *)

From S2P Require Import Prelude UserData Io Task Slab BufPool BufRing Futures Runtime Calls Quiet.

(** ** Bodies the invariant covers

    [WBuffer::submit] pushes an entry that belongs to no task, and a fan-out
    to 2^16 descriptors or more counts fewer references than it submits
    entries; both are excluded (Scenarios.v shows what happens with the first). *)
Definition leaf_ok {A} (l : Leaf A) : Prop :=
  match l with
  | LWriteMultiple (WriteMultiple_Init fds _ _) => Z.of_nat (length fds) < 2 ^ 16
  | LWriteMultiple WriteMultiple_Poisoned => False
  | _ => True
  end.

Fixpoint prog_ok (p : Prog) : Prop :=
  match p with
  | Return | Unwind _ => True
  | Await leaf _ k => leaf_ok leaf /\ forall v, prog_ok (k v)
  | Spawn child k => prog_ok child /\ prog_ok k
  | AllocWrite k => forall b, prog_ok (k b)
  | CloneWrite _ k => forall b, prog_ok (k b)
  | SubmitWrite _ _ _ _ => False
  | DropRes _ k => prog_ok k
  end.

Definition fut_ok (f : Fut) : Prop :=
  match f with Suspended p => prog_ok p | Completed => True end.

(** ** Counting *)
Definition refs (i : Z) (es : list Entry) : Z := count_if (fun e => entry_task_idx e =? i) es.
Definition held (i : Z) (H : list (Z * Z)) : Z := count_if (fun h => h.1 =? i) H.

Record header_ok (H : list (Z * Z)) (es : list Entry) (i : Z) (r : RawTask Fut) : Prop := {
  ho_idx : r.(rt_slab_idx) = Some i;
  ho_rc : r.(rt_ref_counter) = refs i es + held i H;
  ho_pos : 0 < r.(rt_ref_counter) < 2 ^ 16;
  ho_nb : fits 16 r.(rt_syscall_nb);
  ho_fut : fut_ok r.(rt_future);
}.

(** Slot [i] holds the live task at [p]. *)
Definition slot_live (w : World) (i p : Z) : Prop :=
  slab_lookup w.(w_rt).(tasks) i = Some p /\ i ∉ w.(RUNTIME_FREE_LIST).

Record inv (H : list (Z * Z)) (K : list Entry) (w : World) : Prop := {
  iv_slab : slab_wf w.(w_rt).(tasks);
  iv_live : forall p r, w.(w_heap) !! p = Some r -> p mod RawTask_align = 0 /\
    exists i, slot_live w i p /\ header_ok H (K ++ w.(w_rt).(pending)) i r;
  iv_slot : forall i p, slot_live w i p ->
    exists r, w.(w_heap) !! p = Some r /\ r.(rt_slab_idx) = Some i;
  iv_free : NoDup w.(RUNTIME_FREE_LIST) /\
    forall i, i ∈ w.(RUNTIME_FREE_LIST) -> is_Some (slab_lookup w.(w_rt).(tasks) i);
  iv_entries : forall e, e ∈ K ++ w.(w_rt).(pending) ->
    fits 64 e.(e_user_data) /\ exists p, slot_live w (entry_task_idx e) p;
  iv_handles : forall h, h ∈ H -> slot_live w h.1 h.2;
  iv_wake : w.(RUNTIME_WAKE_LIST) = [];
  iv_ring : ring_ok w;
}.

Definition wf_info (t : TaskInfo) : Prop := wf_payload (payload_of_info t).

(** The task at slab index [i] is being polled. *)
Record running (H : list (Z * Z)) (K : list Entry) (i : Z) (w : World) : Prop := {
  ru_inv : inv H K w;
  ru_info : wf_info w.(CURRENT_TASK);
  ru_idx : w.(CURRENT_TASK).(ti_tag).(task_idx) = i;
  ru_held : exists p, (i, p) ∈ H;
}.

(** ** Preservation by changes that do not concern the counters *)
Lemma slot_live_quiet w w' i p : quiet w w' -> slot_live w' i p <-> slot_live w i p.
Proof. intros []. unfold slot_live. by rewrite q_tasks, q_free. Qed.

Lemma inv_quiet H K w w' : quiet w w' -> inv H K w -> inv H K w'.
Proof.
  intros Hq [Hs Hl Hsl Hf He Hh Hw Hr].
  assert (Hsv : forall i p, slot_live w' i p <-> slot_live w i p) by (intros; by apply slot_live_quiet).
  split.
  - by rewrite (q_tasks _ _ Hq).
  - intros p r. rewrite (q_heap _ _ Hq), (q_pending _ _ Hq). intros Hp.
    destruct (Hl _ _ Hp) as (Ha & i & Hi & Hok). split; [done|]. exists i. by rewrite Hsv.
  - intros i p. rewrite Hsv, (q_heap _ _ Hq). apply Hsl.
  - by rewrite (q_tasks _ _ Hq), (q_free _ _ Hq).
  - intros e. rewrite (q_pending _ _ Hq). intros Hin. destruct (He _ Hin) as (? & p & ?).
    split; [done|]. exists p. by rewrite Hsv.
  - intros h Hin. rewrite Hsv. by apply Hh.
  - by rewrite (q_wake _ _ Hq).
  - by apply quiet_ring with w.
Qed.

Lemma running_quiet H K i w w' : quiet w w' -> running H K i w -> running H K i w'.
Proof.
  intros Hq [Hi Hw Hx Hh]. split; [by eapply inv_quiet|..]; by rewrite ?(q_current _ _ Hq).
Qed.

Lemma inv_set_current H K w t : inv H K w -> inv H K (set_current t w).
Proof. intros []. by split. Qed.

Lemma running_set_current H K i w t : running H K i w -> wf_info t -> t.(ti_tag).(task_idx) = i ->
  running H K i (set_current t w).
Proof. intros []; split; try done. by apply inv_set_current. Qed.

Lemma running_ring H K i w : running H K i w -> ring_ok w.
Proof. intros []. by apply (iv_ring _ _ _ ru_inv0). Qed.

Lemma running_owner H K i w : running H K i w -> exists p, (i, p) ∈ H /\ slot_live w i p.
Proof. intros [Hi _ _ [p Hp]]. exists p. split; [done|]. by apply (iv_handles _ _ _ Hi (i, p)). Qed.

Lemma inv_find H K w i p : inv H K w -> slot_live w i p ->
  p mod RawTask_align = 0 /\ exists r, w.(w_heap) !! p = Some r /\ header_ok H (K ++ w.(w_rt).(pending)) i r.
Proof.
  intros Hi Hl. destruct (iv_slot _ _ _ Hi _ _ Hl) as (r & Hr & Hx).
  destruct (iv_live _ _ _ Hi _ _ Hr) as (Ha & j & _ & Hok). split; [done|]. exists r.
  assert (j = i) as -> by (pose proof (ho_idx _ _ _ _ Hok); congruence). done.
Qed.

Lemma slot_live_fun w i p p' : slot_live w i p -> slot_live w i p' -> p = p'.
Proof. intros [] []. congruence. Qed.

Lemma refs_app i es es' : refs i (es ++ es') = refs i es + refs i es'.
Proof. apply count_if_app. Qed.
Lemma refs_nil i : refs i [] = 0.
Proof. done. Qed.
Lemma refs_cons i e es : refs i (e :: es) = (if entry_task_idx e =? i then 1 else 0) + refs i es.
Proof. unfold refs. by rewrite count_if_cons. Qed.
Lemma refs_nonneg i es : 0 <= refs i es.
Proof. apply count_if_nonneg. Qed.
Lemma held_cons i h H : held i (h :: H) = (if h.1 =? i then 1 else 0) + held i H.
Proof. unfold held. by rewrite count_if_cons. Qed.
Lemma held_nonneg i H : 0 <= held i H.
Proof. apply count_if_nonneg. Qed.
Lemma held_nil i : held i [] = 0.
Proof. done. Qed.

Create Rewrite HintDb refs.
#[export] Hint Rewrite refs_app refs_cons refs_nil held_cons held_nil : refs.

Lemma refs_zero i es : (forall e, e ∈ es -> entry_task_idx e <> i) -> refs i es = 0.
Proof. intros He. apply count_if_zero, Forall_forall. intros e Hin. apply Z.eqb_neq. by apply He. Qed.

Lemma refs_zero_inv i es e : refs i es = 0 -> e ∈ es -> entry_task_idx e <> i.
Proof.
  intros H0 Hin Heq. apply list_elem_of_split in Hin as (l1 & l2 & ->).
  rewrite refs_app, refs_cons, Heq, Z.eqb_refl in H0.
  pose proof (refs_nonneg i l1). pose proof (refs_nonneg i l2). lia.
Qed.

Lemma held_zero_inv i H h : held i H = 0 -> h ∈ H -> h.1 <> i.
Proof.
  intros H0 Hin Heq. apply list_elem_of_split in Hin as (l1 & l2 & ->).
  unfold held in H0. rewrite count_if_app, count_if_cons, Heq, Z.eqb_refl in H0.
  pose proof (count_if_nonneg (fun h : Z * Z => h.1 =? i) l1).
  pose proof (count_if_nonneg (fun h : Z * Z => h.1 =? i) l2). lia.
Qed.

Lemma held_zero i H : (forall h, h ∈ H -> h.1 <> i) -> held i H = 0.
Proof. intros He. apply count_if_zero, Forall_forall. intros h Hin. apply Z.eqb_neq. by apply He. Qed.

(** ** Changing one header, the entries and the handles of its task *)
Lemma inv_header H H' K K' w w' i p r r' :
  inv H K w -> slot_live w i p -> w.(w_heap) !! p = Some r ->
  w'.(w_heap) = <[p := r']> w.(w_heap) ->
  w'.(w_rt).(tasks) = w.(w_rt).(tasks) ->
  w'.(RUNTIME_FREE_LIST) = w.(RUNTIME_FREE_LIST) ->
  w'.(RUNTIME_WAKE_LIST) = w.(RUNTIME_WAKE_LIST) ->
  ring_ok w' ->
  header_ok H' (K' ++ w'.(w_rt).(pending)) i r' ->
  (forall j, j <> i -> refs j (K' ++ w'.(w_rt).(pending)) = refs j (K ++ w.(w_rt).(pending)) /\
                       held j H' = held j H) ->
  (forall e, e ∈ K' ++ w'.(w_rt).(pending) ->
     e ∈ K ++ w.(w_rt).(pending) \/ (entry_task_idx e = i /\ fits 64 e.(e_user_data))) ->
  (forall h, h ∈ H' -> h ∈ H \/ h = (i, p)) ->
  inv H' K' w'.
Proof.
  intros Hi Hl Hr Eh Et Ef Ew Hring Hok Hother Hent Hhan.
  assert (Hsv : forall j q, slot_live w' j q <-> slot_live w j q)
    by (intros; unfold slot_live; by rewrite Et, Ef).
  split.
  - rewrite Et. apply Hi.
  - intros q r1. rewrite Eh, lookup_insert_Some. intros [[<- <-]|[Hne Hq]].
    + split; [by apply (inv_find _ _ _ _ _ Hi Hl)|]. exists i. by rewrite Hsv.
    + destruct (iv_live _ _ _ Hi _ _ Hq) as (Ha & j & Hj & Hoj). split; [done|]. exists j.
      rewrite Hsv. split; [done|].
      assert (Hji : j <> i) by (intros ->; by apply Hne, (slot_live_fun w i)).
      destruct (Hother j Hji) as [E1 E2]. destruct Hoj. split; try done. by rewrite E1, E2.
  - intros j q. rewrite Hsv, Eh. intros Hj. destruct (decide (q = p)) as [->|Hne].
    + exists r'. rewrite lookup_insert_eq. split; [done|].
      destruct (iv_slot _ _ _ Hi _ _ Hj) as (r1 & Hr1 & Hx1).
      destruct (iv_slot _ _ _ Hi _ _ Hl) as (r2 & Hr2 & Hx2).
      rewrite (ho_idx _ _ _ _ Hok). congruence.
    + destruct (iv_slot _ _ _ Hi _ _ Hj) as (r1 & ? & ?). exists r1.
      by rewrite lookup_insert_ne by done.
  - rewrite Et, Ef. apply Hi.
  - intros e He. destruct (Hent e He) as [He'|[He' Hf]].
    + destruct (iv_entries _ _ _ Hi _ He') as (? & q & ?). split; [done|]. exists q. by rewrite Hsv.
    + split; [done|]. exists p. by rewrite Hsv, He'.
  - intros h Hh. rewrite Hsv. destruct (Hhan h Hh) as [Hh'| ->]; [by apply (iv_handles _ _ _ Hi)|done].
  - rewrite Ew. apply Hi.
  - done.
Qed.

(** ** Steps on one header *)
Section Steps.
Context {prof : Profile} {flags : CqueueFlags}.

Lemma task_at_ok w i p : slab_wf w.(w_rt).(tasks) -> slab_lookup w.(w_rt).(tasks) i = Some p ->
  task_at i w = Ok (p, w).
Proof.
  intros [fl Hs] Hl. unfold task_at, zoom. cbn [lget tasks_lens]. rewrite (index_ok _ _ _ _ Hs Hl).
  cbn [lset tasks_lens]. by destruct w as [? []].
Qed.

Lemma task_at_live H K w i p : inv H K w -> slot_live w i p -> task_at i w = Ok (p, w).
Proof. intros Hi [Hl _]. apply task_at_ok; [apply Hi|done]. Qed.

Lemma wp_task_at H K w i p (Q : Z -> World -> Prop) :
  inv H K w -> slot_live w i p -> Q p w -> wp (task_at i) Q w.
Proof. intros Hi Hl HQ. unfold wp. by rewrite (task_at_live _ _ _ _ _ Hi Hl). Qed.

Lemma wp_heap {A} (m : M (heap Fut) A) a h (Q : A -> World -> Prop) w :
  m w.(w_heap) = Ok (a, h) -> Q a (set_w_heap h w) -> wp (zoom heap_lens m) Q w.
Proof. intros E HQ. unfold wp, zoom. cbn [lget heap_lens]. by rewrite E. Qed.

Lemma set_w_heap_id w : set_w_heap w.(w_heap) w = w.
Proof. by destruct w. Qed.

Lemma wp_heap_panic {A} (m : M (heap Fut) A) msg (Q : A -> World -> Prop) w :
  m w.(w_heap) = Panic msg -> wp (zoom heap_lens m) Q w.
Proof. intros E. unfold wp, zoom. cbn [lget heap_lens]. by rewrite E. Qed.

Lemma wp_load w p r (Q : RawTask Fut -> World -> Prop) :
  w.(w_heap) !! p = Some r -> Q r w -> wp (zoom heap_lens (load p)) Q w.
Proof. intros Hr HQ. eapply wp_heap; [by apply load_ok|]. by rewrite set_w_heap_id. Qed.

(** One more reference: the invariant is restored once the reference is
    given to an entry of the task, or to a handle. *)
Lemma wp_inc_rc H K w i p (Q : unit -> World -> Prop) :
  inv H K w -> slot_live w i p ->
  (forall h', inv ((i, p) :: H) K (set_w_heap h' w) ->
     (forall e, entry_task_idx e = i -> fits 64 e.(e_user_data) ->
        inv H K (set_w_rt (set_pending (w.(w_rt).(pending) ++ [e]) w.(w_rt)) (set_w_heap h' w))) ->
     Q tt (set_w_heap h' w)) ->
  wp (zoom heap_lens (inc_rc p)) Q w.
Proof.
  intros Hi Hl HQ. destruct (inv_find _ _ _ _ _ Hi Hl) as (Ha & r & Hr & Hok).
  destruct Hok as [Hx Hrc Hpos Hnb Hfut].
  assert (Hrf : fits 16 r.(rt_ref_counter)) by (unfold fits; lia).
  pose proof (inc_rc_eq _ _ _ Hr Hrf) as E.
  destruct (Z.leb_spec 65536 (rt_ref_counter r + 1)); [by eapply wp_heap_panic|].
  eapply wp_heap; [done|]. apply HQ.
  - eapply (inv_header H _ K K w _ i p r); try done; [apply Hi| |..].
    + split; simpl; try done; [|lia]. rewrite held_cons. simpl. rewrite Z.eqb_refl. lia.
    + intros j Hj. split; [done|]. rewrite held_cons. simpl. rewrite (proj2 (Z.eqb_neq _ _)) by done. lia.
    + intros e He. by left.
    + intros h [->|Hh]%elem_of_cons; [by right|by left].
  - intros e He Hfe. eapply (inv_header H H K K w _ i p r); try done; [apply Hi| |..]; simpl.
    + split; simpl; try done; [|lia]. rewrite app_assoc, refs_app, refs_cons, He, Z.eqb_refl, refs_nil. lia.
    + intros j Hj. split; [|done]. rewrite app_assoc, refs_app, refs_cons, He, refs_nil.
      rewrite (proj2 (Z.eqb_neq _ _)) by done. lia.
    + intros e'. rewrite app_assoc, elem_of_app, list_elem_of_singleton. intros [?| ->]; [by left|by right].
    + intros h Hh. by left.
Qed.

(** The world with more entries queued. *)
Definition add_pending (es : list Entry) (w : World) : World :=
  set_w_rt (set_pending (w.(w_rt).(pending) ++ es) w.(w_rt)) w.

Lemma wp_inc_rc_of H K w i (Q : unit -> World -> Prop) :
  running H K i w ->
  (forall h', (forall e, entry_task_idx e = i -> fits 64 e.(e_user_data) ->
       running H K i (add_pending [e] (set_w_heap h' w))) -> Q tt (set_w_heap h' w)) ->
  wp (inc_rc_of i) Q w.
Proof.
  intros Hr HQ. destruct (running_owner _ _ _ _ Hr) as (p & Hp & Hl).
  unfold inc_rc_of. apply wp_bind. eapply wp_task_at; [apply Hr|done|].
  eapply wp_inc_rc; [apply Hr|done|]. intros h' _ Hpush. apply HQ. intros e He Hf.
  destruct Hr as [Hi Hw Hx Hh]. split; [|done|done|done]. by apply (Hpush e).
Qed.

(** Changing only the syscall number or the future of a live header. *)
Lemma inv_nb H K w i p r n : inv H K w -> slot_live w i p -> w.(w_heap) !! p = Some r -> fits 16 n ->
  inv H K (set_w_heap (<[p := set_syscall_nb n r]> w.(w_heap)) w).
Proof.
  intros Hi Hl Hr Hn. destruct (inv_find _ _ _ _ _ Hi Hl) as (Ha & r1 & Hr1 & Hok).
  assert (r1 = r) as -> by congruence. destruct Hok.
  eapply (inv_header H H K K w _ i p r); try done; [apply Hi|..]; auto; by split.
Qed.

Lemma inv_future H K w i p r f : inv H K w -> slot_live w i p -> w.(w_heap) !! p = Some r -> fut_ok f ->
  inv H K (set_w_heap (<[p := set_future f r]> w.(w_heap)) w).
Proof.
  intros Hi Hl Hr Hn. destruct (inv_find _ _ _ _ _ Hi Hl) as (Ha & r1 & Hr1 & Hok).
  assert (r1 = r) as -> by congruence. destruct Hok.
  eapply (inv_header H H K K w _ i p r); try done; [apply Hi|..]; auto; by split.
Qed.

Lemma wp_augmente H K w i p (Q : unit -> World -> Prop) :
  inv H K w -> slot_live w i p ->
  (forall h', inv H K (set_w_heap h' w) -> Q tt (set_w_heap h' w)) ->
  wp (zoom heap_lens (augmente_syscall_nb p)) Q w.
Proof.
  intros Hi Hl HQ. destruct (inv_find _ _ _ _ _ Hi Hl) as (Ha & r & Hr & _).
  eapply wp_heap; [by apply augmente_syscall_nb_eq|]. apply HQ. eapply inv_nb; try done.
  pose proof (Z.mod_pos_bound (rt_syscall_nb r) 32768 ltac:(lia)). unfold fits. lia.
Qed.

Lemma fits_lor_multiple z : fits 16 z -> fits 16 (Z.lor z 32768).
Proof.
  intros Hz. change 32768 with MULTIPLE_MASK. rewrite lor_mask by done.
  pose proof (Z.mod_pos_bound z 32768 ltac:(lia)). unfold fits. lia.
Qed.

Lemma wp_set_multishot H K w i p (Q : unit -> World -> Prop) :
  inv H K w -> slot_live w i p ->
  (forall h', inv H K (set_w_heap h' w) -> Q tt (set_w_heap h' w)) ->
  wp (zoom heap_lens (set_multishot p)) Q w.
Proof.
  intros Hi Hl HQ. destruct (inv_find _ _ _ _ _ Hi Hl) as (Ha & r & Hr & Hok).
  eapply wp_heap; [by apply set_multishot_eq|]. apply HQ. eapply inv_nb; try done.
  apply fits_lor_multiple, Hok.
Qed.
End Steps.
