(* ===== verification/Polls.v ===== *)
(** * What polling a leaf future may do

    While the task at slab index [i] is polled, every operation of
    runtime.rs a leaf future calls keeps the accounting invariant: each entry it
    queues names task [i] and is counted in its reference counter.  [Runs m Q]
    says this of a computation [m] whose result satisfies [Q]. *)

From S2P Require Import Prelude UserData Io Task Slab BufPool BufRing Futures Runtime Calls Quiet Invariant.

Section Runs.
Context {prof : Profile} {flags : CqueueFlags}.
Variables (H : list (Z * Z)) (K : list Entry) (i : Z).

Definition Runs {A} (m : M World A) (Q : A -> Prop) : Prop :=
  forall w, running H K i w -> wp m (fun a w' => Q a /\ running H K i w') w.

Lemma Runs_ret {A} (a : A) (Q : A -> Prop) : Q a -> Runs (ret a) Q.
Proof. intros Ha w Hw. by apply wp_ret. Qed.

Lemma Runs_bind {A B} (m : M World A) (k : A -> M World B) P Q :
  Runs m P -> (forall a, P a -> Runs (k a) Q) -> Runs (bind m k) Q.
Proof.
  intros Hm Hk w Hw. apply wp_bind. eapply wp_mono; [by apply Hm|].
  intros a w' [Ha Hw']. by apply Hk.
Qed.

Lemma Runs_mono {A} (m : M World A) (P Q : A -> Prop) : Runs m P -> (forall a, P a -> Q a) -> Runs m Q.
Proof.
  intros Hm HQ w Hw. eapply wp_mono; [by apply Hm|]. intros a w' [Ha Hw']. split; [by apply HQ|done].
Qed.

Lemma Runs_quiet {A} (m : M World A) : Quiet m -> Runs m (fun _ => True).
Proof.
  intros Hm w Hw. eapply wp_mono; [apply Hm; by eapply running_ring|].
  intros a w' Hq. split; [done|]. by apply running_quiet with w.
Qed.

Lemma Runs_gets {A} (f : World -> A) (Q : A -> Prop) :
  (forall w, running H K i w -> Q (f w)) -> Runs (gets f) Q.
Proof. intros Hf w Hw. apply wp_gets. auto. Qed.

Lemma Runs_expect {A} (o : option A) msg : Runs (expect o msg) (fun _ => True).
Proof. destruct o; [by apply Runs_ret|done]. Qed.

Lemma Runs_assert b msg : Runs (assert_ b msg) (fun _ => True).
Proof. destruct b; [by apply Runs_ret|done]. Qed.

Lemma Runs_sub_w n a b : Runs (sub_w n a b) (fun _ => True).
Proof. unfold sub_w. destruct (_ <=? _), debug_checks; first [by apply Runs_ret|done]. Qed.

Lemma Runs_current : Runs (gets CURRENT_TASK) (fun t => wf_info t /\ t.(ti_tag).(task_idx) = i).
Proof. apply Runs_gets. intros w []. done. Qed.

Lemma Runs_any {A} (f : World -> A) : Runs (gets f) (fun _ => True).
Proof. by apply Runs_gets. Qed.

Lemma Runs_set_current t : wf_info t -> t.(ti_tag).(task_idx) = i ->
  Runs (modify (set_current t)) (fun _ => True).
Proof. intros ? ? w Hw. apply wp_modify. split; [done|]. by apply running_set_current. Qed.

Lemma Runs_with_borrow_mut {A} (m : M World A) Q : Runs m Q -> Runs (with_borrow_mut m) Q.
Proof.
  intros Hm. unfold with_borrow_mut. eapply Runs_bind; [apply Runs_any|intros b _].
  eapply Runs_bind; [destruct (b =? 0); [by apply (Runs_ret tt (fun _ => True))|done]|intros _ _].
  assert (Hb : forall b, Runs (modify (set_w_borrow b)) (fun _ => True)).
  { intros ?. apply Runs_quiet. intros w _. apply wp_modify, quiet_borrow. }
  eapply Runs_bind; [apply Hb|intros _ _]. eapply Runs_bind; [done|intros a Ha].
  eapply Runs_bind; [apply Hb|intros _ _]. by apply Runs_ret.
Qed.

(** ** The pieces of the [send_*] methods *)
Lemma Runs_udata : Runs current_udata (fun u => fits 64 u /\ (from_user_data u).(pl_task_idx) = i).
Proof.
  unfold current_udata. eapply Runs_bind; [apply Runs_current|]. intros t [Hwf Hi]. apply Runs_ret.
  change (mkPayload _ _ _) with (payload_of_info t).
  split; [by apply into_user_data_fits|]. by rewrite from_into_user_data.
Qed.

Lemma Runs_current_idx : Runs current_task_idx (fun j => j = i).
Proof. apply Runs_gets. by intros w []. Qed.

Lemma Runs_submit (f : World -> Opcode) u : fits 64 u -> (from_user_data u).(pl_task_idx) = i ->
  Runs (inc_rc_of i ;;! let! op := gets f in sqe_queue_push (mkEntry op u)) (fun _ => True).
Proof.
  intros Hu Hi w Hw. apply wp_bind. eapply wp_inc_rc_of; [done|]. intros h' Hpush.
  apply wp_bind, wp_gets, wp_modify. split; [done|]. by apply (Hpush (mkEntry _ u)).
Qed.

Lemma Runs_push op u : fits 64 u -> (from_user_data u).(pl_task_idx) = i ->
  Runs (inc_rc_of i ;;! sqe_queue_push (mkEntry op u)) (fun _ => True).
Proof. apply (Runs_submit (fun _ => op)). Qed.

Lemma Runs_set_multishot : Runs (set_multishot_of i) (fun _ => True).
Proof.
  intros w Hw. destruct (running_owner _ _ _ _ Hw) as (p & Hp & Hl). unfold set_multishot_of.
  apply wp_bind. eapply wp_task_at; [apply Hw|done|]. eapply wp_set_multishot; [apply Hw|done|].
  intros h' Hi. split; [done|]. by destruct Hw; split.
Qed.

Lemma Runs_advance tag : tag.(task_idx) = i -> Runs (advance_syscall_nb tag) (fun _ => True).
Proof.
  intros Ht w Hw. destruct (running_owner _ _ _ _ Hw) as (p & Hp & Hl). unfold advance_syscall_nb. rewrite Ht.
  apply wp_bind. eapply wp_task_at; [apply Hw|done|]. eapply wp_augmente; [apply Hw|done|].
  intros h' Hi. split; [done|]. by destruct Hw; split.
Qed.

Lemma fits_land z m : 0 <= m < 2 ^ 16 -> fits 16 z -> fits 16 (Z.land z m).
Proof.
  intros Hm Hz. unfold fits in *. rewrite <- (Z.land_ones_low z 16), <- Z.land_assoc.
  - assert (0 <= Z.land z (Z.land (Z.ones 16) m)) by (apply Z.land_nonneg; lia).
    rewrite (Z.land_comm (Z.ones 16)), Z.land_assoc, Z.land_ones in * by lia.
    pose proof (Z.mod_pos_bound (Z.land z m) (2 ^ 16) ltac:(lia)). lia.
  - lia.
  - destruct (Z.eq_dec z 0) as [->|]; [done|]. apply Z.log2_lt_pow2; lia.
Qed.

Lemma Runs_set_multiple b : Runs (set_current_task_multiple b) (fun _ => True).
Proof.
  unfold set_current_task_multiple. eapply Runs_bind; [apply Runs_current|].
  intros t [(H1 & H2 & H3) Hi]. apply Runs_set_current; [|done].
  split; [done|]. split; [done|]. simpl in *. destruct b; [by apply fits_lor_multiple|].
  apply fits_land; [vm_compute; split; [discriminate|done]|done].
Qed.

(** ** The [send_*] methods *)
Ltac start_send :=
  eapply Runs_bind; [apply Runs_udata|]; intros u [Hu Hui];
  eapply Runs_bind; [apply Runs_current_idx|]; intros ? ->.

Lemma Runs_send_read fd : Runs (send_read fd) (fun _ => True).
Proof. unfold send_read. start_send. by apply Runs_push. Qed.

Lemma Runs_send_accept fd : Runs (send_accept fd) (fun _ => True).
Proof. unfold send_accept. start_send. by apply Runs_push. Qed.

Lemma Runs_send_write fd b n : Runs (send_write fd b n) (fun _ => True).
Proof.
  unfold send_write. start_send.
  by apply (Runs_submit (fun w => WriteFixedOp fd (write_buf_ptr 1 w.(w_rt).(buffer) b) n b)).
Qed.

Lemma Runs_send_recv_multishot fd : Runs (send_recv_multishot fd) (fun _ => True).
Proof.
  unfold send_recv_multishot. eapply Runs_bind; [apply Runs_set_multiple|intros _ _]. start_send.
  eapply Runs_bind; [apply Runs_set_multishot|intros _ _]. by apply Runs_push.
Qed.

Lemma Runs_send_accept_multishot fd : Runs (send_accept_multishot fd) (fun _ => True).
Proof.
  unfold send_accept_multishot. eapply Runs_bind; [apply Runs_set_multiple|intros _ _]. start_send.
  eapply Runs_bind; [apply Runs_set_multishot|intros _ _]. by apply Runs_push.
Qed.

Lemma Runs_send_commit_write ptr fd n b : Runs (send_commit_write ptr fd n b) (fun _ => True).
Proof.
  unfold send_commit_write. eapply Runs_bind; [apply Runs_set_multiple|intros _ _]. start_send.
  by apply Runs_push.
Qed.

Lemma Runs_send_connect fd addr n : Runs (send_connect fd addr n) (fun _ => True).
Proof. unfold send_connect. start_send. by apply Runs_push. Qed.

Lemma Runs_send_socket : Runs send_socket (fun _ => True).
Proof. unfold send_socket. start_send. by apply Runs_push. Qed.

(** ** The fan-out *)
Definition own_entry (e : Entry) : Prop := entry_task_idx e = i /\ fits 64 e.(e_user_data).

Lemma quiet_add_pending es w w' : quiet w w' -> quiet (add_pending es w) (add_pending es w').
Proof. intros []. split; simpl; try done. by rewrite q_pending. Qed.

Lemma add_pending_app es es' w : add_pending es' (add_pending es w) = add_pending (es ++ es') w.
Proof. unfold add_pending. simpl. by rewrite app_assoc. Qed.

Lemma add_pending_nil w : add_pending [] w = w.
Proof. unfold add_pending. rewrite app_nil_r. by destruct w as [? []]. Qed.

Lemma WBuffer_write_udata b fd n u w : ring_ok w ->
  wp (zoom pool_lens (WBuffer_write b fd n u)) (fun e w' => e.(e_user_data) = u /\ quiet w w') w.
Proof.
  intros Hw. pose proof (WBuffer_write_quiet b fd n u w Hw) as Hq.
  unfold wp, zoom, WBuffer_write, bind in *. destruct (WBuffer_drop b _) as [[[] p]|?|?]; simpl in *; auto.
Qed.

Lemma wp_push_fan_out payload b n idx fd w : ring_ok w -> wf_payload payload -> payload.(pl_task_idx) = i ->
  wp (push_fan_out payload b n idx fd)
     (fun _ w' => exists e, own_entry e /\ quiet (add_pending [e] w) w') w.
Proof.
  intros Hw (Hp1 & Hp2 & Hp3) Hi. unfold push_fan_out. apply wp_bind. eapply wp_mono; [by apply WBuffer_clone_quiet|].
  intros b' w1 Hq1. apply wp_bind. eapply wp_mono; [apply WBuffer_write_udata; by apply quiet_ring with w|].
  intros e w2 [He Hq2]. apply wp_modify. exists e. split.
  - assert (Hwf : wf_payload (mkPayload payload.(pl_task_idx) (as_u16 idx) payload.(pl_syscall_nb)))
      by (split; [done|]; split; [apply wrap_bound; lia|done]).
    unfold own_entry, entry_task_idx. rewrite He, from_into_user_data by done.
    split; [done|]. by apply into_user_data_fits.
  - apply (quiet_add_pending [e]). by transitivity w1.
Qed.

Lemma wp_push_fan_outs payload b n fds : wf_payload payload -> payload.(pl_task_idx) = i ->
  forall idx w, ring_ok w ->
  wp (push_fan_outs payload b n idx fds)
     (fun _ w' => exists es, length es = length fds /\ Forall own_entry es /\ quiet (add_pending es w) w') w.
Proof.
  intros Hp Hi. induction fds as [|fd fds IH]; intros idx w Hw; simpl.
  - apply wp_ret. exists []. by rewrite add_pending_nil.
  - apply wp_bind. eapply wp_mono; [by apply wp_push_fan_out|]. intros [] w1 (e & He & Hq).
    eapply wp_mono; [apply IH; by apply (quiet_ring (add_pending [e] w))|].
    intros [] w2 (es & Hl & Hes & Hq2). exists (e :: es). split; [simpl; congruence|].
    split; [by constructor|]. transitivity (add_pending es w1); [|done].
    change (e :: es) with ([e] ++ es). rewrite <- (add_pending_app [e] es w). by apply quiet_add_pending.
Qed.

Lemma own_entries_refs es j : Forall own_entry es ->
  refs j es = if j =? i then Z.of_nat (length es) else 0.
Proof.
  intros Hes. destruct (Z.eqb_spec j i) as [->|Hne].
  - apply count_if_all. eapply Forall_impl; [done|]. intros e [He _]. by apply Z.eqb_eq.
  - apply refs_zero. intros e Hin. rewrite Forall_forall in Hes. destruct (Hes e Hin). congruence.
Qed.

Lemma wp_add_rc w es p (n : Z) :
  running H K i w -> Forall own_entry es -> (i, p) ∈ H -> n = Z.of_nat (length es) -> n < 2 ^ 16 ->
  forall w1, quiet (add_pending es w) w1 ->
  wp (zoom heap_lens (add_rc p n)) (fun _ w' => running H K i w') w1.
Proof.
  intros Hw Hes Hp Hn Hlt w1 Hq. pose proof (ru_inv _ _ _ _ Hw) as Hi.
  pose proof (iv_handles _ _ _ Hi (i, p) Hp) as Hl. simpl in Hl.
  destruct (inv_find _ _ _ _ _ Hi Hl) as (Ha & r & Hr & Hok). destruct Hok as [Hx Hrc Hpos Hnb Hfut].
  assert (Hr1 : w1.(w_heap) !! p = Some r) by (by rewrite (q_heap _ _ Hq)).
  assert (Hrf : fits 16 r.(rt_ref_counter)) by (unfold fits; lia).
  pose proof (add_rc_eq _ _ _ n Hr1 Hrf ltac:(lia)) as E.
  destruct (Z.leb_spec 65536 (rt_ref_counter r + n)); [by eapply wp_heap_panic|].
  destruct (n mod 32768 =? 0); [by eapply wp_heap_panic|].
  eapply wp_heap; [done|].
  assert (Hpend : forall j, refs j (K ++ w1.(w_rt).(pending)) =
            refs j (K ++ w.(w_rt).(pending)) + if j =? i then n else 0).
  { intros j. rewrite (q_pending _ _ Hq). simpl. rewrite !refs_app, (own_entries_refs es) by done.
    subst n. destruct (j =? i); lia. }
  split.
  - eapply (inv_header H H K K w _ i p r); try done; simpl.
    + by rewrite (q_heap _ _ Hq).
    + by rewrite (q_tasks _ _ Hq).
    + by rewrite (q_free _ _ Hq).
    + by rewrite (q_wake _ _ Hq).
    + change (ring_ok w1). apply (quiet_ring (add_pending es w)); [done|]. apply (iv_ring _ _ _ Hi).
    + split; simpl; try done; [|lia]. rewrite Hpend, Z.eqb_refl. lia.
    + intros j Hj. rewrite Hpend, (proj2 (Z.eqb_neq _ _)) by done. lia.
    + intros e. rewrite (q_pending _ _ Hq). simpl. rewrite app_assoc, elem_of_app.
      intros [He|He]; [by left|right]. rewrite Forall_forall in Hes. by apply Hes.
    + intros h Hh. by left.
  - simpl. rewrite (q_current _ _ Hq). apply Hw.
  - simpl. rewrite (q_current _ _ Hq). apply Hw.
  - by exists p.
Qed.

Lemma Runs_send_multiple_write fds b n : Z.of_nat (length fds) < 2 ^ 16 ->
  Runs (send_multiple_write fds b n) (fun _ => True).
Proof.
  intros Hlen w Hw. unfold send_multiple_write. apply wp_bind, wp_gets.
  destruct (running_owner _ _ _ _ Hw) as (p & Hp & Hl).
  pose proof (ru_info _ _ _ _ Hw) as Hwf. pose proof (ru_idx _ _ _ _ Hw) as Hi.
  apply wp_bind. eapply wp_mono; [apply wp_push_fan_outs; [done|done|by eapply running_ring]|].
  intros [] w1 (es & Hes & Hown & Hq). cbn [payload_of_info pl_task_idx]. rewrite Hi.
  apply wp_bind. assert (Ht : task_at i w1 = Ok (p, w1)).
  { apply task_at_ok; rewrite (q_tasks _ _ Hq); [apply (iv_slab _ _ _ (ru_inv _ _ _ _ Hw))|apply Hl]. }
  unfold wp at 1. rewrite Ht. apply wp_bind.
  rewrite wrap_small by (unfold fits; lia). eapply wp_mono; [eapply wp_add_rc; try done; congruence|].
  intros [] w2 Hw2. by apply Runs_quiet; [apply WBuffer_drop_quiet|].
Qed.
(** ** The leaf futures *)
Ltac step_as Hm := eapply Runs_bind; [apply Hm|intros ? ?].
Ltac done_poll := by apply Runs_ret.
Ltac submitted Hm := step_as (Runs_with_borrow_mut _ _ Hm); done_poll.

Lemma set_to_next_wf t : wf_info t -> wf_info (set_to_next_task t).
Proof.
  intros (H1 & H2 & H3). unfold wf_info, wf_payload, fits in *. simpl in *.
  pose proof (Z.mod_pos_bound (Z.land (syscall_nb (ti_tag t)) (not16 MULTIPLE_MASK) + 1) MULTIPLE_MASK
    ltac:(done)). change MULTIPLE_MASK with 32768 in *. lia.
Qed.

Lemma Runs_AcceptFuture f : Runs (AcceptFuture_poll f) (fun _ => True).
Proof.
  destruct f; simpl; [submitted (Runs_send_accept listen_fd)|].
  step_as (Runs_any (fun w => ti_result (CURRENT_TASK w))). destruct (_ <=? _); done_poll.
Qed.

Lemma Runs_AcceptStream s : Runs (AcceptStream_poll_next s) (fun _ => True).
Proof.
  unfold AcceptStream_poll_next. destruct (as_state s); [submitted (Runs_send_accept_multishot (as_listen_fd s))| |done_poll].
  step_as (Runs_any (fun w => ti_result (CURRENT_TASK w))). destruct (_ <? _); [done_poll|].
  step_as (Runs_any (fun w => ti_flags (CURRENT_TASK w))). done_poll.
Qed.

Lemma Runs_release b : Runs (release_read_buf b) (fun _ => True).
Proof. apply Runs_quiet, release_read_buf_quiet. Qed.

Lemma Runs_checkout b fd n : Runs (checkout b fd n) (fun _ => True).
Proof. apply Runs_quiet, checkout_quiet. Qed.

Lemma Runs_ReadFuture f : Runs (ReadFuture_poll f) (fun _ => True).
Proof.
  destruct f; simpl; [submitted (Runs_send_read fd)|].
  step_as (Runs_any (fun w => ti_result (CURRENT_TASK w))).
  step_as (Runs_any (fun w => ti_flags (CURRENT_TASK w))). destruct (_ <=? _).
  - eapply (Runs_bind _ _ (fun _ => True)); [|intros; done_poll].
    destruct (buffer_select _); [apply Runs_release|done_poll].
  - step_as (@Runs_expect Z). step_as Runs_checkout. done_poll.
Qed.

Lemma Runs_ReadStream s : Runs (ReadStream_poll_next s) (fun _ => True).
Proof.
  unfold ReadStream_poll_next. destruct (rs_state s); [submitted (Runs_send_recv_multishot (rs_fd s))| |done_poll].
  step_as (Runs_any (fun w => ti_result (CURRENT_TASK w))).
  step_as (Runs_any (fun w => ti_flags (CURRENT_TASK w))). destruct (_ <? _); [done_poll|].
  step_as (@Runs_expect Z). step_as Runs_checkout. done_poll.
Qed.

Lemma Runs_WriteFuture f : Runs (WriteFuture_poll f) (fun _ => True).
Proof.
  destruct f; simpl; [submitted (Runs_send_write fd buf_id len)|].
  step_as (Runs_any (fun w => ti_result (CURRENT_TASK w))). done_poll.
Qed.

Lemma Runs_WriteMultiple f : leaf_ok (LWriteMultiple f) ->
  Runs (WriteMultipleFuture_poll f) (fun r => leaf_ok (LWriteMultiple r.1)).
Proof.
  destruct f as [fds b n|c fds fl n b|]; intros Hok; [| |done]; cbn [WriteMultipleFuture_poll].
  - step_as (Runs_quiet _ (WBuffer_clone_quiet b)).
    step_as (Runs_with_borrow_mut _ _ (Runs_send_multiple_write fds a n Hok)). done_poll.
  - step_as Runs_sub_w. eapply Runs_bind; [apply Runs_current|intros t [Ht Hti]]. cbv zeta.
    step_as (@Runs_expect Z). step_as Runs_assert. destruct (_ =? 0); [|done_poll].
    step_as (Runs_with_borrow_mut _ _ (Runs_advance _ Hti)).
    eapply Runs_bind; [apply Runs_current|intros t' [Ht' Hti']].
    eapply Runs_bind; [apply (Runs_set_current (set_to_next_task t')); [by apply set_to_next_wf|done]|].
    intros _ _. done_poll.
Qed.

Lemma Runs_CommitFuture f : Runs (CommitFuture_poll f) (fun _ => True).
Proof.
  destruct f; simpl; [submitted (Runs_send_commit_write ptr fd_idx len (as_u16 buf_idx))|].
  step_as Runs_release. step_as (Runs_any (fun w => ti_result (CURRENT_TASK w))). done_poll.
Qed.

Lemma Runs_SocketFuture f : Runs (SocketFuture_poll f) (fun _ => True).
Proof.
  destruct f as [addr|fd addr|]; simpl; [submitted Runs_send_socket| |done].
  destruct (fd =? 0); [|done_poll]. step_as (Runs_any (fun w => ti_result (CURRENT_TASK w))).
  submitted (Runs_send_connect (as_u32 a) addr sockaddr_in_size).
Qed.

Lemma Runs_poll_leaf {A} (l : Leaf A) : leaf_ok l -> Runs (poll_leaf l) (fun r => leaf_ok r.1).
Proof.
  intros Hok. destruct l; cbn [poll_leaf].
  - step_as Runs_AcceptFuture. done_poll.
  - step_as Runs_AcceptStream. done_poll.
  - step_as Runs_ReadFuture. done_poll.
  - step_as Runs_ReadStream. done_poll.
  - step_as Runs_WriteFuture. done_poll.
  - eapply Runs_bind; [by apply Runs_WriteMultiple|intros r Hr]. done_poll.
  - step_as Runs_CommitFuture. done_poll.
  - step_as Runs_SocketFuture. done_poll.
Qed.
End Runs.
