(* ===== verification/Lifetime.v ===== *)
(** * Lifetimes: releasing, polling and spawning tasks

    [release] keeps the accounting invariant, also when it frees the last
    reference; polling a task keeps it; [spawn] creates a task with its two
    handles, polls it once and gives both handles back. *)

From S2P Require Import Prelude Layout UserData Io Task Slab BufPool BufRing Futures Runtime Calls Executor Quiet Invariant Polls.

Lemma wps_with_borrow_mut `{Profile} {A} X (m : M World A) (Q : A -> World -> Prop) w :
  (w.(w_borrow) <> 0 -> X "RefCell already borrowed") ->
  (w.(w_borrow) = 0 -> wps X m (fun a w' => Q a (set_w_borrow 0 w')) (set_w_borrow (-1) w)) ->
  wps X (with_borrow_mut m) Q w.
Proof.
  intros Hb Hm. unfold with_borrow_mut. apply wps_bind, wps_gets, wps_bind.
  destruct (Z.eqb_spec (w_borrow w) 0); [|by apply wps_panic, Hb]. apply wps_ret, wps_bind, wps_modify, wps_bind.
  eapply wps_mono; [by apply Hm|]. intros a w' HQ. by apply wps_bind, wps_modify, wps_ret.
Qed.

Lemma wp_with_borrow_mut `{Profile} {A} (m : M World A) (Q : A -> World -> Prop) w :
  wp m (fun a w' => Q a (set_w_borrow 0 w')) (set_w_borrow (-1) w) -> wp (with_borrow_mut m) Q w.
Proof. intros Hm. by apply (wps_with_borrow_mut (fun _ => True)). Qed.

Lemma inv_borrow H K w b : inv H K w -> inv H K (set_w_borrow b w).
Proof. apply inv_quiet, quiet_borrow. Qed.

(** ** The last reference *)
Lemma inv_freed H K w w' i p r :
  inv ((i, p) :: H) K w -> w.(w_heap) !! p = Some r -> slot_live w i p ->
  r.(rt_ref_counter) = 1 ->
  w'.(w_heap) = delete p w.(w_heap) ->
  w'.(w_rt).(tasks) = w.(w_rt).(tasks) ->
  w'.(w_rt).(pending) = w.(w_rt).(pending) ->
  w'.(RUNTIME_FREE_LIST) = w.(RUNTIME_FREE_LIST) ++ [i] ->
  w'.(RUNTIME_WAKE_LIST) = w.(RUNTIME_WAKE_LIST) ->
  ring_ok w' ->
  inv H K w'.
Proof.
  intros Hi Hr Hl Hone Eh Et Ep Ef Ew Hring.
  destruct (inv_find _ _ _ _ _ Hi Hl) as (_ & r' & Hr' & Hok). simplify_eq.
  pose proof (ho_rc _ _ _ _ Hok) as Hrc. rewrite held_cons in Hrc. cbn [fst] in Hrc.
  rewrite Z.eqb_refl, Hone in Hrc.
  pose proof (refs_nonneg i (K ++ pending (w_rt w))). pose proof (held_nonneg i H).
  assert (Hrefs : refs i (K ++ pending (w_rt w)) = 0) by lia.
  assert (Hheld : held i H = 0) by lia.
  assert (Hsv : forall j q, slot_live w' j q <-> slot_live w j q /\ j <> i).
  { intros j q. unfold slot_live. rewrite Et, Ef, elem_of_app, list_elem_of_singleton. naive_solver. }
  split.
  - rewrite Et. apply Hi.
  - intros q r1. rewrite Eh, Ep, lookup_delete_Some. intros [Hne Hq].
    destruct (iv_live _ _ _ Hi _ _ Hq) as (Ha & j & Hj & Hoj). split; [done|]. exists j.
    assert (j <> i) by (intros ->; by apply Hne, (slot_live_fun w i)).
    rewrite Hsv. split; [done|]. destruct Hoj as [Hx1 Hrc1 Hp1 Hn1 Hf1]. split; try done.
    rewrite Hrc1, held_cons. cbn [fst]. rewrite (proj2 (Z.eqb_neq i j)) by done. lia.
  - intros j q. rewrite Hsv, Eh. intros [Hj Hne].
    destruct (iv_slot _ _ _ Hi _ _ Hj) as (r1 & Hr1 & Hx). exists r1. split; [|done].
    apply lookup_delete_Some. split; [|done]. intros <-.
    pose proof (ho_idx _ _ _ _ Hok). congruence.
  - rewrite Et, Ef. destruct (iv_free _ _ _ Hi) as [Hnd Hfl]. split.
    + apply NoDup_app. split; [done|]. split; [|apply NoDup_singleton].
      intros j Hj ->%list_elem_of_singleton. by destruct Hl.
    + intros j [Hj| ->%list_elem_of_singleton]%elem_of_app; [by apply Hfl|].
      destruct Hl as [Hl _]. by rewrite Hl.
  - intros e. rewrite Ep. intros He. destruct (iv_entries _ _ _ Hi _ He) as (? & q & Hq).
    split; [done|]. exists q. rewrite Hsv. split; [done|]. by eapply refs_zero_inv.
  - intros h Hh. rewrite Hsv. split; [|by eapply held_zero_inv].
    apply (iv_handles _ _ _ Hi). by right.
  - rewrite Ew. apply Hi.
  - done.
Qed.

(** ** An entry turns into a handle when its completion is handled *)
Lemma inv_take_entry H K1 K2 e w :
  inv H (K1 ++ e :: K2) w ->
  exists p, slot_live w (entry_task_idx e) p /\ inv ((entry_task_idx e, p) :: H) (K1 ++ K2) w.
Proof.
  intros Hi. destruct (iv_entries _ _ _ Hi e) as (_ & p & Hp); [set_solver|]. exists p. split; [done|].
  destruct (inv_find _ _ _ _ _ Hi Hp) as (_ & r & Hr & Hok).
  assert (Hcount : forall j, refs j ((K1 ++ e :: K2) ++ pending (w_rt w)) =
            refs j ((K1 ++ K2) ++ pending (w_rt w)) + if entry_task_idx e =? j then 1 else 0).
  { intros j. rewrite !refs_app, refs_cons. lia. }
  eapply (inv_header H _ (K1 ++ e :: K2) (K1 ++ K2) w w _ p r r); try done.
  - by rewrite insert_id.
  - apply (iv_ring _ _ _ Hi).
  - destruct Hok as [Hx1 Hrc1 Hp1 Hn1 Hf1]. split; try done. rewrite Hrc1, Hcount, held_cons. cbn [fst]. lia.
  - intros j Hj. rewrite Hcount, held_cons. cbn [fst].
    rewrite (proj2 (Z.eqb_neq (entry_task_idx e) j)) by done. lia.
  - intros e' He. left. set_solver.
  - intros h [->|Hh]%elem_of_cons; [by right|by left].
Qed.

(** The kernel takes the queue. *)
Lemma inv_submit H K w : inv H K w ->
  inv H (K ++ w.(w_rt).(pending))
    (set_w_rt (set_pending [] (set_ring_submitted (w.(w_rt).(ring_submitted) ++ w.(w_rt).(pending)) w.(w_rt))) w).
Proof. intros []. split; simpl; rewrite ?app_nil_r; done. Qed.

Section Lifetime.
Context {prof : Profile} {flags : CqueueFlags}.

Definition same_current (w w' : World) : Prop := w'.(CURRENT_TASK) = w.(CURRENT_TASK).

(** What the last release leaves: the future is dropped, the header is gone and
    its index waits in the free list; nothing else is disturbed. *)
Definition freed_at (p : Z) (r : RawTask Fut) (w w' : World) : Prop := exists w2,
  quiet (set_w_heap (<[p := set_ref_counter 0 r]> w.(w_heap)) w) w2 /\
  w' = set_free_list (w.(RUNTIME_FREE_LIST) ++ option_list r.(rt_slab_idx)) (set_w_heap (delete p w.(w_heap)) w2).

Lemma wp_last_release p r w : ring_ok w -> w.(w_heap) !! p = Some r -> r.(rt_ref_counter) = 1 ->
  wp (release p) (fun _ w' => freed_at p r w w') w.
Proof.
  intros Hring Hr Hone. unfold release. cbn [host_heap world_host].
  apply wp_bind. eapply wp_load; [done|]. apply wp_bind, wp_sub_w; [lia|]. rewrite Hone.
  apply wp_bind. eapply wp_heap; [by eapply store_ok|]. apply wp_bind. cbn [Z.sub Z.add Z.opp Z.eqb Z.pos_sub].
  apply (wp_mono _ (fun _ w' => freed_at p r w w')).
  2:{ intros [] w' Hw'. by apply (wp_counter (host := world_host)). }
  unfold free_task. apply wp_bind. cbn [host_drop_fn host_heap world_host]. eapply wp_mono; [by apply drop_fn_quiet|].
  intros [] w2 Hq. apply wp_bind. eapply wp_load; [rewrite (q_heap _ _ Hq); apply lookup_insert_eq|].
  apply wp_bind. eapply wp_heap.
  { unfold dealloc. rewrite (q_heap _ _ Hq). cbn [w_heap set_w_heap]. by rewrite lookup_insert_eq, delete_insert_eq. }
  pose proof (q_free _ _ Hq) as Hf. cbn [RUNTIME_FREE_LIST set_w_heap] in Hf.
  cbn [rt_slab_idx set_ref_counter host_push_free world_host].
  destruct (rt_slab_idx r) eqn:Hidx; [apply wp_modify|apply wp_ret]; (exists w2; split; [done|]); rewrite Hidx, <- Hf; [done|].
  cbn [option_list]. rewrite app_nil_r. by destruct w2.
Qed.

Lemma wp_release H K i p w : inv ((i, p) :: H) K w ->
  wp (release p) (fun _ w' => inv H K w' /\ same_current w w') w.
Proof.
  intros Hi. assert (Hl : slot_live w i p) by (apply (iv_handles _ _ _ Hi (i, p)); by left).
  destruct (inv_find _ _ _ _ _ Hi Hl) as (_ & r & Hr & Hok).
  pose proof (ho_pos _ _ _ _ Hok) as Hpos. destruct (Z.eqb_spec (rt_ref_counter r) 1) as [Hone|Hne].
  { eapply wp_mono; [by apply (wp_last_release p r), Hone; [apply (iv_ring _ _ _ Hi)|]|].
    intros n w' (w2 & Hq & ->). rewrite (ho_idx _ _ _ _ Hok). split; [|apply (q_current _ _ Hq)].
    eapply (inv_freed H K w _ i p r); try done; simpl.
    - by rewrite (q_tasks _ _ Hq).
    - by rewrite (q_pending _ _ Hq).
    - by rewrite (q_wake _ _ Hq).
    - apply (quiet_ring _ _ Hq), (iv_ring _ _ _ Hi). }
  unfold release. cbn [host_heap world_host].
  apply wp_bind. eapply wp_load; [done|]. apply wp_bind, wp_sub_w; [lia|].
  apply wp_bind. eapply wp_heap; [by eapply store_ok|].
  set (w1 := set_w_heap _ w). apply wp_bind. rewrite (proj2 (Z.eqb_neq _ 0)) by lia.
  eapply (wp_mono _ (fun _ w' => inv H K w' /\ same_current w w')); [|by intros [] w' Hw'; apply (wp_counter (host := world_host))].
  apply wp_ret. split; [|done]. subst w1.
  eapply (inv_header ((i, p) :: H) H K K w _ i p r); try done; try apply (iv_ring _ _ _ Hi).
  - destruct Hok as [Hx1 Hrc1 Hp1 Hn1 Hf1]. split; simpl; try done; [|lia]. rewrite Hrc1, held_cons. cbn [fst].
    rewrite Z.eqb_refl. simpl. lia.
  - intros j Hj. split; [done|]. rewrite held_cons. cbn [fst].
    rewrite (proj2 (Z.eqb_neq i j)) by done. lia.
  - intros e He. by left.
  - intros h Hh. left. by right.
Qed.

Lemma wp_Task_drop H K i p w : inv ((i, p) :: H) K w ->
  wp (Task_drop p) (fun _ w' => inv H K w' /\ same_current w w') w.
Proof. intros Hi. unfold Task_drop. apply wp_bind. eapply wp_mono; [by eapply wp_release|]. done. Qed.

(** ** Polling *)
Lemma running_future H K i p w f : running H K i w -> (i, p) ∈ H -> fut_ok f ->
  exists r, w.(w_heap) !! p = Some r /\
    running H K i (set_w_heap (<[p := set_future f r]> w.(w_heap)) w).
Proof.
  intros [Hi Hw Hx Hh] Hp Hf. pose proof (iv_handles _ _ _ Hi _ Hp) as Hl. simpl in Hl.
  destruct (inv_find _ _ _ _ _ Hi Hl) as (_ & r & Hr & _). exists r. split; [done|].
  split; try done. by eapply inv_future.
Qed.

Lemma wp_task_poll_with body H K i p w :
  (forall prog w, prog_ok prog -> running H K i w ->
     wp (body prog) (fun r w' => fut_ok r.1 /\ running H K i w') w) ->
  running H K i w -> (i, p) ∈ H ->
  wp (task_poll_with body p) (fun _ w' => running H K i w') w.
Proof.
  intros Hbody Hw Hp. pose proof (iv_handles _ _ _ (ru_inv _ _ _ _ Hw) _ Hp) as Hl. simpl in Hl.
  destruct (inv_find _ _ _ _ _ (ru_inv _ _ _ _ Hw) Hl) as (_ & r & Hr & Hok).
  pose proof (ho_fut _ _ _ _ Hok) as Hf. unfold task_poll_with.
  apply wp_bind. eapply wp_load; [done|]. destruct (rt_future r) as [prog|]; [|done].
  apply wp_bind. eapply wp_mono; [by apply Hbody|]. intros [f o] w1 [Hf1 Hw1].
  destruct (running_future _ _ _ p _ f Hw1 Hp Hf1) as (r1 & Hr1 & Hw2).
  apply wp_bind. eapply wp_load; [done|]. apply wp_bind.
  eapply wp_heap; [by eapply store_ok|]. by apply wp_ret.
Qed.
End Lifetime.

(** ** Spawning *)

Section Spawn.
Context {prof : Profile} {flags : CqueueFlags} {al : Allocator} {fl : FutLayout Fut} {sm : SlabMemory}.
Context {al_laws : AllocatorLaws} {sm_laws : SlabMemoryLaws}.

(** The header [Task_new] writes. *)
Definition new_header (f : Fut) (rc : Z) (idx : option Z) : RawTask Fut :=
  mkRawTask f (task_layout f).1 rc 0 idx.

(** How creating a task can fail. *)
Definition spawn_panics : list string := [
  "align_of::<F>() dépasse align_of::<RawTask>() — non supporté";
  "layout overflow";
  "assertion `left == right` failed";
  "alloc_size dépasse u32::MAX";
  "task allocation échouée";
  "Slab realloc failed"]%string.

Lemma wps_Task_new X f (h : heap Fut) (Q : Z -> heap Fut -> Prop) : (forall msg, msg ∈ spawn_panics -> X msg) ->
  (forall p, h !! p = None -> p mod RawTask_align = 0 -> Q p (<[p := new_header f 1 None]> h)) ->
  wps X (Task_new f) Q h.
Proof.
  intros HX HQ. unfold Task_new.
  apply wps_bind, wps_assert; [intros Hal|intros _; apply HX; set_solver].
  apply wps_bind, wps_expect; [intros [l offset] Hx|intros _; apply HX; set_solver]. cbn [fst snd].
  destruct (extend_future _ _ _ Hx) as [-> ->].
  apply wps_bind, wps_debug_assert; [|intros _; apply HX; set_solver].
  apply wps_bind, wps_assert; [intros _|intros _; apply HX; set_solver].
  apply wps_bind, wps_get. apply wps_bind, wps_expect; [intros p Hp|intros _; apply HX; set_solver].
  apply wps_bind, wps_put, wps_ret. apply HQ.
  - apply not_elem_of_dom. by eapply alloc_fresh.
  - apply (alloc_aligned (dom h) (task_layout f).1). rewrite <- Hp. f_equal.
    apply Z.leb_le in Hal. unfold task_layout, pad_to_align. simpl. f_equal. lia.
Qed.

(** Registering a fresh header with two handles. *)
Lemma inv_new H K w w' i p f :
  inv H K w -> w.(w_heap) !! p = None -> p mod RawTask_align = 0 -> fut_ok f ->
  slab_wf w'.(w_rt).(tasks) -> slab_lookup w.(w_rt).(tasks) i = None ->
  (forall j, slab_lookup w'.(w_rt).(tasks) j = if decide (j = i) then Some p else slab_lookup w.(w_rt).(tasks) j) ->
  w'.(w_heap) = <[p := new_header f 2 (Some i)]> w.(w_heap) ->
  w'.(w_rt).(pending) = w.(w_rt).(pending) ->
  w'.(RUNTIME_FREE_LIST) = w.(RUNTIME_FREE_LIST) ->
  w'.(RUNTIME_WAKE_LIST) = w.(RUNTIME_WAKE_LIST) ->
  ring_ok w' ->
  inv ((i, p) :: (i, p) :: H) K w'.
Proof.
  intros Hi Hp Ha Hf Hs Hnone Hlk Eh Ep Ef Ew Hring.
  assert (Hnfree : i ∉ w.(RUNTIME_FREE_LIST)).
  { intros Hin. destruct (iv_free _ _ _ Hi) as [_ Hfl]. destruct (Hfl _ Hin) as [q Hq]. congruence. }
  assert (Hold : forall j q, slot_live w j q -> j <> i) by (intros j q [Hj _] ->; congruence).
  assert (Hsv : forall j q, slot_live w' j q <-> (j = i /\ q = p) \/ slot_live w j q).
  { intros j q. unfold slot_live. rewrite Hlk, Ef. case_decide; naive_solver. }
  assert (Hrefs : refs i (K ++ pending (w_rt w)) = 0).
  { apply refs_zero. intros e He. destruct (iv_entries _ _ _ Hi _ He) as (_ & q & Hq). by eapply Hold. }
  assert (Hheld : held i H = 0).
  { apply held_zero. intros h Hh. by eapply Hold, (iv_handles _ _ _ Hi). }
  split.
  - done.
  - intros q r1. rewrite Eh, Ep, lookup_insert_Some. intros [[<- <-]|[Hne Hq]].
    + split; [done|]. exists i. rewrite Hsv. split; [by left|].
      split; simpl; try done. rewrite !held_cons. cbn [fst]. rewrite Z.eqb_refl. lia.
    + destruct (iv_live _ _ _ Hi _ _ Hq) as (Haq & j & Hj & [Hx1 Hrc1 Hp1 Hn1 Hf1]).
      split; [done|]. exists j. rewrite Hsv. split; [by right|]. split; try done.
      rewrite Hrc1, !held_cons. cbn [fst].
      rewrite (proj2 (Z.eqb_neq i j)) by (symmetry; by eapply Hold). lia.
  - intros j q. rewrite Hsv, Eh. intros [[-> ->]|Hj].
    + eexists. by rewrite lookup_insert_eq.
    + destruct (iv_slot _ _ _ Hi _ _ Hj) as (r1 & Hr1 & Hx). exists r1.
      by rewrite lookup_insert_ne by congruence.
  - rewrite Ef. destruct (iv_free _ _ _ Hi) as [Hnd Hfl]. split; [done|].
    intros j Hj. rewrite Hlk. case_decide; [done|by apply Hfl].
  - intros e. rewrite Ep. intros He. destruct (iv_entries _ _ _ Hi _ He) as (? & q & Hq).
    split; [done|]. exists q. rewrite Hsv. by right.
  - intros h Hh. rewrite Hsv. apply elem_of_cons in Hh as [->|Hh]; [by left|].
    apply elem_of_cons in Hh as [->|Hh]; [by left|]. right. by apply (iv_handles _ _ _ Hi).
  - rewrite Ew. apply Hi.
  - done.
Qed.

(** The part of [spawn_with] that runs under the borrow: the new header has two
    handles and its body, and its task becomes the current one. *)
Lemma wps_spawn_register X H K w prog (Q : Z * TaskInfo -> World -> Prop) :
  (forall msg, msg ∈ spawn_panics -> X msg) -> (w.(w_borrow) <> 0 -> X "RefCell already borrowed") ->
  inv H K w -> prog_ok prog ->
  (forall p i w1, w.(w_heap) !! p = None ->
     w1.(w_heap) = <[p := new_header (Suspended prog) 2 (Some i)]> w.(w_heap) ->
     same_io w w1 ->
     w1.(CURRENT_TASK) = initial_poll i -> running ((i, p) :: (i, p) :: H) K i w1 ->
     Q (p, w.(CURRENT_TASK)) w1) ->
  wps X (with_borrow_mut (
    let! task := zoom heap_lens (Task_new (Suspended prog)) in
    let! cloned := zoom heap_lens (Task_clone task) in
    let! task_idx := zoom heap_tasks_lens (insert cloned) in
    let! old_task_context := gets CURRENT_TASK in
    modify (set_current (initial_poll task_idx)) ;;!
    ret (task, old_task_context))) Q w.
Proof.
  intros HX HXb Hi Hprog HQ. apply wps_with_borrow_mut; [done|]. intros Hb0.
  apply wps_bind, wps_zoom. cbn [lget heap_lens]. apply wps_Task_new; [done|]. intros p Hp Ha. cbn [lset heap_lens].
  apply wps_bind. eapply (wps_step _ _ _ _ p).
  { unfold zoom, Task_clone. cbn [lget heap_lens w_heap set_w_heap].
    rewrite (bind_step _ _ _ tt (<[p := new_header (Suspended prog) 2 None]> (w_heap w))); [done|].
    erewrite inc_rc_eq; [|apply lookup_insert_eq|vm_compute; split; [discriminate|done]].
    cbn [rt_ref_counter new_header]. change (65536 <=? 1 + 1) with false.
    cbn [w_heap set_w_borrow]. by rewrite insert_insert_eq. }
  apply wps_bind, wps_zoom. cbn [lget heap_tasks_lens lset heap_lens].
  unfold wps at 1. cbn [w_heap w_rt tasks set_w_heap set_w_borrow].
  destruct (iv_slab _ _ _ Hi) as [frees Hs].
  destruct (insert_spec (<[p := new_header (Suspended prog) 2 None]> (w_heap w)) (tasks (w_rt w)) frees p
              (new_header (Suspended prog) 2 None) Hs)
    as [(E & _)|(i & s' & E & Hs' & Hnone & Hrange & Hlk & _)];
    [apply lookup_insert_eq|by apply aligned_not_free|rewrite E; apply HX; set_solver|].
  rewrite E.
  apply wps_bind, wps_gets, wps_bind, wps_modify, wps_ret.
  cbn [lset heap_tasks_lens fst snd]. rewrite insert_insert_eq.
  set (w1 := set_w_borrow 0 _).
  assert (Hi1 : inv ((i, p) :: (i, p) :: H) K w1).
  { eapply (inv_new H K w w1 i p (Suspended prog)); try done. apply (iv_ring _ _ _ Hi). }
  apply (HQ p i); try done.
  destruct Hs' as [? Hs']. pose proof (si_bound _ _ Hs').
  split; [done| |done|exists p; by left]. split; [|by split]. unfold fits. simpl. lia.
Qed.

Lemma wp_spawn_with body H K w prog :
  (forall prog H i w, prog_ok prog -> running H K i w ->
     wp (body prog) (fun r w' => fut_ok r.1 /\ running H K i w') w) ->
  inv H K w -> prog_ok prog ->
  wp (spawn_with body prog) (fun _ w' => inv H K w' /\ same_current w w') w.
Proof.
  intros Hbody Hi Hprog. unfold spawn_with. apply wp_bind, (wps_spawn_register (fun _ => True) H K); [done..|].
  intros p i w1 _ _ _ _ Hr1. apply wp_bind. eapply wp_mono.
  { eapply (wp_task_poll_with body); [intros; by apply Hbody|done|by left]. }
  intros o w2 [Hi2 _ _ _]. apply wp_bind. eapply wp_mono; [by eapply wp_release|].
  intros o' w3 [Hi3 _]. apply wp_bind, wp_modify.
  eapply wp_mono; [eapply wp_Task_drop; by apply inv_set_current|]. done.
Qed.

(** ** Bodies *)
Lemma wp_run K prog : forall H i w, prog_ok prog -> running H K i w ->
  wp (run prog) (fun r w' => fut_ok r.1 /\ running H K i w') w.
Proof.
  assert (Hquiet : forall A (m : M World A) (k : A -> Prog) H i w, Quiet m ->
    (forall a w', running H K i w' -> wp (run (k a)) (fun r w'' => fut_ok r.1 /\ running H K i w'') w') ->
    running H K i w -> wp (let! a := m in run (k a)) (fun r w' => fut_ok r.1 /\ running H K i w') w).
  { intros A m k H i w Hm Hk Hw. apply wp_bind. eapply wp_mono; [apply Hm; by eapply running_ring|].
    intros a w' Hq. apply Hk. by apply running_quiet with w. }
  induction prog as [|msg|A leaf hold k IH|child IHc k IH|k IH|b k IH|b fd n k IH|r k IH];
    intros H i w Hok Hw; cbn [run].
  - by apply wp_ret.
  - done.
  - destruct Hok as [Hleaf Hk]. apply wp_bind. eapply wp_mono; [by apply Runs_poll_leaf|].
    intros [leaf' [v|]] w' [Hleaf' Hw'].
    + apply (Hquiet _ (Leaf_drop leaf') (fun _ => k v)); [apply Leaf_drop_quiet|by auto|done].
    + by apply wp_ret.
  - destruct Hok as [Hc Hk]. apply wp_bind. destruct Hw as [Hi Hinfo Hidx Hh].
    eapply wp_mono; [apply (wp_spawn_with (fun _ => run child)); [intros; by apply IHc|done|done]|].
    intros [] w' [Hi' Hcur]. apply IH; [done|]. split; [done|..]; by rewrite ?Hcur.
  - apply (Hquiet _ _ k); [apply alloc_write_buffer_quiet| |done]. intros; by apply IH.
  - apply (Hquiet _ _ k); [apply WBuffer_clone_quiet| |done]. intros; by apply IH.
  - done.
  - apply (Hquiet _ _ (fun _ => k)); [apply Res_drop_quiet| |done]. intros; by apply IH.
Qed.
End Spawn.

(** ** [release] as a function of the counter *)
Section Release.
Context {prof : Profile} {W F : Type} {host : TaskHost W F} {laws : LensLaws (host_heap (TaskHost := host))}.

(** C15: what [release] does, wherever the task lives and whatever the destructor
    of its future does beside the task headers, which it leaves alone.  It takes one reference away; while others are left, that
    is all.  With the last one, the future is dropped first, while the header is
    still allocated and counts no reference; if that panics, nothing is freed;
    otherwise the block is freed, the slab index, if there is one, is queued for
    reclaiming, and the result is read from the freed header: a number that
    happens to be there, or an undefined access where the profile counts it as
    one. *)
Theorem release_frees_last (s : W) p r : lget host_heap s !! p = Some r -> 0 < r.(rt_ref_counter) ->
  let s0 := lset host_heap (<[p := set_ref_counter (r.(rt_ref_counter) - 1) r]> (lget host_heap s)) s in
  (1 < r.(rt_ref_counter) -> release p s = Ok (r.(rt_ref_counter) - 1, s0)) /\
  (r.(rt_ref_counter) = 1 ->
    (forall msg, host_drop_fn r.(rt_future) s0 = Panic msg -> release p s = Panic msg) /\
    (forall s1, host_drop_fn r.(rt_future) s0 = Ok (tt, s1) -> lget host_heap s1 = lget host_heap s0 ->
      let s2 := lset host_heap (delete p (lget host_heap s)) s1 in
      forall s3, for_each (option_list r.(rt_slab_idx)) host_push_free s2 = Ok (tt, s3) ->
      lget host_heap s3 = lget host_heap s2 ->
      release p s = match freed_counter with
                    | Some found => Ok (as_u16 (found p), s3)
                    | None => Ub freed_read
                    end)).
Proof.
  intros Hr Hpos s0. set (r0 := set_ref_counter (r.(rt_ref_counter) - 1) r) in *.
  set (h0 := <[p := r0]> (lget host_heap s)) in *. assert (H0 : lget host_heap s0 = h0) by apply lget_lset.
  assert (Erel : release p s = ((if r.(rt_ref_counter) - 1 =? 0 then free_task p r.(rt_future) else ret tt) ;;!
    zoom host_heap (read_counter p)) s0).
  { unfold release. rewrite (zoom_step _ _ _ r (lget host_heap s)) by by apply load_ok. rewrite lset_lget.
    unfold sub_w. rewrite (proj2 (Z.leb_le _ _)) by lia. rewrite (bind_step _ _ _ _ _ eq_refl).
    by rewrite (zoom_step _ _ _ tt h0) by by eapply store_ok. }
  rewrite Erel. split; [intros Hn|intros Hn; split].
  - rewrite (proj2 (Z.eqb_neq _ _)) by lia. rewrite (bind_step _ _ _ tt s0 eq_refl).
    unfold zoom. rewrite H0. rewrite (read_counter_ok _ p r0) by apply lookup_insert_eq.
    by rewrite <- H0, lset_lget.
  - intros msg E. rewrite (proj2 (Z.eqb_eq _ _)) by lia. unfold free_task, bind. by rewrite E.
  - intros s1 E1 H1 s2 s3 E3 H3. rewrite (proj2 (Z.eqb_eq _ _)) by lia. rewrite H0 in H1.
    assert (Ed : free_task p r.(rt_future) s0 = Ok (tt, s3)).
    { unfold free_task. rewrite (bind_step _ _ _ _ _ E1).
      rewrite (zoom_step _ _ _ r0 h0) by (rewrite H1; apply load_ok, lookup_insert_eq).
      replace (lset host_heap h0 s1) with s1 by (by rewrite <- H1, lset_lget).
      rewrite (zoom_step _ _ _ tt (delete p (lget host_heap s))).
      - fold s2. change (rt_slab_idx r0) with (rt_slab_idx r). destruct (rt_slab_idx r); [|exact E3].
        cbn [option_list for_each] in E3. apply bind_Ok in E3 as ([] & s4 & E4 & [= <-]). exact E4.
      - unfold dealloc. rewrite H1. unfold h0. rewrite lookup_insert_eq. by rewrite delete_insert_eq. }
    rewrite (bind_step _ _ _ _ _ Ed). unfold zoom, read_counter. rewrite H3. unfold s2. rewrite lget_lset, lookup_delete_eq.
    destruct freed_counter; [|done]. do 2 f_equal.
    transitivity (lset host_heap (lget host_heap s3) s3); [|by rewrite lset_lget]. by rewrite H3; unfold s2; rewrite lget_lset.
Qed.
End Release.

Module LifetimeExamples.
#[local] Existing Instance dev_profile.
Import BufRingExamples.

Definition header (rc : Z) : RawTask Fut := mkRawTask (Suspended Return) 96 rc 0 (Some 0).
Definition world_with (rc : Z) : World :=
  mkWorld {[ 32 := header rc ]} (mkRuntime (mkSlab [32] 1 1 1) [] pool4 [] mem4) 0 TaskInfo_dummy [] [].

(** A task whose body holds a received buffer while it waits for a connection. *)
Definition holder : RawTask Fut :=
  mkRawTask (Suspended (Await (accept 3) [ResRw (mkRwBuffer 12288 1 7 20 false)] (fun _ => Return))) 96 1 1 (Some 0).
Definition world_held : World :=
  mkWorld {[ 32 := holder ]} (mkRuntime (mkSlab [32; free_slot 2] 1 2 1) [] pool4 [] mem4) 0 TaskInfo_dummy [] [].

(** Its last release gives the buffer back to the ring, then frees it. *)
Lemma release_frees_last_witness : exists w',
  release 32 world_held = Ok (0, w') /\ w'.(w_heap) = ∅ /\ w'.(RUNTIME_FREE_LIST) = [0] /\
  ring_tail w'.(w_rt).(buf_ring) = (ring_tail mem4 + 1) mod 65536.
Proof.
  destruct (release_frees_last (host := world_host) world_held 32 holder eq_refl ltac:(reflexivity)) as [_ H].
  destruct (H eq_refl) as [_ Hok]. clear H.
  destruct (host_drop_fn holder.(rt_future) (set_w_heap {[ 32 := set_ref_counter 0 holder ]} world_held))
    as [[[] w1]|?|?] eqn:E1; [|vm_compute in E1; discriminate E1..].
  exists (set_free_list [0] (set_w_heap ∅ w1)).
  assert (Hw1 : w1.(w_heap) = {[ 32 := set_ref_counter 0 holder ]} /\ w1.(RUNTIME_FREE_LIST) = [] /\
    ring_tail w1.(w_rt).(buf_ring) = (ring_tail mem4 + 1) mod 65536).
  { vm_compute in E1. injection E1 as <-. vm_compute. split; [|split]; reflexivity. }
  destruct Hw1 as (Hh & Hf & Ht). split; [|split; [reflexivity|split; [reflexivity|exact Ht]]].
  refine (Hok w1 _ _ _ _ _).
  - exact E1.
  - exact Hh.
  - cbn. rewrite Hf. reflexivity.
  - reflexivity.
Defined.
End LifetimeExamples.
