(* ===== verification/Safety.v ===== *)
(** * Memory safety of the event loop

    From the initial state, under any kernel that only completes entries it was
    given, [block_on] never touches a freed task header (the read that ends
    [release] apart), a vacated slab slot or memory outside of its blocks; every task that is alive when the loop waits
    has an entry in flight; and when [block_on] returns, every task has been
    freed. *)

From S2P Require Import Prelude UserData Io Task Slab BufPool BufRing Futures Runtime Calls Executor Quiet Invariant Polls Lifetime.

(** ** Reclaiming the slots of freed tasks *)
Lemma inv_reclaim H K w x l : inv H K (set_free_list (x :: l) w) ->
  exists q, slab_lookup w.(w_rt).(tasks) x = Some q /\
  forall s', slab_wf s' ->
    (forall j, slab_lookup s' j = if decide (j = x) then None else slab_lookup w.(w_rt).(tasks) j) ->
    inv H K (set_free_list l (set_w_rt (set_tasks s' w.(w_rt)) w)).
Proof.
  intros Hi. destruct (iv_free _ _ _ Hi) as [Hnd Hfl]. apply NoDup_cons in Hnd as [Hx Hnd]. simpl in Hfl.
  destruct (Hfl x) as [q Hq]; [by left|]. exists q. split; [done|]. intros s' Hs' Hlk.
  set (w' := set_free_list l _).
  assert (Hsv : forall j p, slot_live w' j p <-> slot_live (set_free_list (x :: l) w) j p).
  { intros j p. unfold slot_live. simpl. rewrite Hlk, elem_of_cons. case_decide; naive_solver. }
  destruct Hi as [Hs Hlive Hslot Hfree Hent Hhan Hwake Hring]. split; try done.
  - intros p r Hp. destruct (Hlive p r Hp) as (Ha & j & Hj & Hok). split; [done|]. exists j. by rewrite Hsv.
  - intros j p. rewrite Hsv. apply Hslot.
  - split; [done|]. intros j Hj. simpl in *. rewrite Hlk. case_decide; [by subst|]. apply Hfl. by right.
  - intros e He. destruct (Hent e He) as (? & p & ?). split; [done|]. exists p. by rewrite Hsv.
  - intros h Hh. rewrite Hsv. by apply Hhan.
Qed.

Section Reclaim.
Context {prof : Profile} {flags : CqueueFlags} {sm : SlabMemory} {sm_laws : SlabMemoryLaws}.

Lemma wps_free_unsed_slab_slot X H K w : inv H K w ->
  wps X free_unsed_slab_slot (fun _ w' => inv H K w' /\ w'.(w_heap) = w.(w_heap) /\
    w'.(RUNTIME_FREE_LIST) = [] /\ same_io w w') w.
Proof.
  intros Hi. unfold free_unsed_slab_slot. apply wps_bind, wps_gets, wps_bind.
  eapply wps_mono.
  - apply (wps_for_each _ _ _ (fun l' w' => inv H K (set_free_list l' w') /\ w'.(w_heap) = w.(w_heap) /\ same_io w w')).
    + split; [by destruct w|done].
    + intros x l' w1 (Hx & Hh & Hio). destruct (inv_reclaim _ _ _ _ _ Hx) as (q & Hq & Hnew).
      destruct (iv_slab _ _ _ Hx) as [frees Hs]. cbn [set_free_list w_rt] in Hs.
      apply wps_zoom. cbn [lget tasks_lens]. unfold wps.
      rewrite (remove_dropped_task_ok _ _ _ _ Hs Hq). cbn [lset tasks_lens].
      split; [|by split; [|destruct Hio]]. apply Hnew.
      * eexists. by eapply vacated_inv.
      * intros j. apply vacated_lookup; rewrite ?(si_len _ _ Hs); eapply slab_lookup_range; done.
  - intros [] w1 (Hw1 & Hh & []). by apply wps_modify.
Qed.

(** With no slot to reclaim, the count is zero exactly when no task is left. *)
Lemma inv_count_zero H K w : inv H K w -> w.(RUNTIME_FREE_LIST) = [] ->
  (w.(w_rt).(tasks).(task_count) =? 0) = bool_decide (w.(w_heap) = ∅).
Proof.
  intros Hi Hf. destruct (iv_slab _ _ _ Hi) as [frees Hs].
  apply eq_true_iff_eq. rewrite Z.eqb_eq, bool_decide_eq_true. split; intros E.
  - apply map_empty. intros p. destruct (w.(w_heap) !! p) as [r|] eqn:Hp; [|done].
    destruct (iv_live _ _ _ Hi _ _ Hp) as (_ & i & [Hi' _] & _).
    pose proof (slab_count_pos _ _ _ _ Hs Hi'). lia.
  - apply (slab_count_zero _ _ Hs). intros i. destruct (slab_lookup _ i) as [p|] eqn:Hp; [|done].
    destruct (iv_slot _ _ _ Hi i p) as (r & Hr & _); [|by rewrite E in Hr].
    split; [done|]. rewrite Hf. apply not_elem_of_nil.
Qed.

Lemma wps_is_runtime_free X H K w : inv H K w -> (w.(w_borrow) <> 0 -> X "RefCell already borrowed") ->
  wps X is_runtime_free (fun b w' => inv H K w' /\ w'.(w_heap) = w.(w_heap) /\
    b = bool_decide (w.(w_heap) = ∅) /\ w'.(RUNTIME_FREE_LIST) = [] /\ same_io w w') w.
Proof.
  intros Hi Hb. unfold is_runtime_free. apply wps_with_borrow_mut; [done|]. intros Hb0. apply wps_bind.
  eapply wps_mono; [by apply wps_free_unsed_slab_slot, inv_borrow|]. intros [] w1 (Hi1 & Hh & Hf & []).
  apply wps_bind, wps_gets, wps_ret. split; [by apply inv_borrow|]. split; [done|].
  unfold count. rewrite (inv_count_zero _ _ _ Hi1 Hf). by rewrite Hh.
Qed.

Lemma wp_is_runtime_free H K w : inv H K w ->
  wp is_runtime_free (fun b w' => inv H K w' /\ w'.(w_heap) = w.(w_heap) /\
    b = bool_decide (w.(w_heap) = ∅) /\ w'.(RUNTIME_FREE_LIST) = []) w.
Proof.
  intros Hi. apply (wps_mono (fun _ => True) _ _ _ _ (wps_is_runtime_free (fun _ => True) H K w Hi (fun _ => Logic.I))).
  intros b w' (H1 & H2 & H3 & H4 & _). done.
Qed.
End Reclaim.

(** When nothing is alive, nothing is in flight. *)
Lemma inv_empty H K w : inv H K w -> w.(w_heap) = ∅ -> K = [] /\ w.(w_rt).(pending) = [] /\ H = [].
Proof.
  intros Hi He.
  assert (Hno : forall i p, slot_live w i p -> False).
  { intros i p Hl. destruct (iv_slot _ _ _ Hi _ _ Hl) as (r & Hr & _). by rewrite He in Hr. }
  assert (Hent : K ++ pending (w_rt w) = []).
  { destruct (K ++ pending (w_rt w)) as [|e es] eqn:E; [done|].
    destruct (iv_entries _ _ _ Hi e) as (_ & p & Hp); [rewrite E; by left|]. by apply Hno in Hp. }
  apply app_eq_nil in Hent as [-> Hp]. split; [done|]. split; [done|].
  destruct H as [|h H]; [done|]. exfalso. eapply Hno, (iv_handles _ _ _ Hi h). by left.
Qed.

(** A live task without handles has an entry in flight or queued. *)
Lemma inv_awaited K w p r : inv [] K w -> w.(w_heap) !! p = Some r ->
  exists e, e ∈ K ++ w.(w_rt).(pending) /\ r.(rt_slab_idx) = Some (entry_task_idx e).
Proof.
  intros Hi Hr. destruct (iv_live _ _ _ Hi _ _ Hr) as (_ & i & _ & [Hx Hrc Hpos _ _]).
  rewrite held_nil, Z.add_0_r in Hrc. unfold refs in Hrc.
  destruct (count_if_pos (fun e => entry_task_idx e =? i) (K ++ pending (w_rt w))) as (e & He & Hei); [lia|].
  exists e. apply Z.eqb_eq in Hei. by rewrite Hei.
Qed.

(** ** The kernel's contract

    [delivers K cs K']: with the entries [K] in flight, the completions [cs] may
    arrive in this order, and leave [K'] in flight.  Each carries the
    [user_data] of an entry in flight; it ends that entry unless its flags
    announce more.  Results and flags are arbitrary. *)
Inductive delivers `{CqueueFlags} : list Entry -> list Cqe -> list Entry -> Prop :=
| delivers_nil K : delivers K [] K
| delivers_last K1 e K2 c cs K' :
    c.(cqe_user_data) = e.(e_user_data) -> more c.(cqe_flags) = false ->
    delivers (K1 ++ K2) cs K' -> delivers (K1 ++ e :: K2) (c :: cs) K'
| delivers_more K1 e K2 c cs K' :
    c.(cqe_user_data) = e.(e_user_data) -> more c.(cqe_flags) = true ->
    delivers (K1 ++ e :: K2) cs K' -> delivers (K1 ++ e :: K2) (c :: cs) K'.

Section Loop.
Context {prof : Profile} {flags : CqueueFlags} {al : Allocator} {fl : FutLayout Fut} {sm : SlabMemory}.

(** The answers [steps] are valid for the loop started in [w] with [K] in
    flight: each batch only completes entries submitted before it.  [Kend] is
    what is in flight once they are used up and the loop still waits. *)
Fixpoint valid_kernel (K : list Entry) (steps : list KernelStep) (w : World) (Kend : list Entry) : Prop :=
  match steps with
  | [] => K = Kend
  | KernelError _ :: _ => True
  | KernelBatch cs :: steps' =>
      exists K', delivers (K ++ w.(w_rt).(pending)) cs K' /\
        forall w', block_on_turn (KernelBatch cs) w = Ok (None, w') -> valid_kernel K' steps' w' Kend
  end.

(** The same from the call of [block_on]. *)
Definition valid_run (future : Prog) (steps : list KernelStep) (w : World) (Kend : list Entry) : Prop :=
  forall w', (spawn future ;;! is_runtime_free) w = Ok (false, w') -> valid_kernel [] steps w' Kend.

Context {al_laws : AllocatorLaws} {sm_laws : SlabMemoryLaws}.

Lemma wp_clone_task H K i p w : inv H K w -> slot_live w i p ->
  wp (clone_task i) (fun q w' => q = p /\ inv ((i, p) :: H) K w' /\ same_current w w' ) w.
Proof.
  intros Hi Hl. unfold clone_task. apply wp_with_borrow_mut, wp_bind.
  eapply wp_task_at; [by apply inv_borrow|done|]. unfold Task_clone.
  assert (E : forall Q : Z -> World -> Prop, wp (zoom heap_lens (inc_rc p)) (fun _ w' => Q p w') (set_w_borrow (-1) w) ->
    wp (zoom heap_lens (inc_rc p ;;! ret p)) Q (set_w_borrow (-1) w)).
  { intros Q. unfold wp, zoom, bind. by destruct (inc_rc p _) as [[[] h]|?|?]. }
  apply E. eapply wp_inc_rc; [by apply (inv_borrow _ _ _ (-1))|done|].
  intros h' Hh _. split; [done|]. split; [by apply inv_borrow|done].
Qed.

Lemma wp_poll_task H K i p w t : inv H K w -> (i, p) ∈ H -> wf_info t -> t.(ti_tag).(task_idx) = i ->
  wp (modify (set_current t) ;;! task_poll p ;;! ret tt) (fun _ w' => inv H K w') w.
Proof.
  intros Hi Hp Ht Hti. apply wp_bind, wp_modify, wp_bind.
  assert (Hw : running H K i (set_current t w)).
  { split; [by apply inv_set_current|done|done|by exists p]. }
  eapply wp_mono; [by apply (wp_task_poll_with run H K i p _ (fun prog w' Hok => wp_run K prog H i w' Hok) Hw)|].
  intros o w' Hw'. apply wp_ret, Hw'.
Qed.

(** A completion of an entry in flight. *)
Lemma wp_handle_cqe_entry K K' c e K1 K2 w :
  K = K1 ++ e :: K2 -> c.(cqe_user_data) = e.(e_user_data) ->
  K' = (if more c.(cqe_flags) then K else K1 ++ K2) ->
  inv [] K w -> wp (handle_cqe_entry c) (fun _ w' => inv [] K' w') w.
Proof.
  intros -> Hud -> Hi. destruct (iv_entries _ _ _ Hi e) as (Hfit & p & Hl); [set_solver|].
  set (i := entry_task_idx e) in *. assert (Hidx : task_idx (ti_tag (info_from_entry c)) = i).
  { unfold info_from_entry, payload_from_entry. simpl. by rewrite Hud. }
  assert (Hinfo : wf_info (info_from_entry c)).
  { unfold info_from_entry, payload_from_entry. rewrite Hud.
    apply (into_from_user_data _ Hfit). }
  assert (Hown : exists H, inv H (if more c.(cqe_flags) then K1 ++ e :: K2 else K1 ++ K2) w /\
                   slot_live w i p /\ H = if more c.(cqe_flags) then [] else [(i, p)]).
  { destruct (more _); [by eexists|]. destruct (inv_take_entry _ _ _ _ _ Hi) as (p' & Hl' & Hi').
    assert (p' = p) as -> by by eapply slot_live_fun. by eexists. }
  clear Hi. destruct Hown as (H & Hi & _ & HH). set (K' := if more _ then _ else _) in *.
  unfold handle_cqe_entry. cbv zeta. rewrite Hidx. apply wp_bind.
  eapply wp_mono; [by eapply wp_clone_task|]. intros q w1 (-> & Hi1 & _).
  assert (Hl1 : slot_live w1 i p) by (apply (iv_handles _ _ _ Hi1 (i, p)); by left).
  destruct (inv_find _ _ _ _ _ Hi1 Hl1) as (_ & r & Hr & Hok).
  apply wp_bind. eapply wp_heap.
  { unfold evaluate_syscall_nb, get_syscall_nb. erewrite bind_step; [done|].
    by rewrite (bind_step _ _ _ _ _ (load_ok _ _ _ Hr)). }
  rewrite set_w_heap_id. apply wp_bind.
  eapply (wp_mono _ (fun _ w' => inv ((i, p) :: H) K' w')).
  - destruct (compare_syscall_nb _ _).
    + by apply wp_ret.
    + apply wp_bind.
      eapply (wp_mono _ (fun nb w' => fits 16 nb /\ w' = w1)).
      { destruct Hinfo as (_ & _ & Hnb). cbn [payload_of_info pl_syscall_nb] in Hnb. unfold add_w, fits in *.
        destruct (Z.ltb_spec (syscall_nb (ti_tag (info_from_entry c)) + 1) (2 ^ 16)); [apply wp_ret; split; [lia|done]|].
        destruct debug_checks; [done|]. apply wp_ret. split; [apply wrap_bound; lia|done]. }
      intros nb w' [Hnb ->]. apply wp_bind. eapply wp_augmente; [done|done|]. intros h' Hi2.
      eapply wp_poll_task; [done|by left| |done]. destruct Hinfo as (Ha & Hb & _).
      cbn [payload_of_info pl_task_idx] in Ha. rewrite Hidx in Ha. split; [done|by split].
    + eapply wp_poll_task; [done|by left|done|done].
    + done.
  - intros [] w2 Hi2. apply wp_bind. subst H K'.
    eapply (wp_mono _ (fun _ w' => inv [(i, p)] (if more (cqe_flags c) then K1 ++ e :: K2 else K1 ++ K2) w')).
    + destruct (more _); [by apply wp_ret|]. apply wp_bind.
      eapply wp_mono; [by eapply wp_release|]. intros o w3 [Hi3 _]. by apply wp_ret.
    + intros [] w3 Hi3. eapply wp_mono; [by eapply wp_Task_drop|]. by intros [] w4 [Hi4 _].
Qed.

Lemma wp_batch K cs K' w : delivers K cs K' -> inv [] K w ->
  wp (for_each cs handle_cqe_entry) (fun _ w' => inv [] K' w') w.
Proof.
  intros Hd. revert w. induction Hd as [K|K1 e K2 c cs K' Hu Hm Hd IH|K1 e K2 c cs K' Hu Hm Hd IH];
    intros w Hi; cbn [for_each]; [by apply wp_ret|..].
  all: apply wp_bind; eapply wp_mono; [eapply wp_handle_cqe_entry; [done|done|by rewrite Hm|done]|].
  all: intros [] w' Hi'; by apply IH.
Qed.

(** What holds when the loop stops or waits. *)
Definition loop_post (Kend : list Entry) (b : BlockOn) (w : World) : Prop :=
  match b with
  | Returned => (w.(w_heap) = ∅ /\ w.(w_rt).(tasks).(task_count) = 0 /\ w.(w_rt).(pending) = [] /\
      w.(RUNTIME_FREE_LIST) = []) /\ inv [] [] w
  | Waiting => w.(w_heap) <> ∅ /\ inv [] Kend w
  | IoError _ => w.(RUNTIME_FREE_LIST) = [] /\ exists K, inv [] K w
  end.

Lemma returned_post K Kend w : inv [] K w -> w.(RUNTIME_FREE_LIST) = [] -> w.(w_heap) = ∅ ->
  loop_post Kend Returned w.
Proof.
  intros Hi Hf He. destruct (inv_empty _ _ _ Hi He) as (-> & Hp & _). split; [|done]. split; [done|]. split; [|done].
  apply Z.eqb_eq. rewrite (inv_count_zero _ _ _ Hi Hf). by apply bool_decide_eq_true.
Qed.

Lemma wp_turn_error K Kend errno w : inv [] K w -> w.(RUNTIME_FREE_LIST) = [] ->
  wp (block_on_turn (KernelError errno)) (fun r w' => exists b, r = Some b /\ loop_post Kend b w') w.
Proof.
  intros Hi Hf. unfold block_on_turn. apply wp_bind, wp_with_borrow_mut.
  unfold submit_and_wait. apply wp_bind, wp_gets, wp_bind, wp_assert. intros _.
  apply wp_bind, wp_modify, wp_ret, wp_ret. eexists. split; [done|]. split; [done|].
  exists (K ++ w.(w_rt).(pending)).
  by apply inv_borrow, (inv_submit _ _ (set_w_borrow (-1) w)), inv_borrow.
Qed.

Lemma wp_turn_batch K cs K' Kend w :
  inv [] K w -> w.(w_heap) <> ∅ -> delivers (K ++ w.(w_rt).(pending)) cs K' ->
  wp (block_on_turn (KernelBatch cs)) (fun r w' =>
    match r with
    | Some b => loop_post Kend b w'
    | None => w'.(w_heap) <> ∅ /\ w'.(RUNTIME_FREE_LIST) = [] /\ inv [] K' w'
    end) w.
Proof.
  intros Hi Hne Hd. unfold block_on_turn. apply wp_bind, wp_with_borrow_mut.
  unfold submit_and_wait. apply wp_bind, wp_gets, wp_bind, wp_assert. intros _.
  apply wp_bind, wp_modify, wp_ret. set (w1 := set_w_borrow 0 _).
  assert (Hi1 : inv [] (K ++ w.(w_rt).(pending)) w1).
  { by apply inv_borrow, (inv_submit _ _ (set_w_borrow (-1) w)), inv_borrow. }
  apply wp_bind. eapply wp_mono; [by apply wp_is_runtime_free|]. intros free w2 (Hi2 & Hh2 & -> & Hf2).
  rewrite bool_decide_eq_false_2 by done. apply wp_bind. destruct (Nat.eqb _ _); [done|].
  apply wp_ret, wp_bind. eapply wp_mono; [by eapply wp_batch|]. intros [] w3 Hi3.
  apply wp_bind, wp_gets, wp_bind. rewrite (iv_wake _ _ _ Hi3). apply wp_ret, wp_bind.
  eapply wp_mono; [by apply wp_is_runtime_free|]. intros free w4 (Hi4 & Hh4 & -> & Hf4). apply wp_ret.
  case_bool_decide as He; [|by rewrite Hh4]. eapply returned_post; [done|done|]. by rewrite Hh4.
Qed.

Lemma wp_loop steps K Kend w : inv [] K w -> w.(w_heap) <> ∅ -> w.(RUNTIME_FREE_LIST) = [] ->
  valid_kernel K steps w Kend ->
  wp (block_on_loop steps) (loop_post Kend) w.
Proof.
  revert K w. induction steps as [|step steps IH]; intros K w Hi Hne Hf Hv; cbn [block_on_loop].
  - apply wp_ret. split; [done|]. by rewrite <- Hv.
  - apply wp_bind. destruct step as [errno|cs].
    + eapply wp_mono; [by eapply wp_turn_error|]. intros r w' (b & -> & Hb). by apply wp_ret.
    + destruct Hv as (K' & Hd & Hv). pose proof (wp_turn_batch K cs K' Kend w Hi Hne Hd) as Ht.
      unfold wp at 1 in Ht. unfold wp at 1.
      destruct (block_on_turn (KernelBatch cs) w) as [[[b|] w']|?|?]; try done.
      apply (IH K'); [apply Ht..|by apply Hv].
Qed.

Lemma wp_block_on future steps Kend w : inv [] [] w -> prog_ok future -> valid_run future steps w Kend ->
  wp (block_on future steps) (loop_post Kend) w.
Proof.
  intros Hi Hok Hv. unfold block_on. apply wp_bind.
  pose proof (wp_spawn_with run [] [] w future (wp_run []) Hi Hok) as Hs.
  unfold valid_run, bind at 1 in Hv. fold (spawn future) in Hs.
  unfold wp at 1 in Hs. unfold wp at 1. destruct (spawn future w) as [[[] w1]|?|?]; try done.
  destruct Hs as [Hi1 _]. pose proof (wp_is_runtime_free _ _ _ Hi1) as Hf.
  apply wp_bind. unfold wp at 1 in Hf. unfold wp at 1.
  destruct (is_runtime_free w1) as [[free w2]|?|?]; try done. destruct Hf as (Hi2 & Hh & -> & Hf2).
  case_bool_decide as He.
  - apply wp_ret. eapply returned_post; [done|done|]. by rewrite Hh.
  - apply (wp_loop steps [] Kend); [done|by rewrite Hh|done|by apply Hv].
Qed.
End Loop.

(** ** The initial state *)
Section Start.
Context {prof : Profile} {sm : SlabMemory}.

(** [BufPool::new] returned an address whose block lies in the address space. *)
Definition pool_block (base : Z) : Prop := 0 <= base /\ base + 1024 * BUF_SIZE 1 <= 2 ^ 64.

Lemma initial_world_inv base : pool_block base ->
  wp (initial_world (Some base)) (fun w _ => inv [] [] w /\ w.(w_heap) = ∅ /\ w.(w_borrow) = 0) tt.
Proof.
  intros [Hb0 Hb1]. unfold initial_world, BufPool_new.
  apply wp_bind, wp_bind, wp_assert. intros _. apply wp_bind, wp_add_w; [done|].
  apply wp_bind, wp_assert. intros _. apply wp_bind, wp_ret, wp_ret. cbv zeta.
  set (pool := mkBufPool _ _ _ _ _).
  destruct (init_ring pool tt) as (mem & E & Hwf & _); [by exists 9|done|exact Hb1|].
  apply wp_bind. unfold wp at 1. rewrite E.
  apply wp_bind. unfold with_capacity. apply wp_bind, wp_assert. intros _. apply wp_ret, wp_ret.
  pose proof (link_slab_inv 16 ltac:(lia)) as Hs.
  clear E. split; [|split; reflexivity]. split.
  - by eexists.
  - intros p r Hp. cbn [w_heap] in Hp. by rewrite lookup_empty in Hp.
  - intros i p [Hl _]. exfalso. cbn [w_rt tasks] in Hl. pose proof (slab_lookup_range _ _ _ _ Hs Hl) as Hr.
    rewrite (slab_lookup_not_free _ _ i Hs) in Hl; [discriminate|]. rewrite elem_of_seqZ. simpl in Hr. lia.
  - split; [constructor|]. intros i Hi. by apply not_elem_of_nil in Hi.
  - intros e He. by apply not_elem_of_nil in He.
  - intros h Hh. by apply not_elem_of_nil in Hh.
  - reflexivity.
  - exact Hwf.
Qed.
End Start.

(** ** Deciding whether the kernel's answers are valid *)
Section Decide.
Context {prof : Profile} {flags : CqueueFlags} {al : Allocator} {fl : FutLayout Fut} {sm : SlabMemory}.

Fixpoint remove_entry (ud : Z) (K : list Entry) : option (Entry * list Entry) :=
  match K with
  | [] => None
  | e :: K' =>
      if e.(e_user_data) =? ud then Some (e, K')
      else match remove_entry ud K' with Some (e', K'') => Some (e', e :: K'') | None => None end
  end.

Fixpoint deliver (K : list Entry) (cs : list Cqe) : option (list Entry) :=
  match cs with
  | [] => Some K
  | c :: cs' =>
      match remove_entry c.(cqe_user_data) K with
      | Some (_, K') => deliver (if more c.(cqe_flags) then K else K') cs'
      | None => None
      end
  end.

Lemma remove_entry_split ud K e K' : remove_entry ud K = Some (e, K') ->
  exists K1 K2, K = K1 ++ e :: K2 /\ K' = K1 ++ K2 /\ e.(e_user_data) = ud.
Proof.
  revert e K'. induction K as [|e0 K IH]; intros e K'; [done|]. simpl.
  destruct (Z.eqb_spec (e_user_data e0) ud) as [He|_]; [intros [= <- <-]; by exists [], K|].
  destruct (remove_entry ud K) as [[e1 K1]|]; [|done]. intros [= <- <-].
  destruct (IH _ _ eq_refl) as (L1 & L2 & -> & -> & ?). by exists (e0 :: L1), L2.
Qed.

Lemma deliver_sound cs K K' : deliver K cs = Some K' -> delivers K cs K'.
Proof.
  revert K. induction cs as [|c cs IH]; intros K; simpl; [intros [= ->]; constructor|].
  destruct (remove_entry _ K) as [[e K1]|] eqn:E; [|done].
  apply remove_entry_split in E as (L1 & L2 & -> & -> & Hu).
  destruct (more (cqe_flags c)) eqn:Hm; intros Hd.
  - by apply delivers_more; [|done|apply IH].
  - by apply delivers_last; [|done|apply IH].
Qed.

(** What is in flight at the end, when the answers are valid. *)
Fixpoint check_kernel (K : list Entry) (steps : list KernelStep) (w : World) : option (list Entry) :=
  match steps with
  | [] => Some K
  | KernelError _ :: _ => Some []
  | KernelBatch cs :: steps' =>
      match deliver (K ++ w.(w_rt).(pending)) cs with
      | Some K' =>
          match block_on_turn (KernelBatch cs) w with
          | Ok (None, w') => check_kernel K' steps' w'
          | _ => Some []
          end
      | None => None
      end
  end.

Definition check_run (future : Prog) (steps : list KernelStep) (w : World) : option (list Entry) :=
  match (spawn future ;;! is_runtime_free) w with
  | Ok (false, w') => check_kernel [] steps w'
  | _ => Some []
  end.

Lemma check_kernel_sound steps K w Kend : check_kernel K steps w = Some Kend -> valid_kernel K steps w Kend.
Proof.
  revert K w. induction steps as [|[errno|cs] steps IH]; intros K w; [by intros [= ->]|done|].
  cbn [check_kernel valid_kernel].
  destruct (deliver _ cs) as [K'|] eqn:Hd; [|done]. intros Hc. exists K'.
  split; [by apply deliver_sound|]. intros w' E. rewrite E in Hc. by apply IH.
Qed.

Lemma check_run_sound future steps w Kend : check_run future steps w = Some Kend -> valid_run future steps w Kend.
Proof. unfold check_run, valid_run. intros Hc w' E. rewrite E in Hc. by apply check_kernel_sound. Qed.
End Decide.
