(* ===== verification/Concrete.v ===== *)
(** * Concrete surroundings

    An allocator, a future layout, a slab memory and the Linux flag bits, with
    proofs that they satisfy the laws the development assumes; the witnesses and
    the scenarios run the model in them. *)

From S2P Require Import Prelude UserData Io Task Slab BufPool BufRing Futures Runtime Calls Executor.

#[export] Existing Instance dev_profile.
#[export] Existing Instance linux_flags.

(** The first aligned address above every address in use. *)
Definition above (live : gset Z) : Z := (foldr Z.max 0 (elements live) / 32 + 1) * 32.

#[export] Instance bump_allocator : Allocator := {|
  alloc_at live layout := if above live <? 2 ^ 64 then Some (above live) else None;
|}.

Lemma foldr_max_ge l x : x ∈ l -> x <= foldr Z.max 0 l.
Proof. induction 1; simpl; lia. Qed.

Lemma foldr_max_nonneg l : 0 <= foldr Z.max 0 l.
Proof. induction l; simpl; lia. Qed.

Lemma above_gt live p : p ∈ live -> p < above live.
Proof.
  intros Hp%elem_of_elements%foldr_max_ge. unfold above.
  pose proof (Z.div_mod (foldr Z.max 0 (elements live)) 32 ltac:(lia)).
  pose proof (Z.mod_pos_bound (foldr Z.max 0 (elements live)) 32 ltac:(lia)). lia.
Qed.

#[export] Instance bump_allocator_laws : AllocatorLaws.
Proof.
  split; simpl; intros live ? p; destruct (Z.ltb_spec (above live) (2 ^ 64)); try done; intros [= <-].
  - intros Hin%above_gt. lia.
  - unfold above. apply Z.mod_mul. done.
  - unfold above in *. pose proof (foldr_max_nonneg (elements live)).
    pose proof (Z.div_pos (foldr Z.max 0 (elements live)) 32). lia.
Qed.

#[export] Instance small_futures : FutLayout Fut := {| size_of _ := 64; align_of _ := 8 |}.

#[export] Instance slab_memory : SlabMemory := {| realloc_ok size := size <? 8 * 2 ^ 31 |}.
#[export] Instance slab_memory_laws : SlabMemoryLaws.
Proof. split. intros size Hs%Z.ltb_lt. lia. Qed.

(** ** The initial state, in closed form *)

(** The sixteen bytes of one initialised ring entry. *)
Definition entry_bytes (v : iovec) (i : Z) : list Z :=
  le_bytes 8 v.(iov_base) ++ le_bytes 4 (as_u32 v.(iov_len)) ++ le_bytes 2 (as_u16 i) ++ [0; 0].

Lemma wr_at n A B C v off : off = Z.of_nat (length A) -> length B = n ->
  wr n off v (A ++ B ++ C) = Ok (tt, A ++ le_bytes n v ++ C).
Proof.
  intros -> <-. unfold wr. rewrite !length_app. rewrite (proj2 (Z.leb_le _ _)), (proj2 (Z.leb_le _ _)) by lia.
  cbn [andb]. rewrite Nat2Z.id, take_app_length. do 3 f_equal. rewrite <- drop_drop, drop_app_length.
  by rewrite drop_app_length.
Qed.

Lemma init_entry_at iovecs v i A C : zlookup iovecs i = Some v -> Z.of_nat (length A) = i * 16 ->
  init_entry iovecs i (A ++ replicate 16 0 ++ C) = Ok (tt, A ++ entry_bytes v i ++ C).
Proof.
  intros Hv HA. unfold init_entry. rewrite Hv. unfold entry_bytes.
  change (replicate 16 0) with (replicate 8 0 ++ replicate 4 0 ++ replicate 2 0 ++ [0; 0] : list Z).
  rewrite <- !app_assoc. rewrite (bind_step _ _ _ _ _ (wr_at 8 A (replicate 8 0) _ _ _ (eq_sym HA) eq_refl)).
  rewrite (app_assoc A). erewrite bind_step; [|apply wr_at; [rewrite length_app, length_le_bytes; lia|done]].
  rewrite (app_assoc (A ++ _)). rewrite wr_at; [by rewrite <- !app_assoc| |done].
  rewrite !length_app, !length_le_bytes. lia.
Qed.

Lemma init_entries iovecs vs : forall i A, Z.of_nat (length A) = i * 16 ->
  (forall k v, vs !! k = Some v -> zlookup iovecs (i + Z.of_nat k) = Some v) ->
  for_each (seqZ i (Z.of_nat (length vs))) (init_entry iovecs) (A ++ replicate (length vs * 16) 0) =
    Ok (tt, A ++ concat (zip_with entry_bytes vs (seqZ i (Z.of_nat (length vs))))).
Proof.
  induction vs as [|v vs IH]; intros i A HA Hvs; [done|].
  rewrite seqZ_cons by (simpl; lia). cbn [for_each zip_with concat].
  replace (Z.pred (Z.of_nat (length (v :: vs)))) with (Z.of_nat (length vs)) by (simpl; lia).
  replace (length (v :: vs) * 16)%nat with (16 + length vs * 16)%nat by (simpl; lia). rewrite replicate_add.
  rewrite (bind_step _ _ _ tt (A ++ entry_bytes v i ++ replicate (length vs * 16) 0)).
  - rewrite (app_assoc A (entry_bytes v i)), (IH (Z.succ i) (A ++ entry_bytes v i)).
    + by rewrite <- app_assoc.
    + rewrite length_app. unfold entry_bytes. rewrite !length_app, !length_le_bytes. simpl. lia.
    + intros k v' Hk. rewrite <- (Hvs (S k) v' Hk). f_equal. lia.
  - apply init_entry_at; [|done]. rewrite <- (Hvs 0%nat v eq_refl). f_equal. lia.
Qed.

Definition pool_base : Z := 4096.

Definition start_pool : BufPool :=
  mkBufPool pool_base (1024 * 4096, 4096) 512 (seqZ 512 512) (replicate 512 0).

(** The ring: 512 entries, the tail in the last two bytes of entry 0. *)
Definition start_ring : list Z :=
  let v i := mkIovec (pool_base + i * 4096) 4096 in
  take 14 (entry_bytes (v 0) 0) ++ le_bytes 2 512 ++
  concat (zip_with entry_bytes (v <$> seqZ 1 511) (seqZ 1 511)).

Definition start : World :=
  mkWorld ∅ (mkRuntime (mkSlab (link_slots 0 16) 0 16 0) [] start_pool [] start_ring) 0 TaskInfo_dummy [] [].

Lemma start_ring_eq : init_buf_ring (build_iovecs 1 start_pool) 512 tt = Ok (start_ring, tt).
Proof.
  set (v i := mkIovec (pool_base + i * 4096) 4096).
  set (vs := v <$> seqZ 0 512).
  assert (Hlen : length vs = 512%nat) by (unfold vs; by rewrite length_fmap, length_seqZ).
  assert (E := init_entries (build_iovecs 1 start_pool) vs 0 [] eq_refl).
  rewrite Hlen in E. cbn [app] in E. change (Z.of_nat 512) with 512 in E.
  unfold init_buf_ring. change (Z.to_nat (512 * 16)) with (512 * 16)%nat.
  erewrite bind_step; [|apply E].
  - change vs with (v 0 :: (v <$> seqZ 1 511)). change (seqZ 0 512) with (0 :: seqZ 1 511).
    cbn [zip_with concat]. rewrite <- (take_drop 14 (entry_bytes (v 0) 0)) at 1.
    change (drop 14 (entry_bytes (v 0) 0)) with [0; 0]. rewrite <- app_assoc, wr_at; [|reflexivity|reflexivity].
    reflexivity.
  - intros k x Hk. apply list_lookup_fmap_Some in Hk as (j & -> & [-> Hj]%lookup_seqZ).
    rewrite zlookup_iovecs; [|unfold start_pool; cbn [read_count write_rc]; rewrite length_replicate; lia].
    reflexivity.
Qed.

(** The build profile makes no difference. *)
Lemma initial_world_in (prof : Profile) : initial_world (Some pool_base) tt = Ok (start, tt).
Proof.
  unfold initial_world.
  assert (E : BufPool_new 1 (Some pool_base) 512 512 tt = Ok (start_pool, tt)) by reflexivity.
  rewrite (bind_step _ _ _ _ _ E). cbv zeta. change (read_count start_pool) with 512.
  rewrite (bind_step _ _ _ _ _ start_ring_eq). reflexivity.
Qed.

Lemma initial_world_start : initial_world (Some pool_base) tt = Ok (start, tt).
Proof. apply initial_world_in. Qed.

(** Completions. *)
Definition ud (idx gen nb : Z) : Z := into_user_data (mkPayload idx gen nb).
Definition done_cqe (user_data result : Z) : Cqe := mkCqe user_data result 0.
(** Flag bit 0 announces a buffer, whose id is in the upper half. *)
Definition buffer_cqe (user_data result bid : Z) : Cqe := mkCqe user_data result (1 + Z.shiftl bid 16).
Definition buffer_cqe_more (user_data result bid : Z) : Cqe := mkCqe user_data result (3 + Z.shiftl bid 16).
