(* ===== verification/EventLoop.v ===== *)
(** * What [block_on] guarantees

    The safety and accounting theorems of the event loop, for every body whose
    writes go through the futures ([prog_ok]) and every kernel that only
    completes entries it was given. *)

From S2P Require Import Prelude UserData Io Task Slab BufPool BufRing Futures Runtime Calls Executor Quiet Invariant Polls Lifetime Safety Concrete.

Section EventLoop.
Context {prof : Profile} {flags : CqueueFlags} {al : Allocator} {fl : FutLayout Fut} {sm : SlabMemory}.
Context {al_laws : AllocatorLaws} {sm_laws : SlabMemoryLaws}.

Lemma initial_world_unfold raw : initial_world raw =
  (let! pool := BufPool_new 1 raw 512 512 in
   let! mem := init_buf_ring (build_iovecs 1 pool) pool.(read_count) in
   let! slab := with_capacity 16 in
   ret (mkWorld ∅ (mkRuntime slab [] pool [] mem) 0 TaskInfo_dummy [] [])).
Proof. reflexivity. Qed.

(** A fresh runtime has no task and nothing to submit. *)
Lemma initial_world_bare raw w0 : initial_world raw tt = Ok (w0, tt) ->
  w0.(w_heap) = ∅ /\ w0.(w_rt).(ring_submitted) = [] /\ w0.(w_rt).(pending) = [].
Proof.
  rewrite initial_world_unfold. intros E. apply bind_Ok in E as (pool & [] & _ & E).
  apply bind_Ok in E as (mem & [] & _ & E). apply bind_Ok in E as (slab & [] & _ & E).
  injection E as <-. split; [reflexivity|]. split; reflexivity.
Qed.

Lemma loop_from_start base w0 future steps Kend :
  pool_block base -> initial_world (Some base) tt = Ok (w0, tt) -> prog_ok future ->
  valid_run future steps w0 Kend -> wp (block_on future steps) (loop_post Kend) w0.
Proof.
  intros Hb Hw0 Hok Hv. destruct (wp_Ok _ _ _ _ _ (initial_world_inv base Hb) Hw0) as [Hi _].
  by apply wp_block_on.
Qed.

(** C2: the memory safety of [block_on], from a fresh runtime, whatever results,
    flags and order the completions have, in every build profile, for bodies that
    satisfy [prog_ok]: they do not call [WBuffer::submit] (its completion is
    dispatched to a stranger) and fan out to fewer than 2^16 descriptors.  The only
    undefined access such a run can perform is the one that each last [release]
    makes when it reads the counter of the header it has just freed, under a
    profile that counts this read as undefined; no other freed header, no vacated
    or foreign slab slot and no byte outside of the buffer ring is touched, and
    nothing is freed twice. *)
Theorem block_on_safe base w0 future steps Kend what :
  pool_block base -> initial_world (Some base) tt = Ok (w0, tt) -> prog_ok future ->
  valid_run future steps w0 Kend -> block_on future steps w0 = Ub what ->
  freed_counter = None /\ what = freed_read.
Proof. intros Hb Hw0 Hok Hv. eapply wp_Ub. by eapply loop_from_start. Qed.

(** C8: for bodies that satisfy [prog_ok] (no [WBuffer::submit], fan-outs to fewer
    than 2^16 descriptors), when [block_on] returns normally every task has been
    freed: the heap of task headers is empty, the slab counts no task, no slot waits to be
    reclaimed and no entry is queued. *)
Theorem block_on_returned_clean base w0 future steps Kend w :
  pool_block base -> initial_world (Some base) tt = Ok (w0, tt) -> prog_ok future ->
  valid_run future steps w0 Kend -> block_on future steps w0 = Ok (Returned, w) ->
  w.(w_heap) = ∅ /\ w.(w_rt).(tasks).(task_count) = 0 /\ w.(w_rt).(pending) = [] /\
  w.(RUNTIME_FREE_LIST) = [].
Proof.
  intros Hb Hw0 Hok Hv E. exact (proj1 (wp_Ok _ _ _ _ _ (loop_from_start _ _ _ _ _ Hb Hw0 Hok Hv) E)).
Qed.

(** C7: for bodies that satisfy [prog_ok] (no [WBuffer::submit], fan-outs to fewer
    than 2^16 descriptors), whenever the loop waits for the kernel, the reference counter of every
    live task is exactly the number of its entries in flight or queued, and the
    slab slot the header names is the one that points to it. *)
Theorem ref_counter_exact base w0 future steps Kend w p r :
  pool_block base -> initial_world (Some base) tt = Ok (w0, tt) -> prog_ok future ->
  valid_run future steps w0 Kend -> block_on future steps w0 = Ok (Waiting, w) ->
  w.(w_heap) !! p = Some r ->
  exists i, r.(rt_slab_idx) = Some i /\ slab_lookup w.(w_rt).(tasks) i = Some p /\
    r.(rt_ref_counter) = count_if (fun e => entry_task_idx e =? i) (Kend ++ w.(w_rt).(pending)).
Proof.
  intros Hb Hw0 Hok Hv E Hr.
  destruct (wp_Ok _ _ _ _ _ (loop_from_start _ _ _ _ _ Hb Hw0 Hok Hv) E) as [_ Hi].
  destruct (iv_live _ _ _ Hi _ _ Hr) as (_ & i & [Hs _] & [Hx Hrc _ _ _]).
  exists i. split_and!; [done|done|]. by rewrite Hrc, held_nil, Z.add_0_r.
Qed.

(** C9: for bodies that satisfy [prog_ok] (no [WBuffer::submit], fan-outs to fewer
    than 2^16 descriptors), the loop never waits in vain: whenever it waits, some task is alive, and
    every live task has an entry in flight or queued whose completion will be
    dispatched to it. *)
Theorem waiting_task_has_entry base w0 future steps Kend w :
  pool_block base -> initial_world (Some base) tt = Ok (w0, tt) -> prog_ok future ->
  valid_run future steps w0 Kend -> block_on future steps w0 = Ok (Waiting, w) ->
  Kend ++ w.(w_rt).(pending) <> [] /\
  forall p r, w.(w_heap) !! p = Some r ->
    exists e, e ∈ Kend ++ w.(w_rt).(pending) /\ r.(rt_slab_idx) = Some (entry_task_idx e).
Proof.
  intros Hb Hw0 Hok Hv E.
  destruct (wp_Ok _ _ _ _ _ (loop_from_start _ _ _ _ _ Hb Hw0 Hok Hv) E) as [Hne Hi].
  assert (Ha : forall p r, w_heap w !! p = Some r -> exists e, e ∈ Kend ++ pending (w_rt w) /\
     rt_slab_idx r = Some (entry_task_idx e)) by (intros p r; by apply inv_awaited).
  split; [|done]. intros Hnil. destruct (map_choose _ Hne) as (p & r & Hr).
  destruct (Ha p r Hr) as (e & He & _). rewrite Hnil in He. by apply not_elem_of_nil in He.
Qed.
End EventLoop.

(** ** Concrete runs *)
Module EventLoopExamples.

(** A task accepts one connection and spawns a task that reads from it and
    drops the buffer. *)
Definition reader (fd : Z) : Prog :=
  Await (read fd) [] (fun r => match r with inl b => DropRes (ResRw b) Return | inr _ => Return end).
Definition server : Prog :=
  Await (accept 3) [] (fun r => match r with inl fd => Spawn (reader fd) Return | inr _ => Return end).

Definition batches : list KernelStep :=
  [KernelBatch [done_cqe (ud 0 65535 0) 7]; KernelBatch [buffer_cqe (ud 1 65535 0) 20 5]].

Lemma server_ok : prog_ok server.
Proof. split; [done|]. intros [fd|e]; [|done]. split; [|done]. split; [done|]. by intros [b|e]. Qed.

Lemma pool_base_block : pool_block pool_base.
Proof. unfold pool_block, pool_base. split; [lia|by vm_compute]. Qed.

(** The run of the server with the first [k] batches: how it ends, and what is in
    flight then. *)
Definition ends (k : nat) : option (BlockOn * list Entry) :=
  match check_run server (take k batches) start, block_on server (take k batches) start with
  | Some Kend, Ok (b, _) => Some (b, Kend)
  | _, _ => None
  end.

Lemma ends_Some k b Kend : ends k = Some (b, Kend) ->
  valid_run server (take k batches) start Kend /\ exists w, block_on server (take k batches) start = Ok (b, w).
Proof.
  unfold ends. destruct (check_run _ _ _) as [K|] eqn:Hc; [|discriminate].
  destruct (block_on _ _ _) as [[b' w]|?|?] eqn:E; [|discriminate..]. intros Hf. injection Hf as -> ->.
  split; [by apply check_run_sound|by exists w].
Qed.

Lemma server_returns : ends 2 = Some (Returned, []).
Proof. vm_compute. reflexivity. Qed.

Lemma server_waits : ends 1 = Some (Waiting, []).
Proof. vm_compute. reflexivity. Qed.

(** The same run under the rules of Rust: it performs the undefined read when the
    first task is freed. *)
Module Strict.
#[local] Existing Instance strict_profile.

Lemma initial_world_strict : initial_world (Some pool_base) tt = Ok (start, tt).
Proof. apply initial_world_in. Qed.

Lemma server_strict :
  match check_run server batches start with Some _ => true | None => false end = true /\
  block_on server batches start = Ub freed_read.
Proof. split; vm_compute; reflexivity. Qed.

Lemma block_on_safe_witness : @freed_counter strict_profile = None /\ freed_read = freed_read.
Proof.
  destruct server_strict as [Hc E].
  destruct (check_run server batches start) as [K|] eqn:Hk; [|discriminate Hc].
  exact (block_on_safe pool_base start server batches K freed_read pool_base_block
    initial_world_strict server_ok (check_run_sound _ _ _ _ Hk) E).
Defined.
End Strict.

Lemma block_on_returned_clean_witness : exists w,
  block_on server batches start = Ok (Returned, w) /\ w.(w_heap) = ∅.
Proof.
  destruct (ends_Some _ _ _ server_returns) as (Hv & w & E). exists w. split; [exact E|].
  apply (block_on_returned_clean pool_base start server batches [] w pool_base_block initial_world_start server_ok Hv E).
Defined.

(** While the server waits, the header of the second task is at address 64. *)
Lemma waiting_header : exists w r, block_on server (take 1 batches) start = Ok (Waiting, w) /\
  w.(w_heap) !! 64 = Some r.
Proof.
  assert (Hc : match block_on server (take 1 batches) start with
               | Ok (Waiting, w) => w.(w_heap) !! 64
               | _ => None
               end <> None) by (vm_compute; discriminate).
  destruct (block_on _ _ _) as [[[] w]|?|?]; try congruence.
  destruct (w_heap w !! 64) as [r|] eqn:Hr; [|congruence]. exists w, r. split; [reflexivity|exact Hr].
Qed.

Lemma ref_counter_exact_witness : exists w r i,
  w.(w_heap) !! 64 = Some r /\
  r.(rt_ref_counter) = count_if (fun e => entry_task_idx e =? i) ([] ++ w.(w_rt).(pending)).
Proof.
  destruct waiting_header as (w & r & E & Hr). destruct (ends_Some _ _ _ server_waits) as (Hv & _).
  destruct (ref_counter_exact pool_base start server _ [] w 64 r pool_base_block initial_world_start server_ok Hv E Hr)
    as (i & _ & _ & Hrc). exists w, r, i. split; assumption.
Defined.

Lemma waiting_task_has_entry_witness : exists w,
  w.(w_rt).(pending) <> [] /\ is_Some (w.(w_heap) !! 64).
Proof.
  destruct waiting_header as (w & r & E & Hr). destruct (ends_Some _ _ _ server_waits) as (Hv & _).
  exists w. split; [|exists r; exact Hr].
  apply (waiting_task_has_entry pool_base start server _ [] w pool_base_block initial_world_start server_ok Hv E).
Defined.
End EventLoopExamples.
