(* ===== verification/Simulation.v ===== *)
(** * The direct semantics simulates the runtime

    The relation between a state of the runtime and a state of the direct
    machine, and what the steps of the runtime do to it.  Every body that waits
    in the machine is in exactly one task header, and the operation it waits for
    is exactly one entry in flight, which carries the index and the syscall
    number of that header. *)

From S2P Require Import Prelude UserData Io Task Slab BufPool BufRing Futures Direct Runtime Calls Executor Quiet RingLog Stable.
From S2P Require Import Invariant Polls Lifetime.

(** The entry [e], one of [es], is the operation the body [q] in the header [r]
    waits for. *)
Record awaits (es : list Entry) (e : Entry) (r : RawTask Fut) (q : Prog) : Prop := {
  aw_flight : e ∈ es;
  aw_future : r.(rt_future) = Suspended q;
  aw_plain : plain q;
  aw_idx : r.(rt_slab_idx) = Some (entry_task_idx e);
  aw_udata : e.(e_user_data) = into_user_data (mkPayload (entry_task_idx e) u16_max r.(rt_syscall_nb));
}.

Abbreviation flight K w := (K ++ w.(w_rt).(pending)).

(** [X] holds the tasks being polled: address, slab index and syscall number.
    [K] holds the entries in the kernel. *)
Record sim `{Profile} (X : gmap Z (Z * Z)) (K : list Entry) (s : DState) (w : World) : Prop := {
  sm_log : e_opcode <$> entries w = s.(d_log);
  sm_pool : w.(w_rt).(buffer) = s.(d_pool);
  sm_ring : ring_from s.(d_pool) s.(d_returned) w.(w_rt).(buf_ring);
  sm_borrow : w.(w_borrow) = 0;
  sm_polled p i nb : X !! p = Some (i, nb) ->
    exists r, w.(w_heap) !! p = Some r /\ r.(rt_slab_idx) = Some i /\ r.(rt_syscall_nb) = nb;
  sm_distinct : NoDup (entry_task_idx <$> flight K w);
  sm_flight e : e ∈ flight K w -> exists m, is_Some (s.(d_waiting) !! m) /\ entries w !! m = Some e;
  sm_waiting m q : s.(d_waiting) !! m = Some q ->
    exists e p r, entries w !! m = Some e /\ w.(w_heap) !! p = Some r /\ X !! p = None /\
      awaits (flight K w) e r q;
  sm_task p r : w.(w_heap) !! p = Some r -> X !! p = None ->
    exists m e q, s.(d_waiting) !! m = Some q /\ entries w !! m = Some e /\ awaits (flight K w) e r q;
  sm_inj m m' e e' : is_Some (s.(d_waiting) !! m) -> is_Some (s.(d_waiting) !! m') ->
    entries w !! m = Some e -> entries w !! m' = Some e' -> entry_task_idx e = entry_task_idx e' -> m = m';
}.

(** What the relation sees of a header. *)
Record same_view (r r' : RawTask Fut) : Prop := {
  sv_future : r'.(rt_future) = r.(rt_future);
  sv_idx : r'.(rt_slab_idx) = r.(rt_slab_idx);
  sv_nb : r'.(rt_syscall_nb) = r.(rt_syscall_nb);
}.

Lemma same_view_refl r : same_view r r.
Proof. done. Qed.
#[export] Hint Resolve same_view_refl : onlyio.

Section Simulation.
Context {prof : Profile}.

Lemma awaits_view es e r r' q : same_view r r' -> awaits es e r q -> awaits es e r' q.
Proof. intros [] []. split; congruence. Qed.

Lemma entries_io w w' : same_io w w' -> entries w' = entries w.
Proof. intros []. unfold entries. congruence. Qed.

(** ** Changes of the heap *)
Lemma sim_heap X X' K s w w' : sim X K s w -> same_io w w' ->
  (forall p r, w.(w_heap) !! p = Some r -> X !! p = None ->
     exists r', w'.(w_heap) !! p = Some r' /\ X' !! p = None /\ same_view r r') ->
  (forall p r', w'.(w_heap) !! p = Some r' -> X' !! p = None ->
     exists r, w.(w_heap) !! p = Some r /\ X !! p = None /\ same_view r r') ->
  (forall p i nb, X' !! p = Some (i, nb) ->
     exists r, w'.(w_heap) !! p = Some r /\ r.(rt_slab_idx) = Some i /\ r.(rt_syscall_nb) = nb) ->
  sim X' K s w'.
Proof.
  intros [Hlog Hpool Hring Hbor Hpol Hdis Hfl Hwait Htask Hinj] Hio Hfwd Hbwd Hpol'.
  pose proof (entries_io _ _ Hio) as He. pose proof (io_pending _ _ Hio) as Hp.
  split; rewrite ?He, ?Hp; try done.
  - by rewrite (io_buffer _ _ Hio).
  - by rewrite (io_ring _ _ Hio).
  - by rewrite (io_borrow _ _ Hio).
  - intros m q Hm. destruct (Hwait m q Hm) as (e & p & r & H1 & H2 & H3 & H4).
    destruct (Hfwd p r H2 H3) as (r' & ? & ? & ?). exists e, p, r'. split_and!; try done. by eapply awaits_view.
  - intros p r' Hr' Hx. destruct (Hbwd p r' Hr' Hx) as (r & Hr & Hx0 & Hv).
    destruct (Htask p r Hr Hx0) as (m & e & q & ? & ? & ?). exists m, e, q. split_and!; try done.
    by eapply awaits_view.
Qed.

Lemma sim_io X K s w w' : sim X K s w -> same_io w w' -> w'.(w_heap) = w.(w_heap) -> sim X K s w'.
Proof.
  intros Hs Hio Hh. apply (sim_heap X X K s w w'); rewrite ?Hh; eauto with onlyio. apply Hs.
Qed.

(** A header whose reference count changes. *)
Lemma sim_view X K s w w' p r r' : sim X K s w -> same_io w w' -> w.(w_heap) !! p = Some r -> same_view r r' ->
  w'.(w_heap) = <[p := r']> w.(w_heap) -> sim X K s w'.
Proof.
  intros Hs Hio Hr Hv Hh. apply (sim_heap X X K s w w'); try done; rewrite Hh.
  - intros q r1 Hq Hx. destruct (decide (q = p)) as [->|]; [|rewrite lookup_insert_ne by done; eauto with onlyio].
    rewrite lookup_insert_eq. simplify_eq. eauto.
  - intros q r1 Hq Hx. apply lookup_insert_Some in Hq as [[<- <-]|[Hne Hq]]; eauto with onlyio.
  - intros q i nb Hq. destruct (sm_polled _ _ _ _ Hs q i nb Hq) as (r1 & H1 & H2 & H3).
    destruct (decide (q = p)) as [->|]; [|rewrite lookup_insert_ne by done; eauto].
    rewrite lookup_insert_eq. exists r'. destruct Hv. split_and!; congruence.
Qed.

(** A task being polled: its future and its syscall number are free to change. *)
Lemma sim_polled X K s w w' p i nb r' : sim X K s w -> same_io w w' -> X !! p = Some (i, nb) ->
  r'.(rt_slab_idx) = Some i -> w'.(w_heap) = <[p := r']> w.(w_heap) ->
  sim (<[p := (i, r'.(rt_syscall_nb))]> X) K s w'.
Proof.
  intros Hs Hio Hp Hi Hh. apply (sim_heap X _ K s w w'); try done; rewrite Hh.
  - intros q r1 Hq Hx. rewrite !lookup_insert_ne by congruence. eauto with onlyio.
  - intros q r1 Hq Hx. apply lookup_insert_None in Hx as [Hx Hne]. rewrite lookup_insert_ne in Hq by done.
    eauto with onlyio.
  - intros q j nb' [[<- [= <- <-]]|[Hne Hq]]%lookup_insert_Some.
    + rewrite lookup_insert_eq. eauto.
    + rewrite lookup_insert_ne by done. by apply (sm_polled _ _ _ _ Hs).
Qed.

(** A task that starts being polled, in a fresh header. *)
Lemma sim_new X K s w w' p i r : sim X K s w -> same_io w w' -> w.(w_heap) !! p = None ->
  r.(rt_slab_idx) = Some i -> w'.(w_heap) = <[p := r]> w.(w_heap) ->
  sim (<[p := (i, r.(rt_syscall_nb))]> X) K s w'.
Proof.
  intros Hs Hio Hp Hi Hh. apply (sim_heap X _ K s w w'); try done; rewrite Hh.
  - intros q r1 Hq Hx. rewrite !lookup_insert_ne by congruence. eauto with onlyio.
  - intros q r1 Hq Hx. apply lookup_insert_None in Hx as [Hx Hne]. rewrite lookup_insert_ne in Hq by done.
    eauto with onlyio.
  - intros q j nb' [[<- [= <- <-]]|[Hne Hq]]%lookup_insert_Some.
    + rewrite lookup_insert_eq. eauto.
    + rewrite lookup_insert_ne by done. by apply (sm_polled _ _ _ _ Hs).
Qed.

(** The header of a task that is over is freed. *)
Lemma sim_done X K s w w' p : sim X K s w -> same_io w w' -> is_Some (X !! p) ->
  w'.(w_heap) = delete p w.(w_heap) -> sim (delete p X) K s w'.
Proof.
  intros Hs Hio [x Hp] Hh. apply (sim_heap X _ K s w w'); try done; rewrite Hh.
  - intros q r1 Hq Hx. assert (p <> q) by congruence. rewrite !lookup_delete_ne by done. eauto with onlyio.
  - intros q r1 [Hne Hq]%lookup_delete_Some. rewrite lookup_delete_ne by done. eauto with onlyio.
  - intros q j nb' [Hne Hq]%lookup_delete_Some. rewrite lookup_delete_ne by done. by apply (sm_polled _ _ _ _ Hs).
Qed.

(** ** An operation on the pool, and a buffer given back *)
Lemma sim_set_pool X K s w p : sim X K s w -> same_geometry s.(d_pool) p ->
  sim X K (d_set_pool p s) (set_w_rt (set_buffer p w.(w_rt)) w).
Proof. intros [] Hg. split; try done. by eapply ring_from_geometry. Qed.

Lemma sim_return X K s w w' b mem : sim X K s w ->
  release_buf_to_ring s.(d_pool) b w.(w_rt).(buf_ring) = Ok (tt, mem) ->
  same_io (set_w_rt (set_buf_ring mem w.(w_rt)) w) w' -> w'.(w_heap) = w.(w_heap) ->
  sim X K (d_return b s) w'.
Proof.
  intros Hs E Hio Hh. apply (sim_io _ _ _ (set_w_rt (set_buf_ring mem w.(w_rt)) w) w'); [|done|by rewrite Hh].
  destruct Hs. split; try done. by eapply ring_from_release.
Qed.

(** ** Slab indexes are not shared *)
Lemma inv_idx_inj H K w p p' r r' i : inv H K w -> w.(w_heap) !! p = Some r -> w.(w_heap) !! p' = Some r' ->
  r.(rt_slab_idx) = Some i -> r'.(rt_slab_idx) = Some i -> p = p'.
Proof.
  intros Hi Hr Hr' Hx Hx'. destruct (iv_live _ _ _ Hi _ _ Hr) as (_ & j & Hj & Hok).
  destruct (iv_live _ _ _ Hi _ _ Hr') as (_ & j' & Hj' & Hok').
  pose proof (ho_idx _ _ _ _ Hok). pose proof (ho_idx _ _ _ _ Hok'). simplify_eq. by eapply slot_live_fun.
Qed.

(** Nothing in flight answers to a task that is being polled. *)
Lemma sim_waiting_ne H X K s w p i nb m e : inv H K w -> sim X K s w -> X !! p = Some (i, nb) ->
  is_Some (s.(d_waiting) !! m) -> entries w !! m = Some e -> entry_task_idx e <> i.
Proof.
  intros Hi Hs Hp [q Hq] Hm Heq. destruct (sm_waiting _ _ _ _ Hs m q Hq) as (e' & p' & r' & He' & Hr' & Hx & Ha).
  destruct (sm_polled _ _ _ _ Hs _ _ _ Hp) as (r & Hr & Hri & _). pose proof (aw_idx _ _ _ _ Ha) as Ha'.
  assert (p = p') as -> by (eapply (inv_idx_inj H K w _ _ r r' i); try done; congruence). congruence.
Qed.

Lemma sim_no_flight H X K s w p i nb e : inv H K w -> sim X K s w -> X !! p = Some (i, nb) ->
  e ∈ flight K w -> entry_task_idx e <> i.
Proof.
  intros Hi Hs Hp He. destruct (sm_flight _ _ _ _ Hs e He) as (m & Hm & Hme). by eapply sim_waiting_ne.
Qed.

(** ** Submitting and completing *)
Lemma length_log X K s w : sim X K s w -> length s.(d_log) = length (entries w).
Proof. intros Hs. by rewrite <- (sm_log _ _ _ _ Hs), length_fmap. Qed.

Lemma awaits_mono es es' e r q : (forall x, x ∈ es -> x ∈ es') -> awaits es e r q -> awaits es' e r q.
Proof. intros Hsub []. split; auto. Qed.

(** The task at [p] has been polled, has queued [e] and waits for it. *)
Lemma sim_push H X K s w w' p i nb r q e : inv H K w -> sim X K s w -> X !! p = Some (i, nb) ->
  e.(e_user_data) = into_user_data (mkPayload i u16_max nb) -> entry_task_idx e = i -> plain q ->
  r.(rt_future) = Suspended q -> r.(rt_slab_idx) = Some i -> r.(rt_syscall_nb) = nb ->
  w'.(w_heap) = <[p := r]> w.(w_heap) ->
  w'.(w_rt).(ring_submitted) = w.(w_rt).(ring_submitted) ->
  w'.(w_rt).(pending) = w.(w_rt).(pending) ++ [e] -> w'.(w_rt).(buffer) = w.(w_rt).(buffer) ->
  w'.(w_rt).(buf_ring) = w.(w_rt).(buf_ring) ->
  w'.(w_borrow) = 0 -> sim (delete p X) K (d_submit e.(e_opcode) q s) w'.
Proof.
  intros Hi Hs Hp Hu Hei Hq Hrf Hri Hrn Hh Hsub Hpend Hbuf Hmem Hbor.
  pose proof (length_log _ _ _ _ Hs) as Hlen.
  assert (He : entries w' = entries w ++ [e]) by (unfold entries; by rewrite Hsub, Hpend, app_assoc).
  assert (Hf : flight K w' = flight K w ++ [e]) by (by rewrite Hpend, app_assoc).
  assert (Hold : forall m e', is_Some (s.(d_waiting) !! m) -> entries w !! m = Some e' -> entry_task_idx e' <> i)
    by (intros; by eapply sim_waiting_ne).
  assert (Hlook : forall m q', s.(d_waiting) !! m = Some q' -> m <> length s.(d_log) /\
            exists e', entries w !! m = Some e' /\ entries w' !! m = Some e').
  { intros m q' Hm. destruct (sm_waiting _ _ _ _ Hs m q' Hm) as (e' & p' & r' & He' & _).
    pose proof (lookup_lt_Some _ _ _ He'). split; [lia|]. exists e'. rewrite He, lookup_app_l by done. done. }
  assert (Hnew : entries w' !! length s.(d_log) = Some e) by (rewrite He, Hlen; by apply list_lookup_middle).
  assert (Haw : forall e' r' q', awaits (flight K w) e' r' q' -> awaits (flight K w') e' r' q').
  { intros e' r' q'. apply awaits_mono. rewrite Hf. set_solver. }
  split; cbn [d_log d_waiting d_pool d_returned d_submit].
  - rewrite He, fmap_app, (sm_log _ _ _ _ Hs). done.
  - rewrite Hbuf. apply Hs.
  - rewrite Hmem. apply Hs.
  - done.
  - intros p' j nb' [Hne Hx]%lookup_delete_Some. rewrite Hh, lookup_insert_ne by done. by apply (sm_polled _ _ _ _ Hs).
  - rewrite Hf, fmap_app. apply NoDup_app. split; [apply Hs|]. split; [|apply NoDup_singleton].
    intros j (e' & Hj & He')%list_elem_of_fmap Hj'%list_elem_of_singleton.
    apply (sim_no_flight H X K s w p i nb e' Hi Hs Hp He'). congruence.
  - intros e'. rewrite Hf, elem_of_app, list_elem_of_singleton. intros [He'| ->].
    + destruct (sm_flight _ _ _ _ Hs e' He') as (m & [q' Hm] & Hme). destruct (Hlook m q' Hm) as (Hne & e'' & ? & ?).
      exists m. rewrite lookup_insert_ne by done. simplify_eq. eauto.
    + exists (length s.(d_log)). rewrite lookup_insert_eq. eauto.
  - intros m q' [[<- <-]|[Hne Hm]]%lookup_insert_Some.
    + exists e, p, r. rewrite Hh, lookup_insert_eq, lookup_delete_eq. split_and!; try done.
      split; try done; [rewrite Hf; set_solver|by rewrite Hei|by rewrite Hei, Hrn].
    + destruct (sm_waiting _ _ _ _ Hs m q' Hm) as (e' & p' & r' & H1 & H2 & H3 & H4).
      assert (p <> p') by congruence. exists e', p', r'. rewrite Hh, lookup_insert_ne, lookup_delete_ne by done.
      destruct (Hlook m q' Hm) as (_ & e'' & ? & ?). simplify_eq. auto.
  - intros p' r'. rewrite Hh. intros [[<- <-]|[Hne Hr']]%lookup_insert_Some Hx.
    + exists (length s.(d_log)), e, q. rewrite lookup_insert_eq. split_and!; try done.
      split; try done; [rewrite Hf; set_solver|by rewrite Hei|by rewrite Hei, Hrn].
    + rewrite lookup_delete_ne in Hx by done. destruct (sm_task _ _ _ _ Hs p' r' Hr' Hx) as (m & e' & q' & H1 & H2 & H3).
      exists m, e', q'. destruct (Hlook m q' H1) as (Hne' & e'' & ? & ?). simplify_eq.
      rewrite lookup_insert_ne by done. auto.
  - intros m m' e1 e2 [q1 Hm] [q2 Hm'] H1 H2 Heq.
    apply lookup_insert_Some in Hm as [[<- <-]|[Hne Hm]]; apply lookup_insert_Some in Hm' as [[<- <-]|[Hne' Hm']]; [done|..].
    + destruct (Hlook m' q2 Hm') as (_ & e3 & ? & ?). simplify_eq. exfalso. eapply Hold; eauto.
    + destruct (Hlook m q1 Hm) as (_ & e3 & ? & ?). simplify_eq. exfalso. eapply Hold; eauto.
    + destruct (Hlook m q1 Hm) as (_ & e3 & ? & ?). destruct (Hlook m' q2 Hm') as (_ & e4 & ? & ?). simplify_eq.
      eapply (sm_inj _ _ _ _ Hs); eauto.
Qed.

(** The entry [e] completes: the body that waits for it is found, and its task
    is the one to poll. *)
Lemma sim_take H K1 e K2 s w : inv H (K1 ++ e :: K2) w -> sim ∅ (K1 ++ e :: K2) s w ->
  exists m q p r, s.(d_waiting) !! m = Some q /\ entries w !! m = Some e /\ w.(w_heap) !! p = Some r /\
    awaits (flight (K1 ++ e :: K2) w) e r q /\
    sim {[p := (entry_task_idx e, r.(rt_syscall_nb))]} (K1 ++ K2) (d_take m s) w.
Proof.
  intros Hi Hs. destruct (sm_flight _ _ _ _ Hs e) as (m & [q Hm] & Hme); [set_solver|].
  destruct (sm_waiting _ _ _ _ Hs m q Hm) as (e' & p & r & He' & Hr & _ & Ha). simplify_eq.
  exists m, q, p, r. split_and!; try done.
  assert (Hsub : forall x, x ∈ flight (K1 ++ K2) w -> x ∈ flight (K1 ++ e :: K2) w) by set_solver.
  assert (Hback : forall x, x ∈ flight (K1 ++ e :: K2) w -> entry_task_idx x <> entry_task_idx e ->
                    x ∈ flight (K1 ++ K2) w) by set_solver.
  pose proof (sm_distinct _ _ _ _ Hs) as Hdis. rewrite <- app_assoc, <- app_comm_cons, fmap_app, fmap_cons in Hdis.
  apply NoDup_app in Hdis as (Hd1 & Hd2 & [Hd3 Hd4]%NoDup_cons).
  assert (Hne : forall x, x ∈ flight (K1 ++ K2) w -> entry_task_idx x <> entry_task_idx e).
  { intros x. rewrite <- app_assoc. intros [Hx|Hx]%elem_of_app Heq.
    - apply (Hd2 (entry_task_idx x)); [by apply list_elem_of_fmap_2|]. rewrite Heq. by left.
    - apply Hd3. rewrite <- Heq. by apply list_elem_of_fmap_2. }
  assert (Hinj : forall m' q' e', s.(d_waiting) !! m' = Some q' -> entries w !! m' = Some e' -> m <> m' ->
                   entry_task_idx e' <> entry_task_idx e).
  { intros m' q' e' H1 H2 H3 H4. apply H3. by eapply (sm_inj _ _ _ _ Hs); eauto. }
  split; cbn [d_log d_waiting d_pool d_returned d_take].
  - apply Hs.
  - apply Hs.
  - apply Hs.
  - apply Hs.
  - intros p' j nb [<- [= <- <-]]%lookup_singleton_Some. exists r. split_and!; try done. apply Ha.
  - rewrite <- app_assoc, fmap_app. apply NoDup_app. split; [done|]. split; [|done].
    intros x Hx. specialize (Hd2 x Hx). set_solver.
  - intros e' He'. destruct (sm_flight _ _ _ _ Hs e' (Hsub _ He')) as (m' & Hm' & Hme'). exists m'.
    rewrite lookup_delete_ne; [done|]. intros <-. apply (Hne e' He'). congruence.
  - intros m' q' [Hmm Hm']%lookup_delete_Some.
    destruct (sm_waiting _ _ _ _ Hs m' q' Hm') as (e' & p' & r' & H1 & H2 & _ & H4). exists e', p', r'.
    pose proof (Hinj m' q' e' Hm' H1 Hmm) as Hei. split_and!; try done.
    + apply lookup_singleton_None. intros <-. simplify_eq.
      pose proof (aw_idx _ _ _ _ Ha). pose proof (aw_idx _ _ _ _ H4). congruence.
    + destruct H4. split; try done. by apply Hback.
  - intros p' r' Hr' Hx%lookup_singleton_None.
    destruct (sm_task _ _ _ _ Hs p' r' Hr') as (m' & e' & q' & H1 & H2 & H3); [done|].
    assert (Hmm : m <> m').
    { intros <-. simplify_eq. apply Hx. eapply (inv_idx_inj H _ w p p'); try done; [apply Ha|apply H3]. }
    exists m', e', q'. rewrite lookup_delete_ne by done. split_and!; try done.
    destruct H3. split; try done. apply Hback; [done|by eapply Hinj].
  - intros m1 m2 e1 e2 [q1 [_ Hm1]%lookup_delete_Some] [q2 [_ Hm2]%lookup_delete_Some]. apply (sm_inj _ _ _ _ Hs); eauto.
Qed.
End Simulation.
