(* ===== verification/Order.v ===== *)
(** * What a whole run keeps

    The order in which entries reach the kernel and the shape of the buffer
    pool, over runs of [block_on]. *)

From S2P Require Import Prelude UserData Io Task Slab BufPool BufRing Futures Runtime Calls Executor Quiet Stable Invariant Safety Concrete EventLoop.

Section Order.
Context {prof : Profile} {flags : CqueueFlags} {al : Allocator} {fl : FutLayout Fut} {sm : SlabMemory}.

Lemma turn_not_waiting step w b w' : block_on_turn step w = Ok (Some b, w') -> b <> Waiting.
Proof.
  unfold block_on_turn. intros (r & w1 & _ & E)%bind_Ok. destruct r as [es|errno]; [|by injection E as <- _].
  apply bind_Ok in E as (free & w2 & _ & E). destruct free; [by injection E as <- _|].
  apply bind_Ok in E as ([] & w3 & _ & E). apply bind_Ok in E as ([] & w4 & _ & E).
  apply bind_Ok in E as (wl & w5 & _ & E). apply bind_Ok in E as ([] & w6 & _ & E).
  apply bind_Ok in E as (free & w7 & _ & E). destruct free; [by injection E as <- _|done].
Qed.

(** A run that waits goes on with the answers that come next. *)
Lemma block_on_loop_app pre post : forall w w1, block_on_loop pre w = Ok (Waiting, w1) ->
  block_on_loop (pre ++ post) w = block_on_loop post w1.
Proof.
  induction pre as [|step pre IH]; intros w w1; cbn [block_on_loop app].
  - by intros [= <-].
  - intros (r & w2 & E1 & E2)%bind_Ok. rewrite (bind_step _ _ _ _ _ E1).
    destruct r as [b|]; [|by apply IH]. injection E2 as -> <-. by apply turn_not_waiting in E1.
Qed.

Lemma block_on_app future pre post w w1 : block_on future pre w = Ok (Waiting, w1) ->
  block_on future (pre ++ post) w = block_on_loop post w1.
Proof.
  unfold block_on. intros ([] & w2 & E1 & E2)%bind_Ok. rewrite (bind_step _ _ _ _ _ E1).
  apply bind_Ok in E2 as (free & w3 & E2 & E3). rewrite (bind_step _ _ _ _ _ E2).
  destruct free; [done|]. by apply block_on_loop_app.
Qed.

(** A turn hands the whole queue over, behind what was handed over before. *)
Lemma turn_submits step w r w' : block_on_turn step w = Ok (r, w') ->
  entries w `prefix_of` w'.(w_rt).(ring_submitted).
Proof.
  intros E. destruct (turn_after_submit entries_grow _ _ _ _ E) as (a & w1 & E1 & [_ Hgrow]).
  enough (ring_submitted (w_rt w1) = entries w) as <- by done. clear E Hgrow.
  unfold with_borrow_mut, submit_and_wait in E1. apply bind_Ok in E1 as (b & w2 & [= <- <-] & E1).
  apply bind_Ok in E1 as ([] & w2 & Eb & E1). destruct (_ =? 0); [injection Eb as <-|done].
  apply bind_Ok in E1 as ([] & w2 & [= <-] & E1). apply bind_Ok in E1 as (c & w2 & Ec & E1).
  apply bind_Ok in Ec as (rt & w3 & [= <- <-] & Ec). apply bind_Ok in Ec as ([] & w3 & Ea & Ec).
  unfold assert_ in Ea. destruct (_ <=? _); [injection Ea as <-|done].
  apply bind_Ok in Ec as ([] & w3 & [= <-] & Ec). apply bind_Ok in E1 as ([] & w4 & [= <-] & E1).
  injection E1 as <- <-. by destruct step; injection Ec as <- <-.
Qed.


(** No operation changes the shape of the buffer pool: when [block_on]
    stops or waits, its block, the layout the block was allocated with and the
    way its slots are shared out are those of the start, in both build profiles
    and whatever the kernel answers. *)
Theorem pool_geometry_constant future steps w0 b w : block_on future steps w0 = Ok (b, w) ->
  w.(w_rt).(buffer).(base) = w0.(w_rt).(buffer).(base) /\
  w.(w_rt).(buffer).(layout) = w0.(w_rt).(buffer).(layout) /\
  w.(w_rt).(buffer).(read_count) = w0.(w_rt).(buffer).(read_count) /\
  length w.(w_rt).(buffer).(write_rc) = length w0.(w_rt).(buffer).(write_rc).
Proof. intros E. destruct (stable_block_on same_pool_geometry _ _ _ _ _ E). done. Qed.
End Order.

Module OrderExamples.
Import EventLoopExamples.


Lemma pool_geometry_constant_witness : exists w, block_on server batches start = Ok (Returned, w) /\
  w.(w_rt).(buffer).(layout) = (1024 * 4096, 4096).
Proof.
  destruct (ends_Some _ _ _ server_returns) as (_ & w & E). exists w. split; [exact E|].
  apply (pool_geometry_constant server batches start Returned w E).
Defined.
End OrderExamples.
