(* ===== verification/Teardown.v ===== *)
(** * From the creation of the runtime to the end of its thread

    What [Runtime::new] leaves allocated on each of its paths, and what the
    destructors of the runtime do when its thread ends: [Drop for Runtime], then
    the drops of its fields ([Slab], the ring, [BufPool]) of src/src/runtime.rs,
    task_slab.rs and buf_pool.rs.

    At that point the thread local [GLOBAL_RUNTIME] is marked as destroyed, so
    that [release_read_buf], which uses [try_with], does nothing; a [WBuffer]
    still reaches the pool, through its raw pointer, which is dropped after the
    tasks.  The thread local is dropped in place. *)

From S2P Require Import Prelude UserData Io Task Slab BufPool BufRing Futures Runtime Setup Calls Executor.
From S2P Require Import Quiet Stable Invariant Polls Lifetime Safety Concrete EventLoop.

(** ** Destructors while the thread ends *)
Abbreviation Process := (World * Blocks)%type.
Definition process_world : lens Process World := Lens fst (fun w s => (w, s.2)).
Definition process_blocks : lens Process Blocks := Lens snd (fun b s => (s.1, b)).

Section Teardown.
Context {prof : Profile}.

(** [Drop for RwBuffer] with the thread local destroyed: [try_with] fails and
    its error is ignored. *)
Definition RwBuffer_drop_exiting (b : RwBuffer) : M World unit := ret tt.

Definition Res_drop_exiting (r : Res) : M World unit :=
  match r with
  | ResRw b => RwBuffer_drop_exiting b
  | ResW b => zoom pool_lens (WBuffer_drop b)
  end.

Definition drop_fn_exiting (f : Fut) : M World unit :=
  match f with
  | Suspended (Await leaf held _) => Leaf_drop leaf ;;! for_each held Res_drop_exiting
  | _ => ret tt
  end.

(** The thread local [RUNTIME_FREE_LIST] may be destroyed before or after. *)
Definition exiting_host (free_list_alive : bool) : TaskHost Process Fut := {|
  host_heap := Lens (fun s => s.1.(w_heap)) (fun h s => (set_w_heap h s.1, s.2));
  host_drop_fn f := zoom process_world (drop_fn_exiting f);
  host_push_free idx :=
    if free_list_alive
    then modify (fun s : Process => (set_free_list (s.1.(RUNTIME_FREE_LIST) ++ [idx]) s.1, s.2))
    else ret tt;
|}.

(** [Drop for Runtime], then the fields in their order of declaration; the ring
    and the queue own nothing the model keeps. *)
Definition Runtime_drop (free_list_alive : bool) (buf_ring : Z) (buf_ring_layout : Z * Z) (slab_ptr : Z)
    : M Process unit :=
  zoom process_blocks (dealloc_block buf_ring buf_ring_layout) ;;!
  let! rt := gets (fun s : Process => s.1.(w_rt)) in
  Slab_drop (host := exiting_host free_list_alive) rt.(tasks) ;;!
  zoom process_blocks (dealloc_block slab_ptr (layout_for rt.(tasks).(len))) ;;!
  let! rt := gets (fun s : Process => s.1.(w_rt)) in
  zoom process_blocks (BufPool_drop rt.(buffer)).

#[export] Instance exiting_host_laws free_list_alive :
  LensLaws (host_heap (TaskHost := exiting_host free_list_alive)).
Proof. split; [done|by intros [[] ?]|done]. Qed.
End Teardown.

(** ** What the destructors of futures touch *)

(** The heap, the slab and the shape of the pool are left alone. *)
Definition exit_step (w w' : World) : Prop :=
  w'.(w_heap) = w.(w_heap) /\ w'.(w_rt).(tasks) = w.(w_rt).(tasks) /\
  same_geometry w.(w_rt).(buffer) w'.(w_rt).(buffer).

#[local] Instance exit_step_preorder : PreOrder exit_step.
Proof.
  split; [done|]. intros w1 w2 w3 (? & ? & ?) (? & ? & ?).
  split; [congruence|]. split; [congruence|]. by transitivity w2.(w_rt).(buffer).
Qed.

Section ExitSteps.
Context {prof : Profile}.
Abbreviation exits m := (keeps (fun _ => True) exit_step m).

Lemma WBuffer_drop_exits b : exits (zoom pool_lens (WBuffer_drop b)).
Proof. intros w _. apply wp_zoom. eapply wp_mono; [by apply WBuffer_drop_keeps|]. by intros [] p Hp. Qed.

#[local] Hint Resolve WBuffer_drop_exits : onlyio.

Lemma Res_drop_exits r : exits (Res_drop_exiting r).
Proof. unfold Res_drop_exiting, RwBuffer_drop_exiting. solve_keeps. Qed.

Lemma Leaf_drop_exits {A} (l : Leaf A) : exits (Leaf_drop l).
Proof. unfold Leaf_drop. solve_keeps. Qed.

#[local] Hint Resolve Res_drop_exits Leaf_drop_exits : onlyio.

Lemma drop_fn_exits f : exits (drop_fn_exiting f).
Proof. unfold drop_fn_exiting. solve_keeps. Qed.
End ExitSteps.

(** ** Dropping one task *)

(** What one release leaves of a header. *)
Definition released (r : RawTask Fut) : option (RawTask Fut) :=
  if r.(rt_ref_counter) =? 1 then None else Some (set_ref_counter (r.(rt_ref_counter) - 1) r).

(** The heap once the tasks [ps] have been released. *)
Definition release_all (ps : list Z) (h : heap Fut) : heap Fut :=
  map_imap (fun p r => if decide (p ∈ ps) then released r else Some r) h.

Lemma release_all_lookup ps h p :
  release_all ps h !! p = h !! p ≫= fun r => if decide (p ∈ ps) then released r else Some r.
Proof. unfold release_all. by rewrite map_lookup_imap. Qed.

Lemma release_all_nil h : release_all [] h = h.
Proof.
  apply map_eq. intros p. rewrite release_all_lookup. destruct (h !! p); [|done].
  cbn [mbind option_bind]. rewrite decide_False; [done|]. apply not_elem_of_nil.
Qed.

Lemma release_all_snoc ps p h r : p ∉ ps -> h !! p = Some r ->
  release_all (ps ++ [p]) h =
    match released r with
    | Some r' => <[p := r']> (release_all ps h)
    | None => delete p (release_all ps h)
    end.
Proof.
  intros Hp Hr. apply map_eq. intros q. rewrite release_all_lookup.
  assert (Hq : q <> p -> release_all ps h !! q =
    h !! q ≫= (fun r => if decide (q ∈ ps ++ [p]) then released r else Some r)).
  { intros Hne. rewrite release_all_lookup. destruct (h !! q); [|done]. cbn [mbind option_bind].
    destruct (decide (q ∈ ps)), (decide (q ∈ ps ++ [p])) as [Hin|]; set_solver. }
  destruct (decide (q = p)) as [->|Hne].
  - rewrite Hr. cbn [mbind option_bind]. rewrite decide_True by set_solver.
    destruct (released r); by rewrite ?lookup_insert_eq, ?lookup_delete_eq.
  - destruct (released r); rewrite ?lookup_insert_ne, ?lookup_delete_ne by done; by rewrite Hq.
Qed.

(** The words of a slab that are task handles. *)
Definition task_slots (sl : list Z) : list Z := List.filter (fun w => negb (is_free w)) sl.

Section Drops.
Context {prof : Profile} (free_list_alive : bool).
#[local] Existing Instance exiting_host | 0.
Abbreviation host := (exiting_host free_list_alive).

(** The state of the process after a drop: only the heap and the contents of
    the write pool have changed. *)
Definition drop_step (h : heap Fut) (s s' : Process) : Prop :=
  s'.1.(w_heap) = h /\ s'.2 = s.2 /\ s'.1.(w_rt).(tasks) = s.1.(w_rt).(tasks) /\
  same_geometry s.1.(w_rt).(buffer) s'.1.(w_rt).(buffer).

Lemma wp_host_heap {A} (m : M (heap Fut) A) a h (Q : A -> Process -> Prop) (s : Process) :
  m s.1.(w_heap) = Ok (a, h) -> Q a (set_w_heap h s.1, s.2) -> wp (zoom (host_heap (TaskHost := host)) m) Q s.
Proof. intros E HQ. unfold wp, zoom. cbn [lget host_heap exiting_host]. by rewrite E. Qed.

(** The heap one release leaves. *)
Definition drop_heap (p : Z) (r : RawTask Fut) (h : heap Fut) : heap Fut :=
  match released r with
  | Some r' => <[p := r']> h
  | None => delete p h
  end.

Lemma wp_free_task_exiting p r (s : Process) :
  wp (free_task (TaskHost0 := host) p r.(rt_future))
    (fun _ s' => drop_step (delete p s.1.(w_heap)) s s')
    (set_w_heap (<[p := r]> s.1.(w_heap)) s.1, s.2).
Proof.
  unfold free_task. apply wp_bind. cbn [host_drop_fn exiting_host]. apply wp_zoom.
  eapply wp_mono; [by apply drop_fn_exits|]. intros [] w2 (Hh & Ht & Hb). cbn [process_world lset lget fst snd] in *.
  apply wp_bind. eapply wp_host_heap; [apply load_ok; cbn [fst]; rewrite Hh; apply lookup_insert_eq|].
  apply wp_bind. eapply wp_host_heap.
  { cbn [fst]. unfold dealloc. cbn [w_heap set_w_heap]. rewrite Hh. cbn [w_heap set_w_heap fst].
    by rewrite lookup_insert_eq. }
  destruct (rt_slab_idx r); [|apply wp_ret].
  - unfold host_push_free, exiting_host. destruct free_list_alive; [apply wp_modify|apply wp_ret];
      (split; [cbn; by rewrite delete_insert_eq|by split]).
  - split; [cbn; by rewrite delete_insert_eq|by split].
Qed.

Lemma wp_Task_drop_exiting p r (s : Process) : s.1.(w_heap) !! p = Some r -> 0 < r.(rt_ref_counter) ->
  wp (Task_drop (TaskHost0 := host) p) (fun _ s' => drop_step (drop_heap p r s.1.(w_heap)) s s') s.
Proof.
  intros Hr Hpos. unfold Task_drop, release. apply wp_bind, wp_bind.
  eapply wp_host_heap; [by apply load_ok|]. apply wp_bind, wp_sub_w; [lia|]. apply wp_bind.
  eapply wp_host_heap; [by eapply store_ok|]. cbn [fst snd].
  apply wp_bind. apply (wp_mono _ (fun _ s' => drop_step (drop_heap p r s.1.(w_heap)) s s')).
  2:{ intros [] s' Hs'. apply (wp_counter (host := host)). intros n. by apply wp_ret. }
  unfold drop_heap, released. destruct (Z.eqb_spec (rt_ref_counter r) 1) as [Hone|Hne].
  - rewrite (proj2 (Z.eqb_eq _ 0)) by lia. rewrite set_w_heap_id.
    exact (wp_free_task_exiting p (set_ref_counter (rt_ref_counter r - 1) r) s).
  - rewrite (proj2 (Z.eqb_neq _ 0)) by lia. apply wp_ret. by repeat split.
Qed.

(** Every task handle in the slots names an allocated header of its own. *)
Definition droppable (sl : list Z) (h : heap Fut) : Prop :=
  NoDup (task_slots sl) /\
  forall p, p ∈ task_slots sl -> exists r, h !! p = Some r /\ 0 < r.(rt_ref_counter).

Lemma task_slots_cons w sl : task_slots (w :: sl) = if is_free w then task_slots sl else w :: task_slots sl.
Proof. unfold task_slots. simpl. by destruct (is_free w). Qed.

(** Dropping the slots from [sl] on, those before having been dropped. *)
Lemma wp_drop_slots h sl : forall ps (s : Process),
  droppable sl h -> (forall p, p ∈ ps -> p ∉ task_slots sl) -> s.1.(w_heap) = release_all ps h ->
  wp (for_each sl (fun slot => if is_free slot then ret tt else Task_drop (TaskHost0 := host) slot))
    (fun _ s' => drop_step (release_all (ps ++ task_slots sl) h) s s') s.
Proof.
  induction sl as [|w sl IH]; intros ps s [Hnd Hin] Hps Hs; cbn [for_each].
  - apply wp_ret. rewrite app_nil_r. by repeat split.
  - rewrite task_slots_cons in *. apply wp_bind. destruct (is_free w); [by apply wp_ret, IH|].
    apply NoDup_cons in Hnd as [Hw Hnd]. destruct (Hin w) as (r & Hr & Hpos); [by left|].
    assert (Hwp : w ∉ ps) by (intros Hwp; apply (Hps w Hwp); by left).
    assert (Hsw : w_heap s.1 !! w = Some r).
    { rewrite Hs, release_all_lookup, Hr. cbn [mbind option_bind]. by rewrite decide_False. }
    eapply wp_mono; [by eapply wp_Task_drop_exiting|].
    intros [] s1 (Hh1 & Hb1 & Ht1 & Hp1). unfold drop_heap in Hh1. rewrite Hs, <- (release_all_snoc ps w h r) in Hh1 by done.
    eapply wp_mono; [apply (IH (ps ++ [w])); [| |done]|].
    + split; [done|]. intros p Hp. apply Hin. by right.
    + intros p [Hp|Hp]%elem_of_app Hp'; [by apply (Hps p Hp); right|].
      apply list_elem_of_singleton in Hp as ->. done.
    + intros [] s2 (Hh2 & Hb2 & Ht2 & Hp2). rewrite <- app_assoc in Hh2. cbn [app] in Hh2.
      split; [done|]. split; [congruence|]. split; [congruence|]. by transitivity (buffer (w_rt s1.1)).
Qed.

Lemma wp_Slab_drop h sl (s : Process) : sl.(slots) = s.1.(w_rt).(tasks).(slots) -> s.1.(w_heap) = h ->
  droppable sl.(slots) h ->
  wp (Slab_drop (host := host) sl) (fun _ s' => drop_step (release_all (task_slots sl.(slots)) h) s s') s.
Proof.
  intros Hsl Hh Hd. unfold Slab_drop. apply (wp_drop_slots h _ []); [done| |by rewrite release_all_nil].
  intros p Hp. by apply not_elem_of_nil in Hp.
Qed.
End Drops.

(** ** The slab of a runtime between two turns of the loop *)
Lemma task_slots_lookup sl p : p ∈ task_slots sl -> exists i, zlookup sl i = Some p /\ is_free p = false.
Proof.
  unfold task_slots. rewrite list_elem_of_In, List.filter_In, <- list_elem_of_In.
  intros [(i & Hi)%list_elem_of_lookup Hf]. exists (Z.of_nat i). split; [|by apply negb_true_iff].
  unfold zlookup. rewrite (proj2 (Z.leb_le _ _)) by lia. by rewrite Nat2Z.id.
Qed.

Lemma NoDup_task_slots sl :
  (forall i j p, zlookup sl i = Some p -> zlookup sl j = Some p -> is_free p = false -> i = j) ->
  NoDup (task_slots sl).
Proof.
  induction sl as [|w sl IH]; intros Hinj; [constructor|]. rewrite task_slots_cons.
  assert (Hsh : forall i p, zlookup sl i = Some p -> zlookup (w :: sl) (i + 1) = Some p).
  { intros i p Hi. pose proof (zlookup_Some _ _ _ Hi) as Hr. unfold zlookup in *.
    rewrite (proj2 (Z.leb_le 0 i)) in Hi by lia. rewrite (proj2 (Z.leb_le 0 (i + 1))) by lia.
    replace (Z.to_nat (i + 1)) with (S (Z.to_nat i)) by lia. done. }
  assert (Hnd : NoDup (task_slots sl)).
  { apply IH. intros i j p Hi Hj Hp. pose proof (Hinj _ _ p (Hsh _ _ Hi) (Hsh _ _ Hj) Hp). lia. }
  destruct (is_free w) eqn:Hw; [done|]. apply NoDup_cons. split; [|done].
  intros (i & Hi & _)%task_slots_lookup. pose proof (zlookup_Some _ _ _ Hi).
  pose proof (Hinj 0 (i + 1) w eq_refl (Hsh _ _ Hi) Hw). lia.
Qed.

Lemma slab_lookup_of s i p : zlookup s.(slots) i = Some p -> is_free p = false -> slab_lookup s i = Some p.
Proof. intros Hi Hf. unfold slab_lookup. by rewrite Hi, Hf. Qed.

Lemma inv_droppable K w : inv [] K w -> w.(RUNTIME_FREE_LIST) = [] ->
  droppable w.(w_rt).(tasks).(slots) w.(w_heap).
Proof.
  intros Hi Hf.
  assert (Hlive : forall i p, zlookup (slots (tasks (w_rt w))) i = Some p -> is_free p = false -> slot_live w i p).
  { intros i p Hz Hp. split; [by apply slab_lookup_of|]. rewrite Hf. apply not_elem_of_nil. }
  split.
  - apply NoDup_task_slots. intros i j p Hzi Hzj Hp.
    destruct (iv_slot _ _ _ Hi _ _ (Hlive _ _ Hzi Hp)) as (r1 & Hr1 & E1).
    destruct (iv_slot _ _ _ Hi _ _ (Hlive _ _ Hzj Hp)) as (r2 & Hr2 & E2). congruence.
  - intros p (i & Hz & Hp)%task_slots_lookup.
    destruct (inv_find _ _ _ _ _ Hi (Hlive _ _ Hz Hp)) as (_ & r & Hr & Hok).
    exists r. split; [done|]. apply (ho_pos _ _ _ _ Hok).
Qed.

(** Every header is in a slot: the whole heap is released once. *)
Lemma release_all_slots K w : inv [] K w ->
  release_all (task_slots w.(w_rt).(tasks).(slots)) w.(w_heap) = omap released w.(w_heap).
Proof.
  intros Hi. apply map_eq. intros p. rewrite release_all_lookup, lookup_omap.
  destruct (w_heap w !! p) as [r|] eqn:Hr; [|done]. cbn [mbind option_bind].
  destruct (iv_live _ _ _ Hi _ _ Hr) as (_ & i & [Hl _] & _). rewrite decide_True; [done|].
  unfold slab_lookup in Hl. destruct (zlookup _ i) as [q|] eqn:Hq; [|done].
  destruct (is_free q) eqn:Hf; [done|]. injection Hl as ->.
  unfold task_slots. rewrite list_elem_of_In, List.filter_In, <- list_elem_of_In. rewrite Hf.
  split; [|done]. unfold zlookup in Hq. destruct (0 <=? i); [|done]. by eapply list_elem_of_lookup_2.
Qed.

(** ** The end of the thread *)

(** The blocks of a runtime: the buffer ring, the slab (which [realloc] may
    have moved: its layout is the one of its current length) and the pool. *)
Definition runtime_blocks (buf_ring slab_ptr slab_len : Z) (pool : BufPool) : Blocks :=
  <[buf_ring := (512 * 16, PAGE_SIZE)]> (<[slab_ptr := layout_for slab_len]> {[ pool.(base) := pool.(layout) ]}).

Section Exit.
Context {prof : Profile} (free_list_alive : bool).

Lemma wp_dealloc_block p l (s : Process) (Q : unit -> Process -> Prop) : s.2 !! p = Some l ->
  Q tt (s.1, delete p s.2) -> wp (zoom process_blocks (dealloc_block p l)) Q s.
Proof.
  intros Hp HQ. apply wp_zoom. unfold wp, dealloc_block. cbn [lget process_blocks]. rewrite Hp.
  by rewrite decide_True.
Qed.

Lemma wp_Runtime_drop K w pool buf_ring slab_ptr : inv [] K w -> w.(RUNTIME_FREE_LIST) = [] ->
  same_geometry pool w.(w_rt).(buffer) -> NoDup [buf_ring; slab_ptr; pool.(base)] ->
  wp (Runtime_drop free_list_alive buf_ring (512 * 16, PAGE_SIZE) slab_ptr)
     (fun _ s => s.2 = ∅ /\ s.1.(w_heap) = omap released w.(w_heap))
     (w, runtime_blocks buf_ring slab_ptr w.(w_rt).(tasks).(len) pool).
Proof.
  intros Hi Hf Hg Hnd. unfold Runtime_drop, runtime_blocks.
  apply NoDup_cons in Hnd as [Hr Hnd]. apply NoDup_cons in Hnd as [Hs _].
  assert (Hrs : buf_ring <> slab_ptr) by set_solver. assert (Hrp : buf_ring <> base pool) by set_solver.
  assert (Hsp : slab_ptr <> base pool) by set_solver. clear Hr Hs.
  apply wp_bind. eapply wp_dealloc_block; [apply lookup_insert_eq|]. cbn [fst snd].
  rewrite delete_insert_id by (by rewrite lookup_insert_ne, lookup_singleton_ne).
  apply wp_bind, wp_gets, wp_bind.
  eapply wp_mono; [apply (wp_Slab_drop free_list_alive w.(w_heap)); [done|done|by eapply inv_droppable]|].
  intros [] [w1 b1] (Hh1 & Hb1 & Ht1 & Hg1). cbn [fst snd] in *. subst b1.
  apply wp_bind. eapply wp_dealloc_block; [apply lookup_insert_eq|]. cbn [fst snd].
  rewrite delete_insert_id by by apply lookup_singleton_ne. apply wp_bind, wp_gets. unfold BufPool_drop. cbn [fst].
  assert (Hg2 : same_geometry pool w1.(w_rt).(buffer)) by by transitivity w.(w_rt).(buffer).
  rewrite (sg_base _ _ Hg2), (sg_layout _ _ Hg2).
  eapply wp_dealloc_block; [apply lookup_singleton_eq|]. cbn [fst snd]. rewrite delete_singleton_eq.
  split; [done|]. rewrite Hh1. by eapply release_all_slots.
Qed.
Lemma dealloc_block_step {A} p l (s : Process) (k : unit -> M Process A) : s.2 !! p = Some l ->
  (let! u := zoom process_blocks (dealloc_block p l) in k u) s = k tt (s.1, delete p s.2).
Proof.
  intros Hp. apply (zoom_step process_blocks). unfold dealloc_block. cbn [lget process_blocks].
  by rewrite Hp, decide_True.
Qed.

End Exit.

(** ** [Runtime::new] on each of its paths *)
Section New.
Context {prof : Profile} {sm : SlabMemory}.

(** Computations that do not look at their state. *)
Lemma BufPool_new_any {S S'} N raw r c (s : S) (s' : S') p s1 :
  BufPool_new N raw r c s = Ok (p, s1) -> BufPool_new N raw r c s' = Ok (p, s').
Proof.
  unfold BufPool_new, bind, assert_, add_w, expect, ret, panic.
  destruct (_ && _); [|done]. destruct (_ <? _); [|destruct debug_checks; [done|]];
    (destruct (_ <=? _); [|done]); destruct raw; intros E; by simplify_eq.
Qed.

Lemma BufPool_new_read_count {S} N raw r c (s : S) p s1 :
  BufPool_new N raw r c s = Ok (p, s1) -> p.(read_count) = r.
Proof.
  unfold BufPool_new. intros (? & s2 & _ & E)%bind_Ok. apply bind_Ok in E as (? & s3 & _ & E).
  apply bind_Ok in E as (? & s4 & _ & E). apply bind_Ok in E as (? & s5 & _ & E). by injection E as <- _.
Qed.

Lemma init_buf_ring_any {S S'} iov n (s : S) (s' : S') mem s1 :
  init_buf_ring iov n s = Ok (mem, s1) -> init_buf_ring iov n s' = Ok (mem, s').
Proof. unfold init_buf_ring. destruct (bind _ _ _) as [[[] m]|?|?]; [|done..]. by intros [= <- _]. Qed.

Lemma BufPool_alloc_ok raw (s : Setup) p : BufPool_new 1 raw 512 512 tt = Ok (p, tt) ->
  zoom blocks_lens (BufPool_alloc 1 raw 512 512) s =
    Ok (p, mkSetup (<[p.(base) := p.(layout)]> s.(su_blocks)) s.(su_log)).
Proof.
  intros E. unfold zoom, BufPool_alloc. rewrite (bind_step _ _ _ _ _ (BufPool_new_any _ _ _ _ _ _ _ _ E)). done.
Qed.

(** C26: [Runtime::new] registers the file table, all the buffers and then the
    ring of read buffers, in this order, and stops at the first call that fails;
    on success it holds the ring, the slab and the pool, and starts from the
    state the event loop is shown correct from.  When the last registration
    fails the pool is given back but the block of the ring is leaked. *)
Theorem Runtime_new_paths entries max_connections an pool ring slab w0 :
  an.(an_build) = None -> an.(an_pool) = Some pool -> an.(an_ring) = Some ring -> an.(an_slab) = Some slab ->
  initial_world (Some pool) tt = Ok (w0, tt) -> ring <> w0.(w_rt).(buffer).(base) ->
  let files := [RegisterFilesSparse max_connections] in
  let buffers := files ++ [RegisterBuffers (build_iovecs 1 w0.(w_rt).(buffer))] in
  let buf_ring := buffers ++ [RegisterBufRing ring 512 0 0] in
  Runtime_new entries max_connections an (mkSetup ∅ []) = Ok
    match an.(an_files), an.(an_buffers), an.(an_buf_ring) with
    | Some errno, _, _ => (inr errno, mkSetup ∅ files)
    | None, Some errno, _ => (inr errno, mkSetup ∅ buffers)
    | None, None, Some errno => (inr errno, mkSetup {[ ring := (512 * 16, PAGE_SIZE) ]} buf_ring)
    | None, None, None =>
        (inl (mkRuntimeBox w0 ring (512 * 16, PAGE_SIZE) slab),
         mkSetup (<[slab := layout_for 16]> (<[ring := (512 * 16, PAGE_SIZE)]>
           {[ w0.(w_rt).(buffer).(base) := w0.(w_rt).(buffer).(layout) ]})) buf_ring)
    end.
Proof.
  intros Hb Hp Hr Hs Hw Hne files buffers buf_ring. rewrite initial_world_unfold in Hw.
  apply bind_Ok in Hw as (p & [] & Ep & Hw). apply bind_Ok in Hw as (mem & [] & Em & Hw).
  apply bind_Ok in Hw as (sl & [] & Es & Hw). injection Hw as <-. cbn [w_rt buffer] in *.
  pose proof (BufPool_new_read_count _ _ _ _ _ _ _ Ep) as Hrc.
  unfold Runtime_new, register. rewrite Hb. rewrite (bind_step _ _ _ _ _ eq_refl).
  rewrite (bind_step _ _ _ _ _ eq_refl). cbn [su_blocks su_log app]. destruct (an_files an) as [e|]; [done|].
  rewrite Hp, (bind_step _ _ _ _ _ (BufPool_alloc_ok _ _ _ Ep)). cbn [su_blocks su_log].
  rewrite (bind_step _ _ _ _ _ eq_refl). cbn [su_blocks su_log app].
  assert (Hdrop : forall l, zoom blocks_lens (BufPool_drop p) (mkSetup {[base p := layout p]} l) = Ok (tt, mkSetup ∅ l)).
  { intros l. unfold zoom, BufPool_drop, dealloc_block. cbn [lget blocks_lens su_blocks].
    rewrite lookup_singleton_eq, decide_True by done. by rewrite delete_singleton_eq. }
  destruct (an_buffers an) as [e|]; [by rewrite (bind_step _ _ _ _ _ (Hdrop _))|].
  rewrite Hr, Hrc. rewrite (bind_step _ _ _ _ _ eq_refl).
  rewrite Hrc in Em. rewrite (bind_step _ _ _ _ _ (init_buf_ring_any _ _ _ _ _ _ Em)).
  rewrite (bind_step _ _ _ _ _ eq_refl). cbn [su_blocks su_log app lset blocks_lens].
  destruct (an_buf_ring an) as [e|].
  - erewrite bind_step; [reflexivity|]. unfold zoom, BufPool_drop, dealloc_block. cbn [lget lset blocks_lens su_blocks su_log].
    rewrite lookup_insert_ne, lookup_insert_eq, decide_True by done.
    by rewrite delete_insert_ne, delete_insert_eq, delete_empty by done.
  - unfold Slab_alloc. rewrite Hs. erewrite bind_step; [|reflexivity]. injection Es as <-. reflexivity.
Qed.
End New.

(** ** Teardown after [block_on] *)
Section AfterRun.
Context {prof : Profile} {flags : CqueueFlags} {al : Allocator} {fl : FutLayout Fut} {sm : SlabMemory}.
Context {al_laws : AllocatorLaws} {sm_laws : SlabMemoryLaws}.

Lemma Slab_drop_none (host : TaskHost Process Fut) sl (s : Process) : task_slots sl.(slots) = [] ->
  Slab_drop sl s = Ok (tt, s).
Proof.
  unfold Slab_drop, SlabSlot_drop. induction sl.(slots) as [|w l IH]; [done|]. rewrite task_slots_cons. cbn [for_each].
  destruct (is_free w); [|done]. intros Hsl. rewrite (bind_step _ _ _ tt s eq_refl). by apply IH.
Qed.

(** Without tasks only the blocks are left to give back. *)
Lemma Runtime_drop_bare free_list_alive pool buf_ring slab_ptr w :
  task_slots w.(w_rt).(tasks).(slots) = [] -> same_geometry pool w.(w_rt).(buffer) ->
  NoDup [buf_ring; slab_ptr; pool.(base)] ->
  Runtime_drop free_list_alive buf_ring (512 * 16, PAGE_SIZE) slab_ptr
    (w, runtime_blocks buf_ring slab_ptr w.(w_rt).(tasks).(len) pool) = Ok (tt, (w, ∅)).
Proof.
  intros Hnone Hg Hnd. unfold Runtime_drop, runtime_blocks.
  apply NoDup_cons in Hnd as [Hr Hnd]. apply NoDup_cons in Hnd as [Hs _].
  assert (Hrs : buf_ring <> slab_ptr) by set_solver. assert (Hrp : buf_ring <> base pool) by set_solver.
  assert (Hsp : slab_ptr <> base pool) by set_solver.
  rewrite dealloc_block_step by apply lookup_insert_eq. cbn [fst snd].
  rewrite delete_insert_id by (by rewrite lookup_insert_ne, lookup_singleton_ne).
  rewrite (bind_step _ _ _ _ _ eq_refl). rewrite (bind_step _ _ _ _ _ (Slab_drop_none _ _ _ Hnone)).
  rewrite dealloc_block_step by apply lookup_insert_eq. cbn [fst snd].
  rewrite delete_insert_id by by apply lookup_singleton_ne. rewrite (bind_step _ _ _ _ _ eq_refl).
  unfold BufPool_drop, zoom, dealloc_block. cbn [lget lset process_blocks fst snd].
  rewrite (sg_base _ _ Hg), (sg_layout _ _ Hg). by rewrite lookup_singleton_eq, decide_True, delete_singleton_eq.
Qed.

Lemma start_geometry base w0 future steps b w : initial_world (Some base) tt = Ok (w0, tt) ->
  block_on future steps w0 = Ok (b, w) -> same_geometry w0.(w_rt).(buffer) w.(w_rt).(buffer).
Proof. intros _ E. apply (stable_block_on same_pool_geometry _ _ _ _ _ E). Qed.

(** C20: the end of a thread whose [block_on] returned, for bodies that satisfy
    [prog_ok] (no [WBuffer::submit], fan-outs to fewer than 2^16 descriptors): the
    destructors of the
    runtime run to the end, each block (the buffer ring, the slab, the pool) is
    given back once and with the layout it was allocated with, and nothing is
    left, not even a task header. *)
Theorem teardown_after_return free_list_alive base w0 future steps Kend w buf_ring slab_ptr :
  pool_block base -> initial_world (Some base) tt = Ok (w0, tt) -> prog_ok future ->
  valid_run future steps w0 Kend -> block_on future steps w0 = Ok (Returned, w) ->
  NoDup [buf_ring; slab_ptr; w0.(w_rt).(buffer).(BufPool.base)] ->
  exists s, Runtime_drop free_list_alive buf_ring (512 * 16, PAGE_SIZE) slab_ptr
      (w, runtime_blocks buf_ring slab_ptr w.(w_rt).(tasks).(len) w0.(w_rt).(buffer)) = Ok (tt, s) /\
    s.2 = ∅ /\ s.1.(w_heap) = ∅.
Proof.
  intros Hb Hw0 Hok Hv E Hnd. pose proof (start_geometry _ _ _ _ _ _ Hw0 E) as Hg.
  destruct (wp_Ok _ _ _ _ _ (loop_from_start _ _ _ _ _ Hb Hw0 Hok Hv) E) as [(Hh & _ & _ & Hf) Hi].
  destruct (inv_droppable _ _ Hi Hf) as [_ Hd].
  assert (Hnone : task_slots (slots (tasks (w_rt w))) = []).
  { destruct (task_slots _) as [|p ps]; [reflexivity|]. destruct (Hd p) as (r & Hr & _); [constructor|].
    rewrite Hh, lookup_empty in Hr. discriminate Hr. }
  exists (w, ∅). split; [by apply Runtime_drop_bare|]. by split.
Qed.

(** C21: the end of a thread whose [block_on] returned an error of the kernel,
    with tasks still waiting, for bodies that satisfy [prog_ok] (no
    [WBuffer::submit], fan-outs to fewer than 2^16 descriptors): the destructors
    release each task once.  None of them reaches a task that another has freed,
    or gives a block back twice or with another layout; the one undefined access
    they can perform is that of [release], which reads the counter of the header
    it has just freed, under a profile that counts it as undefined.  Once they
    have run, the blocks of the runtime are all given back, a task with one entry
    in flight has been freed, and a task with more is leaked with one reference
    less. *)
Theorem teardown_after_error free_list_alive base w0 future steps Kend errno w buf_ring slab_ptr :
  pool_block base -> initial_world (Some base) tt = Ok (w0, tt) -> prog_ok future ->
  valid_run future steps w0 Kend -> block_on future steps w0 = Ok (IoError errno, w) ->
  NoDup [buf_ring; slab_ptr; w0.(w_rt).(buffer).(BufPool.base)] ->
  let dropped := Runtime_drop free_list_alive buf_ring (512 * 16, PAGE_SIZE) slab_ptr
    (w, runtime_blocks buf_ring slab_ptr w.(w_rt).(tasks).(len) w0.(w_rt).(buffer)) in
  (forall what, dropped = Ub what -> freed_counter = None /\ what = freed_read) /\
  forall s, dropped = Ok (tt, s) -> s.2 = ∅ /\
    forall p, s.1.(w_heap) !! p = w.(w_heap) !! p ≫= fun r =>
      if r.(rt_ref_counter) =? 1 then None else Some (set_ref_counter (r.(rt_ref_counter) - 1) r).
Proof.
  intros Hb Hw0 Hok Hv E Hnd dropped. pose proof (start_geometry _ _ _ _ _ _ Hw0 E) as Hg.
  destruct (wp_Ok _ _ _ _ _ (loop_from_start _ _ _ _ _ Hb Hw0 Hok Hv) E) as [Hf [K Hi]].
  pose proof (wp_Runtime_drop free_list_alive _ _ _ buf_ring slab_ptr Hi Hf Hg Hnd) as Hwp.
  split; [intros what; exact (wp_Ub _ _ _ _ Hwp)|]. intros s Es.
  destruct (wp_Ok _ _ _ _ _ Hwp Es) as [Hbl Hh]. split; [exact Hbl|]. intros p. rewrite Hh. apply lookup_omap.
Qed.
End AfterRun.

(** ** A thread that ends in the middle of a turn *)

(** No header appears. *)
Definition fades (h h' : heap Fut) : Prop := forall p, h !! p = None -> h' !! p = None.
Definition process_fades (s s' : Process) : Prop := fades s.1.(w_heap) s'.1.(w_heap).

#[local] Instance fades_preorder : PreOrder fades.
Proof. split; [by intros h p|]. intros h1 h2 h3 H1 H2 p Hp. by apply H2, H1. Qed.

#[local] Instance process_fades_preorder : PreOrder process_fades.
Proof. split; [by intros s p|]. intros s1 s2 s3 H1 H2. exact (transitivity (R := fades) H1 H2). Qed.

Section Fades.
Context {prof : Profile} (free_list_alive : bool).
#[local] Existing Instance exiting_host | 0.
Abbreviation host := (exiting_host free_list_alive).

Lemma load_fades p : stable fades (load p).
Proof. intros h r h'. unfold load. destruct (h !! p); [|done]. by intros [= _ <-]. Qed.

Lemma store_fades p r : stable fades (store p r).
Proof.
  intros h [] h'. unfold store. destruct (h !! p) eqn:Hp; [|done]. intros [= <-] q Hq.
  rewrite lookup_insert_ne; [done|]. congruence.
Qed.

Lemma dealloc_fades p l : stable fades (dealloc p l).
Proof.
  intros h [] h'. unfold dealloc. destruct (h !! p); [|done]. intros [= <-] q Hq.
  rewrite lookup_delete_None. by right.
Qed.

Lemma read_counter_fades p : stable fades (read_counter p).
Proof. intros h n h'. unfold read_counter. destruct (h !! p); [|destruct freed_counter]; by try intros [= _ <-]. Qed.

Lemma host_heap_fades {A} (m : M (heap Fut) A) : stable fades m ->
  stable process_fades (zoom (host_heap (TaskHost := host)) m).
Proof. intros Hm. eapply stable_zoom; [exact Hm|]. by intros h [w b]. Qed.

Lemma drop_fn_fades f : stable process_fades (host_drop_fn (TaskHost := host) f).
Proof.
  cbn [host_drop_fn exiting_host]. eapply stable_zoom; [apply (stable_keeps _ _ (drop_fn_exits f))|].
  intros w [w0 b] (Hh & _). unfold process_fades. cbn [lset lget process_world fst snd] in *. by rewrite Hh.
Qed.

Lemma push_free_fades i : stable process_fades (host_push_free (TaskHost := host) i).
Proof. cbn [host_push_free exiting_host]. destruct free_list_alive; [apply stable_modify; by intros s q|apply stable_ret, _]. Qed.

Lemma Task_drop_fades p : stable process_fades (Task_drop (TaskHost0 := host) p).
Proof.
  unfold Task_drop, release, free_task.
  repeat first
    [ apply host_heap_fades; first [apply load_fades|apply store_fades|apply dealloc_fades|apply read_counter_fades]
    | apply drop_fn_fades | apply push_free_fades | stable_step ].
Qed.

Lemma Task_drop_missing p (s : Process) : s.1.(w_heap) !! p = None ->
  Task_drop (TaskHost0 := host) p s = Ub "read of a freed task header".
Proof.
  intros Hp. unfold Task_drop, release, bind, zoom at 1, load. cbn [lget host_heap exiting_host]. by rewrite Hp.
Qed.

(** A slot whose task is gone: the destructors of the slots stop there, if they
    get that far. *)
Lemma drop_slots_missing p sl : p ∈ task_slots sl -> forall s : Process, s.1.(w_heap) !! p = None ->
  forall s', for_each sl (SlabSlot_drop (host := host)) s <> Ok (tt, s').
Proof.
  induction sl as [|q sl IH]; intros Hin s Hp s' E; [by apply not_elem_of_nil in Hin|].
  cbn [for_each] in E. apply bind_Ok in E as ([] & s1 & E1 & E). rewrite task_slots_cons in Hin.
  unfold SlabSlot_drop in E1. destruct (is_free q).
  - injection E1 as <-. by eapply IH.
  - apply elem_of_cons in Hin as [<-|Hin]; [by rewrite Task_drop_missing in E1|].
    apply (IH Hin s1) in E; [done|]. by apply Task_drop_fades in E1; apply E1.
Qed.

Lemma drop_slots_first p sl : forall i (s : Process), 0 <= i -> zlookup sl i = Some p -> is_free p = false ->
  (forall j, 0 <= j < i -> exists q, zlookup sl j = Some q /\ is_free q = true) -> s.1.(w_heap) !! p = None ->
  for_each sl (SlabSlot_drop (host := host)) s = Ub "read of a freed task header".
Proof.
  induction sl as [|q sl IH]; intros i s Hi Hl Hf Hfree Hp; [by apply zlookup_Some in Hl; cbn in Hl; lia|].
  cbn [for_each]. destruct (Z.eqb_spec i 0) as [->|Hne].
  - injection Hl as ->. unfold SlabSlot_drop at 1. rewrite Hf. unfold bind. by rewrite Task_drop_missing.
  - destruct (Hfree 0) as (q' & [= <-] & Hq); [lia|]. unfold SlabSlot_drop at 1. rewrite Hq.
    rewrite (bind_step _ _ _ tt s eq_refl).
    assert (Hsh : forall j, 0 < j -> zlookup (q :: sl) j = zlookup sl (j - 1)).
    { intros j Hj. unfold zlookup. rewrite !(proj2 (Z.leb_le 0 _)) by lia.
      replace (Z.to_nat j) with (S (Z.to_nat (j - 1))) by lia. done. }
    apply (IH (i - 1)); [lia|by rewrite <- Hsh by lia|done| |done].
    intros j Hj. destruct (Hfree (j + 1)) as (q2 & Hq2 & Hf2); [lia|]. exists q2. split; [|done].
    rewrite Hsh in Hq2 by lia. by replace (j + 1 - 1) with j in Hq2 by lia.
Qed.
End Fades.

Section MidTurn.
Context {prof : Profile} {flags : CqueueFlags}.

Lemma slab_lookup_slot s i p : slab_lookup s i = Some p -> zlookup s.(slots) i = Some p /\ is_free p = false.
Proof. unfold slab_lookup. destruct (zlookup _ i) as [q|]; [|done]. destruct (is_free q) eqn:Hf; [done|]. by intros [= ->]. Qed.

(** C35: the last release of a task leaves its slot pointing to the freed header
    until [remove_dropped_task] empties it, at the end of the turn.  When the
    thread ends in between, as it does when handling another completion of the
    same batch panics, its destructors never run to the end; and when the block of
    the buffer ring is given back as it was allocated and no slot before that one is
    occupied, they read the freed header. *)
Theorem freed_slot_breaks_teardown free_list_alive i p r n w w1 buf_ring layout slab_ptr blocks :
  ring_ok w -> slab_lookup w.(w_rt).(tasks) i = Some p -> w.(w_heap) !! p = Some r -> r.(rt_ref_counter) = 1 ->
  release p w = Ok (n, w1) ->
  let dropped := Runtime_drop free_list_alive buf_ring layout slab_ptr (w1, blocks) in
  (forall s, dropped <> Ok (tt, s)) /\
  (blocks !! buf_ring = Some layout ->
   (forall j, 0 <= j < i -> slab_lookup w.(w_rt).(tasks) j = None) ->
   dropped = Ub "read of a freed task header").
Proof.
  intros Hring Hl Hr Hone E dropped. apply slab_lookup_slot in Hl as [Hl Hf].
  destruct (wp_Ok _ _ _ _ _ (wp_last_release p r w Hring Hr Hone) E) as (w2 & Hq & ->).
  set (w1 := set_free_list _ _) in *.
  assert (Hgone : w1.(w_heap) !! p = None) by apply lookup_delete_eq.
  assert (Hsl : w1.(w_rt).(tasks) = w.(w_rt).(tasks)) by exact (q_tasks _ _ Hq).
  split.
  - intros s Es. unfold dropped, Runtime_drop in Es. apply bind_Ok in Es as ([] & s1 & E1 & Es).
    apply bind_Ok in Es as (rt & s2 & [= <- <-] & Es). apply bind_Ok in Es as ([] & s3 & E3 & _).
    assert (Hw : s1.1 = w1).
    { unfold zoom in E1. destruct (dealloc_block _ _ _) as [[[] b]|?|?]; [|done..]. by injection E1 as <-. }
    rewrite Hw, Hsl in E3. eapply (drop_slots_missing free_list_alive p); [|by rewrite Hw|exact E3].
    unfold task_slots. rewrite list_elem_of_In, List.filter_In, <- list_elem_of_In, Hf. split; [|done].
    unfold zlookup in Hl. destruct (0 <=? i); [|done]. by eapply list_elem_of_lookup_2.
  - intros Hb Hlow. unfold dropped, Runtime_drop. rewrite dealloc_block_step by done. cbn [fst snd].
    rewrite (bind_step _ _ _ _ _ eq_refl). cbn [fst]. rewrite Hsl. unfold bind, Slab_drop.
    pose proof (zlookup_Some _ _ _ Hl) as Hi.
    rewrite (drop_slots_first free_list_alive p _ i); [done|lia|done..| |done].
    intros j Hj. destruct (zlookup_lt w.(w_rt).(tasks).(slots) j) as [q Hq']; [lia|]. exists q. split; [done|].
    specialize (Hlow j Hj). unfold slab_lookup in Hlow. rewrite Hq' in Hlow. by destruct (is_free q).
Qed.
End MidTurn.

(** *** A run of the loop that does so *)

(** Two tasks wait for a connection; the body of the second panics when it gets
    one. *)
Definition one_panics : Prog :=
  Spawn (Await (accept 3) [] (fun _ => Return))
    (Spawn (Await (accept 3) [] (fun _ => Unwind "boom")) Return).

Definition first_cqe : Cqe := done_cqe (ud 1 65535 0) 7.
Definition second_cqe : Cqe := done_cqe (ud 2 65535 0) 8.

(** The turn up to the completion of the second task. *)
Definition up_to_panic : M World unit :=
  block_on one_panics [] ;;!
  with_borrow_mut (submit_and_wait (KernelBatch [first_cqe; second_cqe])) ;;!
  is_runtime_free ;;!
  handle_cqe_entry first_cqe.

(** The first completion frees its task, whose slot waits in the free
    list; the second one panics; the destructors of the thread then release the
    task in that slot again, which reads its freed header. *)
Theorem panic_exit_run :
  block_on one_panics [KernelBatch [first_cqe; second_cqe]] start = Panic "boom" /\
  match up_to_panic start with
  | Ok (_, w) =>
      handle_cqe_entry second_cqe w = Panic "boom" /\
      Runtime_drop true 8392704 (512 * 16, PAGE_SIZE) 8400896
        (w, runtime_blocks 8392704 8400896 16 start.(w_rt).(buffer)) = Ub "read of a freed task header"
  | _ => False
  end.
Proof. split_and!; vm_compute; [reflexivity|split; reflexivity]. Qed.

Module TeardownExamples.
Import EventLoopExamples.

Lemma distinct_blocks : NoDup [8392704; 8400896; start.(w_rt).(buffer).(base)].
Proof. apply (bool_decide_unpack _). vm_compute. exact Logic.I. Qed.

Lemma teardown_after_return_witness : exists w s,
  block_on server batches start = Ok (Returned, w) /\
  Runtime_drop true 8392704 (512 * 16, PAGE_SIZE) 8400896
    (w, runtime_blocks 8392704 8400896 w.(w_rt).(tasks).(len) start.(w_rt).(buffer)) = Ok (tt, s) /\ s.2 = ∅.
Proof.
  destruct (ends_Some _ _ _ server_returns) as (Hv & w & E).
  destruct (teardown_after_return true pool_base start server batches [] w 8392704 8400896
    pool_base_block initial_world_start server_ok Hv E distinct_blocks) as (s & Es & Hb & _).
  exists w, s. split; [exact E|]. split; [exact Es|exact Hb].
Defined.

(** The kernel fails while the second task waits for data. *)
Definition failing : list KernelStep := [KernelBatch [done_cqe (ud 0 65535 0) 7]; KernelError 4].

Lemma failing_run : exists w Kend, valid_run server failing start Kend /\
  block_on server failing start = Ok (IoError 4, w) /\
  exists r, w.(w_heap) !! 64 = Some r /\ r.(rt_ref_counter) = 1.
Proof.
  assert (Hc : match check_run server failing start, block_on server failing start with
               | Some _, Ok (IoError e, w) =>
                   e = 4 /\ (fun r => r.(rt_ref_counter)) <$> w.(w_heap) !! 64 = Some 1
               | _, _ => False
               end) by (vm_compute; split; reflexivity).
  destruct (check_run server failing start) as [K|] eqn:Hk; [|destruct Hc].
  destruct (block_on server failing start) as [[[| e |] w]|?|?] eqn:E; try (exfalso; exact Hc).
  destruct Hc as [-> Hc].
  exists w, K. split; [exact (check_run_sound _ _ _ _ Hk)|]. split; [reflexivity|].
  destruct (w_heap w !! 64) as [r|]; [|discriminate Hc]. exists r. split; [reflexivity|].
  injection Hc as Hrc. exact Hrc.
Qed.

Lemma teardown_after_error_witness : exists w, block_on server failing start = Ok (IoError 4, w) /\
  forall s, Runtime_drop true 8392704 (512 * 16, PAGE_SIZE) 8400896
    (w, runtime_blocks 8392704 8400896 w.(w_rt).(tasks).(len) start.(w_rt).(buffer)) = Ok (tt, s) ->
  s.2 = ∅ /\ s.1.(w_heap) !! 64 = None.
Proof.
  destruct failing_run as (w & Kend & Hv & E & r & Hr & Hrc). exists w. split; [exact E|]. intros s Es.
  destruct (teardown_after_error true pool_base start server failing Kend 4 w 8392704 8400896
    pool_base_block initial_world_start server_ok Hv E distinct_blocks) as (_ & H).
  destruct (H s Es) as [Hb Hh]. split; [exact Hb|]. rewrite Hh, Hr. cbn [mbind option_bind]. rewrite Hrc.
  reflexivity.
Defined.

(** The one task of [world_held] is freed, and the thread ends there. *)
Lemma freed_slot_breaks_teardown_witness : exists w1,
  release 32 LifetimeExamples.world_held = Ok (0, w1) /\
  Runtime_drop true 8392704 (512 * 16, PAGE_SIZE) 8400896
    (w1, {[ 8392704 := (512 * 16, PAGE_SIZE) ]}) = Ub "read of a freed task header".
Proof.
  destruct (release 32 LifetimeExamples.world_held) as [[n w1]|?|?] eqn:E.
  2-3: exfalso; vm_compute in E; discriminate E.
  destruct (freed_slot_breaks_teardown true 0 32 LifetimeExamples.holder n LifetimeExamples.world_held w1
    8392704 (512 * 16, PAGE_SIZE) 8400896 {[ 8392704 := (512 * 16, PAGE_SIZE) ]}
    BufRingExamples.mem4_wf eq_refl eq_refl eq_refl E) as [_ H].
  exists w1. split.
  - assert (n = 0) as ->; [|reflexivity]. vm_compute in E. injection E as <- _. reflexivity.
  - apply H; [apply lookup_singleton_eq|]. intros j Hj. lia.
Defined.

(** The last registration fails: the block of the ring stays allocated. *)
Definition no_buf_ring : Answers := mkAnswers None None (Some pool_base) None (Some 8392704) (Some 22) (Some 8400896).

Lemma Runtime_new_paths_witness : exists log,
  Runtime_new 1024 1024 no_buf_ring (mkSetup ∅ []) = Ok (inr 22, mkSetup {[ 8392704 := (8192, 4096) ]} log).
Proof.
  eexists. refine (Runtime_new_paths 1024 1024 no_buf_ring pool_base 8392704 8400896 start
    eq_refl eq_refl eq_refl eq_refl initial_world_start _).
  intros H. vm_compute in H. discriminate H.
Defined.
End TeardownExamples.
