(* ===== verification/Dispatch.v ===== *)
(** * Dispatching completions, and spawning from a body

    What [handle_cqe_entry] does with one completion, by how its syscall number
    compares with the one stored in the task, and the equality of a [Spawn] step
    of a body with the public [spawn]. *)

From S2P Require Import Prelude UserData Io Task Slab BufPool BufRing Futures Runtime Calls Executor Quiet Invariant Concrete.

Section Dispatch.
Context {prof : Profile} {flags : CqueueFlags} {al : Allocator} {fl : FutLayout Fut} {sm : SlabMemory}.

(** The completion [c] names the live task at slab index [i], address [p] and
    header [r], and the runtime is not borrowed. *)
Record addressed (w : World) (c : Cqe) (i p : Z) (r : RawTask Fut) : Prop := {
  ad_borrow : w.(w_borrow) = 0;
  ad_idx : (info_from_entry c).(ti_tag).(task_idx) = i;
  ad_slab : slab_wf w.(w_rt).(tasks);
  ad_lookup : slab_lookup w.(w_rt).(tasks) i = Some p;
  ad_heap : w.(w_heap) !! p = Some r;
  ad_rc : 0 <= r.(rt_ref_counter) < 65535;
}.

Lemma zoom_heap_step {A B} (m : M (heap Fut) A) (k : A -> M World B) a h w :
  m w.(w_heap) = Ok (a, h) -> (let! x := zoom heap_lens m in k x) w = k a (set_w_heap h w).
Proof. intros E. unfold bind, zoom. cbn [lget heap_lens]. by rewrite E. Qed.

Lemma clone_task_eq w c i p r : addressed w c i p r ->
  clone_task i w = Ok (p, set_w_heap (<[p := set_ref_counter (r.(rt_ref_counter) + 1) r]> w.(w_heap)) w).
Proof.
  intros [Hb _ Hs Hl Hh Hrc]. unfold clone_task, with_borrow_mut.
  rewrite (bind_step _ _ _ _ w eq_refl), Hb. rewrite (bind_step _ _ _ tt w eq_refl).
  rewrite (bind_step _ _ _ tt (set_w_borrow (-1) w) eq_refl).
  assert (E : (let! p := task_at i in zoom heap_lens (Task_clone p)) (set_w_borrow (-1) w) =
    Ok (p, set_w_heap (<[p := set_ref_counter (r.(rt_ref_counter) + 1) r]> w.(w_heap)) (set_w_borrow (-1) w))).
  { rewrite (bind_step _ _ _ p (set_w_borrow (-1) w)) by by apply task_at_ok.
    unfold zoom, Task_clone, bind. cbn [lget heap_lens w_heap set_w_borrow].
    rewrite (inc_rc_eq _ _ _ Hh) by (unfold fits; lia).
    by rewrite (proj2 (Z.leb_gt _ _)) by lia. }
  rewrite (bind_step _ _ _ _ _ E). by destruct w; simpl in *; subst.
Qed.

(** Up to the poll, every branch is determined by the comparison. *)
Lemma handle_cqe_eq w c i p r : addressed w c i p r ->
  let info := info_from_entry c in
  let h := <[p := set_ref_counter (r.(rt_ref_counter) + 1) r]> w.(w_heap) in
  handle_cqe_entry c w =
    match compare_syscall_nb r.(rt_syscall_nb) info.(ti_tag).(syscall_nb) with
    | Expired =>
        ((if more c.(cqe_flags) then ret tt else release p ;;! ret tt) ;;! Task_drop p) (set_w_heap h w)
    | Error => Panic "Recieve a SQE newer than expected"
    | Normal =>
        (let! nb := add_w 16 info.(ti_tag).(syscall_nb) 1 in
         zoom heap_lens (augmente_syscall_nb p) ;;!
         modify (set_current (mkTaskInfo (mkTag i nb) info.(ti_result) info.(ti_flags) info.(ti_response_gen))) ;;!
         task_poll p ;;! (if more c.(cqe_flags) then ret tt else release p ;;! ret tt) ;;! Task_drop p)
          (set_w_heap h w)
    | Multiple =>
        (task_poll p ;;! (if more c.(cqe_flags) then ret tt else release p ;;! ret tt) ;;! Task_drop p)
          (set_current info (set_w_heap h w))
    end.
Proof.
  intros Ha info h. unfold handle_cqe_entry. cbv zeta.
  pose proof (ad_idx _ _ _ _ _ Ha) as Hidx. fold info in Hidx |- *. rewrite Hidx.
  rewrite (bind_step _ _ _ _ _ (clone_task_eq _ _ _ _ _ Ha)). fold h.
  rewrite (zoom_heap_step _ _ (compare_syscall_nb r.(rt_syscall_nb) info.(ti_tag).(syscall_nb)) h).
  - replace (set_w_heap h (set_w_heap h w)) with (set_w_heap h w) by done.
    destruct (compare_syscall_nb _ _); [done| | |done]; rewrite !bind_assoc.
    2: { rewrite (bind_step _ _ _ tt (set_current info (set_w_heap h w)) eq_refl), bind_assoc. by apply bind_ext. }
    apply bind_ext. intros nb w1 _. rewrite !bind_assoc. apply bind_ext. intros [] w2 _.
    rewrite !bind_assoc. apply bind_ext. intros [] w3 _. rewrite !bind_assoc. by apply bind_ext.
  - unfold evaluate_syscall_nb, get_syscall_nb, h. cbn [w_heap set_w_heap].
    rewrite (bind_step _ _ _ (rt_syscall_nb r) h); [done|].
    by rewrite (bind_step _ _ _ _ _ (load_ok h p _ (lookup_insert_eq _ _ _))).
Qed.

(** Giving back one or two references while others are left. *)
Lemma release_eq w p r : w.(w_heap) !! p = Some r -> 1 < r.(rt_ref_counter) ->
  release p w = Ok (r.(rt_ref_counter) - 1,
    set_w_heap (<[p := set_ref_counter (r.(rt_ref_counter) - 1) r]> w.(w_heap)) w).
Proof.
  intros Hr Hrc. unfold release. cbn [host_heap world_host].
  rewrite (zoom_heap_step _ _ r w.(w_heap)) by by apply load_ok. rewrite set_w_heap_id.
  unfold sub_w. rewrite (proj2 (Z.leb_le _ _)) by lia. rewrite (bind_step _ _ _ _ w eq_refl).
  rewrite (zoom_heap_step _ _ tt (<[p := set_ref_counter (r.(rt_ref_counter) - 1) r]> w.(w_heap)))
    by by eapply store_ok.
  rewrite (proj2 (Z.eqb_neq _ _)) by lia. set (r' := set_ref_counter _ r). rewrite (bind_step _ _ _ tt _ eq_refl).
  unfold zoom. cbn [lget lset heap_lens w_heap set_w_heap]. by rewrite (read_counter_ok _ p r') by apply lookup_insert_eq.
Qed.

(** The reference a stale completion takes and gives back; [b] says whether
    more completions of its entry follow. *)
Lemma stale_effect (b : bool) p r w : w.(w_heap) !! p = Some r -> 0 < r.(rt_ref_counter) ->
  ((if b then ret tt else release p ;;! ret tt) ;;! Task_drop p)
    (set_w_heap (<[p := set_ref_counter (r.(rt_ref_counter) + 1) r]> w.(w_heap)) w) =
  if b then Ok (tt, w) else Task_drop p w.
Proof.
  intros Hr Hrc.
  set (r1 := set_ref_counter (r.(rt_ref_counter) + 1) r). set (w1 := set_w_heap (<[p := r1]> w.(w_heap)) w).
  assert (E : release p w1 = Ok (r.(rt_ref_counter), w)).
  { rewrite (release_eq w1 p r1) by (apply lookup_insert_eq || (subst r1; cbn; lia)).
    subst w1 r1. cbn [w_heap set_w_heap rt_ref_counter set_ref_counter]. rewrite insert_insert_eq.
    replace (r.(rt_ref_counter) + 1 - 1) with r.(rt_ref_counter) by lia.
    replace (set_ref_counter r.(rt_ref_counter) (set_ref_counter (r.(rt_ref_counter) + 1) r)) with r by by destruct r.
    rewrite insert_id by done. by destruct w. }
  destruct b.
  - rewrite (bind_step _ _ _ tt _ eq_refl). unfold Task_drop. by rewrite (bind_step _ _ _ _ _ E).
  - rewrite bind_assoc, (bind_step _ _ _ _ _ E). by rewrite (bind_step _ _ _ tt w eq_refl).
Qed.

(** C16: a completion whose syscall number is older than the task's is ignored:
    the task is not polled and the current task is unchanged.  When more
    completions of its entry follow, nothing changes; otherwise the one effect is
    that the reference of its entry is given back, as [Task_drop] does: the
    counter goes down by one and, if it was the last reference, the task is freed
    with its future unfinished. *)
Theorem stale_completion_ignored w c i p r : addressed w c i p r -> 0 < r.(rt_ref_counter) ->
  compare_syscall_nb r.(rt_syscall_nb) (info_from_entry c).(ti_tag).(syscall_nb) = Expired ->
  handle_cqe_entry c w = (if more c.(cqe_flags) then Ok (tt, w) else Task_drop p w) /\
  (1 < r.(rt_ref_counter) ->
   Task_drop p w = Ok (tt, set_w_heap (<[p := set_ref_counter (r.(rt_ref_counter) - 1) r]> w.(w_heap)) w)).
Proof.
  intros Ha Hrc Hc. rewrite (handle_cqe_eq _ _ _ _ _ Ha). cbv zeta. rewrite Hc.
  pose proof (ad_heap _ _ _ _ _ Ha) as Hr. split; [by apply stale_effect|].
  intros Hn. unfold Task_drop. by rewrite (bind_step _ _ _ _ _ (release_eq _ _ _ Hr Hn)).
Qed.
(** C17: a completion whose syscall number is newer than the task's, or differs
    from it in the multishot bit, stops the program with the message of
    [handle_cqe_entry], before anything is polled. *)
Theorem newer_completion_panics w c i p r : addressed w c i p r ->
  compare_syscall_nb r.(rt_syscall_nb) (info_from_entry c).(ti_tag).(syscall_nb) = Error ->
  handle_cqe_entry c w = Panic "Recieve a SQE newer than expected".
Proof. intros Ha Hc. rewrite (handle_cqe_eq _ _ _ _ _ Ha). cbv zeta. by rewrite Hc. Qed.

(** ** Spawning *)

(** [insert] writes nothing in the header but its slab index. *)
Lemma zoom_slab_heap {A} (m : M Slab A) (hs hs' : heap Fut * Slab) a :
  zoom slab_of m hs = Ok (a, hs') -> hs'.1 = hs.1.
Proof. unfold zoom. destruct (m _) as [[? ?]|?|?]; [|done..]. by intros [= _ <-]. Qed.

Lemma insert_future p (hs hs' : heap Fut * Slab) i r : insert p hs = Ok (i, hs') -> hs.1 !! p = Some r ->
  exists r', hs'.1 !! p = Some r' /\ r'.(rt_future) = r.(rt_future).
Proof.
  intros E Hr. unfold insert in E. apply bind_Ok in E as (w & hs1 & [= <- <-] & E).
  apply bind_Ok in E as ([] & hs2 & E2 & E).
  assert (H2 : hs2.1 = hs.1) by (destruct (_ =? _); [by eapply zoom_slab_heap|by injection E2 as <-]).
  apply bind_Ok in E as (s2 & hs3 & [= <- <-] & E). apply bind_Ok in E as (slot & hs4 & E4%zoom_slab_heap & E).
  apply bind_Ok in E as ([] & hs5 & E5 & E).
  assert (H5 : exists r', hs5.1 !! p = Some r' /\ r'.(rt_future) = r.(rt_future)).
  { unfold zoom in E5. cbn [lget heap_of] in E5. rewrite E4, H2 in E5. unfold set_task_idx in E5.
    rewrite (bind_step _ _ _ r hs.1) in E5 by by apply load_ok. rewrite (store_ok _ _ _ _ Hr) in E5.
    injection E5 as <-. cbn [lset heap_of fst]. eexists. by rewrite lookup_insert_eq. }
  apply bind_Ok in E as (next & hs6 & E6 & E).
  assert (hs6 = hs5) as ->.
  { unfold next_free in E6. apply bind_Ok in E6 as ([] & ? & Ed & [= _ <-]).
    unfold debug_assert, assert_, ret, panic in Ed. destruct debug_checks, (is_free slot); by simplify_eq. }
  apply bind_Ok in E as ([] & hs7 & E7%zoom_slab_heap & E). apply bind_Ok in E as ([] & hs8 & E8%zoom_slab_heap & E).
  apply bind_Ok in E as (n & hs9 & E9 & E).
  assert (hs9 = hs8) as -> by (unfold add_w, ret, panic in E9; destruct (_ <? _), debug_checks; congruence).
  apply bind_Ok in E as ([] & hs10 & E10%zoom_slab_heap & [= _ <-]). by rewrite E10, E8, E7.
Qed.

(** What the prelude of [spawn_with] leaves at the new task's address. *)
Lemma Task_new_future f (h : heap Fut) p h' : Task_new f h = Ok (p, h') ->
  exists r, h' !! p = Some r /\ r.(rt_future) = f.
Proof. intros (_ & _ & _ & ->)%Task_new_Ok. eexists. by rewrite lookup_insert_eq. Qed.

Lemma inc_rc_future p (h : heap Fut) h' r : inc_rc p h = Ok (tt, h') -> h !! p = Some r ->
  exists r', h' !! p = Some r' /\ r'.(rt_future) = r.(rt_future).
Proof.
  unfold inc_rc. intros E Hr. rewrite (bind_step _ _ _ r h) in E by by apply load_ok.
  apply bind_Ok in E as (n & h1 & E1 & E). apply bind_Ok in E as ([] & h2 & E2 & E).
  unfold expect, assert_, ret, panic in E1, E2. destruct (checked_add _ _ _), (negb _); simplify_eq.
  rewrite (store_ok _ _ _ _ Hr) in E. simplify_eq. eexists. by rewrite lookup_insert_eq.
Qed.

Lemma task_poll_with_ext body body' p w r prog : w.(w_heap) !! p = Some r -> r.(rt_future) = Suspended prog ->
  body prog = body' prog -> task_poll_with body p w = task_poll_with body' p w.
Proof.
  intros Hr Hf Hb. unfold task_poll_with. rewrite !(zoom_heap_step _ _ r w.(w_heap)) by by apply load_ok.
  by rewrite Hf, Hb.
Qed.

(** The part of [spawn_with] before the first poll. *)
Definition spawn_setup (future : Prog) : M World (Z * TaskInfo) :=
  with_borrow_mut (
    let! task := zoom heap_lens (Task_new (Suspended future)) in
    let! cloned := zoom heap_lens (Task_clone task) in
    let! task_idx := zoom heap_tasks_lens (insert cloned) in
    let! old_task_context := gets CURRENT_TASK in
    modify (set_current (initial_poll task_idx)) ;;!
    ret (task, old_task_context)).

Lemma spawn_setup_header prog w p old w1 : spawn_setup prog w = Ok ((p, old), w1) ->
  exists r, w1.(w_heap) !! p = Some r /\ r.(rt_future) = Suspended prog.
Proof.
  intros E. unfold spawn_setup, with_borrow_mut in E. apply bind_Ok in E as (b & ? & [= <- <-] & E).
    apply bind_Ok in E as ([] & w2 & E2 & E). apply bind_Ok in E as ([] & w3 & [= <-] & E).
    apply bind_Ok in E as (a & w4 & E4 & E). apply bind_Ok in E as ([] & w5 & [= <-] & [= -> <-]).
    apply bind_Ok in E4 as (q & w6 & E6 & E4). apply bind_Ok in E4 as (c & w7 & E7 & E4).
    apply bind_Ok in E4 as (i & w8 & E8 & E4). apply bind_Ok in E4 as (o & w9 & [= <- <-] & E4).
    apply bind_Ok in E4 as ([] & w10 & [= <-] & [= <- <- <-]). cbn [w_heap set_w_borrow set_current].
    unfold zoom in E6, E7, E8. destruct (Task_new _ _) as [[q1 h1]|?|?] eqn:En; simplify_eq.
    apply Task_new_future in En as (r1 & Hr1 & Hf1). unfold Task_clone in E7.
    destruct (bind _ _ _) as [[c1 h2]|?|?] eqn:Ec; simplify_eq.
    apply bind_Ok in Ec as ([] & ? & Ec & [= <- <-]).
    destruct (inc_rc_future _ _ _ _ Ec Hr1) as (r2 & Hr2 & Hf2).
    destruct (insert _ _) as [[i1 hs]|?|?] eqn:Ei; simplify_eq.
    destruct (insert_future _ _ _ _ _ Ei Hr2) as (r3 & Hr3 & Hf3). exists r3. split; [exact Hr3|congruence].
Qed.

Lemma spawn_with_ext body body' prog w : body prog = body' prog ->
  spawn_with body prog w = spawn_with body' prog w.
Proof.
  intros Hb. unfold spawn_with. apply bind_ext. intros [p old] w1 E.
  destruct (spawn_setup_header _ _ _ _ _ E) as (r & Hr & Hf). unfold bind. by rewrite (task_poll_with_ext body body' p w1 r prog).
Qed.

(** A [Spawn] step of a body is the public [spawn] of the child: the child's
    body that the step runs is the one the new header holds when it is polled. *)
Theorem run_spawn child k w : run (Spawn child k) w = (spawn child ;;! run k) w.
Proof.
  cbn [run]. unfold spawn, bind. by rewrite (spawn_with_ext (fun _ => run child) run child w eq_refl).
Qed.
End Dispatch.

Module DispatchExamples.

(** One task at slab index 0, with two references and syscall number 5. *)
Definition header : RawTask Fut := mkRawTask (Suspended Return) 96 2 5 (Some 0).
Definition one_task : World :=
  mkWorld {[ 32 := header ]}
    (mkRuntime (mkSlab [32; free_slot 2] 1 2 1) [] (mkBufPool 4096 (0, 4096) 1 [] []) [] []) 0
    TaskInfo_dummy [] [].

Lemma one_task_slab : slab_wf one_task.(w_rt).(tasks).
Proof.
  exists [1]. apply (filled_inv 0 32 1 [1] (mkSlab (link_slots 0 2) 0 2 0));
    [apply (link_slab_inv 2); lia|reflexivity|lia|reflexivity].
Qed.

Lemma one_task_addressed nb : fits 16 nb -> addressed one_task (done_cqe (ud 0 65535 nb) 4) 0 32 header.
Proof.
  intros Hnb. split; [done| |apply one_task_slab|done|done|done].
  unfold info_from_entry, payload_from_entry, done_cqe, ud. cbn [cqe_user_data].
  by rewrite from_into_user_data by (by split).
Qed.

Lemma stale_completion_ignored_witness :
  handle_cqe_entry (done_cqe (ud 0 65535 4) 4) one_task =
    Ok (tt, set_w_heap (<[32 := set_ref_counter 1 header]> one_task.(w_heap)) one_task).
Proof.
  destruct (stale_completion_ignored one_task _ 0 32 header (one_task_addressed 4 ltac:(done)) ltac:(done) eq_refl)
    as [E H]. rewrite E. exact (H ltac:(done)).
Defined.

Lemma newer_completion_panics_witness :
  handle_cqe_entry (done_cqe (ud 0 65535 6) 4) one_task = Panic "Recieve a SQE newer than expected".
Proof. exact (newer_completion_panics one_task _ 0 32 header (one_task_addressed 6 ltac:(done)) eq_refl). Defined.
End DispatchExamples.
