(* ===== verification/Strict.v ===== *)
(** * The runtime under the rules of Rust

    [Task::release] ends by reading the counter of the header it has just freed
    (src/src/task.rs).  Where that counts as undefined ([freed_counter = None]),
    no task can be freed by a defined execution; this file draws the consequence
    for [block_on]. *)

From S2P Require Import Prelude UserData Io Task Slab BufPool BufRing Futures Runtime Calls Executor.
From S2P Require Import Quiet Stable Invariant Polls Lifetime Safety Concrete EventLoop Dispatch.

(** Some header is allocated, and stays so. *)
Definition stays_allocated (w w' : World) : Prop := grows w.(w_heap) w'.(w_heap).

#[local] Instance stays_allocated_preorder : PreOrder stays_allocated.
Proof. unfold stays_allocated. split; [by intros w|]. intros w1 w2 w3. apply transitivity. Qed.

#[local] Instance stays_allocated_steps : RunSteps stays_allocated.
Proof. split; [apply _|done|..]; intros; unfold stays_allocated; reflexivity. Qed.

Section Strict.
Context {prof : Profile} {flags : CqueueFlags} {al : Allocator} {fl : FutLayout Fut} {sm : SlabMemory}.
Context {al_laws : AllocatorLaws} {sm_laws : SlabMemoryLaws}.
Context (Hstrict : freed_counter = None).

(** A header that is gone cannot be read. *)
Lemma strict_counter p w n w' : zoom heap_lens (read_counter p) w = Ok (n, w') -> is_Some (w.(w_heap) !! p).
Proof using Hstrict.
  unfold zoom, read_counter. cbn [lget heap_lens]. rewrite Hstrict. by destruct (w_heap w !! p).
Qed.

(** What [free_task] leaves: the header is gone. *)
Lemma free_task_gone p f w w' : free_task p f w = Ok (tt, w') -> w'.(w_heap) !! p = None.
Proof using.
  unfold free_task. cbn [host_heap host_push_free world_host].
  intros ([] & w1 & _ & E)%bind_Ok. apply bind_Ok in E as (raw & w2 & _ & E).
  apply bind_Ok in E as ([] & w3 & Ed & E).
  assert (H3 : w3.(w_heap) !! p = None).
  { unfold zoom, dealloc in Ed. cbn [lget heap_lens] in Ed. destruct (w_heap w2 !! p); [|done].
    injection Ed as <-. apply lookup_delete_eq. }
  by destruct (rt_slab_idx raw); injection E as <-.
Qed.

(** So a release that is defined frees nothing. *)
Lemma strict_release p : stable stays_allocated (release p).
Proof using Hstrict.
  intros w n w' E. unfold release in E. cbn [host_heap world_host] in E.
  apply bind_Ok in E as (r & w1 & E1 & E). apply bind_Ok in E as (c & w2 & E2 & E).
  apply bind_Ok in E as ([] & w3 & E3 & E). apply bind_Ok in E as ([] & w4 & E4 & E).
  pose proof (stable_heap stays_allocated _ (grows_load p) _ _ _ E1) as H1.
  apply (stable_sub_w stays_allocated) in E2.
  pose proof (stable_heap stays_allocated _ (grows_store p _) _ _ _ E3) as H3.
  pose proof (strict_counter _ _ _ _ E) as [r' Hr'].
  apply (stable_heap stays_allocated) in E; [|intros h a h'; unfold read_counter; rewrite Hstrict; destruct (h !! p); [by intros [= _ <-]|done]].
  transitivity w1; [done|]. transitivity w2; [done|]. transitivity w3; [done|]. transitivity w4; [|done].
  destruct (c =? 0); [|by injection E4 as <-]. apply free_task_gone in E4. congruence.
Qed.

#[local] Instance stays_allocated_loop : LoopRelation stays_allocated.
Proof using Hstrict.
  split; [split; [apply _|apply strict_release]|..]; intros; unfold stays_allocated; reflexivity.
Qed.

(** [block_on] creates a task before anything else. *)
Lemma block_on_allocates future steps w b w' : block_on future steps w = Ok (b, w') -> w'.(w_heap) <> ∅.
Proof using Hstrict.
  intros E. unfold block_on in E. apply bind_Ok in E as ([] & w1 & E1 & E).
  assert (Hlast : stays_allocated w1 w').
  { revert E. apply (stable_bind stays_allocated _ _ (stable_is_runtime_free stays_allocated)). intros [].
    - apply (stable_ret stays_allocated).
    - apply stable_block_on_loop, _. }
  unfold spawn, spawn_with in E1. apply bind_Ok in E1 as ([p old] & w2 & E2 & E1).
  destruct (spawn_setup_header _ _ _ _ _ E2) as (r & Hr & _).
  assert (Hrest : stays_allocated w2 w1).
  { apply bind_Ok in E1 as (o & w3 & E3%(stable_task_poll stays_allocated) & E1).
    apply bind_Ok in E1 as (n & w4 & E4%strict_release & E1). apply bind_Ok in E1 as ([] & w5 & [= <-] & E1).
    apply (stable_Task_drop stays_allocated) in E1.
    transitivity w3; [done|]. transitivity w4; [done|]. exact E1. }
  intros Hn. assert (Hp : p ∈ (dom (w_heap w') : gset Z)).
  { apply Hlast, Hrest. apply elem_of_dom. by exists r. }
  rewrite Hn, dom_empty in Hp. by apply not_elem_of_empty in Hp.
Qed.

(** C18: under the rules of Rust, [block_on] never returns to its caller: a run from
    a fresh runtime, of a body that satisfies [prog_ok] (no [WBuffer::submit],
    fan-outs to fewer than 2^16 descriptors), that is defined up to its end would
    have freed its root task, and each task that is freed ends with the read of a
    freed counter.  A defined run waits, panics, or stops on an error of the
    kernel. *)
Theorem block_on_never_defined base w0 future steps Kend w :
  pool_block base -> initial_world (Some base) tt = Ok (w0, tt) -> prog_ok future ->
  valid_run future steps w0 Kend -> block_on future steps w0 <> Ok (Returned, w).
Proof using All.
  intros Hb Hw0 Hok Hv E. apply (block_on_allocates _ _ _ _ _ E).
  exact (proj1 (proj1 (wp_Ok _ _ _ _ _ (loop_from_start _ _ _ _ _ Hb Hw0 Hok Hv) E))).
Qed.
End Strict.

Module StrictExamples.
Import EventLoopExamples.
#[local] Existing Instance strict_profile.

Lemma block_on_never_defined_witness : ~ exists w, block_on server batches start = Ok (Returned, w).
Proof.
  assert (Hc : match check_run server batches start with Some _ => true | None => false end = true)
    by (vm_compute; reflexivity).
  destruct (check_run server batches start) as [K|] eqn:Hk; [|discriminate Hc]. intros [w E]. revert E.
  exact (block_on_never_defined eq_refl pool_base start server batches K w pool_base_block
    (initial_world_in _) server_ok (check_run_sound _ _ _ _ Hk)).
Defined.
End StrictExamples.
