(* ===== verification/SimSteps.v ===== *)
(** * The steps of the runtime, simulated

    Polling a leaf, giving references back, spawning, running a body and
    handling one completion: each does to the state of the runtime what the
    direct machine does to its own. *)

From S2P Require Import Prelude UserData Io Task Slab BufPool BufRing Futures Direct Runtime Calls Executor Quiet RingLog Stable.
From S2P Require Import Invariant Polls Lifetime Safety Simulation Dispatch.

(** The current task is [i], with syscall number [nb], and waits for a single
    response. *)
Definition current_is (i nb : Z) (w : World) : Prop :=
  w.(CURRENT_TASK).(ti_tag) = mkTag i nb /\ w.(CURRENT_TASK).(ti_response_gen) = u16_max.

(** What a poll of the task at [p] leaves behind: the machine is in state [s],
    once the state [f] the body is left in has been written back. *)
Definition poll_leaves `{Profile} (X : gmap Z (Z * Z)) (K : list Entry) (p : Z) (s : DState) (f : Fut) (w : World) : Prop :=
  match f with
  | Completed => sim X K s w
  | Suspended q => forall r w', w.(w_heap) !! p = Some r ->
      w'.(w_heap) = <[p := set_future (Suspended q) r]> w.(w_heap) -> same_io w w' ->
      sim (delete p X) K s w'
  end.

(** ** What a run may stop on

    Running out of a resource, a completion the kernel does not produce, and a
    buffer handle that does not come from the pool. *)
Definition limits : list string := spawn_panics ++ [
  "SQ pleine — augmenter DEFAULT_RING_ENTRIES";
  "Entries len ==0 runtime shouldnt been wakeup";
  "assertion failed: buf_idx < self.read_count"]%string.

Definition limit (msg : string) : Prop := msg ∈ limits.

Lemma limit_spawn msg : msg ∈ spawn_panics -> limit msg.
Proof. unfold limit, limits. set_solver. Qed.

Lemma limit_buf_idx : limit "assertion failed: buf_idx < self.read_count".
Proof. unfold limit, limits. set_solver. Qed.

(** Where the direct machine panics, with the same message. *)
Definition fails {T} (o : outcome T) (msg : string) : Prop := limit msg \/ o = Panic msg.

Lemma fails_bind {A B} (m : M DState A) (k : A -> M DState B) s msg :
  fails (m s) msg -> fails (bind m k s) msg.
Proof. intros [?|E]; [by left|right]. unfold bind. by rewrite E. Qed.

Section Poll.
Context {prof : Profile} {flags : CqueueFlags}.

Lemma plain_leaf_ok {A} (l : Leaf A) : plain_leaf l -> leaf_ok l.
Proof. by destruct l. Qed.

Lemma plain_ok p : plain p -> prog_ok p.
Proof.
  induction p as [|msg|A leaf hold k IH|child IHc k IH|k IH|b k IH|b fd n k IH|r k IH]; cbn [plain prog_ok]; auto.
  - intros [Hl Hk]. split; [by apply plain_leaf_ok|auto].
  - intros [Hc Hk]. auto.
Qed.

(** Every [send_*] method of a plain future: one more reference, one entry. *)
Lemma wps_send X (op : BufPool -> Opcode) H K i p r w (Q : unit -> World -> Prop) :
  running H K i w -> slot_live w i p -> w.(w_heap) !! p = Some r -> r.(rt_ref_counter) < 65535 ->
  w.(w_borrow) = 0 ->
  (forall w' e, e = mkEntry (op w.(w_rt).(buffer)) (into_user_data (payload_of_info w.(CURRENT_TASK))) ->
     w'.(w_heap) = <[p := set_ref_counter (r.(rt_ref_counter) + 1) r]> w.(w_heap) ->
     w'.(w_rt).(ring_submitted) = w.(w_rt).(ring_submitted) ->
     w'.(w_rt).(pending) = w.(w_rt).(pending) ++ [e] -> w'.(w_rt).(buffer) = w.(w_rt).(buffer) ->
     w'.(w_rt).(buf_ring) = w.(w_rt).(buf_ring) ->
     w'.(w_borrow) = 0 -> w'.(CURRENT_TASK) = w.(CURRENT_TASK) -> Q tt w') ->
  wps X (with_borrow_mut (
    let! udata := current_udata in
    let! task_idx := current_task_idx in
    inc_rc_of task_idx ;;!
    let! o := gets (fun w => op w.(w_rt).(buffer)) in
    sqe_queue_push (mkEntry o udata))) Q w.
Proof.
  intros [Hi Hwf Hx Hh] Hl Hr Hlt Hb0 HQ. destruct (inv_find _ _ _ _ _ Hi Hl) as (_ & r' & Hr' & Hok).
  assert (r' = r) as -> by congruence. pose proof (ho_pos _ _ _ _ Hok) as Hpos.
  apply wps_with_borrow_mut; [done|]. intros _.
  unfold current_udata. apply wps_bind, wps_bind, wps_gets, wps_ret, wps_bind, wps_gets.
  cbn [w_borrow set_w_borrow CURRENT_TASK]. rewrite Hx. apply wps_bind. unfold inc_rc_of. apply wps_bind.
  eapply wps_step; [eapply task_at_live; [by apply inv_borrow|done]|].
  assert (Hrf : fits 16 r.(rt_ref_counter)) by (unfold fits; lia).
  pose proof (inc_rc_eq _ _ _ Hr Hrf) as E. rewrite (proj2 (Z.leb_gt _ _)) in E by lia.
  apply wps_zoom. eapply wps_step; [exact E|]. apply wps_bind, wps_gets, wps_modify. eapply HQ; try done.
  cbn. by rewrite <- Hx.
Qed.

(** ** Steps the relation does not see *)
Definition silent (w w' : World) : Prop :=
  same_io w w' /\ w'.(w_heap) = w.(w_heap) /\ w'.(CURRENT_TASK) = w.(CURRENT_TASK).

#[local] Instance silent_preorder : PreOrder silent.
Proof.
  split; [by intros w|]. intros w1 w2 w3 (H1 & H2 & H3) (H4 & H5 & H6).
  split; [by transitivity w2|]. split; congruence.
Qed.

Lemma silent_with_borrow {A} X (m : M World A) (Q : A -> Prop) w : w.(w_borrow) = 0 ->
  wps X m (fun a w' => Q a /\ silent (set_w_borrow 1 w) w') (set_w_borrow 1 w) ->
  wps X (with_borrow m) (fun a w' => Q a /\ silent w w') w.
Proof.
  intros Hb Hm. unfold with_borrow. apply wps_bind, wps_gets. rewrite Hb. apply wps_bind, wps_ret, wps_bind, wps_modify.
  apply wps_bind. eapply wps_mono; [exact Hm|]. intros a w' (Ha & [] & Hh & Hc). apply wps_bind, wps_modify, wps_ret.
  split; [done|]. split; [by split|]. by split.
Qed.

Lemma release_buf_panics pool b mem msg : release_buf_to_ring pool b mem = Panic msg -> limit msg.
Proof.
  assert (Hw : forall n off v m msg, wr n off v m <> Panic msg) by (intros; unfold wr; by destruct (_ && _)).
  unfold release_buf_to_ring, bind at 1. unfold rd. destruct (_ && _); [|done].
  unfold read_buf_addr, debug_assert, assert_, bind, ret, panic.
  destruct debug_checks; [destruct (_ <? _)|]; try (intros [= <-]; apply limit_buf_idx).
  all: repeat match goal with |- context [wr ?n ?off ?v ?m] => pose proof (Hw n off v m); destruct (wr n off v m) as [[[] ?]|?|?] end;
    try done; intros [= ->]; naive_solver.
Qed.

(** A read buffer that is given back. *)
Lemma wps_release_sim X K s b w : ring_ok w -> sim X K s w ->
  wps limit (release_read_buf b) (fun _ w' => w'.(CURRENT_TASK) = w.(CURRENT_TASK) /\ sim X K (d_return b s) w') w.
Proof.
  intros Hring Hs. unfold release_read_buf, with_borrow. apply wps_bind, wps_gets. rewrite (sm_borrow _ _ _ _ Hs).
  apply wps_bind, wps_ret, wps_bind, wps_modify, wps_bind, wps_bind, wps_gets, wps_zoom.
  pose proof (release_wf (buffer (w_rt w)) b (buf_ring (w_rt w)) Hring) as Hwf.
  pose proof (release_buf_panics (buffer (w_rt w)) b (buf_ring (w_rt w))) as Hp.
  unfold wps at 1. unfold wp in Hwf. cbn [lget ring_lens w_rt set_w_borrow].
  destruct (release_buf_to_ring _ _ _) as [[[] mem]|?|?] eqn:E; [|by apply Hp|done].
  apply wps_bind, wps_modify, wps_ret. split; [done|].
  apply (sim_return X K s w _ b mem Hs); [by rewrite <- (sm_pool _ _ _ _ Hs)| |done]. split; try done.
  cbn. symmetry. apply (sm_borrow _ _ _ _ Hs).
Qed.

Lemma wps_checkout_silent b fd n w : w.(w_borrow) = 0 ->
  wps limit (checkout b fd n) (fun buf w' =>
    buf = mkRwBuffer (w.(w_rt).(buffer).(base) + b * BUF_SIZE 1) b fd n false /\ silent w w') w.
Proof.
  intros Hb. apply silent_with_borrow; [done|]. apply wps_bind, wps_gets. unfold checkout_read.
  apply wps_bind, wps_debug_assert; [by apply wps_ret|]. intros _. apply limit_buf_idx.
Qed.

Lemma sim_silent X K s w w' : silent w w' -> sim X K s w -> sim X K s w'.
Proof. intros (Hio & Hh & _) Hs. by eapply sim_io. Qed.

(** ** One poll of a leaf *)
Section Leaf.
Variables (X : gmap Z (Z * Z)) (H : list (Z * Z)) (K : list Entry) (i nb p : Z) (s : DState) (w : World).
Hypotheses (Hrun : running H K i w) (Hown : (i, p) ∈ H) (Hheld : held i H = 2) (Hx : X !! p = Some (i, nb)) (Hcur : current_is i nb w)
  (Hsim : sim X K s w).

Lemma wps_submit_plain Y (op : BufPool -> Opcode) :
  wps Y (with_borrow_mut (
    let! udata := current_udata in
    let! task_idx := current_task_idx in
    inc_rc_of task_idx ;;!
    let! o := gets (fun w => op w.(w_rt).(buffer)) in
    sqe_queue_push (mkEntry o udata)))
  (fun _ w' => w'.(CURRENT_TASK) = w.(CURRENT_TASK) /\
    forall q, plain q -> poll_leaves X K p (d_submit (op s.(d_pool)) q s) (Suspended q) w') w.
Proof using All.
  pose proof (iv_handles _ _ _ (ru_inv _ _ _ _ Hrun) _ Hown) as Hl. cbn in Hl.
  destruct (sm_polled _ _ _ _ Hsim _ _ _ Hx) as (r & Hr & Hri & Hrn).
  destruct (inv_find _ _ _ _ _ (ru_inv _ _ _ _ Hrun) Hl) as (_ & r0 & Hr0 & Hok). simplify_eq.
  eapply wps_send; [exact Hrun|exact Hl|exact Hr| |apply Hsim|].
  { rewrite (ho_rc _ _ _ _ Hok), Hheld, refs_zero; [lia|]. intros e He. by eapply sim_no_flight; [apply Hrun|..]. }
  intros w' e -> Hh Hsub Hpend Hbuf Hmem Hb0 Hct. split; [exact Hct|].
  intros q Hq r' w2 Hr' Hh2 Hio. rewrite Hh, lookup_insert_eq in Hr'. simplify_eq.
  destruct Hcur as [Htag Hgen]. pose proof (ru_info _ _ _ _ Hrun) as Hwf.
  assert (Hpl : payload_of_info w.(CURRENT_TASK) = mkPayload (task_idx (ti_tag (CURRENT_TASK w))) u16_max (rt_syscall_nb r))
    by (unfold payload_of_info; by rewrite Htag, Hgen).
  rewrite <- (sm_pool _ _ _ _ Hsim).
  eapply (sim_push H X K s w w2 p i _ (set_future (Suspended q) (set_ref_counter (rt_ref_counter r + 1) r)) q
    (mkEntry (op w.(w_rt).(buffer)) (into_user_data (payload_of_info w.(CURRENT_TASK)))));
    [apply Hrun|exact Hsim|exact Hx|..]; cbn [e_user_data]; try done.
  - rewrite Hpl, Htag. done.
  - unfold entry_task_idx. cbn [e_user_data]. rewrite from_into_user_data by done. cbn. by rewrite Htag.
  - rewrite Hh2, Hh, insert_insert_eq. done.
  - by rewrite (io_submitted _ _ Hio).
  - by rewrite (io_pending _ _ Hio).
  - by rewrite (io_buffer _ _ Hio).
  - by rewrite (io_ring _ _ Hio).
  - by rewrite (io_borrow _ _ Hio).
Qed.

(** What the poll of a leaf does, as the direct machine says. *)
Definition leaf_does {A} (st : LeafStep A) (r : Leaf A * Poll A) (w' : World) : Prop :=
  match st with
  | Submit op l' => r = (l', Pending) /\
      forall q, plain q -> poll_leaves X K p (d_submit op q s) (Suspended q) w'
  | Deliver back v => r.2 = Ready v /\ plain_leaf r.1 /\
      exists s1, d_give_back back s = Ok (tt, s1) /\ sim X K s1 w'
  | Crash _ => False
  end.

Abbreviation cur := w.(CURRENT_TASK).

(** A future that submits, and returns [Pending]. *)
Lemma wps_submitting {B A} Y (m : M World unit) op (l' : Leaf A) (f : B) (wrap : B -> Leaf A) :
  wps Y m (fun _ w' => w'.(CURRENT_TASK) = cur /\
    forall q, plain q -> poll_leaves X K p (d_submit op q s) (Suspended q) w') w ->
  wrap f = l' ->
  wps Y (let! r := (m ;;! ret (f, Pending)) in ret (lift_poll wrap (fun _ (a : A) => a) r))
     (fun r w' => w'.(CURRENT_TASK) = cur /\ leaf_does (Submit op l') r w') w.
Proof.
  intros Hm <-. apply wps_bind, wps_bind. eapply wps_mono; [exact Hm|]. intros [] w' [Hc Hq]. by apply wps_ret, wps_ret.
Qed.

(** A future that delivers. *)
Lemma wps_delivering {B A} Y (m : M World (B * Poll A)) back v (wrap : B -> Leaf A) :
  wps Y m (fun r w' => (r.2 = Ready v /\ plain_leaf (wrap r.1)) /\ w'.(CURRENT_TASK) = cur /\
    exists s1, d_give_back back s = Ok (tt, s1) /\ sim X K s1 w') w ->
  wps Y (let! r := m in ret (lift_poll wrap (fun _ (a : A) => a) r))
     (fun r w' => w'.(CURRENT_TASK) = cur /\ leaf_does (Deliver back v) r w') w.
Proof.
  intros Hm. apply wps_bind. eapply wps_mono; [exact Hm|]. intros [f o] w' [[Ho Hp] [Hc Hs]]. cbn in Ho. subst o.
  apply wps_ret. split; [exact Hc|]. split; [done|]. by split.
Qed.

(** The same, when no buffer is given back. *)
Lemma wps_delivering_silent {B A} Y (m : M World (B * Poll A)) v (wrap : B -> Leaf A) :
  wps Y m (fun r w' => (r.2 = Ready v /\ plain_leaf (wrap r.1)) /\ silent w w') w ->
  wps Y (let! r := m in ret (lift_poll wrap (fun _ (a : A) => a) r))
     (fun r w' => w'.(CURRENT_TASK) = cur /\ leaf_does (Deliver None v) r w') w.
Proof using Hsim.
  intros Hm. apply wps_delivering. eapply wps_mono; [exact Hm|]. intros [f o] w' [Hr Hs]. split; [exact Hr|].
  split; [apply Hs|]. exists s. split; [done|by eapply sim_silent].
Qed.

(** The leaf panics only as the machine says, or on a limit. *)
Definition leaf_panics {A} (l : Leaf A) (msg : string) : Prop :=
  limit msg \/ leaf_step s.(d_pool) cur.(ti_result) cur.(ti_flags) l = Crash msg.

Lemma wps_poll_read fd :
  wps (leaf_panics (LRead (Read_Pending fd))) (poll_leaf (LRead (Read_Pending fd))) (fun r w' => w'.(CURRENT_TASK) = cur /\
    leaf_does (read_step s.(d_pool) cur.(ti_result) cur.(ti_flags) (Read_Pending fd)) r w') w.
Proof using All.
  unfold leaf_panics. cbn [poll_leaf leaf_step read_step ReadFuture_poll]. destruct (_ <=? 0) eqn:Hn.
  - apply wps_delivering, wps_bind, wps_gets, wps_bind, wps_gets. rewrite Hn.
    apply wps_bind. eapply (wps_mono _ _ (fun _ w' => w'.(CURRENT_TASK) = cur /\
      exists s1, d_give_back (buffer_select cur.(ti_flags)) s = Ok (tt, s1) /\ sim X K s1 w')).
    + destruct (buffer_select _) as [b|]; [|apply wps_ret; by eauto]. eapply wps_mono.
      * eapply wps_panics; [by apply wps_release_sim; [eapply running_ring|]|by left].
      * intros [] w' [Hc Hs]. by eauto.
    + intros [] w' [Hc Hs]. by apply wps_ret.
  - destruct (buffer_select _) as [b|] eqn:Hb.
    + apply wps_delivering_silent, wps_bind, wps_gets, wps_bind, wps_gets. rewrite Hn, Hb.
      apply wps_bind, wps_ret, wps_bind.
      eapply wps_mono; [eapply wps_panics; [apply wps_checkout_silent, Hsim|by left]|].
      intros buf w' [-> Hs]. apply wps_ret. by rewrite <- (sm_pool _ _ _ _ Hsim).
    + apply wps_bind, wps_bind, wps_gets, wps_bind, wps_gets. rewrite Hn, Hb. by apply wps_bind, wps_panic; right.
Qed.

Lemma wps_poll_plain {A} (l : Leaf A) : plain_leaf l ->
  wps (leaf_panics l) (poll_leaf l) (fun r w' => w'.(CURRENT_TASK) = cur /\
    leaf_does (leaf_step s.(d_pool) cur.(ti_result) cur.(ti_flags) l) r w') w.
Proof using All.
  intros Hl. destruct l as [f| |f| |f| | |f]; try done; destruct f; try apply wps_poll_read; cbn [poll_leaf leaf_step].
  - eapply wps_submitting; [|done]. apply (wps_submit_plain _ (fun _ => AcceptOp listen_fd true)).
  - apply wps_delivering_silent. cbn [AcceptFuture_poll]. apply wps_bind, wps_gets. by destruct (0 <=? _); apply wps_ret.
  - eapply wps_submitting; [|done]. apply (wps_submit_plain _ (fun _ => ReadOp fd (as_u32 (BUF_SIZE 1)) 0 true)).
  - eapply wps_submitting; [|done].
    apply (wps_submit_plain _ (fun pool => WriteFixedOp fd (write_buf_ptr 1 pool buf_id) len buf_id)).
  - apply wps_delivering_silent. cbn [WriteFuture_poll]. by apply wps_bind, wps_gets, wps_ret.
  - eapply wps_submitting; [|done]. apply (wps_submit_plain _ (fun _ => SocketOp true)).
  - cbn [SocketFuture_poll socket_step]. destruct (fd =? 0).
    + eapply (wps_submitting _ (let! res := current_result in
          submit_connect (as_u32 res) addr sockaddr_in_size) _ _ (Socket_Connecting (as_u32 cur.(ti_result)) addr)); [|done].
      apply wps_bind, wps_gets. apply (wps_submit_plain _ (fun _ => ConnectOp (as_u32 cur.(ti_result)) addr 16)).
    + apply wps_delivering_silent. by apply wps_ret.
  - unfold leaf_panics. cbn [poll_leaf SocketFuture_poll leaf_step socket_step]. by apply wps_bind, wps_panic; right.
Qed.
End Leaf.
End Poll.

(** ** Giving the references back *)

(** The task at [p] has been polled.  If it is over its references are [n]
    handles; if it waits, its header is back under the relation. *)
Definition settled `{Profile} (n : Z) (X : gmap Z (Z * Z)) (K : list Entry) (p : Z) (s : DState) (w : World) : Prop :=
  exists r, w.(w_heap) !! p = Some r /\
    ((r.(rt_future) = Completed /\ r.(rt_ref_counter) = n /\ sim X K s w) \/
     (n < r.(rt_ref_counter) /\ sim (delete p X) K s w)).

Lemma settled_current `{Profile} n X K p s w t : settled n X K p s w -> settled n X K p s (set_current t w).
Proof.
  intros (r & Hr & Hs). exists r. split; [done|].
  destruct Hs as [(? & ? & Hs)|[? Hs]]; [left; split_and!|right; split]; try done; by eapply sim_io.
Qed.

Lemma sim_set_rc `{Profile} X K s w p r n : sim X K s w -> w.(w_heap) !! p = Some r ->
  sim X K s (set_w_heap (<[p := set_ref_counter n r]> w.(w_heap)) w).
Proof. intros Hs Hr. by eapply (sim_view X K s w _ p r (set_ref_counter n r)). Qed.

Section Release.
Context {prof : Profile} {flags : CqueueFlags}.

Lemma wps_release_settled Y X K p s w : settled 2 X K p s w ->
  wps Y (release p) (fun _ w' => settled 1 X K p s w') w.
Proof.
  intros (r & Hr & Hs). assert (Hrc : 1 < r.(rt_ref_counter)) by (destruct Hs as [(_ & -> & _)|[? _]]; lia).
  eapply wps_step; [by apply release_eq|]. eexists. cbn. rewrite lookup_insert_eq. split; [done|].
  destruct Hs as [(Hf & Hn & Hs)|[Hn Hs]]; [left|right]; cbn.
  - split; [done|]. split; [lia|]. by apply sim_set_rc.
  - split; [lia|]. by apply sim_set_rc.
Qed.

(** The last reference to a task that is over. *)
Lemma wps_release_done Y w p r (Q : Z -> World -> Prop) :
  w.(w_heap) !! p = Some r -> r.(rt_ref_counter) = 1 -> r.(rt_future) = Completed ->
  (forall n, Q n (set_free_list (w.(RUNTIME_FREE_LIST) ++ option_list r.(rt_slab_idx))
                    (set_w_heap (delete p w.(w_heap)) w))) ->
  wps Y (release p) Q w.
Proof.
  intros Hr Hn Hf HQ. unfold release. cbn [host_heap world_host]. set (r0 := set_ref_counter 0 r).
  set (w1 := set_w_heap (delete p w.(w_heap)) w) in *.
  assert (E : free_task p Completed (set_w_heap (<[p := r0]> w.(w_heap)) w) =
    Ok (tt, set_free_list (w.(RUNTIME_FREE_LIST) ++ option_list r.(rt_slab_idx)) w1)).
  { unfold free_task. cbn [host_heap world_host]. rewrite (bind_step _ _ _ tt _ eq_refl).
    rewrite (zoom_heap_step _ _ r0 (<[p := r0]> w.(w_heap))) by (apply load_ok, lookup_insert_eq).
    rewrite (zoom_heap_step _ _ tt (delete p w.(w_heap))).
    - subst w1. destruct w. by destruct (rt_slab_idx r) as [j|] eqn:E; cbn; unfold modify, ret, option_list; cbn; rewrite E, ?app_nil_r.
    - unfold dealloc. cbn [w_heap set_w_heap]. rewrite lookup_insert_eq. by rewrite delete_insert_eq. }
  unfold wps. rewrite (zoom_heap_step _ _ r w.(w_heap)) by by apply load_ok. rewrite set_w_heap_id, Hn, Hf.
  rewrite (bind_step _ _ _ 0 w eq_refl). fold r0.
  rewrite (zoom_heap_step _ _ tt (<[p := r0]> w.(w_heap))) by by eapply store_ok.
  cbn [Z.eqb]. rewrite (bind_step _ _ _ _ _ E). exact (wps_counter (host := world_host) Y p Q _ HQ).
Qed.

Lemma wps_release_last Y X K p s w : settled 1 X K p s w -> is_Some (X !! p) ->
  wps Y (release p) (fun _ w' => sim (delete p X) K s w') w.
Proof.
  intros (r & Hr & [(Hf & Hn & Hs)|[Hn Hs]]) Hx.
  - eapply wps_release_done; [done..|]. intros _. by eapply sim_done.
  - eapply wps_step; [by apply release_eq|]. by apply sim_set_rc.
Qed.
End Release.

(** ** Polling and spawning *)
Section Run.
Context {prof : Profile} {flags : CqueueFlags} {al : Allocator} {fl : FutLayout Fut} {sm : SlabMemory}.
Context {al_laws : AllocatorLaws} {sm_laws : SlabMemoryLaws}.

(** [body] runs [prog] as the direct machine does. *)
Definition body_sim (prog : Prog) (body : M World (Fut * Poll unit)) : Prop :=
  forall X H K i nb p s w, plain prog -> running H K i w -> (i, p) ∈ H -> held i H = 2 -> X !! p = Some (i, nb) ->
    current_is i nb w -> sim X K s w ->
    wps (fails (exec w.(CURRENT_TASK).(ti_result) w.(CURRENT_TASK).(ti_flags) prog s)) body (fun r w' => (fut_ok r.1 /\ running H K i w') /\ w'.(CURRENT_TASK) = w.(CURRENT_TASK) /\
      exists s', exec w.(CURRENT_TASK).(ti_result) w.(CURRENT_TASK).(ti_flags) prog s = Ok (tt, s') /\
        poll_leaves X K p s' r.1 w') w.

Lemma poll_leaves_settled X H K i nb p s f w r : X !! p = Some (i, nb) -> held i H = 0 ->
  running ((i, p) :: (i, p) :: H) K i w -> w.(w_heap) !! p = Some r -> fut_ok f -> poll_leaves X K p s f w ->
  let w' := set_w_heap (<[p := set_future f r]> w.(w_heap)) w in
  inv ((i, p) :: (i, p) :: H) K w' -> settled 2 X K p s w'.
Proof.
  intros Hx Hheld Hrun Hr Hf Hout w' Hi'. exists (set_future f r). split; [apply lookup_insert_eq|].
  pose proof (iv_handles _ _ _ Hi' (i, p) ltac:(by left)) as Hl. cbn in Hl.
  destruct (inv_find _ _ _ _ _ Hi' Hl) as (_ & r' & Hr' & Hok). cbn in Hr'. rewrite lookup_insert_eq in Hr'. simplify_eq.
  pose proof (ho_rc _ _ _ _ Hok) as Hrc. autorewrite with refs in Hrc. cbn [fst] in Hrc. rewrite Z.eqb_refl, Hheld in Hrc.
  destruct f as [q|].
  - right. assert (Hs : sim (delete p X) K s w') by by eapply Hout. split; [|done].
    destruct (sm_task _ _ _ _ Hs p (set_future (Suspended q) r)) as (m & e & q' & _ & _ & Ha);
      [apply lookup_insert_eq|by rewrite lookup_delete_eq|].
    pose proof (aw_idx _ _ _ _ Ha) as Hei. rewrite (ho_idx _ _ _ _ Hok) in Hei. injection Hei as Hei.
    pose proof (refs_nonneg i (flight K w')). destruct (decide (refs i (flight K w') = 0)) as [Hz|Hne].
    + exfalso. by apply (refs_zero_inv i _ e Hz); [apply Ha|].
    + rewrite refs_app in *. cbn in *. lia.
  - left. split; [done|]. cbn in Hout. destruct (sm_polled _ _ _ _ Hout _ _ _ Hx) as (r' & Hr' & Hri & Hrn). simplify_eq.
    assert (Hs : sim X K s w').
    { rewrite <- (insert_id X p _ Hx). by eapply (sim_polled X K s w w' p i _ (set_future Completed r)). }
    split; [|done]. cbn [rt_ref_counter set_future] in *. rewrite <- refs_app in Hrc. rewrite refs_zero in Hrc; [lia|].
    intros e He. by eapply (sim_no_flight ((i, p) :: (i, p) :: H) X K s w').
Qed.

(** Polling a task that has two handles and nothing else than what is in flight. *)
Lemma wps_poll_settled body prog X H K i nb p r s w : body_sim prog (body prog) -> plain prog -> held i H = 0 ->
  running ((i, p) :: (i, p) :: H) K i w -> X !! p = Some (i, nb) -> current_is i nb w -> sim X K s w ->
  w.(w_heap) !! p = Some r -> r.(rt_future) = Suspended prog ->
  let next := exec w.(CURRENT_TASK).(ti_result) w.(CURRENT_TASK).(ti_flags) prog s in
  wps (fails next) (task_poll_with body p) (fun _ w' => inv ((i, p) :: (i, p) :: H) K w' /\
    exists s', next = Ok (tt, s') /\ settled 2 X K p s' w') w.
Proof.
  intros Hbody Hplain Hheld Hrun Hx Hcur Hs Hr Hf next. assert (Hp : (i, p) ∈ (i, p) :: (i, p) :: H) by by left.
  unfold task_poll_with. apply wps_bind. eapply wps_step.
  { unfold zoom. cbn [lget heap_lens]. by rewrite (load_ok _ _ _ Hr). }
  cbn [lset heap_lens]. rewrite set_w_heap_id, Hf. apply wps_bind. eapply wps_mono.
  { eapply (Hbody X _ K i nb p s w); try done. rewrite !held_cons. cbn [fst]. rewrite Z.eqb_refl. lia. }
  intros [f o] w1 ((Hfok & Hrun1) & _ & s' & Hex & Hout). cbn [fst snd] in *.
  destruct (running_future _ _ _ p _ f Hrun1 Hp Hfok) as (r1 & Hr1 & Hrun2).
  apply wps_bind, wps_zoom. eapply wps_step; [by apply load_ok|]. cbn [lset heap_lens]. rewrite set_w_heap_id.
  apply wps_bind, wps_zoom. eapply wps_step; [by eapply store_ok|]. apply wps_ret.
  split; [apply Hrun2|]. exists s'. split; [done|]. eapply poll_leaves_settled; try done. apply Hrun2.
Qed.

Lemma fresh_unheld H K i p w r : inv ((i, p) :: (i, p) :: H) K w -> w.(w_heap) !! p = Some r ->
  r.(rt_ref_counter) = 2 -> held i H = 0.
Proof.
  intros Hi Hr Hn. pose proof (iv_handles _ _ _ Hi (i, p) ltac:(by left)) as Hl. cbn in Hl.
  destruct (inv_find _ _ _ _ _ Hi Hl) as (_ & r' & Hr' & Hok). simplify_eq.
  pose proof (ho_rc _ _ _ _ Hok) as Hrc. rewrite !held_cons in Hrc. cbn [fst] in Hrc. rewrite Z.eqb_refl in Hrc.
  pose proof (held_nonneg i H). pose proof (refs_nonneg i (flight K w)). lia.
Qed.

Lemma wps_spawn_sim body prog X H K s w : body_sim prog (body prog) -> plain prog -> inv H K w -> sim X K s w ->
  wps (fails (exec i32_max 0 prog s)) (spawn_with body prog) (fun _ w' => inv H K w' /\
    w'.(CURRENT_TASK) = w.(CURRENT_TASK) /\ exists s', exec i32_max 0 prog s = Ok (tt, s') /\ sim X K s' w') w.
Proof.
  intros Hbody Hplain Hi Hs. unfold spawn_with.
  apply wps_bind, (wps_spawn_register _ H K); [intros; left; by apply limit_spawn| |done|by apply plain_ok|].
  { intros Hb. exfalso. apply Hb, Hs. }
  intros p i w1 Hnone Hh Hio Hcur Hrun. cbv beta iota.
  assert (Hxp : X !! p = None).
  { destruct (X !! p) as [[j n]|] eqn:Hx; [|done]. destruct (sm_polled _ _ _ _ Hs _ _ _ Hx) as (r & Hr & _). congruence. }
  assert (Hr1 : w1.(w_heap) !! p = Some (new_header (Suspended prog) 2 (Some i))) by (rewrite Hh; apply lookup_insert_eq).
  assert (Hs1 : sim (<[p := (i, 0)]> X) K s w1) by by eapply (sim_new X K s w w1 p i (new_header _ 2 (Some i))).
  assert (Hheld : held i H = 0) by by eapply fresh_unheld; [apply Hrun|..].
  assert (Hex1 : exec (ti_result (CURRENT_TASK w1)) (ti_flags (CURRENT_TASK w1)) prog s = exec i32_max 0 prog s) by by rewrite Hcur.
  rewrite <- Hex1. apply wps_bind. eapply wps_mono.
  { eapply (wps_poll_settled body prog (<[p := (i, 0)]> X) H K i 0 p); try done; [apply lookup_insert_eq|].
    unfold current_is. by rewrite Hcur. }
  intros o w2 (Hi2 & s' & Hex & Hset).
  apply wps_bind. eapply wps_mono; [apply wps_wp; [by eapply wp_release|by eapply wps_release_settled]|].
  intros o' w3 [[Hi3 _] Hset3]. apply wps_bind, wps_modify. unfold Task_drop. apply wps_bind.
  eapply wps_mono.
  { apply wps_wp; [apply (wp_release H K i p); by apply inv_set_current|].
    eapply wps_release_last; [by apply settled_current|]. rewrite lookup_insert_eq. by eexists. }
  intros o'' w4 [[Hi4 Hc4] Hs4]. apply wps_ret. split; [done|]. split; [exact Hc4|].
  exists s'. split; [done|]. by rewrite delete_insert_id in Hs4.
Qed.

(** ** Running a body *)
Lemma wps_pool_op {A} (m : M BufPool A) X K s w : pool_keeps m -> sim X K s w ->
  wps (fails (zoom d_pool_lens m s)) (zoom pool_lens m) (fun a w' => w'.(CURRENT_TASK) = w.(CURRENT_TASK) /\
    exists s1, zoom d_pool_lens m s = Ok (a, s1) /\ sim X K s1 w') w.
Proof.
  intros Hm Hs. pose proof (Hm w.(w_rt).(buffer) Logic.I) as Hq. unfold fails.
  unfold wp, wps, zoom in *. cbn [lget pool_lens d_pool_lens]. rewrite <- (sm_pool _ _ _ _ Hs). destruct (m _) as [[a p]|?|?]; [|by right|done].
  split; [done|]. eexists. split; [done|].
  apply sim_set_pool; [done|]. by rewrite <- (sm_pool _ _ _ _ Hs).
Qed.

(** A step of the body that works on the pool. *)
Lemma wps_run_pool {A} (m : M World A) (k : A -> Prog) (step : M DState A) X H K i nb p s w :
  Quiet m -> running H K i w -> current_is i nb w ->
  wps (fails (step s)) m (fun a w' => w'.(CURRENT_TASK) = w.(CURRENT_TASK) /\
    exists s1, step s = Ok (a, s1) /\ sim X K s1 w') w ->
  (forall a, body_sim (k a) (run (k a))) -> (forall a, plain (k a)) -> (i, p) ∈ H -> held i H = 2 -> X !! p = Some (i, nb) ->
  let next := (let! a := step in exec w.(CURRENT_TASK).(ti_result) w.(CURRENT_TASK).(ti_flags) (k a)) s in
  wps (fails next) (let! a := m in run (k a)) (fun r w' => (fut_ok r.1 /\ running H K i w') /\
    w'.(CURRENT_TASK) = w.(CURRENT_TASK) /\ exists s', next = Ok (tt, s') /\ poll_leaves X K p s' r.1 w') w.
Proof.
  intros Hq Hrun Hcur Hm Hk Hplain Hp Hheld Hx next. apply wps_bind. eapply wps_mono.
  { apply wps_wp; [apply Hq; by eapply running_ring|]. eapply wps_panics; [exact Hm|].
    intros msg Hn. by apply fails_bind. }
  intros a w1 (Hq1 & Hc & s1 & Hst & Hs1). unfold next. rewrite (bind_step _ _ _ _ _ Hst), <- Hc.
  eapply Hk; try done; [by eapply running_quiet|]. unfold current_is. by rewrite Hc.
Qed.

Lemma run_sim prog : body_sim prog (run prog).
Proof.
  induction prog as [|msg|A leaf hold k IH|child IHc k IH|k IH|b k IH|b fd n k IH|r k IH];
    intros X H K i nb p s w Hplain Hrun Hp Hheld Hx Hcur Hs; cbn [run exec plain] in *.
  - apply wps_ret. split; [done|]. split; [done|]. by exists s.
  - by apply wps_panic; right.
  - destruct Hplain as [Hl Hk]. apply wps_bind. eapply wps_mono.
    { apply wps_wp; [apply (Runs_poll_leaf H K i leaf); [by apply plain_leaf_ok|done]|].
      eapply wps_panics; [by eapply (wps_poll_plain X H K i nb p s w)|].
      intros msg [?|Hst]; [by left|right]. unfold bind, gets. by rewrite Hst. }
    intros [l' o] w1 ((Hl' & Hrun1) & Hc & Hdoes). cbn [fst snd] in *.
    rewrite (bind_step _ _ s (d_pool s) s eq_refl).
    destruct (leaf_step _ _ _ leaf) as [op l2|back v|msg] eqn:Hstep; cbn [leaf_does fst snd] in Hdoes; [| |done].
    + destruct Hdoes as [[= -> ->] Hout]. apply wps_ret.
      assert (Hpl : plain (Await l2 hold k)) by (split; [by eapply leaf_step_plain|done]).
      split; [split; [by apply plain_ok|done]|]. split; [done|]. eexists. split; [done|]. by apply Hout.
    + destruct Hdoes as (-> & Hl2 & s1 & Hback & Hs1). apply wps_bind. cbn [fst snd] in *.
      rewrite (bind_step _ _ _ _ _ Hback).
      assert (Hd : Leaf_drop l' = ret tt) by by destruct l'. rewrite Hd. apply wps_ret. rewrite <- Hc.
      eapply IH; try done. unfold current_is. by rewrite Hc.
  - destruct Hplain as [Hc Hk]. apply wps_bind. eapply wps_mono.
    { eapply wps_panics; [eapply (wps_spawn_sim (fun _ => run child) child X H K s w); try done; apply Hrun|].
      intros msg Hn. by apply fails_bind. }
    intros [] w1 (Hi1 & Hc1 & s1 & Hs1e & Hs1). rewrite (bind_step _ _ _ _ _ Hs1e), <- Hc1.
    eapply IH; try done; [|unfold current_is; by rewrite Hc1].
    destruct Hrun as [Hi Hwf Hidx Hh]. split; [done|..]; by rewrite ?Hc1.
  - eapply (wps_run_pool _ k (zoom d_pool_lens (alloc_write 1))); try done; [apply alloc_write_buffer_quiet|].
    unfold alloc_write_buffer. apply wps_with_borrow_mut; [intros Hb; exfalso; apply Hb, Hs|]. intros Hb0.
    pose proof (wps_pool_op (alloc_write 1) X K s w alloc_write_keeps Hs) as Hop. unfold wps, zoom in *.
    cbn [lget lset pool_lens w_rt set_w_borrow] in *. destruct (alloc_write 1 _) as [[a pl]|?|?]; [|done..].
    destruct Hop as (Hc & s1 & Hs1 & Hsim). split; [done|]. exists s1. split; [done|]. by eapply sim_io.
  - eapply (wps_run_pool _ k (zoom d_pool_lens (WBuffer_clone b))); try done; [apply WBuffer_clone_quiet|].
    apply wps_pool_op; [apply WBuffer_clone_keeps|done].
  - done.
  - destruct r as [rb|wb]; cbn [d_drop Res_drop].
    + apply (wps_run_pool (RwBuffer_drop rb) (fun _ => k) (d_drop (ResRw rb)) X H K i nb p s w); try done;
        [apply RwBuffer_drop_quiet|].
      unfold RwBuffer_drop. cbn [d_drop]. destruct (committed rb); [apply wps_ret; by eauto|].
      eapply wps_mono; [eapply wps_panics; [by apply wps_release_sim; [eapply running_ring|]|by left]|].
      intros [] w1 [Hc Hs1]. split; [exact Hc|]. by exists (d_return (buf_idx rb) s).
    + apply (wps_run_pool (zoom pool_lens (WBuffer_drop wb)) (fun _ => k) (zoom d_pool_lens (WBuffer_drop wb))
        X H K i nb p s w); try done; [apply WBuffer_drop_quiet|]. apply wps_pool_op; [apply WBuffer_drop_keeps|done].
Qed.

(** ** One completion *)

Lemma wps_clone_task_heap Y H K i p r w : inv H K w -> slot_live w i p -> w.(w_heap) !! p = Some r ->
  r.(rt_ref_counter) < 65535 -> w.(w_borrow) = 0 ->
  wps Y (clone_task i) (fun _ w' => same_io w w' /\
    w'.(w_heap) = <[p := set_ref_counter (r.(rt_ref_counter) + 1) r]> w.(w_heap)) w.
Proof.
  intros Hi Hl Hr Hlt Hb0. destruct (inv_find _ _ _ _ _ Hi Hl) as (_ & r' & Hr' & Hok).
  assert (r' = r) as -> by congruence. pose proof (ho_pos _ _ _ _ Hok) as Hpos.
  assert (Hrf : fits 16 r.(rt_ref_counter)) by (unfold fits; lia).
  unfold clone_task. apply wps_with_borrow_mut; [done|]. intros _. apply wps_bind.
  eapply wps_step; [eapply task_at_live; [by apply inv_borrow|done]|].
  pose proof (inc_rc_eq _ _ _ Hr Hrf) as E. rewrite (proj2 (Z.leb_gt _ _)) in E by lia.
  apply wps_zoom. eapply wps_step; [unfold Task_clone, bind; cbn [lget heap_lens w_heap set_w_borrow]; by rewrite E|].
  by split.
Qed.

(** A task and the entry it waits for always agree on the syscall number. *)
Lemma compare_same nb : fits 16 nb ->
  compare_syscall_nb nb nb = if 32768 <=? nb then Multiple else Normal.
Proof.
  intros Hn. rewrite compare_syscall_nb_eq by done. rewrite Z.ltb_irrefl. by rewrite eqb_reflx.
Qed.

(** The poll of the task the completion is for, in either branch. *)
Lemma wps_dispatched K X i nb p r q s w t : inv [(i, p); (i, p)] K w -> sim X K s w -> X !! p = Some (i, nb) ->
  w.(w_heap) !! p = Some r -> r.(rt_future) = Suspended q -> plain q ->
  wf_info t -> t.(ti_tag) = mkTag i nb -> t.(ti_response_gen) = u16_max ->
  let next := exec t.(ti_result) t.(ti_flags) q s in
  wps (fails next) (modify (set_current t) ;;! task_poll p ;;! ret tt)
     (fun _ w' => inv [(i, p); (i, p)] K w' /\ exists s', next = Ok (tt, s') /\ settled 2 X K p s' w') w.
Proof.
  intros Hi Hs Hx Hr Hf Hq Ht Htag Hgen next. apply wps_bind, wps_modify, wps_bind. unfold task_poll.
  eapply wps_mono.
  - apply (wps_poll_settled run q X [] K i nb p r s (set_current t w)); try done; [apply run_sim| |by eapply sim_io].
    split; [by apply inv_set_current|done| |exists p; by left]. cbn. by rewrite Htag.
  - intros o w' (Hi' & s' & Hex & Hset). apply wps_ret. eauto.
Qed.

(** What the runtime reads in a completion. *)
Lemma awaits_info es es' e r q c H i : awaits es e r q -> header_ok H es' i r -> fits 64 e.(e_user_data) ->
  c.(cqe_user_data) = e.(e_user_data) ->
  info_from_entry c =
    mkTaskInfo (mkTag (entry_task_idx e) r.(rt_syscall_nb)) c.(cqe_result) c.(cqe_flags) u16_max /\
  wf_payload (mkPayload (entry_task_idx e) u16_max r.(rt_syscall_nb)).
Proof.
  intros Ha Hok Hfit Hud.
  assert (Hwf : wf_payload (mkPayload (entry_task_idx e) u16_max r.(rt_syscall_nb))).
  { split; [apply (into_from_user_data _ Hfit)|]. split; [done|apply Hok]. }
  split; [|done]. unfold info_from_entry, payload_from_entry.
  rewrite Hud, (aw_udata _ _ _ _ Ha), from_into_user_data by done. done.
Qed.

(** The branch that moves on to the next syscall number. *)
Lemma wps_normal K i p r q s w res fl' : inv [(i, p); (i, p)] K w -> w.(w_heap) !! p = Some r ->
  sim {[p := (i, r.(rt_syscall_nb))]} K s w -> r.(rt_future) = Suspended q -> plain q ->
  wf_payload (mkPayload i u16_max r.(rt_syscall_nb)) -> r.(rt_syscall_nb) < 32768 -> r.(rt_slab_idx) = Some i ->
  let next := exec res fl' q s in
  wps (fails next) (let! nb := add_w 16 r.(rt_syscall_nb) 1 in
      zoom heap_lens (augmente_syscall_nb p) ;;!
      modify (set_current (mkTaskInfo (mkTag i nb) res fl' u16_max)) ;;!
      task_poll p ;;! ret tt)
     (fun _ w' => inv [(i, p); (i, p)] K w' /\ exists n s', next = Ok (tt, s') /\
        settled 2 {[p := (i, n)]} K p s' w') w.
Proof.
  intros Hi Hr Hs Hf Hq Hwf Hlt Hri next. set (nb := rt_syscall_nb r) in *.
  assert (Hnb : 0 <= nb) by (destruct Hwf as (_ & _ & [? _]); done).
  pose proof (iv_handles _ _ _ Hi (i, p) ltac:(by left)) as Hl. cbn in Hl.
  pose proof (inv_nb _ _ _ i p r (nb + 1) Hi Hl Hr ltac:(unfold fits; lia)) as Hi2.
  apply wps_bind. eapply wps_step; [unfold add_w; rewrite (proj2 (Z.ltb_lt _ _)) by lia; done|].
  apply wps_bind, wps_zoom. eapply wps_step; [by apply augmente_syscall_nb_eq|]. fold nb. cbn [lset heap_lens].
  rewrite Z.mod_small by lia. eapply wps_mono.
  { eapply (wps_dispatched _ {[p := (i, nb + 1)]} i (nb + 1) p (set_syscall_nb (nb + 1) r) q s); try done.
    - rewrite <- (insert_singleton_eq p (i, nb + 1) (i, nb)).
      eapply (sim_polled _ _ _ w _ p i nb (set_syscall_nb (nb + 1) r)); try done. apply lookup_singleton_eq.
    - apply lookup_singleton_eq.
    - apply lookup_insert_eq.
    - destruct Hwf as (? & ? & ?). split; [done|]. split; [done|]. unfold fits in *. cbn in *. lia. }
  intros [] w' (Hi' & s' & Hex & Hset). split; [done|]. by exists (nb + 1), s'.
Qed.

Lemma handle_cqe_sim K1 e K2 c s w : inv [] (K1 ++ e :: K2) w -> sim ∅ (K1 ++ e :: K2) s w ->
  c.(cqe_user_data) = e.(e_user_data) -> more c.(cqe_flags) = false ->
  exists m, entries w !! m = Some e /\
  wps (fails (resume m c s)) (handle_cqe_entry c) (fun _ w' => exists s', resume m c s = Ok (tt, s') /\
    sim ∅ (K1 ++ K2) s' w') w.
Proof.
  intros Hi Hs Hud Hmore. destruct (sim_take _ _ _ _ _ _ Hi Hs) as (m & q & p & r & Hm & Hme & Hr & Ha & Hs1).
  exists m. split; [done|].
  assert (Hres : resume m c s = exec c.(cqe_result) c.(cqe_flags) q (d_take m s)).
  { unfold resume. rewrite (bind_step _ _ _ _ _ eq_refl), Hm. by rewrite (bind_step _ _ _ _ _ eq_refl). }
  rewrite Hres. clear Hres.
  destruct (inv_take_entry _ _ _ _ _ Hi) as (p' & Hl & Hi1).
  destruct (inv_find _ _ _ _ _ Hi1 Hl) as (_ & r' & Hr' & Hok).
  assert (p = p') as <- by (eapply (inv_idx_inj _ _ w p p' r r' _ Hi Hr Hr'); [apply Ha|apply Hok]). simplify_eq.
  destruct (awaits_info _ _ _ _ _ c _ _ Ha Hok) as [Hinfo Hwf]; [apply (iv_entries _ _ _ Hi); set_solver|done|].
  pose proof (aw_idx _ _ _ _ Ha) as Hri. pose proof (ho_nb _ _ _ _ Hok) as Hnb.
  pose proof (aw_future _ _ _ _ Ha) as Hf. pose proof (aw_plain _ _ _ _ Ha) as Hq.
  set (i := entry_task_idx e) in *. set (nb := rt_syscall_nb r) in *.
  assert (Hrc : rt_ref_counter r = 1).
  { rewrite (ho_rc _ _ _ _ Hok), refs_zero.
    - rewrite held_cons, held_nil. cbn [fst]. by rewrite Z.eqb_refl.
    - intros x Hin. eapply (sim_no_flight _ {[p := (i, nb)]}); [done|done|by apply lookup_singleton_eq|done]. }
  unfold handle_cqe_entry. cbv zeta. rewrite Hmore, Hinfo. cbn [ti_tag task_idx syscall_nb ti_result ti_flags ti_response_gen].
  apply wps_bind. eapply wps_mono.
  { apply wps_wp; [by eapply wp_clone_task|]. apply (wps_clone_task_heap _ _ _ i p r w Hi1 Hl Hr); [lia|apply Hs]. }
  intros p' w1 [(-> & Hi2 & _) [Hio1 Hh1]]. set (r1 := set_ref_counter (rt_ref_counter r + 1) r) in *.
  assert (Hs2 : sim {[p := (i, nb)]} (K1 ++ K2) (d_take m s) w1) by by apply (sim_view _ _ _ w w1 p r r1 Hs1 Hio1 Hr).
  assert (Hr1 : w1.(w_heap) !! p = Some r1) by (rewrite Hh1; apply lookup_insert_eq).
  apply wps_bind, wps_zoom. eapply wps_step; [by apply evaluate_eq|]. cbn [lset heap_lens]. rewrite set_w_heap_id.
  change (rt_syscall_nb r1) with nb. rewrite compare_same by done. apply wps_bind.
  eapply (wps_mono _ _ (fun _ w' => inv [(i, p); (i, p)] (K1 ++ K2) w' /\ exists n s',
    exec c.(cqe_result) c.(cqe_flags) q (d_take m s) = Ok (tt, s') /\ settled 2 {[p := (i, n)]} (K1 ++ K2) p s' w')).
  - destruct (Z.leb_spec 32768 nb); [|by apply (wps_normal (K1 ++ K2) i p r1 q)].
    eapply wps_mono; [by eapply (wps_dispatched _ {[p := (i, nb)]} i nb p r1 q); try done; apply lookup_singleton_eq|].
    intros [] w' (Hi' & s' & Hex & Hset). split; [done|]. by exists nb, s'.
  - intros [] w2 (Hi' & n & s' & Hex & Hset). apply wps_bind, wps_bind.
    eapply wps_mono; [by eapply wps_release_settled|]. intros o w3 Hset3. apply wps_ret. unfold Task_drop. apply wps_bind.
    eapply wps_mono; [eapply wps_release_last; [exact Hset3|rewrite lookup_singleton_eq; by eexists]|].
    intros o' w4 Hs4. apply wps_ret. exists s'. split; [done|]. by rewrite delete_singleton_eq in Hs4.
Qed.
End Run.
