(* ===== verification/Refinement.v ===== *)
(** * The event loop implements the direct semantics

    Along every run of [block_on], for bodies that wait for one operation at a
    time, the state of the runtime corresponds to a state of the direct machine:
    each completion resumes the body that waits for the operation it answers,
    whatever slab slots and [user_data] values have been used again in between. *)

From S2P Require Import Prelude UserData Io Task Slab BufPool BufRing Futures Direct Runtime Calls Executor Quiet RingLog Stable.
From S2P Require Import Invariant Polls Lifetime Safety Concrete EventLoop Order Simulation SimSteps.

(** The completions of the kernel's answers, in order. *)
Definition completions (steps : list KernelStep) : list Cqe :=
  concat ((fun step => match step with KernelBatch cs => cs | KernelError _ => [] end) <$> steps).

Lemma completions_take n steps : completions (take n steps) `prefix_of` completions steps.
Proof.
  rewrite <- (take_drop n steps) at 2. unfold completions. rewrite fmap_app, concat_app. by apply prefix_app_r.
Qed.

(** The operations of plain bodies complete once. *)
Definition single_shot `{CqueueFlags} (steps : list KernelStep) : Prop :=
  Forall (fun c => more c.(cqe_flags) = false) (completions steps).

(** [tr] pairs completions with the numbers of the operations they answer: each
    carries the [user_data] of the entry with that number. *)
Definition answers (w : World) (tr : list (nat * Cqe)) : Prop :=
  Forall (fun mc => exists e, entries w !! mc.1 = Some e /\ e.(e_user_data) = mc.2.(cqe_user_data)) tr.

Lemma answers_prefix w w' tr : entries w `prefix_of` entries w' -> answers w tr -> answers w' tr.
Proof.
  intros Hp Ha. eapply Forall_impl; [exact Ha|]. intros [m c] (e & He & Hu). exists e. split; [|done].
  by eapply prefix_lookup_Some.
Qed.

(** ** Each operation is answered once *)
Section Once.
Context {prof : Profile} {flags : CqueueFlags}.

(** Bodies wait for operations that have been submitted. *)
Definition logged (s : DState) : Prop := forall m q, s.(d_waiting) !! m = Some q -> (m < length s.(d_log))%nat.

(** What running a body from [s] to [s'] may change: operations are added, and
    what waits was waiting or is new. *)
Definition d_grows (s s' : DState) : Prop :=
  s.(d_log) `prefix_of` s'.(d_log) /\
  forall m, is_Some (s'.(d_waiting) !! m) -> is_Some (s.(d_waiting) !! m) \/
    (length s.(d_log) <= m < length s'.(d_log))%nat.

#[local] Instance d_grows_preorder : PreOrder d_grows.
Proof.
  split; [intros s; split; [done|by left]|]. intros s1 s2 s3 [H1 H2] [H3 H4]. split; [by transitivity s2.(d_log)|].
  apply prefix_length in H1, H3. intros m [Hm|Hm]%H4; [|lia || (right; lia)]. destruct (H2 m Hm) as [?|?]; [by left|right; lia].
Qed.

Lemma exec_grows prog : forall res fl, stable d_grows (exec res fl prog).
Proof.
  assert (Hpool : forall A (m : M BufPool A), stable d_grows (zoom d_pool_lens m)).
  { intros A m. eapply stable_zoom; [apply stable_any|]. intros p s _. split; [done|by left]. }
  assert (Hret : forall b, stable d_grows (modify (d_return b))).
  { intros b. apply stable_modify. intros s. split; [done|by left]. }
  induction prog as [|msg|A leaf hold k IH|child IHc k IH|k IH|b k IH|b fd n k IH|r k IH]; intros res fl; cbn [exec].
  - apply (stable_ret d_grows).
  - apply stable_panic.
  - apply (stable_bind d_grows); [apply (stable_gets d_grows)|intros pool].
    destruct (leaf_step _ _ _ leaf) as [|[b|] v|]; [| | |apply stable_panic].
    2,3: apply (stable_bind d_grows); [|intros []; apply IH].
    2: apply Hret. 2: apply (stable_ret d_grows).
    apply stable_modify. intros s.
    unfold d_grows, d_submit. cbn. rewrite length_app. cbn. split; [by apply prefix_app_r|].
    intros m [q [[<- _]|[_ Hq]]%lookup_insert_Some]; [right; lia|]. left. by eexists.
  - by apply (stable_bind d_grows).
  - by apply (stable_bind d_grows).
  - by apply (stable_bind d_grows).
  - apply stable_panic.
  - apply (stable_bind d_grows); [|done]. destruct r as [b|b]; [|apply Hpool].
    cbn [d_drop]. destruct (committed b); [apply (stable_ret d_grows)|apply Hret].
Qed.

(** What a completion does. *)
Lemma resume_Ok m c s s1 : resume m c s = Ok (tt, s1) ->
  exists q, s.(d_waiting) !! m = Some q /\ exec c.(cqe_result) c.(cqe_flags) q (d_take m s) = Ok (tt, s1).
Proof.
  unfold resume. intros (waiting & s0 & [= <- <-] & E)%bind_Ok. destruct (d_waiting s !! m) as [q|]; [|done].
  apply bind_Ok in E as ([] & s2 & [= <-] & E). by exists q.
Qed.

Lemma replay_once tr : forall s s', logged s -> replay tr s = Ok (tt, s') ->
  NoDup tr.*1 /\ forall m, m ∈ tr.*1 -> is_Some (s.(d_waiting) !! m) \/ (length s.(d_log) <= m)%nat.
Proof.
  induction tr as [|[m c] tr IH]; intros s s' Hlog.
  - intros _. split; [constructor|]. by intros m ?%not_elem_of_nil.
  - intros ([] & s1 & (q & Hq & E1)%resume_Ok & E2)%bind_Ok.
    pose proof (exec_grows _ _ _ _ _ _ E1) as [Hlen%prefix_length Hwait]. cbn [d_take d_log d_waiting] in *.
    assert (Hback : forall j, is_Some (s1.(d_waiting) !! j) ->
              (is_Some (s.(d_waiting) !! j) /\ j <> m) \/ (length s.(d_log) <= j)%nat).
    { intros j [[q' [? ?]%lookup_delete_Some]|?]%Hwait; [left|right; lia]. by split; [eexists|]. }
    destruct (IH s1 s') as [Hnd Hin]; [|done|].
    + intros j q' Hj. destruct (Hwait j) as [[q2 [_ Hj2]%lookup_delete_Some]|?]; [by eexists| |lia].
      specialize (Hlog j q2 Hj2). lia.
    + pose proof (Hlog m q Hq) as Hm. cbn [fmap list_fmap fst]. split.
      * constructor; [|exact Hnd]. intros Hmem. destruct (Hin m Hmem) as [[[_ ?]|?]%Hback|?]; lia.
      * intros j [->|Hj]%elem_of_cons; [left; by eexists|].
        destruct (Hin j Hj) as [[[? _]|?]%Hback|?]; [by left|by right|right; lia].
Qed.
Lemma direct_once future tr pool s : direct future tr (d_start pool) = Ok (tt, s) -> NoDup tr.*1.
Proof.
  unfold direct. intros ([] & s1 & Hex & Hrep)%bind_Ok. destruct (replay_once tr s1 s) as [Hnd _]; [|exact Hrep|exact Hnd].
  intros m q Hm. destruct (exec_grows _ _ _ _ _ _ Hex) as [_ Hg].
  destruct (Hg m) as [[q' Hq]|[_ ?]]; [by eexists|cbn in Hq; by rewrite lookup_empty in Hq|done].
Qed.
End Once.

(** ** The loop *)
Section Loop.
Context {prof : Profile} {flags : CqueueFlags} {al : Allocator} {fl : FutLayout Fut} {sm : SlabMemory}.
Context {al_laws : AllocatorLaws} {sm_laws : SlabMemoryLaws}.

(** From the machine's state [s], the completions [cs] have been handled. *)
Definition handled (s : DState) (cs : list Cqe) (K : list Entry) (w : World) : Prop :=
  exists tr s', tr.*2 = cs /\ answers w tr /\ replay tr s = Ok (tt, s') /\ sim ∅ K s' w.

(** A panic while they are handled is one of the machine, or a limit. *)
Definition stops (s : DState) (cs : list Cqe) (msg : string) : Prop :=
  limit msg \/ exists tr, tr.*2 `prefix_of` cs /\ replay tr s = Panic msg.

Lemma handled_nil s K w : sim ∅ K s w -> handled s [] K w.
Proof. intros Hs. exists [], s. split_and!; try done. by constructor. Qed.

Lemma handled_sim s cs K K' w w' : handled s cs K w -> entries w' = entries w ->
  (forall s', sim ∅ K s' w -> sim ∅ K' s' w') -> handled s cs K' w'.
Proof.
  intros (tr & s' & H1 & H2 & H3 & H4) He Hs. exists tr, s'. split_and!; try done; [|by apply Hs].
  by apply (answers_prefix w); [rewrite He|].
Qed.

Lemma handled_app s cs1 w1 s1 tr1 cs2 K2 w2 : tr1.*2 = cs1 -> answers w1 tr1 -> replay tr1 s = Ok (tt, s1) ->
  entries w1 `prefix_of` entries w2 -> handled s1 cs2 K2 w2 -> handled s (cs1 ++ cs2) K2 w2.
Proof.
  intros H1 H2 H3 Hg (tr2 & s2 & H4 & H5 & H6 & H7). exists (tr1 ++ tr2), s2. split; [by rewrite fmap_app, H1, H4|].
  split; [apply Forall_app; split; [by eapply answers_prefix|done]|]. split; [|done].
  by rewrite replay_app, (bind_step _ _ _ _ _ H3).
Qed.

Lemma stops_app s cs1 s1 tr1 cs2 msg : tr1.*2 = cs1 -> replay tr1 s = Ok (tt, s1) ->
  stops s1 cs2 msg -> stops s (cs1 ++ cs2) msg.
Proof.
  intros H1 H2 [?|(tr & Hpre & Hr)]; [by left|right]. exists (tr1 ++ tr).
  rewrite fmap_app, H1, replay_app, (bind_step _ _ _ _ _ H2). split; [by apply prefix_app|done].
Qed.

Lemma stops_prefix s cs cs' msg : cs `prefix_of` cs' -> stops s cs msg -> stops s cs' msg.
Proof. intros Hp [?|(tr & Hpre & Hr)]; [by left|right]. exists tr. split; [by transitivity cs|done]. Qed.

Lemma batch_sim K cs K' : delivers K cs K' -> Forall (fun c => more c.(cqe_flags) = false) cs ->
  forall w s, inv [] K w -> sim ∅ K s w ->
  wps (stops s cs) (for_each cs handle_cqe_entry) (fun _ w' => inv [] K' w' /\ handled s cs K' w') w.
Proof.
  induction 1 as [K|K1 e K2 c cs K' Hu Hm Hd IH|K1 e K2 c cs K' Hu Hm Hd IH]; intros Hsingle w s Hi Hs; cbn [for_each].
  - apply wps_ret. split; [done|by apply handled_nil].
  - apply Forall_cons in Hsingle as [_ Hsingle]. destruct (handle_cqe_sim K1 e K2 c s w Hi Hs Hu Hm) as (m & He & Hstep).
    assert (Hone : forall s1, resume m c s = Ok (tt, s1) -> replay [(m, c)] s = Ok (tt, s1)).
    { intros s1 E. unfold replay. cbn [for_each fst snd]. by rewrite (bind_step _ _ _ _ _ E). }
    apply wps_bind. eapply wps_mono.
    { apply wps_wp; [apply (wp_stable entries_grow); [apply stable_handle_cqe_entry; apply _|]|].
      - eapply wp_handle_cqe_entry; [done|done|by rewrite Hm|done].
      - eapply wps_panics; [exact Hstep|]. intros msg [?|E]; [by left|right]. exists [(m, c)].
        split; [by exists cs|]. unfold replay. cbn [for_each fst snd]. unfold bind. by rewrite E. }
    intros [] w1 [[Hi1 [Hgrow _]] (s1 & Hr & Hs1)].
    assert (Hans : answers w1 [(m, c)]).
    { constructor; [|done]. exists e. split; [|done]. by eapply prefix_lookup_Some. }
    eapply wps_panics; [|intros msg; by apply (stops_app s [c] s1 [(m, c)] cs msg eq_refl), Hone].
    eapply wps_mono; [apply wps_wp; [|by apply (IH Hsingle w1 s1)]|].
    { apply (wp_stable entries_grow (for_each cs handle_cqe_entry) (fun _ _ => True)).
      - apply stable_for_each; [apply _|]. intros x. apply stable_handle_cqe_entry. apply _.
      - eapply wp_mono; [by eapply wp_batch|done]. }
    intros [] w2 [[_ [Hgrow2 _]] [Hi2 Hh2]]. split; [done|].
    by apply (handled_app s [c] w1 s1 [(m, c)] cs K' w2 eq_refl Hans (Hone _ Hr)).
  - apply Forall_cons in Hsingle as [Hc _]. congruence.
Qed.

Lemma wps_free_sim X s cs K w : inv [] K w -> w.(w_borrow) = 0 -> handled s cs K w ->
  wps X is_runtime_free (fun b w' => (inv [] K w' /\ w'.(w_heap) = w.(w_heap) /\ b = bool_decide (w.(w_heap) = ∅) /\
    w'.(RUNTIME_FREE_LIST) = []) /\ handled s cs K w') w.
Proof.
  intros Hi Hb Hh. eapply wps_mono; [by apply wps_is_runtime_free|].
  intros b w' (H1 & H2 & H3 & H4 & Hio). split; [done|].
  eapply handled_sim; [done|by apply entries_io|]. intros s' Hs. by eapply sim_io.
Qed.

(** The kernel takes the queue. *)
Lemma wps_submit_sim X K s step w : (forall msg, limit msg -> X msg) -> inv [] K w -> sim ∅ K s w ->
  wps X (with_borrow_mut (submit_and_wait step)) (fun r w' => w'.(w_heap) = w.(w_heap) /\
    inv [] (K ++ w.(w_rt).(pending)) w' /\ sim ∅ (K ++ w.(w_rt).(pending)) s w' /\
    r = match step with KernelError errno => inr errno | KernelBatch cs => inl cs end) w.
Proof.
  intros HX Hi Hs. apply wps_with_borrow_mut; [intros Hb; exfalso; apply Hb, Hs|]. intros _.
  unfold submit_and_wait. apply wps_bind, wps_gets, wps_bind, wps_assert.
  2: { intros _. apply HX. unfold limit, limits. set_solver. }
  intros _. apply wps_bind, wps_modify. set (w1 := set_w_rt _ _).
  assert (Hi1 : inv [] (K ++ w.(w_rt).(pending)) (set_w_borrow 0 w1)).
  { by apply inv_borrow, (inv_submit _ _ (set_w_borrow (-1) w)), inv_borrow. }
  assert (Hs1 : sim ∅ (K ++ w.(w_rt).(pending)) s (set_w_borrow 0 w1)).
  { destruct Hs. split; unfold entries in *; cbn; rewrite ?app_nil_r; done. }
  destruct step; by apply wps_ret.
Qed.

Lemma handled_borrow s cs K w : handled s cs K w -> w.(w_borrow) = 0.
Proof. intros (tr & s' & _ & _ & _ & Hs). apply Hs. Qed.

Lemma turn_sim K cs K' s w : inv [] K w -> w.(w_heap) <> ∅ -> sim ∅ K s w ->
  delivers (K ++ w.(w_rt).(pending)) cs K' -> Forall (fun c => more c.(cqe_flags) = false) cs ->
  wps (stops s cs) (block_on_turn (KernelBatch cs)) (fun _ w' => handled s cs K' w') w.
Proof.
  intros Hi Hne Hs Hd Hsingle. unfold block_on_turn. apply wps_bind.
  eapply wps_mono; [apply wps_submit_sim; [by left|done|done]|]. intros r w1 (Hh1 & Hi1 & Hs1 & ->).
  apply wps_bind. eapply wps_mono; [apply wps_free_sim; [done|apply Hs1|by apply handled_nil]|].
  intros free w2 [(Hi2 & Hh2 & -> & Hf2) (tr & s1 & Htr & _ & Hrep & Hs2)].
  destruct tr; [|done]. injection Hrep as <-. rewrite bool_decide_eq_false_2 by congruence.
  apply wps_bind. destruct (Nat.eqb _ _).
  { apply wps_panic. left. unfold limit, limits. set_solver. }
  apply wps_ret, wps_bind.
  eapply wps_mono; [by eapply batch_sim|]. intros [] w3 [Hi3 Hh3].
  apply wps_bind, wps_gets, wps_bind. rewrite (iv_wake _ _ _ Hi3). apply wps_ret, wps_bind.
  eapply wps_mono; [apply wps_free_sim; [done|by eapply handled_borrow|done]|].
  intros free w4 [_ Hh4]. by apply wps_ret.
Qed.

Lemma loop_sim steps : forall K s w Kend, inv [] K w -> w.(w_heap) <> ∅ -> w.(RUNTIME_FREE_LIST) = [] ->
  sim ∅ K s w -> valid_kernel K steps w Kend -> single_shot steps ->
  wps (stops s (completions steps)) (block_on_loop steps) (fun b w' => exists n Kx,
    (b = Waiting -> n = length steps) /\ handled s (completions (take n steps)) Kx w') w.
Proof.
  induction steps as [|[errno|cs] steps IH]; intros K s w Kend Hi Hne Hf Hs Hv Hsingle; cbn [block_on_loop].
  - apply wps_ret. exists 0%nat, K. split; [done|by apply handled_nil].
  - apply wps_bind. unfold block_on_turn. apply wps_bind.
    eapply wps_mono; [apply wps_submit_sim; [by left|done|done]|].
    intros r w1 (_ & _ & Hs1 & ->). apply wps_ret, wps_ret. exists 0%nat, (K ++ w.(w_rt).(pending)).
    split; [done|by apply handled_nil].
  - destruct Hv as (K' & Hd & Hv). unfold single_shot, completions in Hsingle.
    cbn [fmap list_fmap concat] in Hsingle. apply Forall_app in Hsingle as [Hcs Hsteps].
    change (completions (KernelBatch cs :: steps)) with (cs ++ completions steps).
    pose proof (wp_turn_batch K cs K' Kend w Hi Hne Hd) as Ht. pose proof (turn_sim K cs K' s w Hi Hne Hs Hd Hcs) as Hsim.
    apply wps_bind. unfold wp in Ht. unfold wps at 1 in Hsim. unfold wps at 1.
    destruct (block_on_turn (KernelBatch cs) w) as [[[b|] w1]|msg|?] eqn:E.
    + apply wps_ret. exists 1%nat, K'. split; [intros ->; by apply turn_not_waiting in E|].
      cbn [take]. unfold completions. cbn. by rewrite app_nil_r.
    + destruct Ht as (Hne1 & Hf1 & Hi1). destruct Hsim as (tr & s1 & Htr & Hans & Hrep & Hs1).
      specialize (IH K' s1 w1 Kend Hi1 Hne1 Hf1 Hs1 (Hv _ eq_refl) Hsteps).
      eapply wps_panics; [|intros msg; by apply (stops_app s cs s1 tr)].
      eapply wps_mono; [apply (wps_wp _ _ (fun _ w2 => True /\ entries_grow w1 w2)); [|exact IH]|].
      { apply (wp_stable entries_grow); [apply stable_block_on_loop; apply _|].
        eapply wp_mono; [by apply (wp_loop steps K' Kend); [..|apply Hv]|done]. }
      intros b w2 [[_ [Hgrow _]] (n & Kx & Hwait & Hh)]. exists (S n), Kx.
      split; [by intros ->%Hwait|]. by eapply handled_app.
    + eapply stops_prefix; [|exact Hsim]. by apply prefix_app_r.
    + done.
Qed.

(** ** The whole run *)
Lemma initial_world_ring raw w0 : initial_world raw tt = Ok (w0, tt) ->
  ring_from w0.(w_rt).(buffer) [] w0.(w_rt).(buf_ring).
Proof.
  rewrite initial_world_unfold. intros E. apply bind_Ok in E as (pool & [] & _ & E).
  apply bind_Ok in E as (mem & [] & Em & E). apply bind_Ok in E as (slab & [] & _ & E).
  injection E as <-. by exists mem.
Qed.

Lemma sim_start w0 raw : initial_world raw tt = Ok (w0, tt) -> w0.(w_borrow) = 0 ->
  sim ∅ [] (d_start w0.(w_rt).(buffer)) w0.
Proof.
  intros Hw0 Hb. pose proof (initial_world_bare _ _ Hw0) as (Hh & Hsub & Hpend).
  pose proof (initial_world_ring _ _ Hw0) as Hr. clear Hw0.
  split; unfold entries; rewrite ?Hsub, ?Hpend, ?Hh; cbn; try done.
  - constructor.
  - intros e He. by apply not_elem_of_nil in He.
Qed.

(** Where a run of [block_on] may panic: on a limit, or where the machine does. *)
Definition run_stops (future : Prog) (pool : BufPool) (cs : list Cqe) (msg : string) : Prop :=
  limit msg \/ exists tr, tr.*2 `prefix_of` cs /\ direct future tr (d_start pool) = Panic msg.

Lemma block_on_sim base w0 future steps Kend : pool_block base -> initial_world (Some base) tt = Ok (w0, tt) ->
  plain future -> valid_run future steps w0 Kend -> single_shot steps ->
  wps (run_stops future w0.(w_rt).(buffer) (completions steps)) (block_on future steps) (fun b w => exists n tr s K,
    (b = Waiting -> n = length steps) /\ tr.*2 = completions (take n steps) /\ answers w tr /\
    direct future tr (d_start w0.(w_rt).(buffer)) = Ok (tt, s) /\ sim ∅ K s w) w0.
Proof.
  intros Hb Hw0 Hplain Hv Hsingle. destruct (wp_Ok _ _ _ _ _ (initial_world_inv base Hb) Hw0) as (Hi & _ & Hbor).
  pose proof (sim_start _ _ Hw0 Hbor) as Hs. clear Hbor Hw0. set (pool := w0.(w_rt).(buffer)) in *.
  unfold block_on. apply wps_bind.
  pose proof (wps_spawn_sim run future ∅ [] [] _ w0 (run_sim future) Hplain Hi Hs) as Hsp.
  unfold valid_run, bind at 1 in Hv. fold (spawn future) in Hsp.
  unfold wps at 1 in Hsp. unfold wps at 1. destruct (spawn future w0) as [[[] w1]|msg|?]; [| |done].
  2: { destruct Hsp as [?|E]; [by left|right]. exists []. split; [apply prefix_nil|]. unfold direct, bind. by rewrite E. }
  destruct Hsp as (Hi1 & _ & s1 & Hex & Hs1).
  assert (Hdir : forall tr, direct future tr (d_start pool) = replay tr s1).
  { intros tr. unfold direct. by rewrite (bind_step _ _ _ _ _ Hex). }
  pose proof (wps_free_sim (fun _ => False) s1 [] [] w1 Hi1 (sm_borrow _ _ _ _ Hs1) (handled_nil _ _ _ Hs1)) as Hf.
  apply wps_bind. unfold wps at 1 in Hf. unfold wps at 1.
  destruct (is_runtime_free w1) as [[free w2]|?|?]; [|done..].
  destruct Hf as [(Hi2 & Hh & -> & Hf2) Hhd]. case_bool_decide as He.
  - apply wps_ret. destruct Hhd as (tr & s & H1 & H2 & H3 & H4). exists 0%nat, tr, s, []. by rewrite H1, Hdir.
  - destruct Hhd as (tr0 & s2 & Htr0 & _ & Hrep & Hs2). destruct tr0 as [|? ?]; [|done]. injection Hrep as <-.
    eapply wps_panics; [eapply wps_mono; [apply (loop_sim steps [] s1 w2 Kend)|]|];
      [done|by rewrite Hh|done|done|by apply Hv|done| |].
    + intros b w (n & Kx & Hwait & tr & s & H1 & H2 & H3 & H4). exists n, tr, s, Kx. by rewrite H1, Hdir.
    + intros msg [?|(tr & Hpre & Hr)]; [by left|right]. exists tr. by rewrite Hdir.
Qed.
End Loop.

Section Results.
Context {prof : Profile} {flags : CqueueFlags} {al : Allocator} {fl : FutLayout Fut} {sm : SlabMemory}.
Context {al_laws : AllocatorLaws} {sm_laws : SlabMemoryLaws}.

(** ** What the correspondence says

    The operations submitted, in order, and the pool are those of the machine, and
    the bytes of the ring are what the buffers it gave back make of them; the bodies that wait in the machine are the bodies in the live task headers,
    one each, and the entry a body waits for carries its task's index. *)
Record implements (s : DState) (w : World) : Prop := {
  im_log : e_opcode <$> w.(w_rt).(ring_submitted) ++ w.(w_rt).(pending) = s.(d_log);
  im_pool : w.(w_rt).(buffer) = s.(d_pool);
  im_ring : ring_from s.(d_pool) s.(d_returned) w.(w_rt).(buf_ring);
  im_waiting m q : s.(d_waiting) !! m = Some q -> exists p r e, w.(w_heap) !! p = Some r /\
    r.(rt_future) = Suspended q /\ entries w !! m = Some e /\ r.(rt_slab_idx) = Some (entry_task_idx e);
  im_task p r : w.(w_heap) !! p = Some r -> exists m q e, s.(d_waiting) !! m = Some q /\
    r.(rt_future) = Suspended q /\ entries w !! m = Some e /\ r.(rt_slab_idx) = Some (entry_task_idx e);
  im_one m m' e e' : is_Some (s.(d_waiting) !! m) -> is_Some (s.(d_waiting) !! m') ->
    entries w !! m = Some e -> entries w !! m' = Some e' -> entry_task_idx e = entry_task_idx e' -> m = m';
}.

Lemma sim_implements K s w : sim ∅ K s w -> implements s w.
Proof.
  intros Hs. split; [apply Hs|apply Hs|apply Hs| | |apply Hs].
  - intros m q Hm. destruct (sm_waiting _ _ _ _ Hs m q Hm) as (e & p & r & He & Hr & _ & []). eauto 8.
  - intros p r Hr. destruct (sm_task _ _ _ _ Hs p r Hr) as (m & e & q & Hm & He & []); [done|]. eauto 8.
Qed.

Lemma implements_empty s w : implements s w -> w.(w_heap) = ∅ -> s.(d_waiting) = ∅.
Proof.
  intros Hs He. apply map_empty. intros m. destruct (s.(d_waiting) !! m) as [q|] eqn:Hm; [|done].
  destruct (im_waiting _ _ Hs m q Hm) as (p & r & e & Hr & _). by rewrite He in Hr.
Qed.

(** C1: [block_on] implements the direct semantics, for the bodies of [plain] (they
    accept, read, write, connect, spawn and use write buffer handles; no commit,
    no stream, no fan-out, no [WBuffer::submit]) and completions that announce no
    more.  However a run of it ends or waits, the direct machine, given the completions handled so far, each for one
    operation that carries its [user_data], is in the corresponding state: every
    completion has resumed the body that waits for that operation and no other,
    each operation has been answered at most once, the operations submitted are
    the same and in the same order, so are the read buffers given back to the
    ring, the bodies in the live task headers are those that wait in the machine,
    and none waits when [block_on] has returned. *)
Theorem block_on_refines base w0 future steps Kend b w :
  pool_block base -> initial_world (Some base) tt = Ok (w0, tt) -> plain future ->
  valid_run future steps w0 Kend -> single_shot steps -> block_on future steps w0 = Ok (b, w) ->
  exists tr s, direct future tr (d_start w0.(w_rt).(buffer)) = Ok (tt, s) /\
    tr.*2 `prefix_of` completions steps /\ (b = Waiting -> tr.*2 = completions steps) /\
    NoDup tr.*1 /\ answers w tr /\ implements s w /\ (b = Returned -> s.(d_waiting) = ∅).
Proof.
  intros Hb Hw0 Hplain Hv Hsingle E.
  destruct (wps_Ok _ _ _ _ _ _ (block_on_sim _ _ _ _ _ Hb Hw0 Hplain Hv Hsingle) E)
    as (n & tr & s & K & Hwait & Htr & Hans & Hdir & Hs).
  pose proof (wp_Ok _ _ _ _ _ (loop_from_start _ _ _ _ _ Hb Hw0 (plain_ok _ Hplain) Hv) E) as Hpost.
  pose proof (sim_implements _ _ _ Hs) as Him. exists tr, s.
  split; [exact Hdir|]. split; [rewrite Htr; apply completions_take|].
  split; [intros ->%Hwait; by rewrite Htr, take_ge|].
  split; [by eapply direct_once|]. split; [exact Hans|]. split; [exact Him|].
  intros ->. by apply (implements_empty s w), Hpost.
Qed.

(** C3: for the bodies of [plain] (they accept, read, write, connect, spawn and use
    write buffer handles; no commit, no stream, no fan-out, no [WBuffer::submit])
    and completions that announce no more, [block_on] panics only when a limit is reached (a
    task that cannot be allocated, a full slab or submission queue, a completion
    the kernel does not produce, a foreign buffer handle) or when the direct
    machine panics with the same message on the completions handled so far: a
    body panics, the write buffers are used up, or a buffer handle is misused.
    The checks the runtime makes on itself never fail, in either build profile:
    no completion is taken for a newer one, no completed body is polled again,
    no reference counter or syscall number overflows, the runtime is never
    borrowed twice and no vacant slab slot is indexed. *)
Theorem block_on_panics base w0 future steps Kend msg :
  pool_block base -> initial_world (Some base) tt = Ok (w0, tt) -> plain future ->
  valid_run future steps w0 Kend -> single_shot steps -> block_on future steps w0 = Panic msg ->
  msg ∈ limits \/
  exists tr, tr.*2 `prefix_of` completions steps /\
    direct future tr (d_start w0.(w_rt).(buffer)) = Panic msg.
Proof.
  intros Hb Hw0 Hplain Hv Hsingle E.
  exact (wps_Panic _ _ _ _ _ (block_on_sim _ _ _ _ _ Hb Hw0 Hplain Hv Hsingle) E).
Qed.
End Results.

Module RefinementExamples.
Import EventLoopExamples.

(** A task accepts two connections and spawns a reader for each.  The first
    reader is over before the second starts, which gets its slab slot and so the
    same [user_data]. *)
Definition two_readers : Prog :=
  Await (accept 3) [] (fun r => match r with inl fd => Spawn (reader fd)
    (Await (accept 3) [] (fun r => match r with inl fd => Spawn (reader fd) Return | inr _ => Return end))
  | inr _ => Return end).

Definition answers_given : list KernelStep :=
  [KernelBatch [done_cqe (ud 0 65535 0) 7]; KernelBatch [buffer_cqe (ud 1 65535 0) 20 5];
   KernelBatch [done_cqe (ud 0 65535 1) 8]; KernelBatch [buffer_cqe (ud 1 65535 0) 30 2]].

Definition trace : list (nat * Cqe) := zip [0; 1; 2; 3]%nat (completions answers_given).

(** The machine, on its own. *)
Example direct_runs :
  direct two_readers trace (d_start start_pool) =
    Ok (tt, mkDState [AcceptOp 3 true; ReadOp 7 4096 0 true; AcceptOp 3 true; ReadOp 8 4096 0 true] ∅ start_pool [5; 2]).
Proof. vm_compute. reflexivity. Qed.

(** A completion for an operation nobody waits for has no place in it. *)
Example direct_refuses : 
  direct two_readers [(1%nat, done_cqe (ud 0 65535 0) 7)] (d_start start_pool) = Ub "a completion nobody waits for".
Proof. vm_compute. reflexivity. Qed.

Lemma two_readers_plain : plain two_readers.
Proof.
  assert (Hr : forall fd, plain (reader fd)) by (intros fd; split; [done|]; by intros [b|e]).
  split; [done|]. intros [fd|e]; [|done]. split; [apply Hr|]. split; [done|]. intros [fd'|e]; [|done].
  split; [apply Hr|done].
Qed.

Lemma two_readers_run : valid_run two_readers answers_given start [] /\
  exists w, block_on two_readers answers_given start = Ok (Returned, w).
Proof.
  assert (Hc : check_run two_readers answers_given start = Some []) by (vm_compute; reflexivity).
  split; [by apply check_run_sound|].
  assert (Hb : match block_on two_readers answers_given start with Ok (Returned, _) => true | _ => false end = true)
    by (vm_compute; reflexivity).
  destruct (block_on two_readers answers_given start) as [[[] w]|?|?]; first [discriminate Hb|by exists w].
Qed.

Lemma block_on_refines_witness : exists w tr s,
  block_on two_readers answers_given start = Ok (Returned, w) /\
  direct two_readers tr (d_start start_pool) = Ok (tt, s) /\ implements s w /\ s.(d_waiting) = ∅.
Proof.
  destruct two_readers_run as (Hv & w & E).
  assert (Hs : single_shot answers_given) by (repeat constructor).
  destruct (block_on_refines pool_base start two_readers answers_given [] Returned w pool_base_block
    initial_world_start two_readers_plain Hv Hs E) as (tr & s & Hd & _ & _ & _ & _ & Him & Hw).
  exists w, tr, s. split; [exact E|]. split; [exact Hd|]. split; [exact Him|]. exact (Hw eq_refl).
Defined.

(** A body that panics on its second completion. *)
Definition gives_up : Prog :=
  Await (accept 3) [] (fun r => match r with
    | inl fd => Await (read fd) [] (fun r => match r with inl _ => Return | inr _ => Unwind "read failed" end)
    | inr _ => Return end).

Definition failing : list KernelStep :=
  [KernelBatch [done_cqe (ud 0 65535 0) 7]; KernelBatch [done_cqe (ud 0 65535 1) (-104)]].

Lemma block_on_panics_witness : exists tr, tr.*2 `prefix_of` completions failing /\
  direct gives_up tr (d_start start_pool) = Panic "read failed".
Proof.
  assert (Hplain : plain gives_up).
  { split; [done|]. intros [fd|e]; [|done]. split; [done|]. by intros [b|e]. }
  assert (Hv : valid_run gives_up failing start []) by (apply check_run_sound; vm_compute; reflexivity).
  assert (Hs : single_shot failing) by (repeat constructor).
  assert (E : block_on gives_up failing start = Panic "read failed") by (vm_compute; reflexivity).
  destruct (block_on_panics pool_base start gives_up failing [] _ pool_base_block initial_world_start Hplain Hv Hs E)
    as [Hl|H]; [|exact H].
  exfalso. revert Hl. unfold limits, spawn_panics. apply (bool_decide_unpack _). vm_compute. exact Logic.I.
Defined.
End RefinementExamples.
