(* ===== verification/Ownership.v ===== *)
(** * Ownership of buffers

    Rust's type system makes every body the owner of the buffers it is given: a
    [RwBuffer] or [WBuffer] handle is dropped once, or goes to a task the body
    spawns.  [owns] states this of a body that awaits the leaf futures of [starts]
    (accept, read, write, connect); the futures that take a handle (commit,
    fan-out) and the streams are outside of it.  This file shows that the direct
    machine then accounts for every buffer: each read buffer that a completion
    brought is held by one waiting body or has been given back once, and the
    counter of each write slot is the number of its handles. *)

From AAC_tactics Require Import AAC.
From AAC_tactics Require Instances.
From S2P Require Import Prelude UserData Io Task BufPool Futures Direct Stable Refinement.
Import Instances.Lists.

(** [aac_reflexivity] on permutations of appended lists. *)
#[local] Instance perm_lift {A} : AAC_lift (@Permutation A) (@Permutation A) := Build_AAC_lift _ _.

(** ** Handles *)

(** The read buffers and the write slots that handles stand for; a committed
    [RwBuffer] stands for none. *)
Definition read_ids (hs : list Res) : list Z :=
  hs ≫= fun r => match r with ResRw b => if b.(committed) then [] else [b.(buf_idx)] | ResW _ => [] end.
Definition write_ids (hs : list Res) : list Z :=
  hs ≫= fun r => match r with ResW b => [b.(abs_idx)] | ResRw _ => [] end.

Lemma read_ids_app hs1 hs2 : read_ids (hs1 ++ hs2) = read_ids hs1 ++ read_ids hs2.
Proof. apply bind_app. Qed.
Lemma write_ids_app hs1 hs2 : write_ids (hs1 ++ hs2) = write_ids hs1 ++ write_ids hs2.
Proof. apply bind_app. Qed.

#[export] Instance read_ids_perm : Proper ((≡ₚ) ==> (≡ₚ)) read_ids.
Proof. intros hs1 hs2 Hp. unfold read_ids. by rewrite Hp. Qed.
#[export] Instance write_ids_perm : Proper ((≡ₚ) ==> (≡ₚ)) write_ids.
Proof. intros hs1 hs2 Hp. unfold write_ids. by rewrite Hp. Qed.

(** The handles the output of a leaf carries. *)
Definition gives {A} (l : Leaf A) : A -> list Res :=
  match l in Leaf B return B -> list Res with
  | LRead _ => fun v => match v with inl b => [ResRw b] | inr _ => [] end
  | _ => fun _ => []
  end.

(** The leaves a body of [owns] awaits, as their constructors make them: none takes
    a handle.  Commits, fan-outs and streams are left out. *)
Definition starts {A} (l : Leaf A) : Prop :=
  match l with
  | LAccept (Accept_Pending _) | LRead (Read_Init _) | LWrite (Write_Init _ _ _) | LSocket (Socket_Create _) => True
  | _ => False
  end.

(** A leaf that has submitted its operation. *)
Definition pends {A} (l : Leaf A) : Prop :=
  match l with
  | LAccept Accept_Submited | LRead (Read_Pending _) | LWrite Write_Pending | LSocket (Socket_Connecting _ _) => True
  | _ => False
  end.

Section Owns.
Variable U : string -> Prop.

(** [owns U p hs]: run from here, the body [p] disposes of the handles [hs] and of
    those it is given, and panics only with a message of [U].  What it holds
    across an [await] is what it owns there; no handle goes into a future. *)
Fixpoint owns (p : Prog) (hs : list Res) : Prop :=
  match p with
  | Return => hs = []
  | Unwind msg => U msg
  | Await leaf held k => starts leaf /\ held ≡ₚ hs /\ forall v, owns (k v) (gives leaf v ++ hs)
  | Spawn child k => exists hs1 hs2, hs ≡ₚ hs1 ++ hs2 /\ owns child hs1 /\ owns k hs2
  | AllocWrite k => forall b, owns (k b) (ResW b :: hs)
  | CloneWrite b k => ResW b ∈ hs /\ forall b', owns (k b') (ResW b' :: hs)
  | SubmitWrite _ _ _ _ => False
  | DropRes r k => exists hs', hs ≡ₚ r :: hs' /\ owns k hs'
  end.

Lemma owns_plain p : forall hs, owns p hs -> plain p.
Proof.
  induction p as [|msg|A leaf held k IH|child IHc k IH|k IH|b k IH|b fd n k IH|r k IH]; intros hs; cbn [owns plain]; try done.
  - intros (Hs & _ & Hk). split; [by destruct leaf|]. intros v. by eapply IH.
  - intros (hs1 & hs2 & _ & Hc & Hk). split; [by eapply IHc|by eapply IH].
  - intros Hk b. by eapply IH.
  - intros [_ Hk] b'. by eapply IH.
  - intros (hs' & _ & Hk). by eapply IH.
Qed.

#[global] Instance owns_perm p : Proper ((≡ₚ) ==> iff) (owns p).
Proof.
  cut (forall hs hs', hs ≡ₚ hs' -> owns p hs -> owns p hs').
  { intros Hc hs hs' Hp. split; by apply Hc. }
  induction p as [|msg|A leaf held k IH|child IHc k IH|k IH|b k IH|b fd n k IH|r k IH]; intros hs hs' Hp; cbn [owns]; try done.
  - intros ->. by apply Permutation_nil.
  - intros (Hs & Hh & Hk). split; [done|]. split; [by rewrite Hh|]. intros v. eapply IH; [|apply Hk]. by rewrite Hp.
  - intros (hs1 & hs2 & Hh & Hc & Hk). exists hs1, hs2. by rewrite <- Hp.
  - intros Hk b. eapply IH; [|apply Hk]. by rewrite Hp.
  - intros [Hb Hk]. split; [by rewrite <- Hp|]. intros b'. eapply IH; [|apply Hk]. by rewrite Hp.
  - intros (hs1 & Hh & Hk). exists hs1. by rewrite <- Hp.
Qed.
End Owns.

(** ** Accounts *)

Definition is_read (op : Opcode) : bool := match op with ReadOp _ _ _ _ => true | _ => false end.
Definition reads {A} (l : Leaf A) : bool := match l with LRead _ => true | _ => false end.

(** What the body [q], which waits for [op], holds, and what it owes. *)
Definition held_by (q : Prog) : list Res := match q with Await _ held _ => held | _ => [] end.

Definition suspended_ok (U : string -> Prop) (op : Opcode) (q : Prog) : Prop :=
  match q with
  | Await leaf held k => pends leaf /\ is_read op = reads leaf /\ forall v, owns U (k v) (gives leaf v ++ held)
  | _ => False
  end.

Definition held_in (waiting : gmap nat Prog) : list Res := map_to_list waiting ≫= fun mq => held_by mq.2.

Lemma held_insert m q waiting : waiting !! m = None -> held_in (<[m := q]> waiting) ≡ₚ held_by q ++ held_in waiting.
Proof. intros Hm. unfold held_in. by rewrite map_to_list_insert, bind_cons by done. Qed.

Lemma held_delete m q waiting : waiting !! m = Some q -> held_in waiting ≡ₚ held_by q ++ held_in (delete m waiting).
Proof. intros Hm. unfold held_in. by rewrite <- (map_to_list_delete waiting m q) by done. Qed.

Section Accounts.
Context {prof : Profile} {flags : CqueueFlags}.
Variable U : string -> Prop.

(** [taken] are the read buffers completions brought so far; the running code
    holds [hs]. *)
Record accounts (taken : list Z) (hs : list Res) (s : DState) : Prop := {
  ac_read : read_ids (hs ++ held_in s.(d_waiting)) ++ s.(d_returned) ≡ₚ taken;
  ac_write : debug_checks = true -> pool_inv (write_ids (hs ++ held_in s.(d_waiting))) s.(d_pool);
  ac_waiting m q : s.(d_waiting) !! m = Some q -> exists op, s.(d_log) !! m = Some op /\ suspended_ok U op q;
}.

#[global] Instance accounts_perm taken : Proper ((≡ₚ) ==> eq ==> iff) (accounts taken).
Proof.
  cut (forall hs hs' s, hs ≡ₚ hs' -> accounts taken hs s -> accounts taken hs' s).
  { intros Hc hs hs' Hp s _ <-. split; by apply Hc. }
  intros hs hs' s Hp []. split; [by rewrite <- Hp|by rewrite <- Hp|done].
Qed.

(** *** Operations on the pool *)
Lemma zoom_pool_Ok {A} (m : M BufPool A) s a s1 : zoom d_pool_lens m s = Ok (a, s1) ->
  exists p, m s.(d_pool) = Ok (a, p) /\ s1 = d_set_pool p s.
Proof. unfold zoom. cbn. destruct (m _) as [[b p]|?|?]; [|done..]. intros [= <- <-]. by exists p. Qed.

Lemma accounts_alloc taken hs s b s1 : accounts taken hs s -> zoom d_pool_lens (alloc_write 1) s = Ok (b, s1) ->
  accounts taken (ResW b :: hs) s1.
Proof.
  intros [Hr Hw Hq] (p & E & ->)%zoom_pool_Ok. split; [done| |done]. intros Hd. specialize (Hw Hd).
  pose proof (alloc_write_spec 1 _ _ Hw) as Ha. destruct (write_free _) as [|i rest]; [congruence|].
  destruct Ha as (p' & E' & Hp' & _). rewrite E in E'. by injection E' as -> ->.
Qed.

Lemma write_ids_elem b hs : ResW b ∈ hs -> b.(abs_idx) ∈ write_ids hs.
Proof. intros Hb. apply list_elem_of_bind. exists (ResW b). split; [by left|done]. Qed.

Lemma accounts_clone taken hs s b b' s1 : accounts taken hs s -> ResW b ∈ hs ->
  zoom d_pool_lens (WBuffer_clone b) s = Ok (b', s1) -> accounts taken (ResW b' :: hs) s1.
Proof.
  intros [Hr Hw Hq] Hb (p & E & ->)%zoom_pool_Ok. split; [done| |done]. intros Hd. specialize (Hw Hd).
  assert (Hin : b.(abs_idx) ∈ write_ids (hs ++ held_in s.(d_waiting)))
    by (rewrite write_ids_app; apply elem_of_app; left; by apply write_ids_elem).
  destruct (decide (handle_count b.(abs_idx) (write_ids (hs ++ held_in s.(d_waiting))) + 1 < 2 ^ 32)) as [Hlt|Hge].
  - destruct (WBuffer_clone_spec _ _ _ Hw Hin Hlt) as (p' & E' & Hp' & _). rewrite E in E'. by injection E' as -> ->.
  - exfalso. destruct (pool_handle_range _ _ _ Hw Hin) as [Hrg Hpos]. pose proof (pool_rc_at _ _ _ Hw Hrg) as Hrc.
    revert E. unfold WBuffer_clone, bind, get, sub_w, add_w, rc_at, debug_assert, assert_, ret; simpl.
    rewrite (proj2 (Z.leb_le _ _)) by lia. rewrite Hrc, Hd, (proj2 (Z.ltb_lt 0 _)) by lia.
    by rewrite (proj2 (Z.ltb_ge _ _)) by lia.
Qed.

Lemma accounts_drop taken hs s r s1 : accounts taken (r :: hs) s -> d_drop r s = Ok (tt, s1) -> accounts taken hs s1.
Proof.
  intros [Hr Hw Hq]. destruct r as [b|b]; cbn [d_drop].
  - assert (Ht : read_ids (hs ++ held_in s.(d_waiting)) ++ s.(d_returned) ++ (if b.(committed) then [] else [b.(buf_idx)]) ≡ₚ taken).
    { rewrite <- Hr. unfold read_ids at 2. cbn [app]. rewrite bind_cons. fold (read_ids (hs ++ held_in s.(d_waiting))). aac_reflexivity. }
    destruct (committed b); intros [= <-]; split; cbn [d_returned d_return d_waiting d_pool d_log] in *; try done.
    by rewrite app_nil_r in Ht.
  - intros (p & E & ->)%zoom_pool_Ok. split; [done| |done]. intros Hd. specialize (Hw Hd).
    destruct (WBuffer_drop_spec _ _ _ Hw) as (p' & E' & Hp' & _). rewrite E in E'. by injection E' as ->.
Qed.
(** *** Waiting and running *)
Lemma accounts_submit taken hs s op q : suspended_ok U op q -> accounts taken (held_by q ++ hs) s ->
  accounts taken hs (d_submit op q s).
Proof.
  intros Hq [Hr Hw Hwait]. assert (Hn : s.(d_waiting) !! length s.(d_log) = None).
  { destruct (s.(d_waiting) !! _) as [q'|] eqn:E; [|done].
    destruct (Hwait _ _ E) as (op' & Hlk%lookup_lt_Some & _). lia. }
  assert (Hperm : hs ++ held_in (d_submit op q s).(d_waiting) ≡ₚ (held_by q ++ hs) ++ held_in s.(d_waiting)).
  { cbn [d_waiting d_submit]. rewrite held_insert by done. aac_reflexivity. }
  split; rewrite ?Hperm; try done. cbn [d_waiting d_submit d_log].
  intros m q' [[<- <-]|[_ Hm]]%lookup_insert_Some.
  - exists op. split; [by apply list_lookup_middle|done].
  - destruct (Hwait m q' Hm) as (op' & Hlk & ?). exists op'. split; [by apply lookup_app_l_Some|done].
Qed.

Lemma accounts_take taken s m q : s.(d_waiting) !! m = Some q -> accounts taken [] s ->
  accounts taken (held_by q) (d_take m s).
Proof.
  intros Hm [Hr Hw Hwait]. cbn [app] in *.
  split; cbn [d_take d_waiting d_returned d_pool d_log]; rewrite <- ?(held_delete m q) by done; try done.
  intros m' q' [_ ?]%lookup_delete_Some. by apply Hwait.
Qed.

Lemma starts_step {A} pool res fl (l : Leaf A) : starts l -> exists op l',
  leaf_step pool res fl l = Submit op l' /\ pends l' /\ is_read op = reads l' /\ forall v, gives l' v = gives l v.
Proof.
  destruct l as [f| |f| |f| | |f]; try done; destruct f; try done; intros _; cbn [leaf_step]; do 2 eexists; by split_and!.
Qed.

Lemma exec_accounts prog : forall res fl own hs taken s s', owns U prog own -> accounts taken (own ++ hs) s ->
  exec res fl prog s = Ok (tt, s') -> accounts taken hs s'.
Proof.
  induction prog as [|msg|A leaf held k IH|child IHc k IH|k IH|b k IH|b fd n k IH|r k IH];
    intros res fl own hs taken s s' Hown Hac; cbn [owns exec] in *.
  - intros [= <-]. by subst own.
  - done.
  - destruct Hown as (Hst & Hheld & Hk). unfold bind at 1, gets. cbv beta iota.
    destruct (starts_step s.(d_pool) res fl leaf Hst) as (op & l' & -> & Hn & Hop & Hg). intros [= <-].
    apply accounts_submit; [|by cbn [held_by]; rewrite Hheld].
    split; [done|]. split; [done|]. intros v. rewrite Hg, Hheld. apply Hk.
  - destruct Hown as (hs1 & hs2 & Hp & Hc & Hk). intros ([] & s1 & E1 & E2)%bind_Ok.
    rewrite Hp, <- app_assoc in Hac. eapply (IH _ _ hs2); [done| |exact E2]. by eapply (IHc _ _ hs1).
  - intros (b & s1 & E1 & E2)%bind_Ok. eapply (IH b _ _ (ResW b :: own)); [done| |exact E2]. by eapply accounts_alloc.
  - destruct Hown as [Hb Hk]. intros (b' & s1 & E1 & E2)%bind_Ok.
    eapply (IH b' _ _ (ResW b' :: own)); [done| |exact E2]. eapply accounts_clone; [done| |exact E1]. set_solver.
  - done.
  - destruct Hown as (own' & Hp & Hk). intros ([] & s1 & E1 & E2)%bind_Ok.
    eapply IH; [done| |exact E2]. rewrite Hp in Hac. by eapply accounts_drop.
Qed.

(** ** Completions *)

(** The read buffer a completion of [op] brings. *)
Definition brings (op : Opcode) (c : Cqe) : list Z :=
  if is_read op then option_list (buffer_select c.(cqe_flags)) else [].

Lemma pending_step {A} pool res fl (l : Leaf A) : pends l ->
  match leaf_step pool res fl l with
  | Submit op l' => reads l = false /\ pends l' /\ is_read op = reads l' /\ forall v, gives l' v = gives l v
  | Deliver back v => option_list back ++ read_ids (gives l v) = if reads l then option_list (buffer_select fl) else []
  | Crash msg => msg = "READ+BUFFER_SELECT: CQE positive sans buf_id"
  end.
Proof.
  destruct l as [f| |f| |f| | |f]; try done; destruct f; try done; intros _; cbn [leaf_step].
  - cbn. destruct (_ <=? 0); [by rewrite app_nil_r|]. by destruct (buffer_select fl).
  - cbn. by destruct (_ =? 0).
Qed.

Lemma accounts_give_back taken hs s back s1 : accounts taken hs s -> d_give_back back s = Ok (tt, s1) ->
  accounts (taken ++ option_list back) hs s1.
Proof.
  intros [Hr Hw Hq]. destruct back as [b|]; cbn [d_give_back]; intros [= <-].
  - split; try done. cbn. rewrite <- Hr. aac_reflexivity.
  - split; try done. by rewrite app_nil_r.
Qed.

Lemma accounts_given taken hs given s : write_ids given = [] -> accounts taken hs s ->
  accounts (taken ++ read_ids given) (given ++ hs) s.
Proof.
  intros Hg [Hr Hw Hq]. split; try done.
  - rewrite <- Hr, !read_ids_app. aac_reflexivity.
  - rewrite write_ids_app in Hw. rewrite !write_ids_app, Hg. exact Hw.
Qed.

Lemma resume_accounts taken m c s s1 : accounts taken [] s -> resume m c s = Ok (tt, s1) ->
  exists op, s.(d_log) !! m = Some op /\ accounts (taken ++ brings op c) [] s1.
Proof.
  intros Hac (q & Hm & E)%resume_Ok. destruct (ac_waiting _ _ _ Hac m q Hm) as (op & Hop & Hsus).
  exists op. split; [done|]. pose proof (accounts_take _ _ _ _ Hm Hac) as Ht.
  destruct q as [| |A leaf held k| | | | |]; try done. destruct Hsus as (Hn & Hrd & Hk). cbn [held_by exec] in *.
  unfold bind at 1, gets in E. cbv beta iota in E. unfold brings. rewrite Hrd.
  pose proof (pending_step (d_pool (d_take m s)) c.(cqe_result) c.(cqe_flags) leaf Hn) as Hst.
  destruct (leaf_step _ _ _ leaf) as [op' l'|back v|msg]; [| |done].
  - destruct Hst as (-> & Hn' & Hop' & Hg). injection E as <-. rewrite app_nil_r. apply accounts_submit.
    + split; [done|]. split; [done|]. intros v. rewrite Hg. apply Hk.
    + cbn [held_by]. by rewrite app_nil_r.
  - rewrite <- Hst. apply bind_Ok in E as ([] & s2 & E1 & E2).
    eapply (exec_accounts (k v) _ _ (gives leaf v ++ held)); [apply Hk| |exact E2]. rewrite app_nil_r, app_assoc.
    apply accounts_given; [|by eapply accounts_give_back]. destruct leaf; try done. by destruct v.
Qed.

(** *** Whole runs *)

(** The read buffers the completions of [tr] brought. *)
Definition brought (log : list Opcode) (tr : list (nat * Cqe)) : list Z :=
  tr ≫= fun mc => match log !! mc.1 with Some op => brings op mc.2 | None => [] end.

Lemma resume_log m c s s1 : resume m c s = Ok (tt, s1) -> s.(d_log) `prefix_of` s1.(d_log).
Proof. intros (q & Hm & E)%resume_Ok. by destruct (exec_grows _ _ _ _ _ _ E) as [Hp _]. Qed.

Lemma replay_log tr : forall s s', replay tr s = Ok (tt, s') -> s.(d_log) `prefix_of` s'.(d_log).
Proof.
  induction tr as [|mc tr IH]; intros s s'; [by intros [= <-]|].
  intros ([] & s1 & E1%resume_log & E2%IH)%bind_Ok. by transitivity s1.(d_log).
Qed.

Lemma replay_accounts tr : forall taken s s', accounts taken [] s -> replay tr s = Ok (tt, s') ->
  accounts (taken ++ brought s'.(d_log) tr) [] s'.
Proof.
  induction tr as [|[m c] tr IH]; intros taken s s' Hac.
  - intros [= <-]. by rewrite app_nil_r.
  - intros ([] & s1 & E1 & E2)%bind_Ok. cbn [fst snd] in E1.
    destruct (resume_accounts _ _ _ _ _ Hac E1) as (op & Hop & Hac1).
    pose proof (transitivity (resume_log _ _ _ _ E1) (replay_log _ _ _ E2)) as Hpre.
    unfold brought. rewrite bind_cons. cbn [fst snd]. rewrite (prefix_lookup_Some _ _ _ _ Hop Hpre), app_assoc.
    by apply (IH _ s1).
Qed.

(** Every buffer of a run is accounted for. *)
Lemma direct_accounts future tr pool s : owns U future [] -> pool_inv [] pool ->
  direct future tr (d_start pool) = Ok (tt, s) -> accounts (brought s.(d_log) tr) [] s.
Proof.
  intros Hown Hp ([] & s1 & E1 & E2)%bind_Ok. apply (replay_accounts tr [] s1); [|done].
  eapply (exec_accounts future _ _ []); [done| |exact E1]. by split.
Qed.

(** *** What such a body can panic with *)

(** The pool is used up, a buffer has 2^32 handles, the kernel delivers data
    without a buffer. *)
Definition body_limits : list string := [
  "BufPool: write pool épuisé"; "attempt to add with overflow";
  "READ+BUFFER_SELECT: CQE positive sans buf_id"]%string.

Definition may_panic (msg : string) : Prop := U msg \/ msg ∈ body_limits.

Context (Hdebug : debug_checks = true).

Lemma alloc_panics taken hs s msg : accounts taken hs s -> zoom d_pool_lens (alloc_write 1) s = Panic msg ->
  may_panic msg.
Proof using Hdebug.
  intros [_ Hw _]. pose proof (alloc_write_spec 1 _ _ (Hw Hdebug)) as Ha. unfold zoom. cbn [lget d_pool_lens].
  destruct (write_free _) as [|i rest].
  - rewrite Ha. intros [= <-]. right. set_solver.
  - destruct Ha as (p' & -> & _). done.
Qed.

Lemma clone_panics taken hs s b msg : accounts taken hs s -> ResW b ∈ hs ->
  zoom d_pool_lens (WBuffer_clone b) s = Panic msg -> may_panic msg.
Proof using Hdebug.
  intros [_ Hw _] Hb. specialize (Hw Hdebug).
  assert (Hin : b.(abs_idx) ∈ write_ids (hs ++ held_in s.(d_waiting)))
    by (rewrite write_ids_app; apply elem_of_app; left; by apply write_ids_elem).
  destruct (pool_handle_range _ _ _ Hw Hin) as [Hrg Hpos]. pose proof (pool_rc_at _ _ _ Hw Hrg) as Hrc.
  unfold zoom, WBuffer_clone, bind, get, sub_w, add_w, rc_at, set_rc, debug_assert, assert_, ret. cbn [lget d_pool_lens].
  rewrite (proj2 (Z.leb_le _ _)) by lia. rewrite Hrc, Hdebug, (proj2 (Z.ltb_lt 0 _)) by lia.
  destruct (_ <? _); [by rewrite Hrc|]. intros [= <-]. right. set_solver.
Qed.

Lemma drop_panics taken hs s r msg : accounts taken (r :: hs) s -> d_drop r s = Panic msg -> False.
Proof using Hdebug.
  intros [_ Hw _]. specialize (Hw Hdebug). destruct r as [b|b]; cbn [d_drop]; [by destruct (committed b)|].
  destruct (WBuffer_drop_spec _ _ _ Hw) as (p' & E & _). unfold zoom. cbn [lget d_pool_lens]. by rewrite E.
Qed.

Lemma exec_panics prog : forall res fl own hs taken s msg, owns U prog own -> accounts taken (own ++ hs) s ->
  exec res fl prog s = Panic msg -> may_panic msg.
Proof using Hdebug.
  induction prog as [|msg|A leaf held k IH|child IHc k IH|k IH|b k IH|b fd n k IH|r k IH];
    intros res fl own hs taken s msg' Hown Hac; cbn [owns exec] in *.
  - done.
  - intros [= <-]. by left.
  - destruct Hown as (Hst & _ & _). unfold bind at 1, gets. cbv beta iota.
    by destruct (starts_step s.(d_pool) res fl leaf Hst) as (op & l' & -> & _).
  - destruct Hown as (hs1 & hs2 & Hp & Hc & Hk). rewrite Hp, <- app_assoc in Hac.
    intros [E|([] & s1 & E1 & E2)]%bind_Panic; [by eapply (IHc _ _ hs1)|].
    eapply (IH _ _ hs2); [done| |exact E2]. by eapply (exec_accounts child _ _ hs1).
  - intros [E|(b & s1 & E1 & E2)]%bind_Panic; [by eapply alloc_panics|].
    eapply (IH b _ _ (ResW b :: own)); [done| |exact E2]. by eapply accounts_alloc.
  - destruct Hown as [Hb Hk]. assert (Hb' : ResW b ∈ own ++ hs) by set_solver.
    intros [E|(b' & s1 & E1 & E2)]%bind_Panic; [by eapply clone_panics|].
    eapply (IH b' _ _ (ResW b' :: own)); [done| |exact E2]. by eapply accounts_clone.
  - done.
  - destruct Hown as (own' & Hp & Hk). rewrite Hp in Hac.
    intros [E|([] & s1 & E1 & E2)]%bind_Panic; [by exfalso; eapply drop_panics|].
    eapply IH; [done| |exact E2]. by eapply accounts_drop.
Qed.

Lemma resume_panics taken m c s msg : accounts taken [] s -> resume m c s = Panic msg -> may_panic msg.
Proof using Hdebug.
  intros Hac. unfold resume. unfold bind at 1, gets. cbv beta iota. destruct (s.(d_waiting) !! m) as [q|] eqn:Hm; [|done].
  unfold bind at 1, modify. cbv beta iota. intros E.
  destruct (ac_waiting _ _ _ Hac m q Hm) as (op & Hop & Hsus). pose proof (accounts_take _ _ _ _ Hm Hac) as Ht.
  destruct q as [| |A leaf held k| | | | |]; try done. destruct Hsus as (Hn & Hrd & Hk). cbn [held_by exec] in *.
  unfold bind at 1, gets in E. cbv beta iota in E.
  pose proof (pending_step (d_pool (d_take m s)) c.(cqe_result) c.(cqe_flags) leaf Hn) as Hst.
  destruct (leaf_step _ _ _ leaf) as [op' l'|back v|msg']; [done| |].
  - apply bind_Panic in E as [E|([] & s2 & E1 & E2)]; [by destruct back|].
    eapply (exec_panics (k v) _ _ (gives leaf v ++ held)); [apply Hk| |exact E2]. rewrite app_nil_r.
    apply accounts_given; [|by eapply accounts_give_back]. destruct leaf; try done. by destruct v.
  - injection E as ->. rewrite Hst. right. set_solver.
Qed.

Lemma direct_panics future tr pool msg : owns U future [] -> pool_inv [] pool ->
  direct future tr (d_start pool) = Panic msg -> may_panic msg.
Proof using Hdebug.
  intros Hown Hp. assert (Hac : accounts [] ([] ++ []) (d_start pool)) by by split.
  intros [E|([] & s1 & E1 & E2)]%bind_Panic; [by eapply exec_panics|].
  pose proof (exec_accounts _ _ _ _ _ _ _ _ Hown Hac E1) as Hac1. clear E1 Hac Hown.
  revert s1 Hac1 E2. generalize (@nil Z) as taken. induction tr as [|[m c] tr IH]; intros taken s1 Hac1; [done|].
  intros [E|([] & s2 & E1 & E2)]%bind_Panic; [by eapply resume_panics|].
  destruct (resume_accounts _ _ _ _ _ Hac1 E1) as (op & _ & Hac2). by eapply IH.
Qed.
End Accounts.
