(* ===== verification/Accounts.v ===== *)
(** * The buffers of a run of [block_on]

    Composes the refinement of [block_on] by the direct machine, the accounts the
    machine keeps for bodies that own their buffers, and the window of the
    buffer ring: along every run, no buffer is lost, given out twice or given back
    twice. *)

From S2P Require Import Prelude UserData Io Task Slab BufPool BufRing Futures Direct Runtime Calls Executor Quiet RingLog Stable.
From S2P Require Import Invariant Polls Lifetime Safety Concrete EventLoop Order Simulation SimSteps Refinement Ownership.

(** The handles that the bodies of the live tasks hold. *)
Definition task_holds (f : Fut) : list Res :=
  match f with Suspended q => held_by q | Completed => [] end.
Definition tasks_hold (w : World) : list Res :=
  map_to_list w.(w_heap) ≫= fun pr => task_holds pr.2.(rt_future).

Section Accounts.
Context {prof : Profile} {flags : CqueueFlags} {al : Allocator} {fl : FutLayout Fut} {sm : SlabMemory}.
Context {al_laws : AllocatorLaws} {sm_laws : SlabMemoryLaws}.

(** The bodies in the live headers are those that wait in the machine. *)
Lemma tasks_hold_waiting K s w : inv [] K w -> implements s w -> tasks_hold w ≡ₚ held_in s.(d_waiting).
Proof.
  intros Hi Him. set (R (x : nat * Prog) (y : Z * RawTask Fut) := exists e, entries w !! x.1 = Some e /\
    y.2.(rt_future) = Suspended x.2 /\ y.2.(rt_slab_idx) = Some (entry_task_idx e)).
  destruct (related_perm R (map_to_list s.(d_waiting)) (map_to_list w.(w_heap))) as (l & Hl & Hf).
  - apply NoDup_map_to_list.
  - apply NoDup_map_to_list.
  - intros [m q] Hm%elem_of_map_to_list. destruct (im_waiting _ _ Him m q Hm) as (p & r & e & Hr & ? & ? & ?).
    exists (p, r). split; [by apply elem_of_map_to_list|]. by exists e.
  - intros [p r] Hr%elem_of_map_to_list. destruct (im_task _ _ Him p r Hr) as (m & q & e & Hm & ? & ? & ?).
    exists (m, q). split; [by apply elem_of_map_to_list|]. by exists e.
  - intros [m q] [m' q'] [p r] Hm%elem_of_map_to_list Hm'%elem_of_map_to_list _ (e & He & Hf & Hx) (e' & He' & Hf' & Hx').
    cbn [fst snd] in *. assert (q = q') by congruence.
    assert (m = m') by (eapply (im_one _ _ Him m m' e e'); [by eexists|by eexists|done|done|congruence]). congruence.
  - intros [m q] [p r] [p' r'] _ Hr%elem_of_map_to_list Hr'%elem_of_map_to_list (e & He & Hf & Hx) (e' & He' & Hf' & Hx').
    cbn [fst snd] in *. assert (e = e') as <- by congruence.
    assert (p = p') as <- by by eapply (inv_idx_inj [] K w p p' r r'). congruence.
  - unfold tasks_hold, held_in. rewrite Hl. apply Permutation_refl', symmetry. apply bind_related.
    eapply Forall2_impl; [exact Hf|]. intros x y (e & _ & E & _). by rewrite E.
Qed.

Lemma loop_post_inv K b w : loop_post K b w -> exists K', inv [] K' w.
Proof. destruct b; [intros [_ ?]; by eexists|by intros [_ ?]|intros [_ ?]; by eexists]. Qed.

(** The pool of [Runtime::new]. *)
Lemma initial_pool base w0 : pool_block base -> initial_world (Some base) tt = Ok (w0, tt) ->
  pool_inv [] w0.(w_rt).(buffer) /\ w0.(w_rt).(buffer).(BufPool.base) = base /\
  w0.(w_rt).(buffer).(read_count) = 512 /\ length w0.(w_rt).(buffer).(write_rc) = 512%nat.
Proof.
  intros Hb. rewrite initial_world_unfold. intros E. apply bind_Ok in E as (pool & [] & Ep & E).
  apply bind_Ok in E as (mem & [] & _ & E). apply bind_Ok in E as (slab & [] & _ & E). injection E as <-.
  pose proof (BufPool_new_inv 1 tt base 512 512 ltac:(lia) ltac:(lia) ltac:(lia)) as Hn. rewrite Ep in Hn.
  destruct Hn as (_ & H1 & H2 & H3 & _ & H4). cbn [w_rt buffer].
  split; [exact H1|]. split; [exact H2|]. split; [exact H3|]. rewrite H4. reflexivity.
Qed.

(** What the machine's accounts say of the runtime. *)
Lemma block_on_accounts U base w0 future steps Kend b w :
  pool_block base -> initial_world (Some base) tt = Ok (w0, tt) -> owns U future [] ->
  valid_run future steps w0 Kend -> single_shot steps -> block_on future steps w0 = Ok (b, w) ->
  exists n tr returned, (b = Waiting -> n = length steps) /\ tr.*2 = completions (take n steps) /\
    NoDup tr.*1 /\ answers w tr /\ ring_from w.(w_rt).(buffer) returned w.(w_rt).(buf_ring) /\
    read_ids (tasks_hold w) ++ returned ≡ₚ brought (e_opcode <$> entries w) tr /\
    (debug_checks = true -> pool_inv (write_ids (tasks_hold w)) w.(w_rt).(buffer)).
Proof.
  intros Hb Hw0 Hown Hv Hsingle E. pose proof (owns_plain U _ _ Hown) as Hplain.
  destruct (wps_Ok _ _ _ _ _ _ (block_on_sim _ _ _ _ _ Hb Hw0 Hplain Hv Hsingle) E)
    as (n & tr & s & K & Hwait & Htr & Hans & Hdir & Hs).
  pose proof (wp_Ok _ _ _ _ _ (loop_from_start _ _ _ _ _ Hb Hw0 (plain_ok _ Hplain) Hv) E) as [K' Hi]%loop_post_inv.
  pose proof (sim_implements _ _ _ Hs) as Him. pose proof (tasks_hold_waiting _ _ _ Hi Him) as Hhold.
  destruct (initial_pool _ _ Hb Hw0) as [Hp _].
  destruct (direct_accounts U _ _ _ _ Hown Hp Hdir) as [Hr Hw _].
  pose proof (direct_once _ _ _ _ Hdir) as Hnd. clear Hw0 E Hv Hdir. cbn [app] in *.
  exists n, tr, s.(d_returned). split_and!; try done.
  - rewrite (im_pool _ _ Him). apply Him.
  - rewrite Hhold, Hr. by rewrite (sm_log _ _ _ _ Hs).
  - intros Hd. rewrite Hhold, (im_pool _ _ Him). by apply Hw.
Qed.

Lemma pool_after base w0 future steps b w : pool_block base -> initial_world (Some base) tt = Ok (w0, tt) ->
  block_on future steps w0 = Ok (b, w) ->
  w.(w_rt).(buffer).(BufPool.base) = base /\ w.(w_rt).(buffer).(read_count) = 512 /\
  length w.(w_rt).(buffer).(write_rc) = 512%nat.
Proof.
  intros Hb Hw0 E. destruct (initial_pool _ _ Hb Hw0) as (_ & H1 & H2 & H3).
  destruct (stable_block_on same_pool_geometry _ _ _ _ _ E) as [G1 _ G2 G3].
  rewrite G1, G2, G3. split; [exact H1|]. split; [exact H2|exact H3].
Qed.

Lemma tasks_hold_returned U base w0 future steps Kend w : pool_block base ->
  initial_world (Some base) tt = Ok (w0, tt) -> owns U future [] -> valid_run future steps w0 Kend ->
  block_on future steps w0 = Ok (Returned, w) -> tasks_hold w = [].
Proof.
  intros Hb Hw0 Hown Hv E. pose proof (plain_ok _ (owns_plain U _ _ Hown)) as Hok.
  destruct (wp_Ok _ _ _ _ _ (loop_from_start _ _ _ _ _ Hb Hw0 Hok Hv) E) as [[He _] _].
  unfold tasks_hold. rewrite He. reflexivity.
Qed.

(** What the ring offers when the kernel has taken [taken], and what is held. *)
Lemma offered_and_held pool returned mem held taken : pool_block pool.(BufPool.base) -> pool.(read_count) = 512 ->
  length pool.(write_rc) = 512%nat -> ring_from pool returned mem -> held ++ returned ≡ₚ taken ->
  Forall (fun i => 0 <= i < 512) taken -> taken ≡ₚ take (length taken) (seqZ 0 512 ++ returned) ->
  available 512 (as_u16 (Z.of_nat (length taken))) mem ++ held ≡ₚ seqZ 0 512.
Proof.
  intros [Hb0 Hb1] HR Hlen Hring Hacc Hrange Htake. set (L := length taken) in *.
  pose proof (Permutation_length Hacc) as Hl1. pose proof (Permutation_length Htake) as Hl2.
  rewrite length_app in Hl1. rewrite length_take, length_app, length_seqZ in Hl2.
  pose proof (ring_window pool) as Hwin. rewrite HR in Hwin. unfold offered in Hwin. rewrite HR in Hwin.
  rewrite Hwin with (returned := returned); try done; [|by exists 9|by rewrite Hlen| |lia|lia].
  - apply (Permutation_app_inv_r returned). rewrite <- app_assoc, Hacc, Htake.
    rewrite Permutation_app_comm. by rewrite take_drop.
  - rewrite <- Hacc in Hrange. by apply Forall_app in Hrange as [_ ?].
Qed.

(** C5: [block_on] loses no read buffer.  For bodies of [owns] (they drop each handle
    once, keep it across an [await], or give it to a task they spawn, and await
    accept, read, write and connect only: no commit, no stream, no fan-out, no
    [WBuffer::submit]) and completions that announce no more, each buffer that the completion of a read brought is, once, in the hands of the body
    of a live task or back in the ring.  If the kernel took the buffers in the
    order the ring offered them, the buffers the ring still offers and those the
    tasks hold are the 512 buffers of the pool, each once; and when [block_on]
    has returned no task holds one, so that the ring offers them all. *)
Theorem read_buffers_accounted U base w0 future steps Kend b w :
  pool_block base -> initial_world (Some base) tt = Ok (w0, tt) -> owns U future [] ->
  valid_run future steps w0 Kend -> single_shot steps -> block_on future steps w0 = Ok (b, w) ->
  exists n tr returned, (b = Waiting -> n = length steps) /\ tr.*2 = completions (take n steps) /\
    NoDup tr.*1 /\ answers w tr /\ ring_from w.(w_rt).(buffer) returned w.(w_rt).(buf_ring) /\
    let taken := brought (e_opcode <$> entries w) tr in
    read_ids (tasks_hold w) ++ returned ≡ₚ taken /\
    (Forall (fun i => 0 <= i < 512) taken -> taken ≡ₚ take (length taken) (seqZ 0 512 ++ returned) ->
     available 512 (as_u16 (Z.of_nat (length taken))) w.(w_rt).(buf_ring) ++ read_ids (tasks_hold w) ≡ₚ seqZ 0 512) /\
    (b = Returned -> tasks_hold w = []).
Proof.
  intros Hb Hw0 Hown Hv Hsingle E.
  destruct (block_on_accounts _ _ _ _ _ _ _ _ Hb Hw0 Hown Hv Hsingle E)
    as (n & tr & returned & Hn & Htr & Hnd & Hans & Hring & Hacc & _).
  destruct (pool_after _ _ _ _ _ _ Hb Hw0 E) as (G1 & G2 & G3).
  exists n, tr, returned. split; [exact Hn|]. split; [exact Htr|]. split; [exact Hnd|]. split; [exact Hans|].
  split; [exact Hring|]. split; [exact Hacc|]. split.
  - apply (offered_and_held w.(w_rt).(buffer)); [by rewrite G1|exact G2|exact G3|exact Hring|exact Hacc].
  - intros ->. by eapply tasks_hold_returned.
Qed.

(** C6: [block_on] loses no write buffer, in builds with debug checks.  For bodies
    of [owns] (they drop each handle once, keep it across an [await], or give it to
    a task they spawn, and await accept, read, write and connect only: no commit, no
    stream, no fan-out, no [WBuffer::submit]) and completions that announce no more,
    the counter of each write slot is the number of handles that the bodies of the
    live tasks hold to it, a slot is free exactly when there is none, no slot is free
    twice, and when [block_on] has returned every slot is free. *)
Theorem write_buffers_accounted U base w0 future steps Kend b w : debug_checks = true ->
  pool_block base -> initial_world (Some base) tt = Ok (w0, tt) -> owns U future [] ->
  valid_run future steps w0 Kend -> single_shot steps -> block_on future steps w0 = Ok (b, w) ->
  (forall i, 512 <= i < 1024 ->
     zlookup w.(w_rt).(buffer).(write_rc) (i - 512) = Some (handle_count i (write_ids (tasks_hold w))) /\
     (i ∈ w.(w_rt).(buffer).(write_free) <-> handle_count i (write_ids (tasks_hold w)) = 0)) /\
  NoDup w.(w_rt).(buffer).(write_free) /\
  (b = Returned -> w.(w_rt).(buffer).(write_free) ≡ₚ seqZ 512 512).
Proof.
  intros Hd Hb Hw0 Hown Hv Hsingle E.
  destruct (block_on_accounts _ _ _ _ _ _ _ _ Hb Hw0 Hown Hv Hsingle E) as (_ & _ & _ & _ & _ & _ & _ & _ & _ & Hp).
  specialize (Hp Hd). destruct (pool_after _ _ _ _ _ _ Hb Hw0 E) as (_ & G2 & G3).
  pose proof (pi_free _ _ Hp) as Hfree. rewrite G2, G3 in Hfree. split; [|split; [apply Hp|]].
  - intros i Hi. pose proof (pool_rc_at _ _ i Hp) as Hrc. rewrite G2, G3 in Hrc. split; [apply Hrc; lia|].
    rewrite Hfree. split; [by intros [_ ?]|]. intros H0. split; [lia|exact H0].
  - intros ->. pose proof (tasks_hold_returned _ _ _ _ _ _ _ Hb Hw0 Hown Hv E) as Hnil. clear Hw0 E Hv.
    apply NoDup_Permutation; [apply Hp|apply NoDup_seqZ|]. intros i. rewrite Hfree, Hnil, elem_of_seqZ. change (handle_count i (write_ids [])) with 0. lia.
Qed.

End Accounts.

Module AccountsExamples.
Import EventLoopExamples.

(** A task reads from a connection, answers from a write buffer while it still
    holds what it has read, and drops both. *)
Definition relay : Prog :=
  Await (read 7) [] (fun r => match r with
    | inl b => AllocWrite (fun wb =>
        Await (write 7 0 5) [ResRw b; ResW wb] (fun _ => DropRes (ResRw b) (DropRes (ResW wb) Return)))
    | inr _ => Unwind "read failed"
    end).

Definition read_failed (msg : string) : Prop := msg = "read failed"%string.

Lemma relay_owns : owns read_failed relay [].
Proof.
  split; [done|]. split; [done|]. intros [b|e]; [|done]. intros wb. split; [done|].
  split; [by apply perm_swap|]. intros v. exists [ResW wb]. split; [by apply perm_swap|]. by exists [].
Qed.

Definition relayed : list KernelStep :=
  [KernelBatch [buffer_cqe (ud 0 65535 0) 20 0]; KernelBatch [done_cqe (ud 0 65535 1) 5]].

(** The run of the first [k] batches. *)
Definition relay_ends (k : nat) : option (BlockOn * list Entry * (list Z * list Z)) :=
  match check_run relay (take k relayed) start, block_on relay (take k relayed) start with
  | Some Kend, Ok (b, w) => Some (b, Kend, (read_ids (tasks_hold w), write_ids (tasks_hold w)))
  | _, _ => None
  end.

(** While it answers, the task holds read buffer 0 and write slot 512. *)
Example relay_waits : relay_ends 1 = Some (Waiting, [], ([0], [512])).
Proof. vm_compute. reflexivity. Qed.

Example relay_returns : relay_ends 2 = Some (Returned, [], ([], [])).
Proof. vm_compute. reflexivity. Qed.

Lemma relay_run k b K h : relay_ends k = Some (b, K, h) ->
  valid_run relay (take k relayed) start K /\ exists w, block_on relay (take k relayed) start = Ok (b, w).
Proof.
  unfold relay_ends. destruct (check_run _ _ _) as [K'|] eqn:Hc; [|discriminate].
  destruct (block_on _ _ _) as [[b' w]|?|?] eqn:E; [|discriminate..]. intros Hf. injection Hf as -> -> _.
  split; [by apply check_run_sound|by exists w].
Qed.

Lemma relayed_single k : single_shot (take k relayed).
Proof. destruct k as [|[|[|k]]]; repeat constructor. Qed.

Lemma read_buffers_accounted_witness : exists w tr returned,
  block_on relay (take 1 relayed) start = Ok (Waiting, w) /\ tr.*2 = completions (take 1 relayed) /\
  read_ids (tasks_hold w) ++ returned ≡ₚ brought (e_opcode <$> entries w) tr.
Proof.
  destruct (relay_run _ _ _ _ relay_waits) as (Hv & w & E).
  destruct (read_buffers_accounted read_failed pool_base start relay (take 1 relayed) [] Waiting w pool_base_block
    initial_world_start relay_owns Hv (relayed_single 1) E) as (n & tr & returned & Hn & Htr & _ & _ & _ & Hacc & _).
  exists w, tr, returned. split; [exact E|]. split; [|exact Hacc]. rewrite Htr, (Hn eq_refl). reflexivity.
Defined.

Lemma write_buffers_accounted_witness : exists w,
  block_on relay (take 2 relayed) start = Ok (Returned, w) /\ w.(w_rt).(buffer).(write_free) ≡ₚ seqZ 512 512.
Proof.
  destruct (relay_run _ _ _ _ relay_returns) as (Hv & w & E).
  destruct (write_buffers_accounted read_failed pool_base start relay (take 2 relayed) [] Returned w (eq_refl : @debug_checks dev_profile = true)
    pool_base_block initial_world_start relay_owns Hv (relayed_single 2) E) as (_ & _ & Hfree).
  exists w. split; [exact E|]. exact (Hfree eq_refl).
Defined.

Definition reset : list KernelStep := [KernelBatch [done_cqe (ud 0 65535 0) (-104)]].

End AccountsExamples.
