(* ===== verification/Budget.v ===== *)
(** * How many entries a body can queue

    A body has cost [n] when on every path, whatever the completions are, it and
    the tasks it spawns queue at most [n] entries.  [spending] accounts for the
    entries each operation queues; [funded] pays for what the live tasks may
    still queue, and polling a task never overdraws it. *)

From S2P Require Import Prelude UserData Io Task Slab BufPool BufRing Futures Runtime Calls Executor Quiet Stable.

(** ** Costs *)

(** The entries a leaf future may still queue.  A [connect] has no bound: given
    slot 0 it starts over. *)
Definition leaf_cost {A} (l : Leaf A) : option nat :=
  match l with
  | LAccept (Accept_Pending _) => Some 1%nat
  | LAcceptNext (mkAcceptStream _ Stream_Init) => Some 1%nat
  | LRead (Read_Init _) => Some 1%nat
  | LReadNext (mkReadStream _ Stream_Init) => Some 1%nat
  | LWrite (Write_Init _ _ _) => Some 1%nat
  | LWriteMultiple (WriteMultiple_Init fds _ _) => Some (length fds)
  | LCommit (Commit_Init _ _ _ _) => Some 1%nat
  | LSocket _ => None
  | _ => Some 0%nat
  end.

(** [costs p n]: running [p] queues at most [n] entries. *)
Fixpoint costs (p : Prog) (n : nat) : Prop :=
  match p with
  | Return | Unwind _ => True
  | Await leaf _ k => exists c m, leaf_cost leaf = Some c /\ (c + m <= n)%nat /\ forall v, costs (k v) m
  | Spawn child k => exists a b, (a + b <= n)%nat /\ costs child a /\ costs k b
  | AllocWrite k => forall b, costs (k b) n
  | CloneWrite _ k => forall b, costs (k b) n
  | SubmitWrite _ _ _ k => exists m, (S m <= n)%nat /\ costs k m
  | DropRes _ k => costs k n
  end.

Definition fut_costs (f : Fut) (n : nat) : Prop :=
  match f with Suspended p => costs p n | Completed => True end.

(** ** Spending *)

(** No header is added, none changes its future. *)
Definition kept (h h' : heap Fut) : Prop :=
  forall p r', h' !! p = Some r' -> exists r, h !! p = Some r /\ rt_future r = rt_future r'.

#[export] Instance kept_preorder : PreOrder kept.
Proof.
  split; [by intros h p r Hr; exists r|]. intros h1 h2 h3 H12 H23 p r3 H3.
  destruct (H23 p r3 H3) as (r2 & H2 & E2). destruct (H12 p r2 H2) as (r1 & H1 & E1).
  exists r1. split; [done|congruence].
Qed.

Definition queued (w : World) : nat := length (entries w).

Definition spent (k : nat) (w w' : World) : Prop :=
  kept w.(w_heap) w'.(w_heap) /\ (queued w' <= queued w + k)%nat.

(** [m] leaves futures alone, queues [k] entries and returns [a] with [Q a k]. *)
Definition spending {A} (m : M World A) (Q : A -> nat -> Prop) : Prop :=
  forall w a w', m w = Ok (a, w') -> exists k, spent k w w' /\ Q a k.

Abbreviation pays n := (fun _ k => k = n%nat).
Abbreviation free m := (spending m (pays 0)).

#[export] Instance spent_preorder : PreOrder (spent 0).
Proof.
  split; [intros w; split; [done|lia]|]. intros w1 w2 w3 [H1 L1] [H2 L2].
  split; [by transitivity w2.(w_heap)|lia].
Qed.

Section Spending.
Lemma spending_ret {A} (a : A) (Q : A -> nat -> Prop) : Q a 0%nat -> spending (ret a) Q.
Proof. intros HQ w a' w' [= <- <-]. exists 0%nat. split; [reflexivity|done]. Qed.
Lemma spending_panic {A} msg (Q : A -> nat -> Prop) : spending (panic msg) Q.
Proof. done. Qed.
Lemma spending_bind {A B} (m : M World A) (f : A -> M World B) (R : A -> nat -> Prop) (Q : B -> nat -> Prop) :
  spending m R -> (forall a j, R a j -> spending (f a) (fun b k => Q b (j + k)%nat)) -> spending (bind m f) Q.
Proof.
  intros Hm Hf w b w' (a & w1 & E1 & E2)%bind_Ok. destruct (Hm _ _ _ E1) as (j & [H1 L1] & Ha).
  destruct (Hf a j Ha _ _ _ E2) as (k & [H2 L2] & Hb). exists (j + k)%nat.
  split; [split; [by transitivity w1.(w_heap)|lia]|done].
Qed.
(** A step that queues nothing. *)
Lemma spending_step {A B} (m : M World A) (f : A -> M World B) (Q : B -> nat -> Prop) :
  free m -> (forall a, spending (f a) Q) -> spending (bind m f) Q.
Proof. intros Hm Hf. eapply spending_bind; [exact Hm|]. intros a j ->. apply Hf. Qed.
Lemma spending_mono {A} (m : M World A) (R Q : A -> nat -> Prop) :
  spending m R -> (forall a k, R a k -> Q a k) -> spending m Q.
Proof. intros Hm HQ w a w' E. destruct (Hm _ _ _ E) as (k & Hs & Ha). exists k. split; [done|by apply HQ]. Qed.
(** The last step of a sequence. *)
Lemma spending_last {A B} (m : M World A) (b : B) k : spending m (pays k) -> spending (m ;;! ret b) (pays k).
Proof.
  intros Hm. eapply spending_bind; [exact Hm|]. intros a j ->. apply spending_ret. lia.
Qed.

Lemma free_stable {A} (m : M World A) : stable (spent 0) m -> free m.
Proof. intros Hm w a w' E. exists 0%nat. split; [by eapply Hm|done]. Qed.
Lemma stable_free {A} (m : M World A) : free m -> stable (spent 0) m.
Proof. intros Hm w a w' E. destruct (Hm _ _ _ E) as (k & Hs & ->). done. Qed.
End Spending.

(** ** The primitive operations *)
Lemma spent_same w w' : w'.(w_heap) = w.(w_heap) -> entries w' = entries w -> spent 0 w w'.
Proof. intros Hh He. unfold spent, queued. rewrite Hh, He. split; [done|lia]. Qed.

Lemma stable_spent_heap {A} (m : M (heap Fut) A) : stable kept m -> stable (spent 0) (zoom heap_lens m).
Proof. intros Hm. eapply stable_zoom; [exact Hm|]. intros h w Hh. split; [exact Hh|]. unfold queued, entries. cbn. lia. Qed.
Lemma stable_spent_tasks {A} (m : M Slab A) : stable (spent 0) (zoom tasks_lens m).
Proof. eapply stable_zoom; [apply stable_any|]. intros s w _. by apply spent_same. Qed.
Lemma stable_spent_pool {A} (m : M BufPool A) : stable (spent 0) (zoom pool_lens m).
Proof. eapply stable_zoom; [apply stable_any|]. intros p w _. by apply spent_same. Qed.
Lemma stable_spent_ring {A} (m : M (list Z) A) : stable (spent 0) (zoom ring_lens m).
Proof. eapply stable_zoom; [apply stable_any|]. intros mem w _. by apply spent_same. Qed.
Lemma stable_spent_modify f :
  (forall w, (f w).(w_heap) = w.(w_heap) /\ entries (f w) = entries w) -> stable (spent 0) (modify f).
Proof. intros Hf. apply stable_modify. intros w. destruct (Hf w). by apply spent_same. Qed.

#[export] Hint Resolve stable_spent_tasks stable_spent_pool stable_spent_ring : stable.
#[export] Hint Extern 2 (stable (spent 0) (modify _)) => (apply stable_spent_modify; by intros []) : stable.

(** *** Headers *)
Section Headers.
Context {prof : Profile}.

Lemma kept_load p : stable kept (load p).
Proof. intros h r h'. unfold load. destruct (h !! p); [|done]. by intros [= _ <-]. Qed.

(** A read-modify-write of a header that keeps its future. *)
Lemma kept_update {A} p (m : RawTask Fut -> M (heap Fut) A) :
  (forall r h a h', h !! p = Some r -> m r h = Ok (a, h') -> kept h h') ->
  stable kept (let! raw := load p in m raw).
Proof.
  intros Hm h a h' (r & h1 & E & E2)%bind_Ok. unfold load in E. destruct (h !! p) as [r'|] eqn:Hp; [|done].
  injection E as -> <-. exact (Hm _ _ _ _ Hp E2).
Qed.

Lemma kept_store p r r' h a h' : h !! p = Some r -> store p r' h = Ok (a, h') -> rt_future r' = rt_future r -> kept h h'.
Proof.
  intros Hp. unfold store. rewrite Hp. intros [= _ <-] Hf q r2. rewrite lookup_insert_Some.
  intros [[<- <-]|[_ Hq]]; [by exists r|by exists r2].
Qed.

Lemma kept_set_slab_idx p i : stable kept (set_task_idx p i).
Proof. apply kept_update. intros r h a h' Hp E. exact (kept_store _ _ _ _ _ _ Hp E eq_refl). Qed.
Lemma kept_set_multishot p : stable kept (set_multishot p).
Proof. apply kept_update. intros r h a h' Hp E. exact (kept_store _ _ _ _ _ _ Hp E eq_refl). Qed.

Lemma kept_augmente p : stable kept (augmente_syscall_nb p).
Proof.
  apply kept_update. intros r h a h' Hp (nb & h1 & E & E2)%bind_Ok. unfold expect in E.
  destruct (checked_add _ _ _); [|done]. injection E as _ <-. exact (kept_store _ _ _ _ _ _ Hp E2 eq_refl).
Qed.

Lemma kept_counter p (c : RawTask Fut -> option Z) msg (chk : RawTask Fut -> Z -> bool) msg' :
  stable kept (let! raw := load p in let! rc := expect (c raw) msg in
    assert_ (chk raw rc) msg' ;;! store p (set_ref_counter rc raw)).
Proof.
  apply kept_update. intros r h a h' Hp (rc & h1 & E & E2)%bind_Ok. unfold expect in E.
  destruct (c r); [|done]. injection E as _ <-. apply bind_Ok in E2 as ([] & h2 & E & E2).
  unfold assert_ in E. destruct (chk _ _); [injection E as <-|done]. exact (kept_store _ _ _ _ _ _ Hp E2 eq_refl).
Qed.
Definition same_top (raw : RawTask Fut) (rc : Z) : bool :=
  negb (Z.lor raw.(rt_ref_counter) MULTIPLE_MASK =? Z.lor rc MULTIPLE_MASK).
Lemma kept_inc_rc p : stable kept (inc_rc p).
Proof. apply (kept_counter p (fun raw => checked_add 16 raw.(rt_ref_counter) 1) _ same_top). Qed.
Lemma kept_add_rc p n : stable kept (add_rc p n).
Proof. apply (kept_counter p (fun raw => checked_add 16 raw.(rt_ref_counter) n) _ same_top). Qed.
Lemma kept_dealloc p l : stable kept (dealloc p l).
Proof.
  intros h a h'. unfold dealloc. destruct (h !! p); [|done]. intros [= _ <-] q r' [_ Hq]%lookup_delete_Some. by exists r'.
Qed.
Lemma kept_read_counter `{Profile} p : stable kept (read_counter p).
Proof.
  intros h n h' E. destruct (read_counter_outcome p h) as [[m Em]|(what & Em & _)]; rewrite Em in E; [|done].
  by injection E as _ <-.
Qed.
End Headers.

#[export] Hint Resolve kept_read_counter kept_load kept_set_slab_idx kept_set_multishot kept_augmente kept_inc_rc kept_add_rc
  kept_dealloc : stable.
#[export] Hint Extern 1 (stable (spent 0) (zoom heap_lens _)) => (apply stable_spent_heap) : stable.

Lemma heap_load_Ok p w raw w' : zoom heap_lens (load p) w = Ok (raw, w') -> w' = w /\ w.(w_heap) !! p = Some raw.
Proof.
  unfold zoom, load. cbn [lget heap_lens]. destruct (w_heap w !! p) as [r|]; [|done]. intros [= -> <-]. by destruct w.
Qed.

Lemma heap_store_Ok p r w w' : zoom heap_lens (store p r) w = Ok (tt, w') -> w' = set_w_heap (<[p := r]> w.(w_heap)) w.
Proof. unfold zoom, store. cbn [lget heap_lens]. destruct (w_heap w !! p); [|done]. by intros [= <-]. Qed.

Lemma sub_w_same `{Profile} {S} n a b (s : S) c s' : sub_w n a b s = Ok (c, s') -> s' = s.
Proof. intros E. symmetry. exact (stable_sub_w eq n a b _ _ _ E). Qed.

(** ** The operations of the runtime *)
Ltac free_step := first [solve [eauto 3 with stable] | stable_step].
Ltac solve_free := solve [repeat (cbv zeta; free_step)].

Section Operations.
Context {prof : Profile} {flags : CqueueFlags}.

Lemma spending_with_borrow_mut {A} (m : M World A) Q : spending m Q -> spending (with_borrow_mut m) Q.
Proof.
  intros Hm. unfold with_borrow_mut. do 3 (apply spending_step; [apply free_stable; solve_free|intros ?]).
  eapply spending_bind; [exact Hm|]. intros b j Hb.
  apply spending_step; [apply free_stable; solve_free|intros _]. apply spending_ret. by rewrite Nat.add_0_r.
Qed.

Lemma free_with_borrow {A} (m : M World A) : free m -> free (with_borrow m).
Proof. intros Hm%stable_free. apply free_stable. unfold with_borrow. solve_free. Qed.

Lemma stable_borrow_mut {A} (m : M World A) : stable (spent 0) m -> stable (spent 0) (with_borrow_mut m).
Proof. intros Hm. by apply stable_free, spending_with_borrow_mut, free_stable. Qed.
Lemma stable_borrow {A} (m : M World A) : stable (spent 0) m -> stable (spent 0) (with_borrow m).
Proof. intros Hm. by apply stable_free, free_with_borrow, free_stable. Qed.

#[local] Hint Resolve stable_borrow_mut stable_borrow : stable.

Lemma spends_push e : spending (sqe_queue_push e) (pays 1).
Proof.
  intros w a w' [= _ <-]. exists 1%nat. split; [|done]. split; [done|]. unfold queued, entries. cbn.
  rewrite !length_app. cbn. lia.
Qed.

Lemma free_inc_rc_of i : stable (spent 0) (inc_rc_of i).
Proof. unfold inc_rc_of, task_at. solve_free. Qed.
Lemma free_set_multishot i : stable (spent 0) (set_multishot_of i).
Proof. unfold set_multishot_of, task_at. solve_free. Qed.
Lemma free_advance t : stable (spent 0) (advance_syscall_nb t).
Proof. unfold advance_syscall_nb, task_at. solve_free. Qed.
Lemma free_current_udata : stable (spent 0) current_udata.
Proof. unfold current_udata. solve_free. Qed.
Lemma free_current_idx : stable (spent 0) current_task_idx.
Proof. unfold current_task_idx. solve_free. Qed.
Lemma free_set_multiple b : stable (spent 0) (set_current_task_multiple b).
Proof. unfold set_current_task_multiple. solve_free. Qed.
Lemma free_release_read_buf b : stable (spent 0) (release_read_buf b).
Proof. unfold release_read_buf. apply stable_borrow. solve_free. Qed.
Lemma free_checkout b fd n : stable (spent 0) (checkout b fd n).
Proof. unfold checkout, checkout_read. apply stable_borrow. solve_free. Qed.

#[local] Hint Resolve free_inc_rc_of free_set_multishot free_advance free_current_udata free_current_idx
  free_set_multiple free_release_read_buf free_checkout : stable.

Lemma free_Res_drop r : stable (spent 0) (Res_drop r).
Proof. unfold Res_drop, RwBuffer_drop. solve_free. Qed.
Lemma free_Leaf_drop {A} (l : Leaf A) : stable (spent 0) (Leaf_drop l).
Proof. unfold Leaf_drop. solve_free. Qed.

#[local] Hint Resolve free_Res_drop @free_Leaf_drop : stable.

(** [release] decrements the counter of the header it has read. *)
Lemma free_release p : stable (spent 0) (release p).
Proof.
  unfold release, free_task. cbn [host_heap host_drop_fn host_push_free world_host].
  intros w a w' (raw & w1 & [-> Hp]%heap_load_Ok & E)%bind_Ok.
  apply bind_Ok in E as (c & w1 & Ec & E). assert (w1 = w) as -> by (by eapply sub_w_same).
  apply bind_Ok in E as ([] & w1 & Es & E). transitivity w1.
  { apply heap_store_Ok in Es as ->. split; [|unfold queued, entries; cbn; lia].
    intros q r2. cbn. rewrite lookup_insert_Some. intros [[<- <-]|[_ Hq]]; [by exists raw|by exists r2]. }
  revert E. generalize w1 at 1 2, a, w'. change (forall s b s', ?m s = Ok (b, s') -> spent 0 s s') with (stable (spent 0) m).
  unfold drop_fn. solve_free.
Qed.
#[local] Hint Resolve free_release : stable.
Lemma free_Task_drop p : stable (spent 0) (Task_drop p).
Proof. unfold Task_drop. solve_free. Qed.

(** Each [submit_*] queues one entry, a fan-out one per descriptor. *)
Ltac pay := repeat (apply spending_step; [apply free_stable; solve_free|intros ?]); try apply spends_push.

Ltac pay_submit := intros; apply spending_with_borrow_mut; pay.

Lemma spends_submit_read fd : spending (submit_read fd) (pays 1).
Proof. unfold submit_read, send_read. pay_submit. Qed.
Lemma spends_submit_accept fd : spending (submit_accept fd) (pays 1).
Proof. unfold submit_accept, send_accept. pay_submit. Qed.
Lemma spends_submit_write fd b n : spending (submit_write fd b n) (pays 1).
Proof. unfold submit_write, send_write. pay_submit. Qed.
Lemma spends_submit_recv_multishot fd : spending (submit_recv_multishot fd) (pays 1).
Proof. unfold submit_recv_multishot, send_recv_multishot. pay_submit. Qed.
Lemma spends_submit_accept_multishot fd : spending (submit_accept_multishot fd) (pays 1).
Proof. unfold submit_accept_multishot, send_accept_multishot. pay_submit. Qed.
Lemma spends_submit_commit_write p fd n b : spending (submit_commit_write p fd n b) (pays 1).
Proof. unfold submit_commit_write, send_commit_write. pay_submit. Qed.

Lemma spends_fan_outs pl b n fds : forall idx, spending (push_fan_outs pl b n idx fds) (pays (length fds)).
Proof.
  induction fds as [|fd fds IH]; intros idx; cbn [push_fan_outs length]; [by apply spending_ret|].
  eapply (spending_bind _ _ (pays 1)); [unfold push_fan_out; pay|]. intros [] j ->.
  eapply spending_mono; [apply IH|]. intros a k ->. done.
Qed.

Lemma spends_multiple_write fds b n : spending (submit_multiple_write fds b n) (pays (length fds)).
Proof.
  unfold submit_multiple_write, send_multiple_write. apply spending_with_borrow_mut. pay.
  eapply spending_bind; [apply spends_fan_outs|]. intros [] j ->.
  eapply spending_mono; [apply free_stable; unfold task_at; solve_free|]. intros a' k ->. lia.
Qed.

Lemma spends_submit b fd n : spending (WBuffer_submit b fd n) (pays 1).
Proof.
  eapply spending_bind; [apply spending_with_borrow_mut, spends_push|]. intros [] j ->.
  eapply spending_mono; [apply free_stable; solve_free|]. intros a k ->. done.
Qed.
End Operations.

#[export] Hint Resolve stable_borrow_mut stable_borrow free_inc_rc_of free_set_multishot free_advance
  free_current_udata free_current_idx free_set_multiple free_release_read_buf free_checkout
  free_Res_drop @free_Leaf_drop free_release free_Task_drop : stable.

(** ** The leaf futures *)

(** A poll queues no more entries than the cost of the leaf goes down by. *)
Definition paid {A} (l l' : Leaf A) (k : nat) : Prop :=
  forall c, leaf_cost l = Some c -> exists c', leaf_cost l' = Some c' /\ (k + c' <= c)%nat.

Section Leaves.
Context {prof : Profile} {flags : CqueueFlags}.

(** Queueing [k] entries and moving to the state [s], with nothing delivered. *)
Lemma spends_then_ret {A B C} (m : M World A) (wrap : B -> Leaf C) (l : Leaf C) {D} (r : B * Poll D) k :
  spending m (pays k) -> paid l (wrap r.1) k -> spending (m ;;! ret r) (fun r k => paid l (wrap r.1) k).
Proof.
  intros Hm Hp. eapply spending_bind; [exact Hm|]. intros a j ->. apply spending_ret. by rewrite Nat.add_0_r.
Qed.

Lemma paid_all {A} (l l' : Leaf A) n : leaf_cost l = Some n -> leaf_cost l' = Some 0%nat -> paid l l' n.
Proof. intros Hl Hl' c Hc. exists 0%nat. split; [done|]. assert (c = n) by congruence. lia. Qed.

Ltac poll_step :=
  lazymatch goal with
  | |- spending (panic _) _ => apply spending_panic
  | |- spending (ub _) _ => done
  | |- spending (ret _) _ => apply spending_ret, paid_all; reflexivity
  | |- spending (bind _ _) _ => apply spending_step; [apply free_stable; solve_free|intros ?]
  | |- spending (if ?b then _ else _) _ => destruct b
  end.

Abbreviation pays_for wrap l := (fun r k => paid l (wrap r.1) k).

Lemma spends_AcceptFuture f : spending (AcceptFuture_poll f) (pays_for LAccept (LAccept f)).
Proof.
  destruct f; cbn [AcceptFuture_poll]; [|unfold current_result; repeat poll_step].
  eapply spends_then_ret; [apply spends_submit_accept|by apply paid_all].
Qed.

Lemma spends_AcceptStream s : spending (AcceptStream_poll_next s) (pays_for LAcceptNext (LAcceptNext s)).
Proof.
  destruct s as [fd []]; unfold AcceptStream_poll_next, current_result, current_cqe_flags; cbn [as_state as_listen_fd].
  - eapply spends_then_ret; [apply spends_submit_accept_multishot|by apply paid_all].
  - do 2 poll_step; [poll_step|]. poll_step. cbv zeta. destruct (more _); poll_step.
  - poll_step.
Qed.

Lemma spends_ReadFuture f : spending (ReadFuture_poll f) (pays_for LRead (LRead f)).
Proof.
  destruct f; cbn [ReadFuture_poll]; [|unfold current_result, current_cqe_flags; repeat poll_step].
  eapply spends_then_ret; [apply spends_submit_read|by apply paid_all].
Qed.

Lemma spends_ReadStream s : spending (ReadStream_poll_next s) (pays_for LReadNext (LReadNext s)).
Proof.
  destruct s as [fd []]; unfold ReadStream_poll_next, current_result, current_cqe_flags; cbn [rs_state rs_fd].
  - eapply spends_then_ret; [apply spends_submit_recv_multishot|by apply paid_all].
  - do 3 poll_step; [poll_step|]. do 2 poll_step. cbv zeta. destruct (more _); poll_step.
  - poll_step.
Qed.

Lemma spends_WriteFuture f : spending (WriteFuture_poll f) (pays_for LWrite (LWrite f)).
Proof.
  destruct f; cbn [WriteFuture_poll]; [|unfold current_result; repeat poll_step].
  eapply spends_then_ret; [apply spends_submit_write|by apply paid_all].
Qed.

Lemma spends_WriteMultiple f : spending (WriteMultipleFuture_poll f) (pays_for LWriteMultiple (LWriteMultiple f)).
Proof.
  destruct f; cbn [WriteMultipleFuture_poll]; [|cbv zeta; repeat poll_step..].
  poll_step. eapply spends_then_ret; [apply spends_multiple_write|by apply paid_all].
Qed.

Lemma spends_CommitFuture f : spending (CommitFuture_poll f) (pays_for LCommit (LCommit f)).
Proof.
  destruct f; cbn [CommitFuture_poll]; [|unfold current_result; repeat poll_step].
  eapply spends_then_ret; [apply spends_submit_commit_write|by apply paid_all].
Qed.

Lemma spends_lift {S A B} (m : M World (S * Poll A)) (wrap : S -> Leaf B) (item : S -> A -> B) s :
  spending m (pays_for wrap (wrap s)) ->
  spending (let! r := m in ret (lift_poll wrap item r)) (fun r k => paid (wrap s) r.1 k).
Proof.
  intros Hm. eapply spending_bind; [exact Hm|]. intros [s' r] j Hj. apply spending_ret. by rewrite Nat.add_0_r.
Qed.

Lemma spends_poll_leaf {A} (l : Leaf A) : leaf_cost l <> None -> spending (poll_leaf l) (fun r k => paid l r.1 k).
Proof.
  intros Hl. destruct l; cbn [poll_leaf]; [apply spends_lift..|done].
  - apply spends_AcceptFuture.
  - apply spends_AcceptStream.
  - apply spends_ReadFuture.
  - apply spends_ReadStream.
  - apply spends_WriteFuture.
  - apply spends_WriteMultiple.
  - apply spends_CommitFuture.
Qed.
End Leaves.
