(* ===== verification/Termination.v ===== *)
(** * The event loop comes to an end

    A body of cost [n] never has more than [n] entries queued and submitted,
    all tasks it spawns included.  Each completion that is not announced as one
    of several ends an entry, so [block_on] is over after at most [n] of them. *)

From S2P Require Import Prelude UserData Io Task Slab BufPool BufRing Futures Runtime Calls Executor Quiet Stable.
From S2P Require Import Invariant Safety Concrete EventLoop Order Dispatch Budget.

(** ** Funds *)
Definition total (c : gmap Z nat) : nat := map_fold (fun _ n acc => n + acc)%nat 0%nat c.

Lemma total_delete c p n : c !! p = Some n -> total c = (n + total (delete p c))%nat.
Proof.
  intros Hp. unfold total. by rewrite (map_fold_delete_L _ _ p n c) by (done || (intros; lia)).
Qed.

Lemma total_insert c p n : (total (<[p := n]> c) <= n + total c)%nat.
Proof.
  unfold total. rewrite <- insert_delete_eq. rewrite map_fold_insert_L; [|intros; lia|apply lookup_delete_eq].
  fold (total c) (total (delete p c)). destruct (c !! p) as [m|] eqn:Hp.
  - rewrite (total_delete c p m Hp). lia.
  - by rewrite delete_id.
Qed.

(** [funded X N w]: what every task outside of [X] may still queue, and what has
    been queued, is within [N].  [X] holds the tasks being polled. *)
Definition funded (X : gset Z) (N : nat) (w : World) : Prop :=
  exists c : gmap Z nat,
    (forall p r, w.(w_heap) !! p = Some r -> p ∉ X -> exists n, c !! p = Some n /\ fut_costs r.(rt_future) n) /\
    (total c + queued w <= N)%nat.

Lemma funded_spent X N k w w' : funded X N w -> spent k w w' -> funded X (N + k) w'.
Proof.
  intros (c & Hc & Hn) [Hk Hq]. exists c. split; [|lia]. intros p r Hp Hx.
  destruct (Hk p r Hp) as (r0 & Hp0 & <-). exact (Hc p r0 Hp0 Hx).
Qed.

Lemma funded_free X N w w' : funded X N w -> spent 0 w w' -> funded X N w'.
Proof. intros Hf Hs. rewrite <- (Nat.add_0_r N). by eapply funded_spent. Qed.

Lemma funded_mono X Y N M w : funded X N w -> X ⊆ Y -> (N <= M)%nat -> funded Y M w.
Proof. intros (c & Hc & Hn) Hxy HNM. exists c. split; [|lia]. intros p r Hp Hy. apply (Hc p r Hp). set_solver. Qed.

(** Setting a task apart with what it may queue, and putting one back. *)
Lemma funded_take X N w p r : funded X N w -> w.(w_heap) !! p = Some r -> p ∉ X ->
  exists n M, fut_costs r.(rt_future) n /\ (n + M <= N)%nat /\ funded (X ∪ {[p]}) M w.
Proof.
  intros (c & Hc & Hn) Hp Hx. destruct (Hc p r Hp Hx) as (n & Hcp & Hf). rewrite (total_delete c p n Hcp) in Hn.
  exists n, (total (delete p c) + queued w)%nat. split; [done|]. split; [lia|]. exists (delete p c). split; [|done].
  intros q r' Hq Hqx. destruct (Hc q r' Hq ltac:(set_solver)) as (m & Hm & Hfm). exists m.
  rewrite lookup_delete_ne by set_solver. done.
Qed.

Lemma funded_put X N n w p r : funded (X ∪ {[p]}) N w -> fut_costs r.(rt_future) n ->
  funded X (N + n) (set_w_heap (<[p := r]> w.(w_heap)) w).
Proof.
  intros (c & Hc & Hn) Hf. exists (<[p := n]> c). split.
  - intros q r'. cbn. rewrite lookup_insert_Some. intros [[<- <-]|[Hne Hq]] Hx.
    + exists n. by rewrite lookup_insert_eq.
    + destruct (Hc q r' Hq ltac:(set_solver)) as (m & Hm & Hfm). exists m. by rewrite lookup_insert_ne.
  - pose proof (total_insert c p n). unfold queued, entries in *. cbn. lia.
Qed.

(** ** Running on funds *)
Definition hoare {A} (P : World -> Prop) (m : M World A) (Q : A -> World -> Prop) : Prop :=
  forall w a w', P w -> m w = Ok (a, w') -> Q a w'.

Lemma hoare_ret {A} (a : A) P (Q : A -> World -> Prop) : (forall w, P w -> Q a w) -> hoare P (ret a) Q.
Proof. intros HQ w a' w' Hw [= <- <-]. by apply HQ. Qed.

Lemma hoare_bind {A B} P (m : M World A) (f : A -> M World B) R Q :
  hoare P m R -> (forall a, hoare (R a) (f a) Q) -> hoare P (bind m f) Q.
Proof. intros Hm Hf w b w' Hw (a & w1 & E1 & E2)%bind_Ok. exact (Hf _ _ _ _ (Hm _ _ _ Hw E1) E2). Qed.

Lemma hoare_free {A} X N (m : M World A) : stable (spent 0) m -> hoare (funded X N) m (fun _ => funded X N).
Proof. intros Hm w a w' Hw E. eapply funded_free; [exact Hw|by eapply Hm]. Qed.

(** A step that queues nothing. *)
Lemma hoare_step {A B} X N (m : M World A) (f : A -> M World B) Q :
  stable (spent 0) m -> (forall a, hoare (funded X N) (f a) Q) -> hoare (funded X N) (bind m f) Q.
Proof. intros Hm Hf. eapply hoare_bind; [by apply hoare_free|exact Hf]. Qed.

Ltac free_hoare := apply hoare_step; [solve_free|intros ?].

Section Run.
Context {prof : Profile} {flags : CqueueFlags} {al : Allocator} {fl : FutLayout Fut} {sm : SlabMemory}.

Lemma hoare_with_borrow_mut {A} X N (m : M World A) Y : hoare (funded X N) m (fun a => funded (Y a) N) ->
  hoare (funded X N) (with_borrow_mut m) (fun a => funded (Y a) N).
Proof.
  intros Hm. unfold with_borrow_mut. do 3 free_hoare. eapply hoare_bind; [exact Hm|]. intros x. cbn beta.
  free_hoare. by apply hoare_ret.
Qed.

(** Running a body of cost [n]: what it queues and what it may still queue. *)
Definition runs_within (m : M World (Fut * Poll unit)) (n : nat) : Prop :=
  forall X N, hoare (funded X N) m (fun r w' =>
    exists k n', (k + n' <= n)%nat /\ fut_costs r.1 n' /\ funded X (N + k) w').

(** Polling the task at [p], set apart with [n]. *)
Lemma poll_within body p X N n w out w' :
  (forall r prog, w.(w_heap) !! p = Some r -> r.(rt_future) = Suspended prog -> runs_within (body prog) n) ->
  funded (X ∪ {[p]}) N w -> task_poll_with body p w = Ok (out, w') -> funded X (N + n) w'.
Proof.
  intros Hbody Hw (r & w1 & [-> Hp]%heap_load_Ok & E)%bind_Ok.
  destruct (rt_future r) as [prog|] eqn:Hf; [|done]. apply bind_Ok in E as ([f o] & w1 & E1 & E).
  destruct (Hbody r prog Hp Hf _ _ _ _ _ Hw E1) as (k & n' & Hle & Hf' & Hw1).
  apply bind_Ok in E as (r' & w2 & [-> Hp']%heap_load_Ok & E).
  apply bind_Ok in E as ([] & w2 & ->%heap_store_Ok & E). injection E as _ <-.
  eapply funded_mono; [apply (funded_put X (N + k) n'); [exact Hw1|exact Hf']|done|lia].
Qed.

Lemma Task_new_funded f X N : hoare (funded X N) (zoom heap_lens (Task_new f)) (fun p => funded (X ∪ {[p]}) N).
Proof.
  intros w p w' (c & Hc & Hn) E. unfold zoom in E. destruct (Task_new f _) as [[q h]|?|?] eqn:En; [|done..].
  injection E as -> <-. assert (Hh : exists r, h = <[p := r]> w.(w_heap)).
  { apply Task_new_Ok in En as (_ & _ & _ & ->). by eexists. }
  destruct Hh as [r ->]. exists c. split; [|exact Hn]. intros q r' Hq Hx. cbn in Hq.
  rewrite lookup_insert_ne in Hq by set_solver. apply (Hc q r' Hq). set_solver.
Qed.
Lemma free_insert p : stable (spent 0) (zoom heap_tasks_lens (insert p)).
Proof.
  eapply (stable_zoom _ (fun s s' : heap Fut * Slab => kept s.1 s'.1)).
  - assert (Hpre : PreOrder (fun s s' : heap Fut * Slab => kept s.1 s'.1)).
    { split; [by intros []|]. intros ? ? ? ? ?. by etransitivity. }
    assert (Hs : forall A (m : M Slab A), stable (fun s s' : heap Fut * Slab => kept s.1 s'.1) (zoom slab_of m)).
    { intros A m. eapply stable_zoom; [apply stable_any|]. by intros s []. }
    assert (Hh : forall i, stable (fun s s' : heap Fut * Slab => kept s.1 s'.1) (zoom heap_of (set_task_idx p i))).
    { intros i. eapply stable_zoom; [apply kept_set_slab_idx|]. by intros h []. }
    unfold insert, next_free. cbv zeta.
    repeat first [apply Hs | apply Hh | (intros ? ? ? [= _ <-]; reflexivity) | stable_step].
  - intros [h s] w Hh. split; [exact Hh|]. unfold queued, entries. cbn. lia.
Qed.

Lemma free_task_clone p : stable (spent 0) (zoom heap_lens (Task_clone p)).
Proof. apply stable_spent_heap. unfold Task_clone. apply stable_bind; [apply _|apply kept_inc_rc|]. intros _. apply stable_ret. apply _. Qed.

#[local] Hint Resolve free_insert free_task_clone : stable.

Lemma spawn_within body f X N n : (forall prog, runs_within (body prog) n) ->
  hoare (funded X N) (spawn_with body f) (fun _ => funded X (N + n)).
Proof.
  intros Hbody. unfold spawn_with. eapply (hoare_bind _ _ _ (fun r => funded (X ∪ {[r.1]}) N)).
  { apply hoare_with_borrow_mut. eapply hoare_bind; [apply Task_new_funded|]. intros p. cbn beta.
    do 4 free_hoare. by apply hoare_ret. }
  intros [p old]. cbn [fst]. eapply (hoare_bind _ _ _ (fun _ => funded X (N + n))).
  { intros w out w' Hw E. by eapply poll_within. }
  intros out. do 2 free_hoare. apply hoare_free. solve_free.
Qed.

Lemma run_within prog : forall n, costs prog n -> runs_within (run prog) n.
Proof.
  induction prog as [|msg|A l held k IH|child IHc k IHk|k IH|b k IH|b fd n k IH|r k IH]; cbn [run costs];
    intros N0 Hc X N.
  - apply hoare_ret. intros w Hw. exists 0%nat, 0%nat. split; [lia|]. split; [done|by rewrite Nat.add_0_r].
  - by intros w r w' _ E.
  - destruct Hc as (c & m & Hl & Hle & Hk). intros w r w' Hw ([l' o] & w1 & E1 & E)%bind_Ok.
    destruct (spends_poll_leaf l ltac:(congruence) _ _ _ E1) as (j & Hj & Hp).
    destruct (Hp c Hl) as (c' & Hl' & Hle'). pose proof (funded_spent _ _ _ _ _ Hw Hj) as Hw1.
    cbn [fst snd] in *. destruct o as [v|].
    + apply bind_Ok in E as ([] & w2 & E2 & E).
      assert (Hw2 : funded X (N + j) w2) by (eapply funded_free; [exact Hw1|by eapply free_Leaf_drop]).
      destruct (IH v m (Hk v) X (N + j)%nat w2 r w' Hw2 E) as (k' & n' & Hkn & Hf & Hw').
      exists (j + k')%nat, n'. split; [lia|]. split; [done|by rewrite Nat.add_assoc].
    + injection E as <- <-. exists j, (c' + m)%nat. split; [lia|]. split; [by exists c', m|done].
  - destruct Hc as (a & b & Hle & Ha & Hb). intros w r w' Hw ([] & w1 & E1 & E)%bind_Ok.
    pose proof (spawn_within _ _ X N a (fun _ => IHc a Ha) _ _ _ Hw E1) as Hw1.
    destruct (IHk b Hb X (N + a)%nat w1 r w' Hw1 E) as (k' & n' & Hkn & Hf & Hw').
    exists (a + k')%nat, n'. split; [lia|]. split; [done|by rewrite Nat.add_assoc].
  - unfold alloc_write_buffer. apply hoare_step; [solve_free|]. intros b. by apply IH.
  - apply hoare_step; [solve_free|]. intros b'. by apply IH.
  - destruct Hc as (m & Hle & Hk). intros w r' w' Hw ([] & w1 & E1 & E)%bind_Ok.
    destruct (spends_submit b fd n _ _ _ E1) as (j & Hj & ->). pose proof (funded_spent _ _ _ _ _ Hw Hj) as Hw1.
    destruct (IH m Hk X (N + 1)%nat w1 r' w' Hw1 E) as (k' & n' & Hkn & Hf & Hw').
    exists (1 + k')%nat, n'. split; [lia|]. split; [done|by rewrite Nat.add_assoc].
  - apply hoare_step; [solve_free|]. intros _. by apply IH.
Qed.

(** Computations that queue no more than the live tasks have funds for. *)
Definition solvent N {A} (m : M World A) : Prop := hoare (funded ∅ N) m (fun _ => funded ∅ N).

Lemma solvent_bind {A B} N (m : M World A) (f : A -> M World B) :
  solvent N m -> (forall a, solvent N (f a)) -> solvent N (bind m f).
Proof. intros Hm Hf. by eapply hoare_bind. Qed.

Lemma task_poll_funded N p : solvent N (task_poll p).
Proof.
  intros w out w' Hw E. pose proof E as (r & w1 & [-> Hp]%heap_load_Ok & _)%bind_Ok.
  destruct (funded_take ∅ N w p r Hw Hp ltac:(set_solver)) as (n & m & Hf & Hle & Hm).
  eapply funded_mono; [eapply (poll_within run p ∅ m n); [|exact Hm|exact E]|done|lia].
  intros r' prog Hp' Hf'. apply run_within. assert (r' = r) as -> by congruence. by rewrite Hf' in Hf.
Qed.

(** ** The event loop *)
Lemma spawn_funded f n N : costs f n -> hoare (funded ∅ N) (spawn f) (fun _ => funded ∅ (N + n)).
Proof.
  intros Hf w a w' Hw E. unfold spawn in E. rewrite (spawn_with_ext run (fun _ => run f) f w eq_refl) in E.
  by apply (spawn_within _ _ _ _ _ (fun _ => run_within f n Hf) _ _ _ Hw E).
Qed.

Lemma free_clone_task i : stable (spent 0) (clone_task i).
Proof. unfold clone_task, task_at. apply stable_borrow_mut. solve_free. Qed.

Lemma kept_evaluate p n : stable kept (evaluate_syscall_nb p n).
Proof.
  unfold evaluate_syscall_nb, get_syscall_nb. solve_stable; apply kept_load.
Qed.

#[local] Hint Resolve free_clone_task kept_evaluate : stable.

(** The goals of a computation that polls tasks and queues nothing itself. *)
Ltac loop_step :=
  lazymatch goal with
  | |- solvent _ (panic _) => done
  | |- solvent _ (task_poll _) => apply task_poll_funded
  | |- solvent _ (if ?b then _ else _) => destruct b
  | |- solvent _ (match ?x with _ => _ end) => destruct x
  | |- solvent _ (bind _ _) => apply solvent_bind; [|intros ?]
  | |- solvent _ _ => apply hoare_free; solve_free
  end.

Lemma handle_cqe_funded N c : solvent N (handle_cqe_entry c).
Proof. unfold handle_cqe_entry. cbv zeta. repeat loop_step. Qed.

Lemma for_each_funded {A} N (l : list A) f : (forall x, solvent N (f x)) -> solvent N (for_each l f).
Proof.
  intros Hf. induction l as [|x l IH]; cbn [for_each]; [by apply hoare_ret|]. by apply solvent_bind.
Qed.

Lemma drain_funded N k : solvent N (drain_wake_list k).
Proof.
  induction k as [|k IH]; cbn [drain_wake_list]; [by apply hoare_ret|]. cbv zeta. repeat (exact IH || loop_step).
Qed.

Lemma free_is_runtime_free : stable (spent 0) is_runtime_free.
Proof. unfold is_runtime_free, free_unsed_slab_slot. apply stable_borrow_mut. solve_free. Qed.

(** Submitting moves the queue behind what was submitted before. *)
Lemma free_submit_and_wait st : stable (spent 0) (submit_and_wait st).
Proof.
  intros w a w' (rt & w1 & [= <- <-] & E)%bind_Ok. apply bind_Ok in E as ([] & w1 & Ea & E).
  apply (stable_assert eq) in Ea as <-. apply bind_Ok in E as ([] & w1 & [= <-] & E).
  assert (w' = submitted w) as -> by (by destruct st; injection E as _ <-).
  apply spent_same; [done|]. unfold entries, submitted. cbn. by rewrite app_nil_r.
Qed.

#[local] Hint Resolve free_is_runtime_free free_submit_and_wait : stable.

Lemma turn_funded N st : solvent N (block_on_turn st).
Proof.
  unfold block_on_turn. repeat loop_step.
  - apply for_each_funded, handle_cqe_funded.
  - apply drain_funded.
Qed.

Lemma loop_funded N sts : solvent N (block_on_loop sts).
Proof.
  induction sts as [|st sts IH]; cbn [block_on_loop]; [by apply hoare_ret|].
  apply solvent_bind; [apply turn_funded|]. intros [b|]; [by apply hoare_ret|exact IH].
Qed.

Lemma block_on_funded N future n sts : costs future n ->
  hoare (funded ∅ N) (block_on future sts) (fun _ => funded ∅ (N + n)).
Proof.
  intros Hf. unfold block_on. eapply hoare_bind; [by apply spawn_funded|]. intros [].
  apply (solvent_bind (N + n)); [apply hoare_free; solve_free|]. intros []; [by apply hoare_ret|apply loop_funded].
Qed.

(** C19: a body of cost [n] (what it and the tasks it spawns can submit at most; a
    body that connects has none, see [connect_slot_zero_repeats]) never has more than [n] entries queued and submitted,
    the tasks it spawns included, whatever the completions are: on a runtime
    without tasks, [block_on] adds at most [n] entries to those that were there. *)
Theorem entries_bounded future n sts w0 b w : costs future n -> w0.(w_heap) = ∅ ->
  block_on future sts w0 = Ok (b, w) ->
  (length (entries w) <= length (entries w0) + n)%nat.
Proof.
  intros Hf H0 E. assert (Hw0 : funded ∅ (queued w0) w0).
  { exists ∅. split; [|done]. intros p r. by rewrite H0. }
  destruct (block_on_funded (queued w0) future n sts Hf _ _ _ Hw0 E) as (c & _ & Hn). unfold queued in Hn. lia.
Qed.

(** ** Counting completions *)
Definition final (c : Cqe) : bool := negb (more c.(cqe_flags)).

(** The completions that end an entry. *)
Fixpoint finals (sts : list KernelStep) : nat :=
  match sts with
  | [] => 0%nat
  | KernelError _ :: sts' => finals sts'
  | KernelBatch cs :: sts' => (length (List.filter final cs) + finals sts')%nat
  end.

Lemma delivers_length K cs K' : delivers K cs K' -> length K = (length K' + length (List.filter final cs))%nat.
Proof.
  induction 1 as [|K1 e K2 c cs K' _ Hm _ IH|K1 e K2 c cs K' _ Hm _ IH]; cbn [List.filter length]; [lia| |];
    unfold final at 1; rewrite Hm; cbn [negb length]; rewrite ?length_app in *; cbn [length] in *; lia.
Qed.

Lemma turn_error_ends errno w r w' : block_on_turn (KernelError errno) w = Ok (r, w') -> r <> None.
Proof.
  unfold block_on_turn. intros (a & w1 & E1 & E)%bind_Ok.
  unfold with_borrow_mut, submit_and_wait in E1. apply bind_Ok in E1 as (b & w2 & _ & E1).
  apply bind_Ok in E1 as ([] & w3 & _ & E1). apply bind_Ok in E1 as ([] & w4 & _ & E1).
  apply bind_Ok in E1 as (c & w5 & Ec & E1). apply bind_Ok in E1 as ([] & w6 & _ & E1). injection E1 as <- _.
  apply bind_Ok in Ec as (rt & w7 & _ & Ec). apply bind_Ok in Ec as ([] & w8 & _ & Ec).
  apply bind_Ok in Ec as ([] & w9 & _ & Ec). injection Ec as <- _. by injection E as <- _.
Qed.

Lemma loop_finals sts : forall K F w Kend w', valid_kernel K sts w Kend ->
  block_on_loop sts w = Ok (Waiting, w') -> (length K + F <= length w.(w_rt).(ring_submitted))%nat ->
  (F + finals sts <= length w'.(w_rt).(ring_submitted))%nat.
Proof.
  induction sts as [|st sts IH]; intros K F w Kend w' Hv; cbn [block_on_loop finals].
  - intros [= <-]. lia.
  - intros (r & w1 & E1 & E)%bind_Ok HK. destruct r as [b|]; [by injection E as -> <-; apply turn_not_waiting in E1|].
    destruct st as [errno|cs]; [by apply turn_error_ends in E1|]. destruct Hv as (K' & Hd & Hv).
    apply delivers_length in Hd. rewrite length_app in Hd.
    pose proof (prefix_length _ _ (turn_submits _ _ _ _ E1)) as Hs. unfold entries in Hs. rewrite length_app in Hs.
    rewrite Nat.add_assoc. eapply (IH K'); [by apply Hv|exact E|]. lia.
Qed.

Context {al_laws : AllocatorLaws} {sm_laws : SlabMemoryLaws}.

End Run.

Module TerminationExamples.
Import EventLoopExamples.

(** One entry to accept, one to read from the connection. *)
Lemma server_costs : costs server 2.
Proof.
  exists 1%nat, 1%nat. split; [reflexivity|]. split; [lia|]. intros [fd|e]; [|exact Logic.I].
  exists 1%nat, 0%nat. split; [lia|]. split; [|exact Logic.I].
  exists 1%nat, 0%nat. split; [reflexivity|]. split; [lia|]. intros [b|e]; exact Logic.I.
Qed.

Lemma entries_bounded_witness : exists w, block_on server batches start = Ok (Returned, w) /\
  (length (entries w) <= 2)%nat.
Proof.
  destruct (ends_Some _ _ _ server_returns) as (_ & w & E). exists w. split; [exact E|].
  exact (entries_bounded server 2 batches start Returned w server_costs eq_refl E).
Defined.

(** The kernel has more completions in store than the server has entries. *)
Definition more_batches : list KernelStep := batches ++ [KernelBatch [done_cqe (ud 0 65535 0) 9]].

Lemma more_batches_valid : exists Kend, valid_run server more_batches start Kend.
Proof.
  assert (Hc : match check_run server more_batches start with Some _ => true | None => false end = true)
    by (vm_compute; reflexivity).
  destruct (check_run server more_batches start) as [K|] eqn:E; [|discriminate Hc].
  exists K. by apply check_run_sound.
Qed.

Lemma more_batches_ok : exists b w, block_on server more_batches start = Ok (b, w).
Proof.
  assert (Hc : match block_on server more_batches start with Ok _ => true | _ => false end = true)
    by (vm_compute; reflexivity).
  destruct (block_on server more_batches start) as [[b w]|?|?]; [|discriminate Hc..]. exists b, w. reflexivity.
Qed.

End TerminationExamples.
