(* ===== verification/CallsSpec.v ===== *)
(** * What the leaf futures deliver

    Functional properties of the polls of src/src/calls/: what a completion
    becomes for the awaiting body, which buffers change hands, and where the
    entries they queue point. *)

From S2P Require Import Prelude UserData Io Task Slab BufPool BufRing Futures Runtime Calls Invariant Concrete.

Section Borrow.
Context {prof : Profile}.

Lemma with_borrow_eq {A} (m : M World A) w a w' : 0 <= w.(w_borrow) ->
  m (set_w_borrow (w.(w_borrow) + 1) w) = Ok (a, w') ->
  with_borrow m w = Ok (a, set_w_borrow w.(w_borrow) w').
Proof.
  intros Hb E. unfold with_borrow. rewrite (bind_step _ _ _ _ w eq_refl).
  rewrite (proj2 (Z.ltb_ge _ _)) by lia. rewrite (bind_step _ _ _ tt w eq_refl).
  rewrite (bind_step _ _ _ tt _ eq_refl). rewrite (bind_step _ _ _ _ _ E). done.
Qed.

Lemma with_borrow_mut_eq {A} (m : M World A) w a w' : w.(w_borrow) = 0 ->
  m (set_w_borrow (-1) w) = Ok (a, w') -> with_borrow_mut m w = Ok (a, set_w_borrow 0 w').
Proof.
  intros Hb E. unfold with_borrow_mut. rewrite (bind_step _ _ _ _ w eq_refl), Hb.
  rewrite (bind_step _ _ _ tt w eq_refl). rewrite (bind_step _ _ _ tt _ eq_refl).
  rewrite (bind_step _ _ _ _ _ E). done.
Qed.

Lemma set_w_borrow_id w b : w.(w_borrow) = b -> set_w_borrow b w = w.
Proof. intros <-. by destruct w. Qed.
End Borrow.

Section Reads.
Context {prof : Profile} {flags : CqueueFlags}.

(** The buffer a read completion names. *)
Definition buffer_of (w : World) (b fd n : Z) : RwBuffer :=
  mkRwBuffer (w.(w_rt).(buffer).(base) + b * BUF_SIZE 1) b fd n false.

Lemma checkout_eq w b fd n : 0 <= w.(w_borrow) -> b < w.(w_rt).(buffer).(read_count) ->
  checkout b fd n w = Ok (buffer_of w b fd n, w).
Proof.
  intros Hb Hr. unfold checkout.
  rewrite (with_borrow_eq _ w (buffer_of w b fd n) (set_w_borrow (w.(w_borrow) + 1) w)); [|done|].
  - by destruct w.
  - rewrite (bind_step _ _ _ _ _ eq_refl). unfold checkout_read.
    cbn [w_rt set_w_borrow]. rewrite (proj2 (Z.ltb_lt _ _)) by done.
    unfold debug_assert. by destruct debug_checks.
Qed.

(** C28: a read that completes with [n > 0] bytes in buffer [b] gives the body that
    buffer, with its length and descriptor, and changes nothing else; the bytes
    it covers lie inside slot [b] of the read zone of the pool. *)
Theorem read_delivers_buffer w fd b n : 0 <= w.(w_borrow) ->
  0 <= b < w.(w_rt).(buffer).(read_count) ->
  w.(CURRENT_TASK).(ti_result) = n -> 0 < n <= BUF_SIZE 1 ->
  buffer_select w.(CURRENT_TASK).(ti_flags) = Some b ->
  exists buf, ReadFuture_poll (Read_Pending fd) w = Ok ((Read_Pending fd, Ready (inl buf)), w) /\
    buf.(buf_idx) = b /\ buf.(fd_idx) = fd /\ buf.(bytes) = n /\ buf.(committed) = false /\
    let pool := w.(w_rt).(buffer) in
    pool.(base) + b * BUF_SIZE 1 <= buf.(rw_ptr) /\
    buf.(rw_ptr) + buf.(bytes) <= pool.(base) + (b + 1) * BUF_SIZE 1 <=
      pool.(base) + pool.(read_count) * BUF_SIZE 1.
Proof.
  intros Hb Hr Hn Hp Hs. exists (buffer_of w b fd n). split; [|simpl; unfold BUF_SIZE, PAGE_SIZE in *; lia].
  cbn [ReadFuture_poll]. unfold current_result, current_cqe_flags.
  rewrite (bind_step _ _ _ _ w eq_refl), (bind_step _ _ _ _ w eq_refl). rewrite Hn.
  rewrite (proj2 (Z.leb_gt _ _)) by lia. rewrite Hs. rewrite (bind_step _ _ _ b w eq_refl).
  rewrite wrap_small by (unfold fits, BUF_SIZE, PAGE_SIZE in *; lia).
  by rewrite (bind_step _ _ _ _ _ (checkout_eq w b fd n Hb ltac:(lia))).
Qed.

(** C29: a read that fails or reaches the end of the stream reports the result,
    and the buffer the kernel had picked, if any, is appended to what the ring
    offers. *)
Theorem failed_read_returns_buffer w fd b n head : 0 <= w.(w_borrow) ->
  w.(CURRENT_TASK).(ti_result) = n -> n <= 0 ->
  buffer_select w.(CURRENT_TASK).(ti_flags) = Some b ->
  let pool := w.(w_rt).(buffer) in
  ring_wf pool.(read_count) w.(w_rt).(buf_ring) -> 0 <= b < pool.(read_count) ->
  fits 64 (pool.(base) + b * BUF_SIZE 1) ->
  (ring_tail w.(w_rt).(buf_ring) - head) mod 2 ^ 16 < pool.(read_count) ->
  exists w', ReadFuture_poll (Read_Pending fd) w = Ok ((Read_Pending fd, Ready (inr n)), w') /\
    available pool.(read_count) head w'.(w_rt).(buf_ring) =
      available pool.(read_count) head w.(w_rt).(buf_ring) ++ [b] /\
    w'.(w_heap) = w.(w_heap) /\ w'.(w_rt).(pending) = w.(w_rt).(pending).
Proof.
  intros Hb Hn Hle Hs pool Hwf Hr Hf Hroom.
  destruct (release_spec pool _ b Hwf Hr Hf) as (mem & E & _).
  exists (set_w_rt (set_buf_ring mem w.(w_rt)) w). split; [|split; [|done]].
  - cbn [ReadFuture_poll]. unfold current_result, current_cqe_flags.
    rewrite (bind_step _ _ _ _ w eq_refl), (bind_step _ _ _ _ w eq_refl). rewrite Hn.
    rewrite (proj2 (Z.leb_le _ _)) by lia. rewrite Hs. unfold release_read_buf.
    rewrite (bind_step _ _ _ tt (set_w_rt (set_buf_ring mem w.(w_rt)) w)); [done|].
    rewrite (with_borrow_eq _ w tt (set_w_borrow (w.(w_borrow) + 1) (set_w_rt (set_buf_ring mem w.(w_rt)) w)));
      [|done|].
    + by destruct w.
    + rewrite (bind_step _ _ _ _ _ eq_refl). unfold zoom. cbn [lget ring_lens w_rt set_w_borrow].
      fold pool. by rewrite E.
  - cbn [w_rt set_w_rt set_buf_ring buf_ring]. by eapply available_release.
Qed.

(** [ReadStream::poll_next] has no memory of the completion it last reported:
    polled again before the next completion arrives, a running stream hands out
    the same buffer a second time. *)
Theorem stream_repeats_buffer w fd b n : 0 <= w.(w_borrow) ->
  0 <= b < w.(w_rt).(buffer).(read_count) ->
  w.(CURRENT_TASK).(ti_result) = n -> 0 <= n <= BUF_SIZE 1 ->
  buffer_select w.(CURRENT_TASK).(ti_flags) = Some b -> more w.(CURRENT_TASK).(ti_flags) = true ->
  let s := mkReadStream fd Stream_Running in
  exists buf, ReadStream_poll_next s w = Ok ((s, Ready (Some buf)), w) /\ buf.(buf_idx) = b /\
    (let! r := ReadStream_poll_next s in ReadStream_poll_next r.1) w = Ok ((s, Ready (Some buf)), w).
Proof.
  intros Hb Hr Hn Hp Hs Hm s. exists (buffer_of w b fd n).
  assert (E : ReadStream_poll_next s w = Ok ((s, Ready (Some (buffer_of w b fd n))), w)).
  { unfold ReadStream_poll_next, current_result, current_cqe_flags. cbn [rs_state rs_fd s].
    rewrite (bind_step _ _ _ _ w eq_refl), (bind_step _ _ _ _ w eq_refl). rewrite Hn.
    rewrite (proj2 (Z.ltb_ge _ _)) by lia. rewrite Hs. rewrite (bind_step _ _ _ b w eq_refl).
    rewrite wrap_small by (unfold fits, BUF_SIZE, PAGE_SIZE in *; lia).
    rewrite (bind_step _ _ _ _ _ (checkout_eq w b fd n Hb ltac:(lia))). by rewrite Hm. }
  split; [done|]. split; [done|]. rewrite (bind_step _ _ _ _ _ E). exact E.
Qed.

(** Once a client socket has a descriptor other than 0, the completion of its
    CONNECT resolves the future with that descriptor, whatever its result: a
    refused connection is not reported. *)
Theorem connect_ignores_result w fd addr result fl : fd <> 0 ->
  let w1 := set_current (mkTaskInfo w.(CURRENT_TASK).(ti_tag) result fl w.(CURRENT_TASK).(ti_response_gen)) w in
  SocketFuture_poll (Socket_Connecting fd addr) w1 = Ok ((Socket_Pending, Ready fd), w1).
Proof. intros Hfd w1. cbn [SocketFuture_poll]. by rewrite (proj2 (Z.eqb_neq _ _)) by done. Qed.
End Reads.

Section Writes.
Context {prof : Profile}.

(** The entry at the end of the queue. *)
Definition last_entry (w : World) : option Entry := last w.(w_rt).(pending).

Lemma last_push e w : last_entry (set_w_rt (set_pending (w.(w_rt).(pending) ++ [e]) w.(w_rt)) w) = Some e.
Proof. apply last_snoc. Qed.

Lemma bind_inv {S A B} (m : M S A) (k : A -> M S B) s b s' :
  bind m k s = Ok (b, s') -> exists a s1, m s = Ok (a, s1) /\ k a s1 = Ok (b, s').
Proof. apply bind_Ok. Qed.

Lemma inc_rc_pool i w w' : inc_rc_of i w = Ok (tt, w') -> w'.(w_rt).(buffer) = w.(w_rt).(buffer).
Proof.
  unfold inc_rc_of. intros (p & w1 & E1 & E2)%bind_inv.
  unfold task_at, zoom in E1. destruct (index i _) as [[? ?]|?|?]; [injection E1 as _ <-|done..].
  unfold zoom in E2. destruct (inc_rc p _) as [[? ?]|?|?]; [|done..]. by injection E2 as _ <-.
Qed.

(** C30: the entry that committing an [RwBuffer] queues names the registered buffer
    its address points into: the fixed-buffer index is the buffer's slot, the
    address its first byte, the length the one the caller asks for.  Nothing
    bounds that length: the write stays inside the registered buffer exactly when
    the caller asks for at most [BUF_SIZE] bytes. *)
Theorem commit_in_registered_buffer w w' b fd n len : let pool := w.(w_rt).(buffer) in
  0 <= b < pool.(read_count) -> b < 2 ^ 16 -> 0 <= len ->
  let buf := buffer_of w b fd n in
  send_commit_write buf.(rw_ptr) fd len (as_u16 buf.(buf_idx)) w = Ok (tt, w') ->
  exists u, last_entry w' = Some (mkEntry (WriteFixedOp fd (pool.(base) + b * BUF_SIZE 1) len b) u) /\
    (in_registered_buffer 1 pool (mkEntry (WriteFixedOp fd (pool.(base) + b * BUF_SIZE 1) len b) u) <->
     len <= BUF_SIZE 1).
Proof.
  intros pool Hb Hb16 Hlen buf E. unfold send_commit_write in E.
  apply bind_inv in E as ([] & w1 & E1 & E). apply bind_inv in E as (u & w2 & E2 & E).
  apply bind_inv in E as (i & w3 & E3 & E). apply bind_inv in E as ([] & w4 & E4 & E).
  injection E as <-. exists u. split.
  - rewrite last_push. cbn [buf buffer_of rw_ptr buf_idx]. by rewrite wrap_small by (unfold fits; lia).
  - unfold in_registered_buffer. cbn [e_opcode]. rewrite zlookup_iovecs by lia. split.
    + intros (v & [= <-] & _ & Hv). cbn [iov_base iov_len] in Hv. lia.
    + intros Hl. eexists. split; [done|]. cbn [iov_base iov_len]. lia.
Qed.

(** C32: [send_write] pairs the index [buf_id] with the address of the write slot
    [read_count + buf_id]: with a read zone in front of the write zone, no
    non-empty write it queues lies in the registered buffer its index names. *)
Theorem send_write_not_registered w w' fd b len : let pool := w.(w_rt).(buffer) in
  0 < pool.(read_count) -> 0 <= b -> 0 < len ->
  send_write fd b len w = Ok (tt, w') ->
  exists e, last_entry w' = Some e /\ ~ in_registered_buffer 1 pool e.
Proof.
  intros pool Hrc Hb Hlen E. unfold send_write in E.
  apply bind_inv in E as (u & w1 & E1 & E). apply bind_inv in E as (i & w2 & E2 & E).
  apply bind_inv in E as ([] & w3 & E3 & E). apply bind_inv in E as (pl & w4 & E4 & E).
  injection E4 as <- <-. injection E as <-. apply inc_rc_pool in E3.
  injection E2 as <- <-. assert (w1 = w) as ->.
  { unfold current_udata in E1. apply bind_inv in E1 as (? & ? & [= <- <-] & [= _ <-]). done. }
  eexists. split; [apply last_push|]. rewrite E3. fold pool. unfold in_registered_buffer. cbn [e_opcode].
  intros (v & Hv & Hlo & Hhi). assert (Hin := iovecs_inside 1 pool b ltac:(congruence)).
  rewrite zlookup_iovecs in Hv by done. injection Hv as <-. cbn [iov_base iov_len] in *.
  unfold write_buf_ptr, BUF_SIZE, PAGE_SIZE in *. lia.
Qed.

(** [faileds] stays empty exactly for complete writes; a partial write is
    reported once, with its length; a failed one is reported twice, as [Failed]
    and as a [Partial] whose length is the error number read as a [u32]. *)
Theorem write_failures_spec fd len result : 0 <= len < 2 ^ 31 -> - 2 ^ 31 <= result < 2 ^ 31 ->
  (write_failures fd len result = [] <-> result = len) /\
  (0 <= result -> result <> len -> write_failures fd len result = [Partial fd result]) /\
  (result < 0 -> write_failures fd len result = [Failed fd; Partial fd (result + 2 ^ 32)]).
Proof.
  intros Hl Hr. unfold write_failures.
  assert (Hw : as_u32 result = if result <? 0 then result + 2 ^ 32 else result).
  { unfold wrap. destruct (Z.ltb_spec result 0); [|by apply Z.mod_small; lia].
    symmetry. apply Z.mod_unique with (-1); lia. }
  rewrite Hw. destruct (Z.ltb_spec result 0) as [Hneg|Hpos].
  - rewrite (proj2 (Z.eqb_neq _ _)) by lia. split_and!; [split; [done|lia]|lia|done].
  - destruct (Z.eqb_spec result len) as [->|Hne]; split_and!; try done; try lia.
Qed.
End Writes.

(** ** The fan-out write, polled once per completion *)
Section FanOut.
Context {prof : Profile}.

(** The completions of a fan-out: the position in [fds] and the result. *)
Definition fan_out_info (i nb : Z) (c : Z * Z) : TaskInfo := mkTaskInfo (mkTag i nb) c.2 0 c.1.

Fixpoint poll_completions (f : WriteMultipleFuture) (i nb : Z) (cs : list (Z * Z))
    : M World (WriteMultipleFuture * Poll (list WriteResult)) :=
  match cs with
  | [] => ret (f, Pending)
  | c :: cs' =>
      modify (set_current (fan_out_info i nb c)) ;;!
      let! r := WriteMultipleFuture_poll f in
      match r.2 with
      | Pending => poll_completions r.1 i nb cs'
      | Ready v => ret (r.1, Ready v)
      end
  end.

(** What the completions add up to, given the descriptors. *)
Definition reports (fds : list Z) (len : Z) (cs : list (Z * Z)) : list WriteResult :=
  concat (List.map (fun c => write_failures (default 0 (zlookup fds c.1)) len c.2) cs).

(** The task at slab index [i] can be reached, and the runtime is not borrowed. *)
Definition reachable_task (i p : Z) (w : World) : Prop :=
  w.(w_borrow) = 0 /\ slab_wf w.(w_rt).(tasks) /\ slab_lookup w.(w_rt).(tasks) i = Some p /\
  is_Some (w.(w_heap) !! p).

Lemma advance_reachable i p nb w : reachable_task i p w ->
  exists w', with_borrow_mut (advance_syscall_nb (mkTag i nb)) w = Ok (tt, w') /\
    w'.(CURRENT_TASK) = w.(CURRENT_TASK).
Proof.
  intros (Hb & Hs & Hl & r & Hr).
  exists (set_w_borrow 0 (set_w_heap (<[p := set_syscall_nb (r.(rt_syscall_nb) mod 32768 + 1) r]> w.(w_heap))
            (set_w_borrow (-1) w))).
  split; [|done]. apply with_borrow_mut_eq; [done|]. unfold advance_syscall_nb. cbn [task_idx].
  rewrite (bind_step _ _ _ p (set_w_borrow (-1) w)) by by apply task_at_ok.
  unfold zoom. cbn [lget heap_lens w_heap set_w_borrow]. by rewrite (augmente_syscall_nb_eq _ _ _ Hr).
Qed.

(** One completion, while others are awaited or as the last one. *)
Lemma poll_one_completion i p nb g res w k fds fl len b : reachable_task i p w ->
  w.(CURRENT_TASK) = fan_out_info i nb (g, res) -> 0 < k ->
  (exists fd, zlookup fds g = Some fd /\ fd <> u32_max) ->
  let fl' := fl ++ write_failures (default 0 (zlookup fds g)) len res in
  let st fl := WriteMultiple_Pending (k - 1) (zinsert g u32_max fds) fl len b in
  if k =? 1
  then exists w', WriteMultipleFuture_poll (WriteMultiple_Pending k fds fl len b) w = Ok ((st [], Ready fl'), w')
  else WriteMultipleFuture_poll (WriteMultiple_Pending k fds fl len b) w = Ok ((st fl', Pending), w).
Proof.
  intros Hw Hc Hk (fd & Hfd & Hne) fl' st. subst fl' st. rewrite Hfd. cbn [default].
  assert (E : forall Q, WriteMultipleFuture_poll (WriteMultiple_Pending k fds fl len b) w = Q <->
    (if k - 1 =? 0 then
       with_borrow_mut (advance_syscall_nb (mkTag i nb)) ;;!
       let! task_info := gets CURRENT_TASK in
       modify (set_current (set_to_next_task task_info)) ;;!
       ret (WriteMultiple_Pending (k - 1) (zinsert g u32_max fds) [] len b,
            Ready (fl ++ write_failures fd len res))
     else ret (WriteMultiple_Pending (k - 1) (zinsert g u32_max fds) (fl ++ write_failures fd len res) len b,
               Pending)) w = Q).
  { intros Q. cbn [WriteMultipleFuture_poll]. unfold sub_w. rewrite (proj2 (Z.leb_le _ _)) by lia.
    rewrite (bind_step _ _ _ _ w eq_refl), (bind_step _ _ _ _ w eq_refl), Hc. cbv zeta.
    cbn [ti_response_gen fan_out_info fst]. rewrite Hfd. rewrite (bind_step _ _ _ fd w eq_refl).
    rewrite (proj2 (Z.eqb_neq _ _)) by done. rewrite (bind_step _ _ _ tt w eq_refl). done. }
  destruct (Z.eqb_spec k 1) as [->|Hk1].
  - destruct (advance_reachable i p nb w Hw) as (w1 & E1 & Hc1). eexists. apply E. rewrite Z.eqb_refl.
    rewrite (bind_step _ _ _ _ _ E1), (bind_step _ _ _ _ w1 eq_refl). done.
  - apply E. by rewrite (proj2 (Z.eqb_neq _ _)) by lia.
Qed.

Lemma poll_completions_ok i p nb len b cs : forall w fds fds' fl,
  reachable_task i p w -> cs <> [] -> NoDup (List.map fst cs) ->
  (forall c, c ∈ cs -> zlookup fds' c.1 = zlookup fds c.1 /\
     exists fd, zlookup fds c.1 = Some fd /\ fd <> u32_max) ->
  exists f' w', poll_completions (WriteMultiple_Pending (Z.of_nat (length cs)) fds' fl len b) i nb cs w =
    Ok ((f', Ready (fl ++ reports fds len cs)), w').
Proof.
  induction cs as [|[g res] cs IH]; intros w fds fds' fl Hw Hne Hnd Hfds; [done|].
  cbn [poll_completions]. rewrite (bind_step _ _ _ tt (set_current (fan_out_info i nb (g, res)) w) eq_refl).
  set (w1 := set_current _ w). assert (Hw1 : reachable_task i p w1) by exact Hw.
  destruct (Hfds (g, res)) as (Hsame & fd & Hfd & Hmax); [by left|]. cbn [fst] in *.
  pose proof (poll_one_completion i p nb g res w1 (Z.of_nat (length ((g, res) :: cs))) fds' fl len b
    Hw1 eq_refl ltac:(simpl; lia) ltac:(exists fd; by rewrite Hsame)) as Hone.
  unfold reports. cbn [List.map concat fst snd]. rewrite Hsame in Hone.
  destruct (decide (cs = [])) as [->|Hcs].
  - destruct Hone as (w' & E). eexists _, w'. rewrite (bind_step _ _ _ _ _ E). cbn [fst snd concat List.map].
    by rewrite app_nil_r.
  - assert (Hlen : Z.of_nat (length ((g, res) :: cs)) - 1 = Z.of_nat (length cs)) by (simpl length; lia).
    rewrite (proj2 (Z.eqb_neq _ _)) in Hone by (destruct cs; [done|simpl length; lia]).
    rewrite (bind_step _ _ _ _ _ Hone). cbn [fst snd]. rewrite Hlen, app_assoc.
    apply NoDup_cons in Hnd as [Hg Hnd]. apply (IH w1 fds); [done|done|done|].
    intros c Hc. destruct (Hfds c) as (Hs & Hex); [by right|]. split; [|done].
    rewrite zlookup_zinsert_ne; [done| |].
    + intros ->. apply Hg. change (c.1 ∈ List.map fst cs). apply list_elem_of_In, in_map. by apply list_elem_of_In.
    + rewrite <- Hsame in Hfd. apply zlookup_Some in Hfd. lia.
Qed.

(** C27: a fan-out write that is polled with one completion per descriptor, in any
    order, answers [Pending] until the last one and then resolves with the
    reports of all completions, in the order they arrived. *)
Theorem fan_out_reports_all i p nb len b cs w fds : reachable_task i p w ->
  cs <> [] -> Permutation (List.map fst cs) (seqZ 0 (Z.of_nat (length fds))) ->
  Forall (fun fd => fd <> u32_max) fds ->
  exists f' w', poll_completions (WriteMultiple_Pending (Z.of_nat (length fds)) fds [] len b) i nb cs w =
    Ok ((f', Ready (reports fds len cs)), w').
Proof.
  intros Hw Hne Hperm Hfds.
  assert (Hlen : length fds = length cs).
  { apply Permutation_length in Hperm. rewrite length_map, length_seqZ in Hperm. lia. }
  rewrite Hlen. apply (poll_completions_ok i p nb len b cs w fds fds []); [done|done| |].
  - rewrite Hperm. apply NoDup_seqZ.
  - intros c Hc. split; [done|].
    assert (Hin : c.1 ∈ seqZ 0 (Z.of_nat (length fds))).
    { rewrite <- Hperm. apply list_elem_of_In, in_map. by apply list_elem_of_In. }
    apply elem_of_seqZ in Hin. destruct (zlookup_lt fds c.1) as [fd Hfd]; [lia|]. exists fd. split; [done|].
    rewrite Forall_forall in Hfds. apply Hfds. unfold zlookup in Hfd.
    destruct (0 <=? c.1); [|done]. by eapply list_elem_of_lookup_2.
Qed.
End FanOut.

(** ** What a fan-out write queues *)
Section FanOutSubmission.
Context {prof : Profile}.

(** The entry for the descriptor at position [idx]. *)
Definition fan_entry (pl : UserDataPayload) (b : WBuffer) (len idx fd : Z) : Entry :=
  mkEntry (WriteFixedOp fd b.(w_ptr) len (as_u16 b.(abs_idx)))
    (into_user_data (mkPayload pl.(pl_task_idx) (as_u16 idx) pl.(pl_syscall_nb))).

Definition fan_entries (pl : UserDataPayload) (b : WBuffer) (len idx : Z) (fds : list Z) : list Entry :=
  zip_with (fan_entry pl b len) (seqZ idx (Z.of_nat (length fds))) fds.

Definition queue_all (es : list Entry) (w : World) : World :=
  set_w_rt (set_pending (w.(w_rt).(pending) ++ es) w.(w_rt)) w.

Definition with_pool (p : BufPool) (w : World) : World := set_w_rt (set_buffer p w.(w_rt)) w.

(** [n] handles are counted for [b]. *)
Definition counted (b : WBuffer) (n : Z) (w : World) : Prop :=
  w.(w_rt).(buffer).(read_count) <= b.(abs_idx) /\
  zlookup w.(w_rt).(buffer).(write_rc) (b.(abs_idx) - w.(w_rt).(buffer).(read_count)) = Some n.

Lemma with_pool_id w : with_pool w.(w_rt).(buffer) w = w.
Proof. by destruct w as [? []]. Qed.

Lemma clone_counted b n w : counted b n w -> 0 < n -> n + 1 < 2 ^ 32 ->
  zoom pool_lens (WBuffer_clone b) w = Ok (b, with_pool (set_handles b (n + 1) w.(w_rt).(buffer)) w).
Proof. intros [Hi Hn] H0 Hb. unfold zoom. cbn [lget lset pool_lens]. by rewrite (WBuffer_clone_counter _ b n). Qed.

Lemma drop_counted b n w : counted b n w -> 1 < n ->
  zoom pool_lens (WBuffer_drop b) w = Ok (tt, with_pool (set_handles b (n - 1) w.(w_rt).(buffer)) w).
Proof. intros [Hi Hn] H0. unfold zoom. cbn [lget lset pool_lens]. by rewrite (WBuffer_drop_counter _ b n). Qed.

Lemma set_counted b n m w : counted b m w -> counted b n (with_pool (set_handles b n w.(w_rt).(buffer)) w).
Proof. intros [Hi Hn]. split; [exact Hi|]. exact (set_handles_lookup b n m w.(w_rt).(buffer) Hn). Qed.

(** A clone that is dropped again leaves the pool as it was. *)
Lemma clone_dropped b n w : counted b n w ->
  with_pool (set_handles b n (set_handles b (n + 1) w.(w_rt).(buffer))) w = w.
Proof. intros [Hi Hn]. rewrite set_handles_twice, set_handles_id by done. apply with_pool_id. Qed.

Lemma push_fan_out_ok pl b len n idx fd w : counted b n w -> 0 < n -> n + 1 < 2 ^ 32 ->
  push_fan_out pl b len idx fd w = Ok (tt, queue_all [fan_entry pl b len idx fd] w).
Proof.
  intros Hc H0 Hb. unfold push_fan_out. rewrite (bind_step _ _ _ _ _ (clone_counted b n w Hc H0 Hb)).
  set (w1 := with_pool _ w). pose proof (set_counted b (n + 1) n w Hc) as Hc1. fold w1 in Hc1.
  assert (E : forall fd len u, zoom pool_lens (WBuffer_write b fd len u) w1 =
    Ok (mkEntry (WriteFixedOp fd b.(w_ptr) len (as_u16 b.(abs_idx))) u, w)).
  { intros fd' len' u. pose proof (drop_counted b (n + 1) w1 Hc1 ltac:(lia)) as E.
    unfold zoom in *. unfold WBuffer_write, bind. destruct (WBuffer_drop b _) as [[[] p']|?|?]; [|done..].
    cbn [lset pool_lens] in *. injection E as ->. unfold ret. do 2 f_equal.
    replace (n + 1 - 1) with n by lia. exact (clone_dropped b n w Hc). }
  by rewrite (bind_step _ _ _ _ _ (E _ _ _)).
Qed.

Lemma queue_all_app es es' w : queue_all es' (queue_all es w) = queue_all (es ++ es') w.
Proof. unfold queue_all. cbn. by rewrite app_assoc. Qed.

Lemma push_fan_outs_ok pl b len n fds : forall idx w, counted b n w -> 0 < n -> n + 1 < 2 ^ 32 ->
  push_fan_outs pl b len idx fds w = Ok (tt, queue_all (fan_entries pl b len idx fds) w).
Proof.
  induction fds as [|fd fds IH]; intros idx w Hc H0 Hb; cbn [push_fan_outs].
  - unfold fan_entries, queue_all. cbn. rewrite app_nil_r. by destruct w as [? []].
  - rewrite (bind_step _ _ _ _ _ (push_fan_out_ok pl b len n idx fd w Hc H0 Hb)).
    rewrite (IH (idx + 1) (queue_all _ w) Hc H0 Hb), queue_all_app. unfold fan_entries.
    rewrite (seqZ_cons idx) by (cbn; lia). cbn [zip_with app].
    by replace (Z.pred (Z.of_nat (length (fd :: fds)))) with (Z.of_nat (length fds)) by (cbn; lia).
Qed.

(** C34: a fan-out write to at least one descriptor, polled for the first time by a
    task whose counter stays below 2^15, queues one entry per descriptor, in their
    order: each writes the same [len] bytes from the slot of the buffer,
    under the slot's registered index, and is numbered by its position.  The
    task counts one reference per entry.  The slot stays taken by the handle the
    future keeps, however many entries there are; a future that is dropped with
    the last handle gives the slot back at once, with its entries still queued. *)
Theorem fan_out_holds_slot w fds b len i p r H :
  w.(w_borrow) = 0 -> w.(CURRENT_TASK).(ti_tag).(task_idx) = i -> slab_wf w.(w_rt).(tasks) ->
  slab_lookup w.(w_rt).(tasks) i = Some p -> w.(w_heap) !! p = Some r -> 0 <= r.(rt_ref_counter) ->
  0 < Z.of_nat (length fds) -> r.(rt_ref_counter) + Z.of_nat (length fds) < 32768 ->
  pool_inv (b.(abs_idx) :: H) w.(w_rt).(buffer) -> handle_count b.(abs_idx) H + 3 < 2 ^ 32 ->
  let es := fan_entries (payload_of_info w.(CURRENT_TASK)) b len 0 fds in
  let r' := set_ref_counter (r.(rt_ref_counter) + Z.of_nat (length fds)) r in
  let w' := queue_all es (set_w_heap (<[p := r']> w.(w_heap)) w) in
  let f := WriteMultiple_Pending (Z.of_nat (length fds)) fds [] len b in
  WriteMultipleFuture_poll (WriteMultiple_Init fds b len) w = Ok ((f, Pending), w') /\
  w'.(w_rt).(buffer) = w.(w_rt).(buffer) /\ b.(abs_idx) ∉ w'.(w_rt).(buffer).(write_free) /\
  (b.(abs_idx) ∉ H -> exists w'', Leaf_drop (LWriteMultiple f) w' = Ok (tt, w'') /\
     w''.(w_rt).(buffer).(write_free) = w.(w_rt).(buffer).(write_free) ++ [b.(abs_idx)] /\
     w''.(w_rt).(pending) = w.(w_rt).(pending) ++ es).
Proof.
  intros Hb Hi Hs Hl Hr Hrc Hn Hov Hp Hc es r' w' f.
  destruct (pool_handle_range _ _ _ Hp ltac:(by left)) as [Hrange Hpos].
  set (n := handle_count b.(abs_idx) (b.(abs_idx) :: H)) in *.
  assert (Hcount : n = handle_count b.(abs_idx) H + 1) by (subst n; rewrite handle_count_cons, Z.eqb_refl; lia).
  assert (Hcnt : counted b n w) by (split; [lia|apply (pool_rc_at _ _ _ Hp Hrange)]).
  split; [|split; [reflexivity|split]].
  - cbn [WriteMultipleFuture_poll].
    rewrite (bind_step _ _ _ _ _ (clone_counted b n w Hcnt ltac:(lia) ltac:(lia))).
    set (w1 := with_pool _ w). assert (Hc1 : counted b (n + 1) w1) by by eapply set_counted.
    assert (E : submit_multiple_write fds b len w1 = Ok (tt, w')).
    { unfold submit_multiple_write. replace w' with (set_w_borrow 0 (set_w_borrow (-1) w')) by (by destruct w; simpl in *; subst).
      apply with_borrow_mut_eq; [exact Hb|]. unfold send_multiple_write.
      rewrite (bind_step _ _ _ _ _ eq_refl).
      rewrite (bind_step _ _ _ _ _ (push_fan_outs_ok _ b len (n + 1) fds 0 (set_w_borrow (-1) w1) Hc1 ltac:(lia) ltac:(lia))).
      set (w2 := queue_all _ _).
      rewrite (bind_step _ _ _ p w2) by (apply task_at_ok; [exact Hs|subst i; exact Hl]).
      assert (Hadd : zoom heap_lens (add_rc p (as_u16 (Z.of_nat (length fds)))) w2 =
        Ok (tt, set_w_heap (<[p := r']> w.(w_heap)) w2)).
      { unfold zoom. cbn [lget lset heap_lens]. rewrite (wrap_small 16) by (unfold fits; lia).
        rewrite (add_rc_eq _ p r) by (exact Hr || unfold fits; lia).
        rewrite (proj2 (Z.leb_gt _ _)), (Z.mod_small _ 32768) by lia.
        by rewrite (proj2 (Z.eqb_neq _ _)) by lia. }
      rewrite (bind_step _ _ _ _ _ Hadd). set (w3 := set_w_heap _ w2).
      rewrite (drop_counted b (n + 1) w3 Hc1) by lia. do 2 f_equal.
      replace (n + 1 - 1) with n by lia.
      subst w3 w2 w1 w'. unfold queue_all, with_pool. cbn. rewrite set_handles_twice, set_handles_id by apply Hcnt.
      by destruct w as [? []]. }
    rewrite (bind_step _ _ _ _ _ E). unfold ret, f. do 3 f_equal. by rewrite (wrap_small 16) by (unfold fits; lia).
  - intros Hin. apply (pi_free _ _ Hp) in Hin as [_ Hz]. subst n. lia.
  - intros Hni. destruct (WBuffer_drop_spec _ _ b Hp) as (p' & E & _ & Hfree).
    assert (Hz : handle_count b.(abs_idx) H = 0).
    { apply count_if_zero, Forall_forall. intros j Hj. apply Z.eqb_neq. intros Ej. by rewrite Ej in Hni. }
    rewrite Hz in Hfree. exists (with_pool p' w'). split; [|split; [exact Hfree|reflexivity]].
    cbn [Leaf_drop f]. unfold zoom. cbn [lget lset pool_lens]. change (buffer (w_rt w')) with (buffer (w_rt w)). by rewrite E.
Qed.
End FanOutSubmission.

Module CallsExamples.
Import BufRingExamples.

(** A runtime with four read and two write buffers, and one task at index 0. *)
Definition header : RawTask Fut := mkRawTask (Suspended Return) 96 2 5 (Some 0).
Definition world_of (t : TaskInfo) : World :=
  mkWorld {[ 32 := header ]} (mkRuntime (mkSlab [32; free_slot 2] 1 2 1) [] pool4 [] mem4) 0 t [] [].
Definition info (result bid : Z) : TaskInfo := mkTaskInfo (mkTag 0 5) result (3 + Z.shiftl bid 16) 65535.

Lemma read_delivers_buffer_witness : exists buf,
  ReadFuture_poll (Read_Pending 7) (world_of (info 20 2)) =
    Ok ((Read_Pending 7, Ready (inl buf)), world_of (info 20 2)) /\ buf.(buf_idx) = 2.
Proof.
  destruct (read_delivers_buffer (world_of (info 20 2)) 7 2 20 ltac:(done) ltac:(done) eq_refl ltac:(done) eq_refl)
    as (buf & E & Hb & _). exists buf. split; [exact E|exact Hb].
Defined.

Lemma failed_read_returns_buffer_witness : exists w',
  ReadFuture_poll (Read_Pending 7) (world_of (info 0 1)) = Ok ((Read_Pending 7, Ready (inr 0)), w') /\
  available 4 2 w'.(w_rt).(buf_ring) = available 4 2 mem4 ++ [1].
Proof.
  destruct (failed_read_returns_buffer (world_of (info 0 1)) 7 1 0 2 ltac:(done) eq_refl ltac:(done) eq_refl
    mem4_wf ltac:(done) ltac:(done) ltac:(vm_compute; reflexivity)) as (w' & E & Ha & _).
  exists w'. split; [exact E|exact Ha].
Defined.

Lemma stream_repeats_buffer_witness : exists buf,
  (let! r := ReadStream_poll_next (mkReadStream 7 Stream_Running) in ReadStream_poll_next r.1)
    (world_of (info 20 2)) = Ok ((mkReadStream 7 Stream_Running, Ready (Some buf)), world_of (info 20 2)).
Proof.
  destruct (stream_repeats_buffer (world_of (info 20 2)) 7 2 20 ltac:(done) ltac:(done) eq_refl ltac:(done)
    eq_refl eq_refl) as (buf & _ & _ & E). exists buf. exact E.
Defined.

Lemma connect_ignores_result_witness : exists w,
  SocketFuture_poll (Socket_Connecting 9 (mkSockaddrIn AF_INET 20480 16777343)) w =
    Ok ((Socket_Pending, Ready 9), w) /\ w.(CURRENT_TASK).(ti_result) = -111.
Proof.
  eexists. split; [exact (connect_ignores_result (world_of (info 9 0)) 9 _ (-111) 0 ltac:(done))|reflexivity].
Defined.

(** A reply that fits, and one that is a byte too long. *)
Lemma commit_in_registered_buffer_witness :
  (exists w' e, send_commit_write (8192 + 2 * 4096) 7 4096 2 (world_of (info 20 2)) = Ok (tt, w') /\
    last_entry w' = Some e /\ in_registered_buffer 1 pool4 e) /\
  (exists w' e, send_commit_write (8192 + 2 * 4096) 7 4097 2 (world_of (info 20 2)) = Ok (tt, w') /\
    last_entry w' = Some e /\ ~ in_registered_buffer 1 pool4 e).
Proof.
  split.
  - destruct (send_commit_write (8192 + 2 * 4096) 7 4096 2 (world_of (info 20 2))) as [[[] w']|?|?] eqn:E;
      [|exfalso; vm_compute in E; discriminate E..].
    destruct (commit_in_registered_buffer (world_of (info 20 2)) w' 2 7 20 4096 ltac:(done) ltac:(done) ltac:(lia) E)
      as (u & He & Hr). exists w'. eexists. split; [reflexivity|]. split; [exact He|]. apply Hr. cbv. discriminate.
  - destruct (send_commit_write (8192 + 2 * 4096) 7 4097 2 (world_of (info 20 2))) as [[[] w']|?|?] eqn:E;
      [|exfalso; vm_compute in E; discriminate E..].
    destruct (commit_in_registered_buffer (world_of (info 20 2)) w' 2 7 20 4097 ltac:(done) ltac:(done) ltac:(lia) E)
      as (u & He & Hr). exists w'. eexists. split; [reflexivity|]. split; [exact He|]. intros Hin.
    apply Hr in Hin. apply Hin. reflexivity.
Defined.

Lemma send_write_not_registered_witness : exists w' e,
  send_write 7 0 10 (world_of (info 20 2)) = Ok (tt, w') /\
  last_entry w' = Some e /\ ~ in_registered_buffer 1 pool4 e.
Proof.
  destruct (send_write 7 0 10 (world_of (info 20 2))) as [[[] w']|?|?] eqn:E.
  - destruct (send_write_not_registered (world_of (info 20 2)) w' 7 0 10 ltac:(done) ltac:(done) ltac:(done) E)
      as (e & He & Hr). exists w', e. split; [reflexivity|]. split; [exact He|exact Hr].
  - exfalso. vm_compute in E. discriminate E.
  - exfalso. vm_compute in E. discriminate E.
Defined.

Lemma write_failures_spec_witness : write_failures 7 10 (-32) = [Failed 7; Partial 7 4294967264].
Proof.
  destruct (write_failures_spec 7 10 (-32) ltac:(lia) ltac:(lia)) as (_ & _ & H). exact (H ltac:(lia)).
Defined.

(** The world of [header], with write slot 4 held. *)
Definition world_writing : World :=
  set_w_rt (set_buffer pool_taken (world_of (info 0 0)).(w_rt)) (world_of (info 0 0)).

Lemma fan_out_holds_slot_witness : exists f w',
  WriteMultipleFuture_poll (WriteMultiple_Init [7; 8; 9] (mkWBuffer 24576 4) 10) world_writing = Ok ((f, Pending), w') /\
  length w'.(w_rt).(pending) = 3%nat /\ w'.(w_rt).(buffer).(write_free) = [5] /\
  exists w'', Leaf_drop (LWriteMultiple f) w' = Ok (tt, w'') /\ w''.(w_rt).(buffer).(write_free) = [5; 4].
Proof.
  destruct (fan_out_holds_slot world_writing [7; 8; 9] (mkWBuffer 24576 4) 10 0 32 header []) as (E & _ & _ & D).
  - reflexivity.
  - reflexivity.
  - exists [1]. apply (filled_inv 0 32 1 [1] (mkSlab (link_slots 0 2) 0 2 0));
      [apply (link_slab_inv 2); lia|reflexivity|lia|reflexivity].
  - reflexivity.
  - reflexivity.
  - cbn. lia.
  - cbn. lia.
  - cbn. lia.
  - exact pool_taken_inv.
  - reflexivity.
  - destruct (D ltac:(apply not_elem_of_nil)) as (w'' & Ed & Hf & _).
    eexists _, _. split; [exact E|]. split; [reflexivity|]. split; [reflexivity|].
    exists w''. split; [exact Ed|exact Hf].
Defined.

Lemma fan_out_reports_all_witness : exists f' w',
  poll_completions (WriteMultiple_Pending 3 [7; 8; 9] [] 10 (mkWBuffer 24576 4)) 0 32773
    [(1, 10); (2, 4); (0, -32)] (world_of (info 0 0)) =
  Ok ((f', Ready [Partial 9 4; Failed 7; Partial 7 4294967264]), w').
Proof.
  refine (fan_out_reports_all 0 32 32773 10 (mkWBuffer 24576 4) [(1, 10); (2, 4); (0, -32)]
    (world_of (info 0 0)) [7; 8; 9] _ ltac:(discriminate) _ _).
  - split; [reflexivity|]. split; [|split; [reflexivity|eexists; reflexivity]].
    exists [1]. apply (filled_inv 0 32 1 [1] (mkSlab (link_slots 0 2) 0 2 0));
      [apply (link_slab_inv 2); lia|reflexivity|lia|reflexivity].
  - change (Permutation [1; 2; 0] [0; 1; 2]).
    exact (Permutation_sym (perm_trans (perm_swap 1 0 [2]) (perm_skip 1 (perm_swap 2 0 [])))).
  - repeat constructor; discriminate.
Defined.
End CallsExamples.
