(* ===== verification/SlicesSpec.v ===== *)
(** * What bodies can do to the bytes of the buffers

    The slices of a buffer cover its own slot and nothing else, writing through
    them leaves the other slots alone, and the bytes a committed reply sends are
    those the body wrote. *)

From S2P Require Import Prelude UserData Io Task Slab BufPool Slices BufRing Futures Runtime Calls Quiet Invariant Lifetime Concrete CallsSpec.

Section SlicesSpec.
Context {prof : Profile}.

(** C24: the slices of the buffers: [read_slice] shows the received bytes at the
    start of the slot of the buffer, [write_slice], [deref] and [deref_mut] cover
    the whole slot, which is the range registered with the kernel under the
    buffer's index; none of them is undefined, and the write zone lies behind the
    read zone. *)
Theorem slices_in_own_slot N p mem : pool_mem N p mem ->
  (forall i fd n, 0 <= i < p.(read_count) -> 0 <= n <= BUF_SIZE N -> exists b,
     checkout_read N p i fd n mem = Ok (b, mem) /\
     RwBuffer_read_slice p b mem = Ok (mkSlice (p.(base) + i * BUF_SIZE N) n, mem) /\
     RwBuffer_write_slice N p b mem = Ok (slot_slice N p i, mem) /\
     zlookup (build_iovecs N p) i = Some (mkIovec (slot_slice N p i).(sl_ptr) (slot_slice N p i).(sl_len))) /\
  (forall H b p', pool_inv H p -> alloc_write N p = Ok (b, p') ->
     p.(read_count) <= b.(abs_idx) /\
     WBuffer_write_slice N p b mem = Ok (slot_slice N p b.(abs_idx), mem) /\
     WBuffer_deref N p b mem = Ok (slot_slice N p b.(abs_idx), mem) /\
     WBuffer_deref_mut N p b mem = Ok (slot_slice N p b.(abs_idx), mem) /\
     zlookup (build_iovecs N p) b.(abs_idx) =
       Some (mkIovec (slot_slice N p b.(abs_idx)).(sl_ptr) (slot_slice N p b.(abs_idx)).(sl_len))).
Proof.
  intros Hm. pose proof (BUF_SIZE_pos N (pm_N _ _ _ Hm)) as Hpos. split.
  - intros i fd n Hi Hn. exists (mkRwBuffer (p.(base) + i * BUF_SIZE N) i fd n false).
    split; [|split; [|split]].
    + unfold checkout_read. rewrite (proj2 (Z.ltb_lt _ _)) by lia. unfold debug_assert. by destruct debug_checks.
    + apply from_raw_parts_ok. eapply slot_inside; [done|lia|done].
    + apply from_raw_parts_ok. eapply slot_inside; [done|lia|lia].
    + rewrite zlookup_iovecs by lia. done.
  - intros H b p' Hp E. pose proof (alloc_write_spec N H p Hp) as Ha.
    destruct (write_free p) as [|i rest] eqn:Hf; [congruence|].
    destruct Ha as (p'' & E' & _ & _ & _). rewrite E' in E. injection E as <- _.
    assert (Hi : p.(read_count) <= i < p.(read_count) + Z.of_nat (length p.(write_rc))).
    { apply (pi_free _ _ Hp). rewrite Hf. by left. }
    assert (Hs : forall n, n = BUF_SIZE N -> from_raw_parts p (base p + i * BUF_SIZE N) n mem = Ok (slot_slice N p i, mem)).
    { intros n ->. apply from_raw_parts_ok. eapply slot_inside; [done|pose proof (pm_count _ _ _ Hm); lia|lia]. }
    cbn [abs_idx]. split; [lia|]. split; [by apply Hs|]. split; [by apply Hs|]. split; [by apply Hs|].
    rewrite zlookup_iovecs by (pose proof (pm_count _ _ _ Hm); lia). done.
Qed.

(** *** Handles and the slices they give *)
Inductive Handle := HRead (b : RwBuffer) | HWrite (b : WBuffer).

(** A handle to slot [i], from a received buffer or from the write pool in any of
    its states. *)
Inductive obtained (N : Z) (p : BufPool) : Handle -> Z -> Prop :=
| obtained_read i fd n b (mem mem' : list Z) : 0 <= i < p.(read_count) -> 0 <= n <= BUF_SIZE N ->
    checkout_read N p i fd n mem = Ok (b, mem') -> obtained N p (HRead b) i
| obtained_write H p0 b p1 : same_geometry p0 p -> pool_inv H p0 -> alloc_write N p0 = Ok (b, p1) ->
    obtained N p (HWrite b) b.(abs_idx).

(** The slices the crate gives over a handle: to write, and to read or write. *)
Definition mut_slices (N : Z) (p : BufPool) (h : Handle) : list (M (list Z) Slice) :=
  match h with
  | HRead b => [RwBuffer_write_slice N p b]
  | HWrite b => [WBuffer_write_slice N p b; WBuffer_deref_mut N p b]
  end.
Definition all_slices (N : Z) (p : BufPool) (h : Handle) : list (M (list Z) Slice) :=
  match h with
  | HRead b => [RwBuffer_read_slice p b]
  | HWrite b => [WBuffer_deref N p b]
  end ++ mut_slices N p h.

(** They lie in the slot. *)
Lemma slices_in_slot N p mem h i m : pool_mem N p mem -> obtained N p h i -> m ∈ all_slices N p h ->
  0 <= i < p.(read_count) + Z.of_nat (length p.(write_rc)) /\
  exists n, 0 <= n <= BUF_SIZE N /\ forall mem', length mem' = length mem ->
    m mem' = Ok (mkSlice (p.(base) + i * BUF_SIZE N) n, mem').
Proof.
  intros Hm Ho Hin. pose proof (BUF_SIZE_pos N (pm_N _ _ _ Hm)) as Hpos. pose proof (pm_count _ _ _ Hm) as Hc.
  assert (Hparts : forall k n mem', 0 <= k < p.(read_count) + Z.of_nat (length p.(write_rc)) -> 0 <= n <= BUF_SIZE N ->
      length mem' = length mem ->
      from_raw_parts p (p.(base) + k * BUF_SIZE N) n mem' = Ok (mkSlice (p.(base) + k * BUF_SIZE N) n, mem')).
  { intros k n mem' Hk Hn Hl. apply from_raw_parts_ok. apply slot_inside; [|done..]. split; [apply Hm|done|].
    rewrite Hl. apply Hm. }
  destruct Ho as [i fd n b mm mm' Hi Hn E|H p0 b p1 Hg Hp E].
  - unfold checkout_read in E. apply bind_Ok in E as ([] & m1 & _ & [= <- _]).
    assert (Hr : 0 <= i < p.(read_count) + Z.of_nat (length p.(write_rc))) by lia. split; [exact Hr|].
    unfold all_slices, mut_slices in Hin. cbn [app] in Hin.
    apply elem_of_cons in Hin as [->|Hin]; [|apply list_elem_of_singleton in Hin as ->].
    + exists n. split; [exact Hn|]. intros. by apply Hparts.
    + exists (BUF_SIZE N). split; [lia|]. intros. apply Hparts; [done|lia|done].
  - pose proof (alloc_write_spec N H p0 Hp) as Ha. destruct (write_free p0) as [|k rest] eqn:Hf; [congruence|].
    destruct Ha as (p' & E' & _ & _ & _). rewrite E' in E. injection E as <- _. cbn [abs_idx].
    assert (Hr : 0 <= k < p.(read_count) + Z.of_nat (length p.(write_rc))).
    { assert (Hk : k ∈ write_free p0) by (rewrite Hf; left). apply (pi_free _ _ Hp) in Hk as [Hk _].
      rewrite (sg_read_count _ _ Hg) in *. rewrite (sg_slots _ _ Hg). lia. }
    rewrite <- (sg_base _ _ Hg) in Hin. split; [exact Hr|]. exists (BUF_SIZE N). split; [lia|]. intros mem' Hl.
    unfold all_slices, mut_slices in Hin. cbn [app] in Hin.
    repeat (apply elem_of_cons in Hin as [->|Hin]); [..|by apply elem_of_nil in Hin]; (apply Hparts; [done|lia|done]).
Qed.

(** C23: buffers do not share bytes.  Of two handles to different slots, received
    buffers or write buffers, a body writes through a slice the crate gives over
    the first ([write_slice], [deref_mut]), with any stores and copies: none is
    undefined, and when they have run, any slice over the second ([read_slice],
    [write_slice], [deref], [deref_mut]) shows the bytes it showed before. *)
Theorem slots_isolated N p mem h h' i j writing reading ops : pool_mem N p mem ->
  obtained N p h i -> obtained N p h' j -> i <> j ->
  writing ∈ mut_slices N p h -> reading ∈ all_slices N p h' ->
  let write := let! s := writing in for_each ops (slice_exec p s) in
  let shown := let! s := reading in gets (contents p s) in
  (forall what, write mem <> Ub what) /\
  forall mem', write mem = Ok (tt, mem') ->
    exists data, shown mem = Ok (data, mem) /\ shown mem' = Ok (data, mem').
Proof.
  intros Hm Ho Ho' Hij Hw Hr write shown. pose proof (BUF_SIZE_pos N (pm_N _ _ _ Hm)) as Hpos.
  destruct (slices_in_slot N p mem h i writing Hm Ho) as (Hi & n & Hn & Ew).
  { destruct h; (apply elem_of_app; by right). }
  destruct (slices_in_slot N p mem h' j reading Hm Ho' Hr) as (Hj & n' & Hn' & Er).
  set (s := mkSlice (p.(base) + i * BUF_SIZE N) n) in *.
  assert (Hin : inside p s mem) by (apply slot_inside; done).
  pose proof (slice_execs_differs (prof := dev_profile) p s ops mem Hin) as Hd.
  assert (Erun : write mem = for_each ops (slice_exec p s) mem).
  { unfold write. by rewrite (bind_step _ _ _ _ _ (Ew mem eq_refl)). }
  rewrite Erun. split.
  - intros what E. by destruct (wp_Ub _ _ _ _ Hd E).
  - intros mem' E. pose proof (wp_Ok _ _ _ _ _ Hd E) as Hdiff. pose proof Hdiff as [Hl Hsame].
    unfold shown. rewrite (bind_step _ _ _ _ _ (Er mem eq_refl)), (bind_step _ _ _ _ _ (Er mem' Hl)).
    eexists. split; [reflexivity|]. unfold gets, contents. cbn [sl_ptr sl_len]. do 2 f_equal.
    replace (base p + j * BUF_SIZE N - base p) with (j * BUF_SIZE N) by lia.
    eapply (slots_disjoint N p i j); [apply Hm|done|lia|lia|rewrite (pm_len _ _ _ Hm); nia|].
    split; [exact Hl|]. intros k Hk. apply Hsame. unfold s, slot_slice in *. cbn [sl_ptr sl_len] in *. lia.
Qed.

Lemma sent_commit w w' buf len b fd n : 0 <= b < 2 ^ 16 -> buf = buffer_of w b fd n ->
  send_commit_write buf.(rw_ptr) fd len (as_u16 b) w = Ok (tt, w') ->
  exists u, last_entry w' = Some (mkEntry (WriteFixedOp fd buf.(rw_ptr) len b) u).
Proof.
  intros Hb -> E. unfold send_commit_write in E.
  apply bind_inv in E as ([] & w1 & E1 & E). apply bind_inv in E as (u & w2 & E2 & E).
  apply bind_inv in E as (i & w3 & E3 & E). apply bind_inv in E as ([] & w4 & E4 & E).
  injection E as <-. exists u. rewrite last_push. by rewrite wrap_small.
Qed.

(** C25: the reply of [test_echo_double_6379]: when the kernel has put [data] in a
    buffer, [read_slice] shows it, [copy_within(0..len, len)] through
    [write_slice] succeeds as long as both copies fit, the entry that [commit]
    queues for [2 * len] bytes sends [data] twice, and no other slot has
    changed. *)
Theorem echo_doubles w mem b fd data : let pool := w.(w_rt).(buffer) in
  let n := Z.of_nat (length data) in let buf := buffer_of w b fd n in
  pool_mem 1 pool mem -> 0 <= b < pool.(read_count) -> b < 2 ^ 16 -> 2 * n <= BUF_SIZE 1 ->
  slice_of (b * BUF_SIZE 1) n mem = data ->
  exists s mem', RwBuffer_read_slice pool buf mem = Ok (s, mem) /\ contents pool s mem = data /\
    (let! s := RwBuffer_write_slice 1 pool buf in copy_within pool s 0 n n) mem = Ok (tt, mem') /\
    (forall w', send_commit_write buf.(rw_ptr) fd (2 * n) (as_u16 buf.(buf_idx)) w = Ok (tt, w') ->
      exists e, last_entry w' = Some e /\ sent pool e.(e_opcode) mem' = data ++ data) /\
    (forall j, j <> b -> 0 <= j < pool.(read_count) + Z.of_nat (length pool.(write_rc)) ->
      contents pool (slot_slice 1 pool j) mem' = contents pool (slot_slice 1 pool j) mem).
Proof.
  intros pool n buf Hm Hb Hb16 Hn Hdata. pose proof (BUF_SIZE_pos 1 (pm_N _ _ _ Hm)) as Hpos.
  set (off := b * BUF_SIZE 1) in *. assert (Hoff : 0 <= off) by (subst off; nia).
  assert (Hlen : off + BUF_SIZE 1 <= Z.of_nat (length mem)) by (rewrite (pm_len _ _ _ Hm); subst off; nia).
  assert (Hin : forall k, 0 <= k <= BUF_SIZE 1 -> inside pool (mkSlice (base pool + off) k) mem).
  { intros k Hk. apply (slot_inside 1 pool mem b k Hm); [lia|done]. }
  assert (Hd : differs_in pool (slot_slice 1 pool b) mem (patch (off + n) data mem)).
  { pose proof (patch_differs pool (slot_slice 1 pool b) n data mem (Hin (BUF_SIZE 1) ltac:(lia))) as Hd.
    unfold slot_slice in Hd at 2. cbn [sl_ptr sl_len slot_slice] in Hd. fold off in Hd.
    replace (base pool + off - base pool) with off in Hd by lia. apply Hd; lia. }
  exists (mkSlice (pool.(base) + off) n), (patch (off + n) data mem).
  assert (Hcw : (let! s := RwBuffer_write_slice 1 pool buf in copy_within pool s 0 n n) mem =
                Ok (tt, patch (off + n) data mem)).
  { unfold RwBuffer_write_slice. cbn [rw_ptr buf buffer_of]. fold pool off.
    rewrite (bind_step _ _ _ _ _ (from_raw_parts_ok pool _ _ mem (Hin (BUF_SIZE 1) ltac:(lia)))).
    unfold copy_within. cbn [sl_ptr sl_len]. fold off.
    replace (base pool + off - base pool) with off by lia.
    unfold bind, assert_, get, modify, ret.
    rewrite (proj2 (Z.leb_le 0 0)), (proj2 (Z.leb_le 0 n)), (proj2 (Z.leb_le n (BUF_SIZE 1))),
      (proj2 (Z.leb_le n (BUF_SIZE 1 - (n - 0)))) by lia. cbn [andb].
    rewrite Z.add_0_r, Z.sub_0_r, Hdata. done. }
  split; [|split; [|split; [|split]]].
  - apply from_raw_parts_ok, Hin. lia.
  - unfold contents. cbn [sl_ptr sl_len]. by replace (base pool + off - base pool) with off by lia.
  - exact Hcw.
  - intros w' E. destruct (sent_commit w w' buf (2 * n) b fd n) as [u Hu]; [lia|done|done|].
    eexists. split; [done|]. cbn [e_opcode sent buf buffer_of rw_ptr]. fold pool off.
    replace (base pool + off - base pool) with off by lia.
    replace (2 * n) with (n + n) by lia. rewrite slice_of_app by lia.
    assert (Hsecond : slice_of (off + n) n (patch (off + n) data mem) = data) by (apply slice_of_patch; lia).
    rewrite Hsecond. f_equal.
    rewrite <- Hdata at 2. apply slice_of_ext; rewrite ?length_patch by lia; try lia.
    intros k Hk. rewrite zlookup_patch by lia. rewrite (proj2 (Z.leb_gt _ _)) by lia. done.
  - intros j Hj Hjr. unfold contents, slot_slice. cbn [sl_ptr sl_len].
    replace (base pool + j * BUF_SIZE 1 - base pool) with (j * BUF_SIZE 1) by lia.
    eapply (slots_disjoint 1 pool b j); [apply Hm|done|lia|lia| |exact Hd]. rewrite (pm_len _ _ _ Hm). nia.
Qed.
End SlicesSpec.

Module SlicesExamples.
#[local] Existing Instance dev_profile.
Import BufPoolExamples BufRingExamples LifetimeExamples.

Definition zeros : list Z := replicate (Z.to_nat (5 * 4096)) 0.

Lemma zeros_mem : pool_mem 1 small_pool zeros.
Proof. split; [reflexivity|discriminate|]. unfold zeros. rewrite length_replicate, Z2Nat.id; [reflexivity|discriminate]. Qed.

Lemma slices_in_own_slot_witness : exists b,
  checkout_read 1 small_pool 1 7 20 zeros = Ok (b, zeros) /\
  RwBuffer_read_slice small_pool b zeros = Ok (mkSlice 12288 20, zeros).
Proof.
  destruct (slices_in_own_slot 1 small_pool zeros zeros_mem) as [Hr _].
  assert (Hi : 0 <= 1 < small_pool.(read_count)) by (split; [discriminate|reflexivity]).
  assert (Hn : 0 <= 20 <= BUF_SIZE 1) by (split; discriminate).
  destruct (Hr 1 7 20 Hi Hn) as (b & E & Er & _). exists b. split; [exact E|exact Er].
Defined.

(** A body that holds received buffer 1 and write buffer 2 stores a byte in the
    first and copies within it. *)
Definition received_1 : RwBuffer := mkRwBuffer 12288 1 7 20 false.
Definition write_2 : WBuffer := mkWBuffer 16384 2.
Definition fill : M (list Z) unit :=
  let! s := RwBuffer_write_slice 1 small_pool received_1 in
  for_each [OpStore 0 9; OpCopyWithin 0 8 8] (slice_exec small_pool s).

Lemma fill_ok : exists mem', fill zeros = Ok (tt, mem').
Proof.
  assert (Hok : match fill zeros with Ok _ => true | _ => false end = true) by (vm_compute; reflexivity).
  destruct (fill zeros) as [[[] mem']|?|?]; [|discriminate Hok..]. exists mem'. reflexivity.
Qed.

Lemma obtained_1 : obtained 1 small_pool (HRead received_1) 1.
Proof. apply (obtained_read 1 small_pool 1 7 20 received_1 [] []); [split; [discriminate|reflexivity]|split; discriminate|reflexivity]. Qed.

Lemma obtained_2 : obtained 1 small_pool (HWrite write_2) 2.
Proof.
  exact (obtained_write 1 small_pool [] small_pool write_2 (mkBufPool 8192 (5 * 4096, 4096) 2 [3; 4] [1; 0; 0])
    (reflexivity small_pool) small_pool_inv eq_refl).
Qed.

Lemma slots_isolated_witness : exists mem' data, fill zeros = Ok (tt, mem') /\
  (let! s := WBuffer_deref 1 small_pool write_2 in gets (contents small_pool s)) mem' = Ok (data, mem').
Proof.
  destruct fill_ok as [mem' E]. exists mem'.
  destruct (slots_isolated 1 small_pool zeros (HRead received_1) (HWrite write_2) 1 2
    (RwBuffer_write_slice 1 small_pool received_1) (WBuffer_deref 1 small_pool write_2)
    [OpStore 0 9; OpCopyWithin 0 8 8] zeros_mem obtained_1 obtained_2 ltac:(discriminate)) as [_ H].
  - left.
  - left.
  - destruct (H mem' E) as (data & _ & Hd). exists data. split; [exact E|exact Hd].
Defined.

(** Four bytes received in buffer 0. *)
Definition ping : list Z := [112; 105; 110; 103].
Definition received : list Z := ping ++ replicate (Z.to_nat (6 * 4096 - 4)) 0.
Definition committing : World := set_current (initial_poll 0) (world_with 1).

Lemma received_mem : pool_mem 1 pool4 received.
Proof.
  split; [reflexivity|discriminate|]. unfold received.
  rewrite length_app, length_replicate, Nat2Z.inj_add, Z2Nat.id; [reflexivity|discriminate].
Qed.

Lemma echo_doubles_witness : exists mem' w' e,
  send_commit_write 8192 7 8 0 committing = Ok (tt, w') /\ last_entry w' = Some e /\
  sent pool4 e.(e_opcode) mem' = ping ++ ping.
Proof.
  destruct (echo_doubles committing received 0 7 ping) as (s & mem' & _ & _ & _ & Hsend & _).
  - exact received_mem.
  - split; [discriminate|reflexivity].
  - reflexivity.
  - discriminate.
  - reflexivity.
  - destruct (send_commit_write 8192 7 8 0 committing) as [[[] w']|?|?] eqn:E; [|vm_compute in E; discriminate E..].
    destruct (Hsend w' E) as (e & He & Hs). exists mem', w', e.
    split; [reflexivity|]. split; [exact He|exact Hs].
Defined.
End SlicesExamples.
