(* ===== verification/Wakes.v ===== *)
(** * Draining the wake list

    [drain_wake_list] models a [while let] loop with fuel.  No body can wake a
    task (a [Waker] cannot be built outside of the crate), so polling keeps the
    wake list and its length at the start is fuel enough. *)

From S2P Require Import Prelude UserData Io Task Slab BufPool BufRing Futures Runtime Calls Executor Quiet Stable.

Section Wakes.
Context {prof : Profile} {flags : CqueueFlags} {al : Allocator} {fl : FutLayout Fut} {sm : SlabMemory}.

Lemma wake_run prog : stable same_wake_list (run prog).
Proof. apply (stable_run same_wake_list). Qed.

(** The fuel the loop is given is enough: with any more, the drain computes
    the same, and when it returns the wake list is empty. *)
Theorem drain_wake_list_complete extra w :
  let n := length w.(RUNTIME_WAKE_LIST) in
  drain_wake_list (n + extra) w = drain_wake_list n w /\
  forall w', drain_wake_list n w = Ok (tt, w') -> w'.(RUNTIME_WAKE_LIST) = [].
Proof.
  intros n. subst n. remember (RUNTIME_WAKE_LIST w) as l eqn:Hl. revert w Hl.
  induction l as [|t l IH]; intros w Hl.
  - destruct extra; simpl; [split; [done|by intros w' [= <-]]|].
    unfold bind, gets. rewrite <- Hl. split; [done|]. by intros w' [= <-].
  - cbn [length Nat.add drain_wake_list].
    assert (Hstep : forall p o w1 w2 w3 w4,
      clone_task t.(ti_tag).(task_idx) (set_current t (set_wake_list l w)) = Ok (p, w1) ->
      task_poll p w1 = Ok (o, w2) -> Task_drop p w2 = Ok (w3, w4) -> l = w4.(RUNTIME_WAKE_LIST)).
    { intros p o w1 w2 w3 w4 E1 E2 E3. rewrite (stable_Task_drop same_wake_list _ _ _ _ E3).
      rewrite (stable_task_poll_with same_wake_list run p wake_run _ _ _ E2).
      by rewrite (stable_clone_task same_wake_list _ _ _ _ E1). }
    split.
    + apply bind_ext. intros wl w0 [= <- <-]. rewrite <- Hl. apply bind_ext. intros [] w0 [= <-].
      apply bind_ext. intros [] w0 [= <-]. apply bind_ext. intros p w1 E1. apply bind_ext. intros o w2 E2.
      apply bind_ext. intros [] w3 E3. apply IH. by eapply Hstep.
    + intros w' (wl & w0 & [= <- <-] & E)%bind_Ok. rewrite <- Hl in E.
      apply bind_Ok in E as ([] & w0 & [= <-] & E). apply bind_Ok in E as ([] & w0 & [= <-] & E).
      apply bind_Ok in E as (p & w1 & E1 & E). apply bind_Ok in E as (o & w2 & E2 & E).
      apply bind_Ok in E as ([] & w3 & E3 & E). eapply IH; [by eapply Hstep|exact E].
Qed.
End Wakes.
