(* ===== verification/Streams.v ===== *)
(** * Loops over streams

    [while let Some(x) = stream.next().await { ... }] is what streams are for.  A
    running stream reads the completion its task is polled with and never waits
    for the next one, so such a loop takes the same completion again and again:
    the poll does not come to an end. *)

From S2P Require Import Prelude UserData Io Task Slab BufPool BufRing Futures Runtime Calls Executor Quiet Stable Concrete CallsSpec.

(** [while let Some(fd) = conns.next().await { spawn(handler(fd)); }], for at
    most [n] turns; a further turn is a panic. *)
Fixpoint accept_loop (n : nat) (handler : Z -> Prog) (conns : AcceptStream) : Prog :=
  match n with
  | O => Unwind "one more turn"
  | S n' =>
      Await (accept_next conns) [] (fun r =>
        match r.1 with
        | Some fd => Spawn (handler fd) (accept_loop n' handler r.2)
        | None => Return
        end)
  end.

(** [while let Some(buf) = reads.next().await { drop(buf); }], likewise. *)
Fixpoint read_loop (n : nat) (reads : ReadStream) : Prog :=
  match n with
  | O => Unwind "one more turn"
  | S n' =>
      Await (read_next reads) [] (fun r =>
        match r.1 with
        | Some buf => DropRes (ResRw buf) (read_loop n' r.2)
        | None => Return
        end)
  end.

Section Streams.
Context {prof : Profile} {flags : CqueueFlags} {al : Allocator} {fl : FutLayout Fut} {sm : SlabMemory}.

Definition same_task (w w' : World) : Prop := w'.(CURRENT_TASK) = w.(CURRENT_TASK).

#[local] Instance same_task_preorder : PreOrder same_task.
Proof. unfold same_task. split; [done|]. intros w1 w2 w3. congruence. Qed.

(** Everything but [set_current] leaves the current task alone. *)
Ltac solve_same_task :=
  repeat first
    [ eapply stable_zoom; [apply stable_any|by intros]
    | apply (stable_modify same_task); by intros
    | stable_step ].

Lemma release_read_buf_task b : stable same_task (release_read_buf b).
Proof. unfold release_read_buf, with_borrow. solve_same_task. Qed.

Lemma checkout_task b fd n : stable same_task (checkout b fd n).
Proof. unfold checkout, with_borrow, checkout_read. solve_same_task. Qed.

Lemma drop_fn_task f : stable same_task (drop_fn f).
Proof.
  assert (Hr : forall r, stable same_task (Res_drop r)).
  { intros [b|b]; cbn [Res_drop]; [unfold RwBuffer_drop|]; solve_same_task. apply release_read_buf_task. }
  unfold drop_fn, Leaf_drop. repeat first [apply Hr | progress solve_same_task].
Qed.

Lemma Task_drop_task p : stable same_task (Task_drop p).
Proof.
  unfold Task_drop, release, free_task. cbn [host_heap host_drop_fn host_push_free world_host].
  repeat first [apply drop_fn_task | progress solve_same_task].
Qed.

Lemma with_borrow_mut_Ok {A} (m : M World A) w a w' : with_borrow_mut m w = Ok (a, w') ->
  exists w1, m (set_w_borrow (-1) w) = Ok (a, w1) /\ w' = set_w_borrow 0 w1.
Proof.
  unfold with_borrow_mut, bind, gets, modify, ret. destruct (_ =? 0); [|done].
  destruct (m _) as [[b w1]|?|?]; [|done..]. intros [= <- <-]. by exists w1.
Qed.

Lemma zoom_heap_task {A} (m : M (heap Fut) A) : stable same_task (zoom heap_lens m).
Proof. eapply stable_zoom; [apply stable_any|done]. Qed.

Lemma zoom_heap_tasks_task {A} (m : M (heap Fut * Slab) A) : stable same_task (zoom heap_tasks_lens m).
Proof. eapply stable_zoom; [apply stable_any|done]. Qed.

(** [spawn] gives the current task back. *)
Lemma spawn_with_task body future : stable same_task (spawn_with body future).
Proof.
  intros w [] w' E. unfold spawn_with in E. apply bind_Ok in E as ([task old] & w1 & E1 & E).
  assert (Hold : old = w.(CURRENT_TASK)).
  { apply with_borrow_mut_Ok in E1 as (w2 & E1 & _).
    apply bind_Ok in E1 as (p & w3 & E3%zoom_heap_task & E1).
    apply bind_Ok in E1 as (q & w4 & E4%zoom_heap_task & E1).
    apply bind_Ok in E1 as (i & w5 & E5%zoom_heap_tasks_task & E1).
    apply bind_Ok in E1 as (c & w6 & E6 & E1). injection E6 as <- <-.
    apply bind_Ok in E1 as ([] & w7 & _ & E1). injection E1 as _ <- _.
    unfold same_task in *. by rewrite E5, E4, E3. }
  apply bind_Ok in E as (o & w2 & _ & E). apply bind_Ok in E as (o' & w3 & _ & E).
  apply bind_Ok in E as ([] & w4 & Em & E). injection Em as <-.
  apply Task_drop_task in E. unfold same_task in *. by rewrite E, <- Hold.
Qed.

(** A running stream hands out the current completion. *)
Lemma accept_next_again fd w : 0 <= w.(CURRENT_TASK).(ti_result) -> more w.(CURRENT_TASK).(ti_flags) = true ->
  let s := mkAcceptStream fd Stream_Running in
  poll_leaf (accept_next s) w =
    Ok ((LAcceptNext s, Ready (Some (as_u32 w.(CURRENT_TASK).(ti_result)), s)), w).
Proof.
  intros Hres Hm s. cbn [poll_leaf accept_next]. unfold AcceptStream_poll_next, current_result, current_cqe_flags.
  unfold bind, gets, ret. cbn [as_state as_listen_fd s]. rewrite (proj2 (Z.ltb_ge _ _)) by done. by rewrite Hm.
Qed.

Lemma accept_loop_spins n handler fd w : 0 <= w.(CURRENT_TASK).(ti_result) ->
  more w.(CURRENT_TASK).(ti_flags) = true ->
  forall r w', run (accept_loop n handler (mkAcceptStream fd Stream_Running)) w <> Ok (r, w').
Proof.
  revert w. induction n as [|n IH]; intros w Hres Hm r w'; cbn [accept_loop run]; [done|].
  rewrite (bind_step _ _ _ _ _ (accept_next_again fd w Hres Hm)). cbn [fst snd Leaf_drop run].
  rewrite (bind_step _ _ _ tt w eq_refl). cbn [run]. intros ([] & w1 & E1 & E2)%bind_Ok.
  pose proof (spawn_with_task _ _ _ _ _ E1) as Ht. unfold same_task in Ht.
  eapply (IH w1); [by rewrite Ht..|exact E2].
Qed.

Lemma read_loop_spins n fd w : 0 <= w.(CURRENT_TASK).(ti_result) -> more w.(CURRENT_TASK).(ti_flags) = true ->
  forall r w', run (read_loop n (mkReadStream fd Stream_Running)) w <> Ok (r, w').
Proof.
  revert w. induction n as [|n IH]; intros w Hres Hm r w'; cbn [read_loop run]; [done|].
  intros ([l o] & w1 & E1 & E2)%bind_Ok. cbn [fst snd] in E2. cbn [poll_leaf read_next] in E1.
  apply bind_Ok in E1 as ([s' o'] & w2 & E1 & E3). injection E3 as <- <- <-. revert E1.
  unfold ReadStream_poll_next, current_result, current_cqe_flags. cbn [rs_state rs_fd].
  rewrite (bind_step _ _ _ _ w eq_refl), (bind_step _ _ _ _ w eq_refl), (proj2 (Z.ltb_ge _ _)) by done. rewrite Hm.
  intros (b & w3 & Eb & E1)%bind_Ok. apply (stable_expect eq) in Eb as <-.
  apply bind_Ok in E1 as (buf & w3 & Ec & E1). injection E1 as <- <- <-. cbn [fst snd Leaf_drop] in E2.
  pose proof (checkout_task _ _ _ _ _ _ Ec) as Hc.
  rewrite (bind_step _ _ _ tt w3 eq_refl) in E2. cbn [run] in E2.
  apply bind_Ok in E2 as ([] & w4 & Ed & E2).
  assert (Hd : same_task w3 w4).
  { cbn [Res_drop] in Ed. unfold RwBuffer_drop in Ed. destruct (committed buf); [by injection Ed as <-|].
    by apply release_read_buf_task in Ed. }
  unfold same_task in *. eapply (IH w4); [by rewrite Hd, Hc..|exact E2].
Qed.

(** C38: the loop over a stream never suspends.  Once a connection has arrived,
    or a message, with more to come, the poll of a task that runs
    [while let Some(fd) = conns.next().await { spawn(handler(fd)) }], or the same
    over received buffers, takes the completion it was polled with again in
    every turn, however many: the poll neither returns [Pending] nor completes,
    so the executor gets control back by a panic only. *)
Theorem stream_loops_never_suspend n handler fd w :
  0 <= w.(CURRENT_TASK).(ti_result) -> more w.(CURRENT_TASK).(ti_flags) = true ->
  (forall r w', run (accept_loop n handler (mkAcceptStream fd Stream_Running)) w <> Ok (r, w')) /\
  (forall r w', run (read_loop n (mkReadStream fd Stream_Running)) w <> Ok (r, w')).
Proof. intros Hres Hm. split; [by apply accept_loop_spins|by apply read_loop_spins]. Qed.
End Streams.

Module StreamsExamples.

(** A first connection in slot 5, with more to come. *)
Definition connected : World := set_current (mkTaskInfo (mkTag 0 32768) 5 2 65535) start.

(** One connection, and the handler is started a hundred times. *)
Lemma stream_loops_never_suspend_witness :
  run (accept_loop 100 (fun _ => Return) (mkAcceptStream 3 Stream_Running)) connected =
    Panic "one more turn" /\
  forall r w', run (accept_loop 100 (fun _ => Return) (mkAcceptStream 3 Stream_Running)) connected <> Ok (r, w').
Proof.
  split; [vm_compute; reflexivity|].
  exact (proj1 (stream_loops_never_suspend 100 (fun _ => Return) 3 connected ltac:(done) eq_refl)).
Defined.
End StreamsExamples.
