(* ===== verification/Scenarios.v ===== *)
(** * Runs of the event loop, and what they show

    Concrete runs of [block_on] that a caller of the crate can reach, evaluated
    in the model, and the general facts behind some of them. *)

From S2P Require Import Prelude UserData Io Task Slab BufPool BufRing Futures Runtime Calls Executor Quiet Stable Invariant Lifetime Safety Concrete Dispatch CallsSpec.

(** How a run of [block_on] from the initial state ends ([start] is what
    [Runtime::new] builds, see [initial_world_start]), with the entries it has
    queued last. *)
Definition outcome_of (future : Prog) (steps : list KernelStep) : outcome (BlockOn * list Entry) :=
  match block_on future steps start with
  | Ok (b, w) => Ok (b, w.(w_rt).(pending))
  | Panic msg => Panic msg
  | Ub what => Ub what
  end.

(** The kernel only completes entries it was given; see [check_run_sound]. *)
Definition kernel_accepts (future : Prog) (steps : list KernelStep) : bool :=
  match check_run future steps start with Some _ => true | None => false end.

(** [async { let buf = read(7).await?; buf.commit(n).await; }], the body of the
    README and of the tests of lib.rs. *)
Definition echo : Prog :=
  Await (read 7) [] (fun r =>
    match r with
    | inl buf => Await (commit buf buf.(bytes)) [] (fun _ => Return)
    | inr _ => Return
    end).

Definition echo_kernel : list KernelStep :=
  [KernelBatch [buffer_cqe (ud 0 65535 0) 4 3]; KernelBatch [done_cqe (ud 0 65535 32769) 4]].

(** Reading once and committing the reply stops the program: [commit] tags its
    entry as multishot without marking the task, so the completion of the write
    is taken for an error. *)
Theorem echo_commit_panics : kernel_accepts echo echo_kernel = true /\
  outcome_of echo echo_kernel = Panic "Recieve a SQE newer than expected".
Proof. split; vm_compute; reflexivity. Qed.

(** The same reply from a task that reads through a stream, as in [stream_test]
    of lib.rs: [while let Some(buf) = s.next().await { buf.commit(n).await; }],
    unrolled twice. *)
Definition stream_echo : Prog :=
  Await (read_next (read_stream 7)) [] (fun r =>
    match r with
    | (Some buf, s) =>
        Await (commit buf buf.(bytes)) [] (fun _ =>
          Await (read_next s) [] (fun _ => Return))
    | (None, _) => Return
    end).

Definition stream_echo_kernel : list KernelStep :=
  [KernelBatch [buffer_cqe_more (ud 0 65535 32768) 4 3]; KernelBatch [done_cqe (ud 0 65535 32768) 4]].

(** In a reading loop over a stream, the completion of the first reply is read
    a second time by [next], as if it were received data: the run stops on the
    missing buffer id. *)
Theorem stream_echo_panics : kernel_accepts stream_echo stream_echo_kernel = true /\
  outcome_of stream_echo stream_echo_kernel = Panic "RECV_MULTISHOT: CQE positive sans buf_id".
Proof. split; vm_compute; reflexivity. Qed.

(** A body that stops reading a stream after its first item. *)
Definition stream_once : Prog :=
  Await (read_next (read_stream 7)) [] (fun r =>
    match r with
    | (Some buf, _) => DropRes (ResRw buf) Return
    | (None, _) => Return
    end).

(** It returns while its multishot entry is still in flight: the next completion
    of that entry polls the completed body and stops the program; see
    [stream_dropped_early_panics]. *)
Theorem stream_once_panics :
  let steps := [KernelBatch [buffer_cqe_more (ud 0 65535 32768) 4 3; buffer_cqe_more (ud 0 65535 32768) 4 4]] in
  kernel_accepts stream_once steps = true /\
  outcome_of stream_once steps = Panic "`async fn` resumed after completion".
Proof. split; vm_compute; reflexivity. Qed.

(** A fan-out write from a task that has no multishot entry. *)
Definition fan_out_body (fds : list Z) : Prog :=
  AllocWrite (fun b => Await (write_multiple fds b 10) [] (fun _ => Return)).

(** The body resumes after the fan-out; it is observed by the panic it ends with. *)
Definition fan_out_observed (fds : list Z) : Prog :=
  AllocWrite (fun b => Await (write_multiple fds b 10) [] (fun _ => Unwind "resumed")).

(** A fan-out to two descriptors from a plain task never resolves: the first
    completion advances the task's syscall number, the second is then taken for
    a stale one, the task is freed with its body suspended and [block_on]
    returns.  With one descriptor the body resumes; with none the submission
    panics. *)
Theorem fan_out_lost_in_plain_task :
  let both := [KernelBatch [done_cqe (ud 0 0 0) 10; done_cqe (ud 0 1 0) 10]] in
  let one := [KernelBatch [done_cqe (ud 0 0 0) 10]] in
  kernel_accepts (fan_out_observed [5; 6]) both = true /\
  outcome_of (fan_out_observed [5; 6]) both = Ok (Returned, []) /\
  outcome_of (fan_out_observed [5]) one = Panic "resumed" /\
  outcome_of (fan_out_body []) [] = Panic "Normal task a overflow into multiple task in add_rc".
Proof. split_and!; vm_compute; reflexivity. Qed.

(** A client socket that the kernel installs in slot 0 is never connected:
    the future cannot tell slot 0 from "no slot yet", so every successful
    CONNECT (result 0) is followed by another one. *)
Theorem connect_slot_zero_repeats :
  let body := Await (connect [127; 0; 0; 1] 80) [] (fun _ => Return) in
  let connect_again := Ok (Waiting,
    [mkEntry (ConnectOp 0 (mkSockaddrIn AF_INET 20480 16777343) 16) (ud 0 65535 2)]) in
  outcome_of body [KernelBatch [done_cqe (ud 0 65535 0) 0]; KernelBatch [done_cqe (ud 0 65535 1) 0]] = connect_again /\
  kernel_accepts body
    [KernelBatch [done_cqe (ud 0 65535 0) 0]; KernelBatch [done_cqe (ud 0 65535 1) 0]] = true.
Proof. split; vm_compute; reflexivity. Qed.

(** [WBuffer::submit] followed by a wait. *)
Definition submit_then_accept : Prog :=
  AllocWrite (fun b => SubmitWrite b 7 10 (Await (accept 3) [] (fun _ => Return))).

(** The completion of a [WBuffer::submit] is dispatched like a task's: its
    [user_data] names the slab index [abs_idx], and the run stops on an index out
    of the slab instead of reaching [on_write_cqe]. *)
Theorem submit_completion_dispatched_to_task :
  let steps := [KernelBatch [done_cqe (wbuf_write_udata 512) 10]] in
  is_internal_cqe (wbuf_write_udata 512) = true /\
  kernel_accepts submit_then_accept steps = true /\
  outcome_of submit_then_accept steps = Panic "index out of bounds".
Proof. split_and!; vm_compute; reflexivity. Qed.

(** 512 tasks beside the one that submits; the last one, at slab index 512, has
    a multishot accept in flight. *)
Definition crowd : Prog :=
  AllocWrite (fun b => SubmitWrite b 7 10
    (Nat.iter 511 (Spawn (Await (accept 3) [] (fun _ => Return)))
       (Spawn (Await (accept_next (accept_stream 3)) [] (fun _ => Return)) Return))).

(** With 513 tasks alive the same completion matches the task at slab index
    512: it is taken for an accepted connection and its reference is released
    twice over, so that the next completion of the accept entry reads a freed
    task header. *)
Theorem crowd_use_after_free :
  let steps := [KernelBatch [done_cqe (wbuf_write_udata 512) 10; done_cqe (ud 512 65535 32768) 9]] in
  kernel_accepts crowd steps = true /\
  outcome_of crowd steps = Ub "read of a freed task header".
Proof. split; vm_compute; reflexivity. Qed.

Section General.
Context {prof : Profile} {flags : CqueueFlags} {al : Allocator} {fl : FutLayout Fut} {sm : SlabMemory}.

(** C40: [WBuffer::submit] gives its slot back while the entry that writes from it
    is still queued: with the last handle, the slot is at the end of the free
    list again when [submit] returns. *)
Theorem submit_frees_slot_in_flight b fd len H w : w.(w_borrow) = 0 ->
  pool_inv (b.(abs_idx) :: H) w.(w_rt).(buffer) -> b.(abs_idx) ∉ H ->
  exists w', WBuffer_submit b fd len w = Ok (tt, w') /\
    last_entry w' = Some (submit_entry b fd len) /\
    w'.(w_rt).(buffer).(write_free) = w.(w_rt).(buffer).(write_free) ++ [b.(abs_idx)].
Proof.
  intros Hb Hp Hn. unfold WBuffer_submit.
  set (w1 := set_w_rt (set_pending (w.(w_rt).(pending) ++ [submit_entry b fd len]) w.(w_rt)) w).
  assert (E1 : with_borrow_mut (sqe_queue_push (submit_entry b fd len)) w = Ok (tt, w1)).
  { rewrite (with_borrow_mut_eq _ w tt (set_w_borrow (-1) w1)); [|done|done]. by destruct w; simpl in *; subst. }
  rewrite (bind_step _ _ _ _ _ E1).
  destruct (WBuffer_drop_spec _ _ b Hp) as (p' & E & _ & Hfree).
  assert (Hz : handle_count b.(abs_idx) H = 0).
  { apply count_if_zero, Forall_forall. intros j Hj. apply Z.eqb_neq. intros Ej. by rewrite Ej in Hn. }
  rewrite Hz in Hfree. exists (set_w_rt (set_buffer p' w1.(w_rt)) w1). split; [|split; [|done]].
  - unfold zoom. cbn [lget pool_lens]. change (buffer (w_rt w1)) with (buffer (w_rt w)). by rewrite E.
  - apply last_snoc.
Qed.

Lemma clone_task_out_of_range i w : w.(w_borrow) = 0 -> w.(w_rt).(tasks).(Slab.len) <= i ->
  clone_task i w = Panic "index out of bounds".
Proof.
  intros Hb Hi. unfold clone_task, with_borrow_mut. rewrite (bind_step _ _ _ _ w eq_refl), Hb.
  rewrite (bind_step _ _ _ tt w eq_refl), (bind_step _ _ _ tt (set_w_borrow (-1) w) eq_refl).
  unfold task_at, zoom, index, bind, get. cbn [lget tasks_lens w_rt set_w_borrow].
  by rewrite (proj2 (Z.ltb_ge _ _)) by done.
Qed.

(** C37: the completion of a [WBuffer::submit] is not recognised as the runtime's own:
    it is dispatched to the task whose slab index is the index of the write slot.
    Without such a slot in the slab the program stops.  A task that lives there is
    a stranger to the write: one that has advanced its syscall number loses the
    reference of an entry it still has in flight (unless more completions are
    announced); one that has not stops the program; and one that waits on a
    multishot entry from its first call on is polled with the result of the
    write, then loses a reference. *)
Theorem submit_completion_misdispatched b fd len c w : fits 32 b.(abs_idx) ->
  c.(cqe_user_data) = (submit_entry b fd len).(e_user_data) -> w.(w_borrow) = 0 ->
  (w.(w_rt).(tasks).(Slab.len) <= b.(abs_idx) -> handle_cqe_entry c w = Panic "index out of bounds") /\
  (forall p r, addressed w c b.(abs_idx) p r -> 0 < r.(rt_ref_counter) -> fits 16 r.(rt_syscall_nb) ->
    (r.(rt_syscall_nb) mod 32768 <> 0 ->
      handle_cqe_entry c w = if more c.(cqe_flags) then Ok (tt, w) else Task_drop p w) /\
    (r.(rt_syscall_nb) = 0 -> handle_cqe_entry c w = Panic "Recieve a SQE newer than expected") /\
    (r.(rt_syscall_nb) = 32768 ->
      let h := <[p := set_ref_counter (r.(rt_ref_counter) + 1) r]> w.(w_heap) in
      handle_cqe_entry c w =
        (task_poll p ;;! (if more c.(cqe_flags) then ret tt else release p ;;! ret tt) ;;! Task_drop p)
          (set_current (mkTaskInfo (mkTag b.(abs_idx) 32768) c.(cqe_result) c.(cqe_flags) 0) (set_w_heap h w)))).
Proof.
  intros Hb Hu Hbo. assert (Hinfo : info_from_entry c =
    mkTaskInfo (mkTag b.(abs_idx) 32768) c.(cqe_result) c.(cqe_flags) 0).
  { unfold info_from_entry, payload_from_entry. rewrite Hu. cbn [submit_entry e_user_data].
    by rewrite from_wbuf_write_udata. }
  split.
  - intros Hlen. unfold handle_cqe_entry. rewrite Hinfo. cbn [ti_tag task_idx].
    unfold bind at 1. by rewrite clone_task_out_of_range.
  - intros p r Ha Hrc Hnb. pose proof (handle_cqe_eq _ _ _ _ _ Ha) as E. cbv zeta in E. rewrite Hinfo in E.
    cbn [ti_tag syscall_nb] in E. rewrite compare_syscall_nb_eq in E by (done || unfold fits; lia).
    change (32768 mod 32768) with 0 in E. split; [|split].
    + intros Hne. pose proof (Z.mod_pos_bound (rt_syscall_nb r) 32768 ltac:(lia)).
      rewrite E, (proj2 (Z.ltb_lt _ _)) by lia. apply stale_effect; [by destruct Ha|lia].
    + intros H0. rewrite H0 in E. by rewrite E.
    + intros H0. rewrite H0 in E. by rewrite E.
Qed.

(** C36: a commit from a task that is not marked multishot stops the program when it
    completes: its entry carries the multishot bit, the task's own number stays
    as it is, so as long as the stored number is still plain and not past that of
    the entry, its completion is taken for one of a newer call. *)
Theorem commit_stops_plain_task w ptr b fd len i nb p r :
  w.(w_borrow) = 0 -> slab_wf w.(w_rt).(tasks) -> slab_lookup w.(w_rt).(tasks) i = Some p ->
  w.(w_heap) !! p = Some r -> 0 <= r.(rt_ref_counter) < 65535 ->
  w.(CURRENT_TASK).(ti_tag) = mkTag i nb -> fits 32 i -> 0 <= nb < 32768 ->
  fits 16 w.(CURRENT_TASK).(ti_response_gen) ->
  exists w' e, CommitFuture_poll (Commit_Init ptr b fd len) w = Ok ((Commit_Pending b, Pending), w') /\
    last_entry w' = Some e /\
    payload_from_sqe_entry e = mkPayload i w.(CURRENT_TASK).(ti_response_gen) (Z.lor nb 32768) /\
    w'.(w_heap) = <[p := set_ref_counter (r.(rt_ref_counter) + 1) r]> w.(w_heap) /\
    forall w2 c q r2, c.(cqe_user_data) = e.(e_user_data) -> addressed w2 c i q r2 ->
      0 <= r2.(rt_syscall_nb) <= nb -> handle_cqe_entry c w2 = Panic "Recieve a SQE newer than expected".
Proof.
  intros Hb Hs Hl Hr Hrc Ht Hi Hnb Hg. set (gen := w.(CURRENT_TASK).(ti_response_gen)) in *.
  assert (Hor : Z.lor nb 32768 = 32768 + nb) by (rewrite Z.lor_comm; apply (lor_pow2_low nb 15); lia).
  set (pl := mkPayload i gen (Z.lor nb 32768)).
  assert (Hpl : wf_payload pl) by (split; [done|split; [done|cbn; rewrite Hor; unfold fits; lia]]).
  set (e := mkEntry (WriteFixedOp fd ptr len (as_u16 b)) (into_user_data pl)).
  set (t := mkTaskInfo (mkTag i (Z.lor nb 32768)) w.(CURRENT_TASK).(ti_result) w.(CURRENT_TASK).(ti_flags) gen).
  set (h := <[p := set_ref_counter (r.(rt_ref_counter) + 1) r]> w.(w_heap)).
  exists (pushed e (set_w_heap h (set_current t w))), e. split; [|split; [apply last_snoc|split; [by apply from_into_user_data|split; [done|]]]].
  - cbn [CommitFuture_poll]. rewrite (bind_step _ _ _ tt (pushed e (set_w_heap h (set_current t w)))); [done|].
    unfold submit_commit_write. rewrite (with_borrow_mut_eq _ w tt (set_w_borrow (-1) (pushed e (set_w_heap h (set_current t w))))); [by destruct w; simpl in *; subst|done|].
    unfold send_commit_write. set (w0 := set_w_borrow (-1) w).
    rewrite (bind_step _ _ _ tt (set_current t w0)).
    2:{ unfold set_current_task_multiple. rewrite (bind_step _ _ _ _ w0 eq_refl). cbn [w0 CURRENT_TASK set_w_borrow]. by rewrite Ht. }
    rewrite (bind_step current_udata _ (set_current t w0) (into_user_data pl) (set_current t w0) eq_refl).
    rewrite (bind_step current_task_idx _ (set_current t w0) i (set_current t w0) eq_refl).
    rewrite (bind_step _ _ _ tt (set_w_heap h (set_current t w0))); [done|].
    unfold inc_rc_of. rewrite (bind_step _ _ _ p (set_current t w0)) by by apply task_at_ok.
    unfold zoom. cbn [lget heap_lens]. rewrite (inc_rc_eq (w_heap (set_current t w0)) p r Hr) by (unfold fits; lia).
    by rewrite (proj2 (Z.leb_gt _ _)) by lia.
  - intros w2 c q r2 Hu Ha Hle. rewrite (handle_cqe_eq _ _ _ _ _ Ha). cbv zeta.
    assert (Hn : (info_from_entry c).(ti_tag).(syscall_nb) = 32768 + nb).
    { unfold info_from_entry, payload_from_entry. rewrite Hu. unfold e. cbn [e_user_data]. by rewrite from_into_user_data. }
    rewrite Hn, compare_syscall_nb_eq by (unfold fits; lia).
    rewrite (Z.mod_small (rt_syscall_nb r2)), (rank_cases (32768 + nb)) by (unfold fits; lia).
    rewrite (proj2 (Z.leb_le 32768 (32768 + nb))) by lia. replace (32768 + nb - 32768) with nb by lia.
    rewrite (proj2 (Z.ltb_ge nb _)), (proj2 (Z.leb_gt 32768 _)) by lia. by destruct (_ <? _).
Qed.

(** C39: a body that returns while the entry of its stream is still in flight leaves
    the program to stop: nothing cancels the entry, the task stays allocated for
    it with its completed body, and the next completion of the entry polls that
    body again.  This holds whatever the body did with the item, as long as it
    left its own task's header and slot alone and the runtime not borrowed. *)
Theorem stream_dropped_early_panics w c1 c2 i p r prog w2 : addressed w c1 i p r ->
  1 <= r.(rt_ref_counter) -> r.(rt_future) = Suspended prog ->
  compare_syscall_nb r.(rt_syscall_nb) (info_from_entry c1).(ti_tag).(syscall_nb) = Multiple ->
  more c1.(cqe_flags) = true -> c2.(cqe_user_data) = c1.(cqe_user_data) ->
  let polled := set_current (info_from_entry c1)
    (set_w_heap (<[p := set_ref_counter (r.(rt_ref_counter) + 1) r]> w.(w_heap)) w) in
  run prog polled = Ok ((Completed, Ready tt), w2) ->
  w2.(w_heap) !! p = polled.(w_heap) !! p -> w2.(w_borrow) = 0 ->
  slab_wf w2.(w_rt).(tasks) -> slab_lookup w2.(w_rt).(tasks) i = Some p ->
  exists w3, handle_cqe_entry c1 w = Ok (tt, w3) /\ w3.(w_rt).(pending) = w2.(w_rt).(pending) /\
    handle_cqe_entry c2 w3 = Panic "`async fn` resumed after completion".
Proof.
  intros Ha Hrc Hf Hc Hm Hu polled Hrun Hp Hb Hs Hl.
  pose proof (ad_rc _ _ _ _ _ Ha) as Hmax. set (r1 := set_ref_counter (r.(rt_ref_counter) + 1) r) in *.
  assert (Hp1 : polled.(w_heap) !! p = Some r1) by apply lookup_insert_eq. rewrite Hp1 in Hp.
  set (r2 := set_future Completed r1). set (w3 := set_w_heap (<[p := r2]> w2.(w_heap)) w2).
  assert (E : task_poll p polled = Ok (Ready tt, w3)).
  { unfold task_poll, task_poll_with. rewrite (zoom_heap_step _ _ r1 polled.(w_heap)) by by apply load_ok.
    rewrite set_w_heap_id. change (rt_future r1) with (rt_future r). rewrite Hf, (bind_step _ _ _ _ _ Hrun). cbn [fst snd].
    rewrite (zoom_heap_step _ _ r1 w2.(w_heap)) by by apply load_ok. rewrite set_w_heap_id.
    by rewrite (zoom_heap_step _ _ tt (<[p := r2]> w2.(w_heap))) by by eapply store_ok. }
  set (r3 := set_ref_counter r.(rt_ref_counter) r2). set (w4 := set_w_heap (<[p := r3]> w3.(w_heap)) w3).
  assert (E1 : handle_cqe_entry c1 w = Ok (tt, w4)).
  { rewrite (handle_cqe_eq _ _ _ _ _ Ha). cbv zeta. rewrite Hc, Hm. fold r1. fold polled.
    rewrite (bind_step _ _ _ _ _ E), (bind_step _ _ _ tt w3 eq_refl). unfold Task_drop.
    rewrite (bind_step _ _ _ _ _ (release_eq w3 p r2 ltac:(apply lookup_insert_eq) ltac:(cbn; lia))).
    unfold ret, w4, r3. do 4 f_equal. cbn. f_equal. lia. }
  exists w4. split; [done|]. split; [done|].
  assert (Hinfo : (info_from_entry c2).(ti_tag) = (info_from_entry c1).(ti_tag)).
  { unfold info_from_entry, payload_from_entry. by rewrite Hu. }
  assert (Ha2 : addressed w4 c2 i p r3).
  { split; try done; [rewrite Hinfo; apply Ha|apply lookup_insert_eq]. }
  rewrite (handle_cqe_eq _ _ _ _ _ Ha2). cbv zeta. rewrite Hinfo. change (rt_syscall_nb r3) with (rt_syscall_nb r).
  rewrite Hc. unfold bind at 1, task_poll, task_poll_with.
  by rewrite (zoom_heap_step _ _ (set_ref_counter (r3.(rt_ref_counter) + 1) r3) _)
    by (apply load_ok; apply lookup_insert_eq).
Qed.

(** Discarding a [Waker] that holds the last reference of a task panics when
    the suspended body owns a received buffer: the body is dropped while the
    runtime is mutably borrowed, and the drop of the buffer borrows it again. *)
Theorem waker_drop_double_borrow w wk p r A (leaf : Leaf A) b held k :
  w.(w_borrow) = 0 -> slab_wf w.(w_rt).(tasks) ->
  slab_lookup w.(w_rt).(tasks) wk.(wk_payload).(pl_task_idx) = Some p ->
  w.(w_heap) !! p = Some r -> r.(rt_ref_counter) = 1 ->
  r.(rt_future) = Suspended (Await leaf (ResRw b :: held) k) -> b.(committed) = false ->
  (forall f, Leaf_drop leaf f = Ok (tt, f)) ->
  Waker_drop wk w = Panic "RefCell already mutably borrowed".
Proof.
  intros Hb Hs Hl Hr Hrc Hf Hc Hleaf. unfold Waker_drop, with_borrow_mut.
  rewrite (bind_step _ _ _ _ w eq_refl), Hb. rewrite (bind_step _ _ _ tt w eq_refl).
  set (w1 := set_w_borrow (-1) w). rewrite (bind_step _ _ _ tt w1 eq_refl).
  assert (E : (let! p := task_at (pl_task_idx (wk_payload wk)) in release p ;;! ret tt) w1 =
    Panic "RefCell already mutably borrowed"); [|unfold bind at 1; by rewrite E].
  rewrite (bind_step _ _ _ p w1) by by apply task_at_ok. unfold bind at 1, release. cbn [host_heap world_host].
  assert (Hr1 : w1.(w_heap) !! p = Some r) by done.
  unfold bind at 1, zoom at 1. cbn [lget heap_lens]. rewrite (load_ok _ _ _ Hr1). cbn [lset heap_lens].
  rewrite set_w_heap_id. unfold sub_w. rewrite Hrc. cbn [Z.leb Z.compare Pos.compare Pos.compare_cont].
  rewrite (bind_step _ _ _ 0 w1 eq_refl). unfold bind at 1, zoom at 1. cbn [lget heap_lens].
  rewrite (store_ok _ _ _ _ Hr1). cbn [lset heap_lens]. rewrite Z.eqb_refl.
  unfold bind at 1, free_task at 1, bind at 1. cbn [host_drop_fn world_host]. rewrite Hf. cbn [drop_fn for_each Res_drop].
  unfold bind at 1. rewrite Hleaf. unfold bind at 1, RwBuffer_drop. by rewrite Hc.
Qed.
End General.

Module ScenariosExamples.
#[local] Existing Instance dev_profile.
Import BufRingExamples LifetimeExamples DispatchExamples.

Definition world_taken : World :=
  mkWorld ∅ (mkRuntime (mkSlab [free_slot 1] 0 1 0) [] pool_taken [] mem4) 0 TaskInfo_dummy [] [].

Lemma submit_frees_slot_in_flight_witness : exists w',
  WBuffer_submit (mkWBuffer 24576 4) 7 10 world_taken = Ok (tt, w') /\
  last_entry w' = Some (submit_entry (mkWBuffer 24576 4) 7 10) /\
  w'.(w_rt).(buffer).(write_free) = [5; 4].
Proof.
  refine (submit_frees_slot_in_flight (mkWBuffer 24576 4) 7 10 [] world_taken eq_refl pool_taken_inv _).
  apply not_elem_of_nil.
Defined.

(** The one task has rank 5: a write from slot 0 takes a reference away from it.
    Slot 512 is not in its slab. *)
Lemma submit_completion_misdispatched_witness :
  handle_cqe_entry (done_cqe (wbuf_write_udata 0) 10) one_task =
    Ok (tt, set_w_heap (<[32 := set_ref_counter 1 DispatchExamples.header]> one_task.(w_heap)) one_task) /\
  handle_cqe_entry (done_cqe (wbuf_write_udata 512) 10) one_task = Panic "index out of bounds".
Proof.
  split.
  - destruct (submit_completion_misdispatched (mkWBuffer 0 0) 7 10 (done_cqe (wbuf_write_udata 0) 10) one_task
      ltac:(done) eq_refl eq_refl) as [_ H].
    destruct (H 32 DispatchExamples.header) as (E & _).
    + split; [done|vm_compute; reflexivity|apply one_task_slab|done|done|done].
    + done.
    + done.
    + etransitivity; [exact (E ltac:(done))|]. vm_compute. reflexivity.
  - destruct (submit_completion_misdispatched (mkWBuffer 0 512) 7 10 (done_cqe (wbuf_write_udata 512) 10) one_task
      ltac:(done) eq_refl eq_refl) as [H _]. apply H. done.
Defined.

(** The same task, polled, commits a reply; the completion finds it where the
    commit left it. *)
Definition committing : World := set_current (mkTaskInfo (mkTag 0 5) 4 0 65535) one_task.

Lemma commit_stops_plain_task_witness : exists w' e,
  CommitFuture_poll (Commit_Init 12288 1 7 4) committing = Ok ((Commit_Pending 1, Pending), w') /\
  last_entry w' = Some e /\
  handle_cqe_entry (mkCqe e.(e_user_data) 4 0) one_task = Panic "Recieve a SQE newer than expected".
Proof.
  destruct (commit_stops_plain_task committing 12288 1 7 4 0 5 32 DispatchExamples.header eq_refl one_task_slab
    eq_refl eq_refl ltac:(done) eq_refl ltac:(done) ltac:(done) ltac:(done)) as (w' & e & E & He & Hpl & _ & H).
  exists w', e. split; [exact E|]. split; [exact He|].
  apply (H one_task _ 32 DispatchExamples.header); [reflexivity| |done].
  split; [done| |apply one_task_slab|done|done|done].
  unfold info_from_entry, payload_from_entry. cbn [cqe_user_data].
  unfold payload_from_sqe_entry in Hpl. by rewrite Hpl.
Defined.

(** The body of [stream_once], waiting for its first item. *)
Definition reading_once : Prog :=
  Await (LReadNext (mkReadStream 7 Stream_Running)) [] (fun r =>
    match r with
    | (Some buf, _) => DropRes (ResRw buf) Return
    | (None, _) => Return
    end).
Definition world_streaming : World :=
  mkWorld {[ 32 := mkRawTask (Suspended reading_once) 96 1 32768 (Some 0) ]}
    (mkRuntime (mkSlab [32; free_slot 2] 1 2 1) [] pool4 [] mem4) 0 TaskInfo_dummy [] [].

Lemma stream_dropped_early_panics_witness : exists w3,
  handle_cqe_entry (buffer_cqe_more (ud 0 65535 32768) 4 3) world_streaming = Ok (tt, w3) /\
  handle_cqe_entry (buffer_cqe_more (ud 0 65535 32768) 4 2) w3 = Panic "`async fn` resumed after completion".
Proof.
  pose proof (stream_dropped_early_panics world_streaming (buffer_cqe_more (ud 0 65535 32768) 4 3)
    (buffer_cqe_more (ud 0 65535 32768) 4 2) 0 32 (mkRawTask (Suspended reading_once) 96 1 32768 (Some 0))
    reading_once) as H. cbv zeta in H.
  set (polled := set_current _ _) in H.
  destruct (run reading_once polled) as [[r w2]|?|?] eqn:E; [|exfalso; vm_compute in E; discriminate E..].
  assert (Hr : r = (Completed, Ready tt) /\ w_heap w2 !! 32 = w_heap polled !! 32 /\ w_borrow w2 = 0 /\
    tasks (w_rt w2) = mkSlab [32; free_slot 2] 1 2 1).
  { vm_compute in E. injection E as <- <-. vm_compute. split_and!; reflexivity. }
  destruct Hr as (-> & Hh & Hb & Ht).
  destruct (H w2) as (w3 & E1 & _ & E2).
  - split; [reflexivity|vm_compute; reflexivity|exact one_task_slab|reflexivity|reflexivity|cbn; lia].
  - cbn; lia.
  - reflexivity.
  - vm_compute. reflexivity.
  - vm_compute. reflexivity.
  - reflexivity.
  - reflexivity.
  - exact Hh.
  - exact Hb.
  - rewrite Ht. exact one_task_slab.
  - rewrite Ht. reflexivity.
  - exists w3. split; [exact E1|exact E2].
Defined.

Lemma waker_drop_double_borrow_witness :
  Waker_drop (mkWaker (mkPayload 0 0 1)) world_held = Panic "RefCell already mutably borrowed".
Proof.
  eapply (waker_drop_double_borrow world_held (mkWaker (mkPayload 0 0 1)) 32 holder).
  - reflexivity.
  - exact one_task_slab.
  - reflexivity.
  - reflexivity.
  - reflexivity.
  - reflexivity.
  - reflexivity.
  - reflexivity.
Defined.
End ScenariosExamples.
