(* ===== verification/Tests.v ===== *)
(** * The crate's own tests

    The unit tests of src/src/task.rs and src/src/task_slab.rs, as computations
    on the models of those files, and the bodies of the tests of src/src/lib.rs,
    run in the model of [block_on] with the completions their client threads
    bring about.  The sockets and the client threads are not modelled. *)

From stdpp Require Import pretty.
From S2P Require Import Prelude Layout UserData Io Task Slab BufPool BufRing Futures Runtime Calls Executor.
From S2P Require Import Quiet Invariant Lifetime Safety Concrete Scenarios.


(** ** Unit tests *)

(** A test keeps its slab in a local variable. *)
Abbreviation TestState := (World * Slab)%type.
Definition test_world : lens TestState World := Lens fst (fun w s => (w, s.2)).
Definition test_slab : lens TestState Slab := Lens snd (fun sl s => (s.1, sl)).
Definition test_heap : lens TestState (heap Fut) :=
  Lens (fun s => s.1.(w_heap)) (fun h s => (set_w_heap h s.1, s.2)).
Definition test_heap_slab : lens TestState (heap Fut * Slab) :=
  Lens (fun s => (s.1.(w_heap), s.2)) (fun hs s => (set_w_heap hs.1 s.1, hs.2)).

Definition assert_eq {S} (left right : Z) : M S unit :=
  assert_ (Z.eqb left right) "assertion `left == right` failed".

Definition is_ready {A} (p : Poll A) : bool := match p with Ready _ => true | Pending => false end.

(** [Task::new(async {})]. *)
Definition new_empty_task : M TestState Z := zoom test_heap (Task_new (Suspended Return)).
Definition drop_task (t : Z) : M TestState unit := zoom test_world (Task_drop t).
Definition drop_slab : M TestState unit :=
  let! s := gets snd in zoom test_world (Slab_drop (host := world_host) s).
Definition slab_insert (t : Z) : M TestState Z := zoom test_heap_slab (insert t).

(** The test [layout]; the null pointer is the [None] of [Option<Task>]. *)
Definition layout_test : M TestState unit :=
  assert_eq RawTask_layout.1 32 ;;!
  assert_eq Task_layout.1 usize_layout.1 ;;!
  assert_eq (Option_layout true Task_layout).1 usize_layout.1.

Definition ready_future : M TestState unit :=
  let! t := new_empty_task in
  let! r := zoom test_world (task_poll t) in
  assert_ (is_ready r) "assertion failed: t.poll().is_ready()" ;;!
  let! rc := zoom test_heap (get_rc t) in
  assert_eq rc 1 ;;!
  drop_task t.

Definition clone_bump_et_drop_dec : M TestState unit :=
  let! t1 := new_empty_task in
  let! rc := zoom test_heap (get_rc t1) in
  assert_eq rc 1 ;;!
  let! t2 := zoom test_heap (Task_clone t1) in
  let! rc := zoom test_heap (get_rc t1) in
  assert_eq rc 2 ;;!
  drop_task t2 ;;!
  let! rc := zoom test_heap (get_rc t1) in
  assert_eq rc 1 ;;!
  drop_task t1.

Definition into_raw_from_raw_preserves_rc : M TestState unit :=
  let! t := new_empty_task in
  let! rc := zoom test_heap (get_rc t) in
  assert_eq rc 1 ;;!
  let raw := into_raw t in
  let! raw_task := zoom test_heap (load raw) in
  assert_eq raw_task.(rt_ref_counter) 1 ;;!
  let t2 := from_raw raw in
  let! rc := zoom test_heap (get_rc t2) in
  assert_eq rc 1 ;;!
  drop_task t2.

Definition simple_test : M TestState unit :=
  let! slab := with_capacity 1 in
  zoom test_slab (put slab) ;;!
  let! task := new_empty_task in
  let! idx := slab_insert task in
  assert_eq idx 0 ;;!
  let! task := zoom test_slab (remove idx) in
  let! r := zoom test_world (task_poll task) in
  assert_ (is_ready r) "assertion failed: task.poll().is_ready()" ;;!
  drop_task task ;;!
  drop_slab.

Definition free_list_reuse : M TestState unit :=
  let! slab := with_capacity 2 in
  zoom test_slab (put slab) ;;!
  let! t0 := new_empty_task in
  let! i0 := slab_insert t0 in
  let! t1 := new_empty_task in
  let! i1 := slab_insert t1 in
  assert_eq i0 0 ;;!
  assert_eq i1 1 ;;!
  let! removed := zoom test_slab (remove i0) in
  drop_task removed ;;!
  let! t2 := new_empty_task in
  let! i2 := slab_insert t2 in
  assert_eq i2 0 ;;!
  drop_slab.

Definition growth_test : M TestState unit :=
  let! slab := with_capacity 2 in
  zoom test_slab (put slab) ;;!
  let! t0 := new_empty_task in
  let! _i0 := slab_insert t0 in
  let! t1 := new_empty_task in
  let! _i1 := slab_insert t1 in
  let! t2 := new_empty_task in
  let! i2 := slab_insert t2 in
  assert_eq i2 2 ;;!
  let! s := gets snd in
  assert_eq s.(len) 4 ;;!
  drop_slab.

(** The test of [drop_fn] has a future of its own: a body that has not been
    polled, with a [DropProbe] among its captures, whose drop raises the flag the
    test shares with it. *)
Inductive ProbeFut := ProbeUnpolled.

Record ProbeState := mkProbeState { pr_heap : heap ProbeFut; pr_dropped : bool }.

#[local] Instance probe_layout : FutLayout ProbeFut := {| size_of _ := 24; align_of _ := 8 |}.

Definition probe_heap : lens ProbeState (heap ProbeFut) :=
  Lens pr_heap (fun h s => mkProbeState h s.(pr_dropped)).

Definition DropProbe_drop : M ProbeState unit := modify (fun s => mkProbeState s.(pr_heap) true).

(** The task is in no slab, so the free list is left alone. *)
#[local] Instance probe_host : TaskHost ProbeState ProbeFut := {|
  host_heap := probe_heap;
  host_drop_fn f := match f with ProbeUnpolled => DropProbe_drop end;
  host_push_free _ := ret tt;
|}.

Definition drop_fn_called : M ProbeState unit :=
  let! t := zoom probe_heap (Task_new ProbeUnpolled) in
  Task_drop t ;;!
  let! dropped := gets pr_dropped in
  assert_ dropped "drop_fn non appelé".

(** How many headers a test leaves allocated, when it passes. *)
Definition left_allocated (test : M TestState unit) : option nat :=
  match test (start, mkSlab [] 0 0 0) with
  | Ok (_, (w, _)) => Some (size w.(w_heap))
  | _ => None
  end.

(** The unit tests of the task header and of the slab pass, and each frees
    every task it has created, once; a task dropped before its first poll drops what
    its future has captured. *)
Theorem unit_tests_pass :
  Forall (fun t => left_allocated t = Some 0%nat)
    [layout_test; ready_future; clone_bump_et_drop_dec; into_raw_from_raw_preserves_rc;
     simple_test; free_list_reuse; growth_test] /\
  drop_fn_called (mkProbeState ∅ false) = Ok (tt, mkProbeState ∅ true).
Proof. split; [repeat constructor; vm_compute; reflexivity|vm_compute; reflexivity]. Qed.

(** ** The bodies of the tests of lib.rs *)

(** [test_runtime]: the body only prints. *)
Definition test_runtime : Prog := Return.

(** [test_echo_double_6379], from the listening descriptor on. *)
Definition test_echo_double (listen_fd : Z) : Prog :=
  Await (accept_next (accept_stream listen_fd)) [] (fun r =>
    match r.1 with
    | None => Unwind "called `Option::unwrap()` on a `None` value"
    | Some conn_fd =>
        Await (read_next (read_stream conn_fd)) [] (fun r =>
          match r.1 with
          | None => Unwind "called `Option::unwrap()` on a `None` value"
          | Some rwbuf =>
              if BUF_SIZE 1 <? 2 * rwbuf.(bytes) then Unwind "dest is out of bounds"
              else Await (commit rwbuf (as_u32 (2 * rwbuf.(bytes)))) [] (fun _ => Return)
          end)
    end).

(** The reply of [stream_test], whose length is the position of the cursor. *)
Definition reply_len (counter : Z) : Z :=
  Z.of_nat (String.length ("Total number of char recieve is: " +:+ pretty counter)).

(** The loop of [stream_test], for at most [fuel] messages. *)
Fixpoint stream_test_loop (fuel : nat) (s : ReadStream) (counter : Z) : Prog :=
  match fuel with
  | O => Unwind "more messages than the run has"
  | S fuel' =>
      Await (read_next s) [] (fun r =>
        match r.1 with
        | None => Return
        | Some read =>
            let counter := counter + read.(bytes) in
            if u32_max <? counter then Unwind "attempt to add with overflow"
            else Await (commit read (reply_len counter)) [] (fun _ => stream_test_loop fuel' r.2 counter)
        end)
  end.

Definition stream_test (fuel : nat) (fd : Z) : Prog :=
  Await (accept_next (accept_stream fd)) [] (fun r =>
    match r.1 with
    | None => Unwind "no more connexion"
    | Some conn_fd => stream_test_loop fuel (read_stream conn_fd) 0
    end).

(** [handle_connexion]; the body spawned by [test_close] is the same. *)
Definition handle_connexion (conn_fd : Z) : Prog :=
  Await (read conn_fd) [] (fun r =>
    match r with
    | inr _ => Unwind "Read failed"
    | inl buffer =>
        Await (commit buffer buffer.(bytes)) [] (fun n =>
          if 0 <? n then Return else Unwind "Buffer commit failed")
    end).

(** The loop of [test_two_connexion], for [n] connections. *)
Fixpoint accept_and_spawn (n : nat) (listen_fd : Z) : Prog :=
  match n with
  | O => Return
  | S n' =>
      Await (accept listen_fd) [] (fun r =>
        match r with
        | inr _ => Unwind "accept failed"
        | inl conn_fd => Spawn (handle_connexion conn_fd) (accept_and_spawn n' listen_fd)
        end)
  end.

Definition test_two_connexion (listen_fd : Z) : Prog := accept_and_spawn 2 listen_fd.
Definition test_close (listen_fd : Z) : Prog := accept_and_spawn 1 listen_fd.

(** *** What the kernel answers *)
Definition more_cqe (user_data result : Z) : Cqe := mkCqe user_data result 2.

(** A connection, the message, the reply sent, the end of the stream. *)
Definition echo_double_kernel : list KernelStep :=
  [KernelBatch [more_cqe (ud 0 65535 32768) 7];
   KernelBatch [buffer_cqe_more (ud 0 65535 32768) 4 0];
   KernelBatch [done_cqe (ud 0 65535 32768) 8];
   KernelBatch [done_cqe (ud 0 65535 32768) 0]].

(** A connection, a message, the reply sent. *)
Definition stream_kernel : list KernelStep := take 3 echo_double_kernel.

(** A connection, the message in its task, the reply sent. *)
Definition connexion_kernel : list KernelStep :=
  [KernelBatch [done_cqe (ud 0 65535 0) 7];
   KernelBatch [buffer_cqe (ud 1 65535 0) 4 0];
   KernelBatch [done_cqe (ud 1 65535 32769) 4]].

Definition two_connexion_kernel : list KernelStep :=
  [KernelBatch [done_cqe (ud 0 65535 0) 7];
   KernelBatch [done_cqe (ud 0 65535 1) 8];
   KernelBatch [buffer_cqe (ud 1 65535 0) 4 0; buffer_cqe (ud 2 65535 0) 4 1];
   KernelBatch [done_cqe (ud 1 65535 32769) 4]].

(** Of the tests of lib.rs only [test_runtime] passes.  With the completions
    its client brings about, each socket test stops on a panic of the runtime:
    [test_echo_double_6379] replies, but the end of the stream then polls its
    completed body; [stream_test] takes the completion of its reply for received
    data; in [test_two_connexion] and [test_close] the completion of the first
    reply is refused. *)
Theorem socket_tests_panic :
  outcome_of test_runtime [] = Ok (Returned, []) /\
  (kernel_accepts (test_echo_double 3) echo_double_kernel = true /\
   outcome_of (test_echo_double 3) echo_double_kernel = Panic "`async fn` resumed after completion") /\
  (kernel_accepts (stream_test 3 3) stream_kernel = true /\
   outcome_of (stream_test 3 3) stream_kernel = Panic "RECV_MULTISHOT: CQE positive sans buf_id") /\
  (kernel_accepts (test_two_connexion 3) two_connexion_kernel = true /\
   outcome_of (test_two_connexion 3) two_connexion_kernel = Panic "Recieve a SQE newer than expected") /\
  (kernel_accepts (test_close 3) connexion_kernel = true /\
   outcome_of (test_close 3) connexion_kernel = Panic "Recieve a SQE newer than expected").
Proof. split_and!; vm_compute; reflexivity. Qed.
